(** * LLM Legal Council: the orchestration and aggregation core

    A shallow embedding of the deliberation pipeline of the council
    orchestrator (orchestrator.ts and audit.ts): the bounded concurrent
    dispatcher, the three stage executors, the quorum gates, the aggregate
    ranking computation, the chairman selector and the audit collector.

    Conventions of the embedding.
    - A JavaScript [number] that the code computes with (ranks, averages,
      variances) is an exact rational of [Q]; IEEE rounding is not modelled.
      Counters and array lengths are [nat], configuration integers are [Z].
    - A JavaScript string is a [string] (a sequence of bytes).
    - A value that comes back from a model as parsed JSON is a [json] tree.
      An object is the list of its own properties in enumeration order.
    - [undefined] is [None]; a function that can throw returns a [Completion].
    - The model calls, the clock and the order in which asynchronous tasks
      settle belong to the environment: they are explicit arguments, and the
      theorems quantify over them. *)

From Stdlib Require Import String Ascii DecimalString.
From Stdlib Require Import ZArith QArith Qminmax Qround Qabs.
From Stdlib Require Import Lia Bool Arith PeanoNat List Sorted Permutation.
Import ListNotations.

Local Close Scope Q_scope.
Local Open Scope string_scope.
Local Open Scope list_scope.
Local Open Scope nat_scope.

Set Warnings "-register-all".

(* ================================================================== *)
(** * JavaScript values and the built-ins the code relies on           *)
(* ================================================================== *)

Module JS.

(** Parsed JSON.  Numbers are restricted to integers: no modelled code path
    computes with a number found inside a model response. *)
Inductive json : Type :=
| JNull
| JBool (b : bool)
| JNum (n : Z)
| JStr (s : string)
| JArr (xs : list json)
| JObj (kvs : list (string * json)).

(** Normal or abrupt completion of a call. *)
Inductive Completion (A : Type) : Type :=
| Returned (a : A)
| Threw (message : string).
Arguments Returned {A} a.
Arguments Threw {A} message.

Definition bindC {A B} (c : Completion A) (k : A -> Completion B) : Completion B :=
  match c with
  | Returned a => k a
  | Threw m => Threw m
  end.

Notation "x <- c ;; k" := (bindC c (fun x => k))
  (at level 61, c at next level, right associativity).

Fixpoint mapC {A B} (f : A -> Completion B) (l : list A) : Completion (list B) :=
  match l with
  | [] => Returned []
  | a :: l' => b <- f a ;; bs <- mapC f l' ;; Returned (b :: bs)
  end.

(** [!!x] on a string and on a JSON value. *)
Definition truthy_string (s : string) : bool := negb (String.eqb s "").

Definition truthy (j : json) : bool :=
  match j with
  | JNull => false
  | JBool b => b
  | JNum n => negb (n =? 0)%Z
  | JStr s => truthy_string s
  | JArr _ | JObj _ => true
  end.

(** [s || d] for an optional string. *)
Definition or_string (s : option string) (d : string) : string :=
  match s with
  | Some x => if truthy_string x then x else d
  | None => d
  end.

Fixpoint assoc {A} (k : string) (kvs : list (string * A)) : option A :=
  match kvs with
  | [] => None
  | (k', v) :: rest => if String.eqb k' k then Some v else assoc k rest
  end.

(** [o.k] where [o] is not null: an own property of an object, [undefined]
    on anything else (no modelled access names a built-in property). *)
Definition getProp (k : string) (j : json) : option json :=
  match j with
  | JObj kvs => assoc k kvs
  | _ => None
  end.

Definition isArray (j : option json) : option (list json) :=
  match j with
  | Some (JArr xs) => Some xs
  | _ => None
  end.

(** [Array.prototype.indexOf] on an array of strings; [None] is -1. *)
Fixpoint indexOf (x : string) (l : list string) : option nat :=
  match l with
  | [] => None
  | y :: l' => if String.eqb y x then Some 0 else option_map S (indexOf x l')
  end.

(** [new Set(xs).size]. *)
Definition Set_size {A} (dec : forall a b : A, {a = b} + {a <> b}) (xs : list A) : nat :=
  length (nodup dec xs).

Definition option_string_dec (a b : option string) : {a = b} + {a <> b}.
Proof. decide equality. apply string_dec. Defined.

Definition string_of_nat (n : nat) : string :=
  NilEmpty.string_of_uint (Nat.to_uint n).

Definition string_of_Z (z : Z) : string :=
  match z with
  | Z0 => "0"
  | Zpos p => string_of_nat (Pos.to_nat p)
  | Zneg p => "-" ++ string_of_nat (Pos.to_nat p)
  end.

(** [Math.ceil(n / 2)] on a length. *)
Definition ceil_half (n : nat) : nat := (n + 1) / 2.

(** [Math.round] on a rational: the nearest integer, ties upwards. *)
Definition Math_round (q : Q) : Z := Qfloor (q + (1 # 2))%Q.

(** [String.prototype.toLowerCase] on the ASCII range. *)
Definition lower_ascii (c : ascii) : ascii :=
  let n := nat_of_ascii c in
  if (65 <=? n) && (n <=? 90) then ascii_of_nat (n + 32) else c.

Fixpoint toLowerCase (s : string) : string :=
  match s with
  | EmptyString => EmptyString
  | String c s' => String (lower_ascii c) (toLowerCase s')
  end.

(** [s.includes(t)]. *)
Fixpoint includes (s t : string) : bool :=
  if prefix t s then true
  else match s with
       | EmptyString => false
       | String _ s' => includes s' t
       end.

End JS.
Import JS.

(* ================================================================== *)
(** * Data model (types.ts)                                            *)
(* ================================================================== *)

Module CouncilMember.
Record t : Type := mk
  { modelId : string;
    sessionLabel : string }.
End CouncilMember.

Module IndividualAnalysis.
(** [confidence] is typed as an enumeration in the source, but the salvage
    path of Stage 1 stores whatever truthy value the model sent, so it is a
    [json] here. *)
Record t : Type := mk
  { label : string;
    content : string;
    confidence : json;
    keyPoints : list string;
    _modelId : option string;
    _structured : option json }.
End IndividualAnalysis.

Module StageError.
Record t : Type := mk
  { stage : nat;
    modelId : option string;
    message : string;
    recoverable : bool }.
End StageError.

Module PeerReview.
Record t : Type := mk
  { reviewerLabel : string;
    evaluations : json;
    ranking : list string;
    rankingRationale : string;
    _reviewerModelId : option string }.
End PeerReview.

Module AggregateRanking.
Record t : Type := mk
  { label : string;
    averageRank : Q;
    rankingConsistency : Q }.
End AggregateRanking.

Module Stage1Result.
Record t : Type := mk
  { analyses : list IndividualAnalysis.t;
    complete : bool;
    errors : list StageError.t }.
End Stage1Result.

Module Stage2Result.
Record t : Type := mk
  { peerReviews : list PeerReview.t;
    aggregateRankings : list AggregateRanking.t;
    complete : bool;
    errors : list StageError.t }.
End Stage2Result.

(* ================================================================== *)
(** * Aggregation engine (orchestrator.ts, calculateAggregateRankings) *)
(* ================================================================== *)

Module Aggregation.

Definition Qsum (l : list Q) : Q := fold_left Qplus l 0%Q.

Definition Qlen {A} (l : list A) : Q := inject_Z (Z.of_nat (length l)).

(** The 1-indexed positions of [lbl] over the reviews whose ranking has it. *)
Fixpoint positions (lbl : string) (reviews : list PeerReview.t) : list Q :=
  match reviews with
  | [] => []
  | review :: rest =>
      match indexOf lbl (PeerReview.ranking review) with
      | Some pos => inject_Z (Z.of_nat (pos + 1)) :: positions lbl rest
      | None => positions lbl rest
      end
  end.

Definition avgRank (ps : list Q) : Q := (Qsum ps / Qlen ps)%Q.

Definition variance (ps : list Q) : Q :=
  (fold_left (fun sum p => sum + (p - avgRank ps) ^ 2) ps 0 / Qlen ps)%Q.

Definition maxVariance (n : nat) : Q := ((inject_Z (Z.of_nat n) - 1) ^ 2)%Q.

Definition consistency (ps : list Q) (n : nat) : Q :=
  if Qlt_le_dec 0 (maxVariance n) then (1 - variance ps / maxVariance n)%Q else 1%Q.

(** One iteration of the loop over the analyses: the entry pushed for an
    analysis, if any. *)
Definition rankingFor (reviews : list PeerReview.t) (n : nat)
  (analysis : IndividualAnalysis.t) : option AggregateRanking.t :=
  let ps := positions (IndividualAnalysis.label analysis) reviews in
  match ps with
  | [] => None
  | _ => Some (AggregateRanking.mk (IndividualAnalysis.label analysis)
                 (avgRank ps) (Qmax 0%Q (consistency ps n)))
  end.

Fixpoint collect (reviews : list PeerReview.t) (n : nat)
  (analyses : list IndividualAnalysis.t) : list AggregateRanking.t :=
  match analyses with
  | [] => []
  | a :: rest =>
      match rankingFor reviews n a with
      | Some r => r :: collect reviews n rest
      | None => collect reviews n rest
      end
  end.

(** [Array.prototype.sort] with the comparator [a.averageRank - b.averageRank]:
    a stable sort, written as insertion from the right. *)
Fixpoint insertByRank (x : AggregateRanking.t) (l : list AggregateRanking.t)
  : list AggregateRanking.t :=
  match l with
  | [] => [x]
  | y :: l' =>
      if Qle_bool (AggregateRanking.averageRank x) (AggregateRanking.averageRank y)
      then x :: y :: l'
      else y :: insertByRank x l'
  end.

Definition sortByRank (l : list AggregateRanking.t) : list AggregateRanking.t :=
  fold_right insertByRank [] l.

Definition calculateAggregateRankings (reviews : list PeerReview.t)
  (analyses : list IndividualAnalysis.t) : list AggregateRanking.t :=
  sortByRank (collect reviews (length analyses) analyses).

End Aggregation.

(* ------------------------------------------------------------------ *)
(** ** Properties of the aggregation engine                            *)
(* ------------------------------------------------------------------ *)

Module AggregationFacts.
Import Aggregation.

(** The spec's wording of the positions: the 1-indexed place of the label in
    each review that mentions it, the other reviews left out. *)
Definition mentions (lbl : string) (review : PeerReview.t) : bool :=
  existsb (String.eqb lbl) (PeerReview.ranking review).

Definition placeIn (lbl : string) (review : PeerReview.t) : Q :=
  match indexOf lbl (PeerReview.ranking review) with
  | Some pos => inject_Z (Z.of_nat (pos + 1))
  | None => 0%Q
  end.

Definition positionsSpec (lbl : string) (reviews : list PeerReview.t) : list Q :=
  map (placeIn lbl) (filter (mentions lbl) reviews).

(** The spec's consistency formula, [1 - variance / (N-1)^2] clamped at 0.
    The quotient exists only for a non-zero denominator. *)
Definition specConsistency (ps : list Q) (n : nat) : option Q :=
  if Qeq_bool (maxVariance n) 0
  then None
  else Some (Qmax 0 (1 - variance ps / maxVariance n))%Q.

Definition rankLe (x y : AggregateRanking.t) : Prop :=
  (AggregateRanking.averageRank x <= AggregateRanking.averageRank y)%Q.

Definition analysis (lbl : string) : IndividualAnalysis.t :=
  IndividualAnalysis.mk lbl "" (JStr "medium") [] (Some ("model-" ++ lbl)%string) None.

Definition review (by_ : string) (order : list string) : PeerReview.t :=
  PeerReview.mk by_ (JObj []) order "" None.

Lemma indexOf_None_iff lbl l :
  indexOf lbl l = None <-> existsb (String.eqb lbl) l = false.
Proof.
  induction l as [|y l IH]; simpl; [tauto|].
  rewrite (String.eqb_sym lbl y).
  destruct (String.eqb y lbl); simpl.
  - split; discriminate.
  - rewrite <- IH. destruct (indexOf lbl l); simpl; split; intro H;
      try discriminate; reflexivity.
Qed.

Lemma positions_spec lbl reviews :
  positions lbl reviews = positionsSpec lbl reviews.
Proof.
  unfold positionsSpec, mentions, placeIn.
  induction reviews as [|r rs IH]; simpl; [reflexivity|].
  destruct (indexOf lbl (PeerReview.ranking r)) as [pos|] eqn:E.
  - destruct (existsb (String.eqb lbl) (PeerReview.ranking r)) eqn:X.
    + simpl. rewrite E. now rewrite IH.
    + apply indexOf_None_iff in X. congruence.
  - apply indexOf_None_iff in E. rewrite E. exact IH.
Qed.

Lemma positions_nonempty_iff lbl reviews :
  positions lbl reviews <> [] <->
  exists r, In r reviews /\ In lbl (PeerReview.ranking r).
Proof.
  induction reviews as [|r rs IH]; simpl.
  - split; [congruence | intros (r & [] & _)].
  - destruct (indexOf lbl (PeerReview.ranking r)) as [pos|] eqn:E.
    + split; [intros _ | discriminate].
      exists r; split; [now left|].
      destruct (existsb (String.eqb lbl) (PeerReview.ranking r)) eqn:X.
      * apply existsb_exists in X as (y & Hy & Hxy).
        apply String.eqb_eq in Hxy. now subst.
      * apply indexOf_None_iff in X. congruence.
    + rewrite IH. split.
      * intros (r0 & Hin & Hl). exists r0. split; [now right | exact Hl].
      * intros (r0 & [<- | Hin] & Hl).
        -- apply indexOf_None_iff in E.
           assert (existsb (String.eqb lbl) (PeerReview.ranking r) = true) as X.
           { apply existsb_exists. exists lbl. split; [exact Hl | apply String.eqb_refl]. }
           congruence.
        -- exists r0. now split.
Qed.

Lemma In_collect r reviews n analyses :
  In r (collect reviews n analyses) <->
  exists a, In a analyses /\ rankingFor reviews n a = Some r.
Proof.
  induction analyses as [|a rest IH]; simpl.
  - split; [tauto | intros (a & [] & _)].
  - destruct (rankingFor reviews n a) as [r0|] eqn:E; simpl; rewrite IH; split.
    + intros [<- | (a0 & Hin & H)]; [exists a; auto | exists a0; auto].
    + intros (a0 & [<- | Hin] & H); [left; congruence | right; exists a0; auto].
    + intros (a0 & Hin & H). exists a0; auto.
    + intros (a0 & [<- | Hin] & H); [congruence | exists a0; auto].
Qed.

Lemma insertByRank_perm x l : Permutation (x :: l) (insertByRank x l).
Proof.
  induction l as [|y l IH]; simpl; [reflexivity|].
  destruct (Qle_bool _ _); [reflexivity|].
  rewrite perm_swap. now apply perm_skip.
Qed.

Lemma sortByRank_perm l : Permutation l (sortByRank l).
Proof.
  induction l as [|x l IH]; simpl; [reflexivity|].
  rewrite <- insertByRank_perm. now apply perm_skip.
Qed.

Lemma insertByRank_sorted x l :
  StronglySorted rankLe l -> StronglySorted rankLe (insertByRank x l).
Proof.
  induction l as [|y l IH]; simpl; intros Hs.
  - constructor; [constructor | constructor].
  - destruct (Qle_bool (AggregateRanking.averageRank x)
                (AggregateRanking.averageRank y)) eqn:E.
    + apply Qle_bool_iff in E.
      constructor; [exact Hs|].
      inversion Hs as [|? ? Hs' Hall]; subst.
      constructor; [exact E|].
      eapply Forall_impl; [|exact Hall].
      intros z Hz. unfold rankLe in *. eapply Qle_trans; eauto.
    + inversion Hs as [|? ? Hs' Hall]; subst.
      constructor; [now apply IH|].
      assert (rankLe y x) as Hyx.
      { unfold rankLe. apply Qlt_le_weak, Qnot_le_lt.
        intro H. apply Qle_bool_iff in H. congruence. }
      eapply Permutation_Forall; [apply insertByRank_perm|].
      constructor; assumption.
Qed.

Lemma sortByRank_sorted l : StronglySorted rankLe (sortByRank l).
Proof.
  induction l as [|x l IH]; simpl; [constructor | now apply insertByRank_sorted].
Qed.

Lemma maxVariance_pos n : 2 <= n -> (0 < maxVariance n)%Q.
Proof.
  intros Hn. unfold maxVariance, Qlt. simpl.
  rewrite Z.mul_1_r. nia.
Qed.

Lemma In_calculateAggregateRankings r reviews analyses :
  In r (calculateAggregateRankings reviews analyses) <->
  exists a, In a analyses /\ rankingFor reviews (length analyses) a = Some r.
Proof.
  unfold calculateAggregateRankings. rewrite <- In_collect.
  split; apply Permutation_in; [symmetry|]; apply sortByRank_perm.
Qed.

Lemma rankingFor_label reviews n a r :
  rankingFor reviews n a = Some r ->
  AggregateRanking.label r = IndividualAnalysis.label a.
Proof.
  unfold rankingFor.
  destruct (positions (IndividualAnalysis.label a) reviews); [discriminate|].
  intros H. injection H as <-. reflexivity.
Qed.

Lemma calculateAggregateRankings_sorted reviews analyses :
  StronglySorted rankLe (calculateAggregateRankings reviews analyses).
Proof. apply sortByRank_sorted. Qed.

(** The claim's consistency clause as it is worded: every returned entry
    carries the value of the spec's formula. *)
Definition claimedConsistency (reviews : list PeerReview.t)
  (analyses : list IndividualAnalysis.t) : Prop :=
  forall r, In r (calculateAggregateRankings reviews analyses) ->
    exists c,
      specConsistency (positionsSpec (AggregateRanking.label r) reviews)
        (length analyses) = Some c /\
      (AggregateRanking.rankingConsistency r == c)%Q.

(** The worked example of the spec: three reviewers over three labels. *)
Definition exampleReviews : list PeerReview.t :=
  [review "A" ["A"; "B"; "C"]; review "B" ["B"; "A"; "C"]; review "C" ["A"; "B"; "C"]].

Definition exampleAnalyses : list IndividualAnalysis.t :=
  [analysis "A"; analysis "B"; analysis "C"].

(** C2, counterexample.  With a single Stage-1 analysis the denominator
    (N-1)^2 is 0.  Two reviews place label A first and second, so the variance
    is 1/4 and the spec's quotient does not exist (in JavaScript arithmetic it
    is +Infinity and the clamped value would be 0), yet the code returns a
    consistency of 1 through its [maxVariance > 0] guard. *)
Lemma consistency_zero_denominator_counterexample :
  ~ claimedConsistency [review "A" ["A"]; review "B" ["X"; "A"]] [analysis "A"]
  /\ (variance (positionsSpec "A" [review "A" ["A"]; review "B" ["X"; "A"]]) == 1 # 4)%Q
  /\ (maxVariance 1 == 0)%Q
  /\ map AggregateRanking.rankingConsistency
       (calculateAggregateRankings
          [review "A" ["A"]; review "B" ["X"; "A"]] [analysis "A"]) = [1%Q].
Proof.
  split; [|split; [|split]]; try (vm_compute; reflexivity).
  intros H.
  destruct (H (AggregateRanking.mk "A" (avgRank [1; 2]%Q) (Qmax 0 1)%Q))
    as (c & Hc & _).
  - left. reflexivity.
  - vm_compute in Hc. discriminate.
Qed.

(** C2 (amended).  For every set of peer reviews and analyses, every entry of
    [calculateAggregateRankings] belongs to a Stage-1 label that some review
    ranks; its averageRank is the mean of the label's 1-indexed positions over
    exactly the reviews that mention it; its rankingConsistency is
    1 - variance / (N-1)^2 clamped below at 0 when N >= 2, and 1 when N = 1
    (zero denominator).  The list is sorted ascending by averageRank, and a
    Stage-1 label has an entry exactly when some review ranks it.  On the
    example [A,B,C], [B,A,C], [A,B,C]: the averages are 4/3, 5/3 and 3, C's
    consistency is 1, A's and B's are 1 - variance/4. *)
Theorem calculateAggregateRankings_correct :
  (forall (reviews : list PeerReview.t) (analyses : list IndividualAnalysis.t),
      let result := calculateAggregateRankings reviews analyses in
      let N := length analyses in
      (forall r, In r result ->
         let ps := positionsSpec (AggregateRanking.label r) reviews in
         (exists a, In a analyses /\
                    IndividualAnalysis.label a = AggregateRanking.label r) /\
         ps <> [] /\
         (AggregateRanking.averageRank r == Qsum ps / Qlen ps)%Q /\
         (2 <= N ->
          (AggregateRanking.rankingConsistency r ==
           Qmax 0 (1 - variance ps / (inject_Z (Z.of_nat N) - 1) ^ 2))%Q) /\
         (N = 1 -> (AggregateRanking.rankingConsistency r == 1)%Q)) /\
      StronglySorted rankLe result /\
      (forall a, In a analyses ->
         (exists r, In r result /\
                    AggregateRanking.label r = IndividualAnalysis.label a) <->
         (exists rv, In rv reviews /\
                     In (IndividualAnalysis.label a) (PeerReview.ranking rv))))
  /\
  (let result := calculateAggregateRankings exampleReviews exampleAnalyses in
   map AggregateRanking.label result = ["A"; "B"; "C"] /\
   Forall2 (fun r q => AggregateRanking.averageRank r == q)%Q result
     [4 # 3; 5 # 3; 3]%Q /\
   Forall2 (fun r q => AggregateRanking.rankingConsistency r == q)%Q result
     [1 - variance [1; 2; 1] / 4; 1 - variance [2; 1; 2] / 4; 1]%Q).
Proof.
  split.
  - intros reviews analyses result N.
    assert (forall r, In r result <->
              exists a, In a analyses /\ rankingFor reviews N a = Some r) as Hin.
    { intros r. apply In_calculateAggregateRankings. }
    split; [|split].
    + intros r Hr ps. apply Hin in Hr as (a & Ha & Hr).
      unfold rankingFor in Hr. unfold ps.
      destruct (positions (IndividualAnalysis.label a) reviews) as [|p ps'] eqn:E;
        [discriminate|].
      injection Hr as <-. simpl AggregateRanking.label.
      rewrite <- positions_spec, E. simpl.
      split; [exists a; auto|]. split; [discriminate|].
      split; [reflexivity|]. split.
      * intros HN. unfold consistency.
        destruct (Qlt_le_dec 0 (maxVariance N)) as [_|Hle]; [reflexivity|].
        exfalso. apply (Qle_not_lt _ _ Hle). now apply maxVariance_pos.
      * intros HN. fold N. rewrite HN. unfold consistency.
        destruct (Qlt_le_dec 0 (maxVariance 1)) as [Hlt|_]; [|reflexivity].
        vm_compute in Hlt. discriminate.
    + apply calculateAggregateRankings_sorted.
    + intros a Ha. rewrite <- positions_nonempty_iff. split.
      * intros (r & Hr & Hl). apply Hin in Hr as (a0 & _ & Hr).
        unfold rankingFor in Hr.
        destruct (positions (IndividualAnalysis.label a0) reviews) eqn:E;
          [discriminate|].
        injection Hr as <-. simpl in Hl. rewrite <- Hl, E. discriminate.
      * intros Hps.
        destruct (positions (IndividualAnalysis.label a) reviews) as [|p ps'] eqn:E;
          [congruence|].
        eexists. split.
        -- apply Hin. exists a. split; [exact Ha|].
           unfold rankingFor. rewrite E. reflexivity.
        -- reflexivity.
  - vm_compute. repeat split; repeat constructor.
Qed.

End AggregationFacts.

(* ================================================================== *)
(** * Bounded concurrent dispatcher (orchestrator.ts,
      withConcurrencyLimit)                                            *)
(* ================================================================== *)

Module Dispatcher.

(** What the dispatcher does, in the order it does it. *)
Inductive event : Type :=
| Started (index : nat)
| Settled (index : nat).

(** [results[index] = v]: an assignment past the end extends the array. *)
Fixpoint assign {A} (hole : A) (index : nat) (v : A) (l : list A) : list A :=
  match index, l with
  | 0, [] => [v]
  | 0, _ :: l' => v :: l'
  | S i, [] => hole :: assign hole i v []
  | S i, x :: l' => x :: assign hole i v l'
  end.

Section Dispatch.

Variable T : Type.

(** A task is a zero-argument function returning a promise; the environment
    decides what the promise settles to, and when. *)
Variable tasks : list (Completion T).

(** The order of settlement: at the [t]-th resumption the environment picks
    one of the promises currently awaited. *)
Variable schedule : nat -> nat.

(** The closure state of one call: the result array, the shared cursor, and
    the indices whose promise a worker is awaiting. *)
Record state : Type := mkState
  { results : list (option T);
    currentIndex : nat;
    inFlight : list nat;
    trace : list event }.

Definition slot (c : Completion T) : option T :=
  match c with
  | Returned v => Some v
  | Threw _ => None
  end.

Definition outcome (index : nat) : option T :=
  match nth_error tasks index with
  | Some c => slot c
  | None => None
  end.

(** One entry into the body of [runNext]'s loop: test the cursor, claim the
    index, call the task and suspend on its promise; or leave the loop. *)
Definition claim (st : state) : state :=
  if currentIndex st <? length tasks
  then mkState (results st) (S (currentIndex st))
         (inFlight st ++ [currentIndex st])
         (trace st ++ [Started (currentIndex st)])
  else st.

(** [Array(n).fill(null).map(() => runNext())]: each worker runs up to its
    first await before the next one is created. *)
Fixpoint spawn (workers : nat) (st : state) : state :=
  match workers with
  | 0 => st
  | S w => spawn w (claim st)
  end.

(** The promise of task [index] settles and its worker resumes: the try
    stores the value, the catch stores null, and the loop goes round. *)
Definition resume (index : nat) (st : state) : state :=
  claim (mkState (assign None index (outcome index) (results st))
           (currentIndex st)
           (remove Nat.eq_dec index (inFlight st))
           (trace st ++ [Settled index])).

Definition pick (t : nat) (st : state) : nat :=
  nth (schedule t mod length (inFlight st)) (inFlight st) 0.

Fixpoint eventLoop (fuel t : nat) (st : state) : state :=
  match inFlight st, fuel with
  | [], _ => st
  | _, 0 => st
  | _ :: _, S fuel' => eventLoop fuel' (S t) (resume (pick t st) st)
  end.

Definition initial : state :=
  mkState (repeat None (length tasks)) 0 [] [].

Definition run (limit : nat) : state :=
  eventLoop (length tasks) 0 (spawn (Nat.min limit (length tasks)) initial).

(** [await Promise.all(workers); return results]: the call resolves once no
    worker is suspended any more. *)
Definition withConcurrencyLimit (limit : nat) : option (list (option T)) :=
  let final := run limit in
  match inFlight final with
  | [] => Some (results final)
  | _ => None
  end.

Definition startedIndices (tr : list event) : list nat :=
  flat_map (fun e => match e with Started i => [i] | Settled _ => [] end) tr.

Definition settledIndices (tr : list event) : list nat :=
  flat_map (fun e => match e with Settled i => [i] | Started _ => [] end) tr.

(** Invariant of the closure state between two resumptions. *)
Record invariant (limit : nat) (st : state) : Prop := mkInv
  { inv_cursor : currentIndex st <= length tasks;
    inv_length : length (results st) = length tasks;
    inv_claimed : forall i, In i (inFlight st) -> i < currentIndex st;
    inv_nodup : NoDup (inFlight st);
    inv_bound : length (inFlight st) <= limit;
    inv_done : forall i, i < currentIndex st -> ~ In i (inFlight st) ->
                 nth_error (results st) i = Some (outcome i);
    inv_started : startedIndices (trace st) = seq 0 (currentIndex st);
    inv_settled : forall i, In i (settledIndices (trace st)) <->
                    i < currentIndex st /\ ~ In i (inFlight st);
    inv_once : NoDup (settledIndices (trace st)) }.

End Dispatch.

Arguments results {T} s.
Arguments currentIndex {T} s.
Arguments inFlight {T} s.
Arguments trace {T} s.

End Dispatcher.

(* ------------------------------------------------------------------ *)
(** ** Properties of the dispatcher                                    *)
(* ------------------------------------------------------------------ *)

Module DispatcherFacts.
Import Dispatcher.

Lemma nth_error_assign_same {A} (hole v : A) i l :
  i < length l -> nth_error (assign hole i v l) i = Some v.
Proof.
  revert l; induction i as [|i IH]; intros [|x l] H; simpl in *; try lia.
  - reflexivity.
  - apply IH. lia.
Qed.

Lemma nth_error_assign_other {A} (hole v : A) i j l :
  i < length l -> i <> j -> nth_error (assign hole i v l) j = nth_error l j.
Proof.
  revert j l; induction i as [|i IH]; intros [|j] [|x l] H Hij; simpl in *;
    try lia; try reflexivity.
  apply IH; lia.
Qed.

Lemma length_assign {A} (hole v : A) i l :
  i < length l -> length (assign hole i v l) = length l.
Proof.
  revert l; induction i as [|i IH]; intros [|x l] H; simpl in *; try lia.
  rewrite IH; lia.
Qed.

Lemma NoDup_remove_nat i l : NoDup l -> NoDup (remove Nat.eq_dec i l).
Proof.
  induction 1 as [|x l Hx Hl IH]; simpl; [constructor|].
  destruct (Nat.eq_dec i x); [exact IH|].
  constructor; [|exact IH].
  intros Hin. apply in_remove in Hin. tauto.
Qed.

Section Facts.

Variable T : Type.
Variable tasks : list (Completion T).
Variable schedule : nat -> nat.
Variable limit : nat.

Local Abbreviation K := (length tasks).
Local Abbreviation claim := (claim T tasks).
Local Abbreviation spawn := (spawn T tasks).
Local Abbreviation resume := (resume T tasks).
Local Abbreviation eventLoop := (eventLoop T tasks schedule).
Local Abbreviation invariant := (invariant T tasks limit).
Local Abbreviation outcome := (outcome T tasks).

(** Unsettled tasks: not yet claimed, or claimed and awaited. *)
Definition remaining (st : state T) : nat :=
  (K - currentIndex st) + length (inFlight st).

(** No worker is suspended only when the cursor has passed the last task. *)
Definition quiescent (st : state T) : Prop :=
  inFlight st = [] -> currentIndex st = K.

Lemma initial_invariant : invariant (initial T tasks).
Proof.
  constructor; simpl; try lia; try tauto; try apply repeat_length;
    try constructor; try tauto; lia.
Qed.

Lemma claim_invariant st :
  invariant st -> length (inFlight st) < limit -> invariant (claim st).
Proof.
  intros [Hc Hl Hcl Hnd Hb Hd Hs Hset Honce] Hlt. unfold Dispatcher.claim.
  destruct (currentIndex st <? K) eqn:E; [|constructor; assumption].
  apply Nat.ltb_lt in E.
  constructor; simpl.
  - lia.
  - exact Hl.
  - intros i Hi. apply in_app_or in Hi as [Hi | [<- | []]]; [|lia].
    specialize (Hcl i Hi). lia.
  - apply NoDup_app; [exact Hnd | repeat constructor; intros [] | ].
    intros i Hi [<- | []]. specialize (Hcl _ Hi). lia.
  - rewrite length_app. simpl. lia.
  - intros i Hi Hni. apply Hd.
    + assert (i <> currentIndex st); [|lia].
      intros ->. apply Hni, in_or_app. right. now left.
    + intros Hin. apply Hni, in_or_app. now left.
  - unfold startedIndices in *. rewrite flat_map_app, Hs.
    symmetry. apply (seq_S (currentIndex st) 0).
  - intros i. unfold settledIndices in *. rewrite flat_map_app. simpl.
    rewrite app_nil_r, Hset. split.
    + intros [Hi Hni]. split; [lia|].
      intros Hin. apply in_app_or in Hin as [Hin | [<- | []]]; [tauto | lia].
    + intros [Hi Hni]. split.
      * assert (i <> currentIndex st); [|lia].
        intros ->. apply Hni, in_or_app. right. now left.
      * intros Hin. apply Hni, in_or_app. now left.
  - unfold settledIndices in *. rewrite flat_map_app. simpl.
    now rewrite app_nil_r.
Qed.

Lemma claim_quiescent st :
  currentIndex st <= K -> quiescent (claim st).
Proof.
  intros Hc. unfold quiescent, Dispatcher.claim.
  destruct (currentIndex st <? K) eqn:E; simpl.
  - intros H. now apply app_eq_nil in H as [_ H].
  - apply Nat.ltb_ge in E. lia.
Qed.

Lemma claim_remaining st : remaining (claim st) = remaining st.
Proof.
  unfold remaining, Dispatcher.claim.
  destruct (currentIndex st <? K) eqn:E; [|reflexivity].
  apply Nat.ltb_lt in E. simpl. rewrite length_app. simpl. lia.
Qed.

Lemma spawn_invariant w st :
  invariant st -> length (inFlight st) + w <= limit ->
  length (inFlight (claim st)) <= S (length (inFlight st)) ->
  invariant (spawn w st).
Proof.
  revert st; induction w as [|w IH]; intros st Hinv Hb _; simpl; [exact Hinv|].
  assert (length (inFlight (claim st)) <= S (length (inFlight st))) as Hgrow.
  { unfold Dispatcher.claim. destruct (_ <? _); simpl; [|lia].
    rewrite length_app. simpl. lia. }
  apply IH.
  - apply claim_invariant; [exact Hinv | lia].
  - lia.
  - unfold Dispatcher.claim at 1. destruct (_ <? _); simpl; [|lia].
    rewrite length_app. simpl. lia.
Qed.

Lemma spawn_quiescent w st :
  invariant st -> length (inFlight st) + w <= limit ->
  1 <= w \/ quiescent st -> quiescent (spawn w st).
Proof.
  revert st; induction w as [|w IH]; intros st Hinv Hb Hq; simpl.
  - destruct Hq as [Hq | Hq]; [lia | exact Hq].
  - assert (length (inFlight (claim st)) <= S (length (inFlight st))) as Hgrow.
    { unfold Dispatcher.claim. destruct (_ <? _); simpl; [|lia].
      rewrite length_app. simpl. lia. }
    apply IH.
    + apply claim_invariant; [exact Hinv | lia].
    + lia.
    + right. apply claim_quiescent, Hinv.
Qed.

Lemma spawn_remaining w st : remaining (spawn w st) = remaining st.
Proof.
  revert st; induction w as [|w IH]; intros st; simpl; [reflexivity|].
  now rewrite IH, claim_remaining.
Qed.

Lemma resume_invariant i st :
  invariant st -> In i (inFlight st) -> invariant (resume i st).
Proof.
  intros [Hc Hl Hcl Hnd Hb Hd Hs Hset Honce] Hi. unfold Dispatcher.resume.
  pose proof (Hcl i Hi) as Hic.
  pose proof (remove_length_lt Nat.eq_dec (inFlight st) i Hi) as Hlt.
  apply claim_invariant; [|simpl; lia].
  constructor; simpl.
  - exact Hc.
  - rewrite length_assign; lia.
  - intros j Hj. apply in_remove in Hj as [Hj _]. now apply Hcl.
  - now apply NoDup_remove_nat.
  - lia.
  - intros j Hj Hnj. destruct (Nat.eq_dec i j) as [<- | Hne].
    + apply nth_error_assign_same. lia.
    + rewrite nth_error_assign_other by lia.
      apply Hd; [exact Hj|].
      intros Hin. apply Hnj. apply in_in_remove; auto.
  - unfold startedIndices in *. rewrite flat_map_app. simpl.
    now rewrite app_nil_r.
  - intros j. unfold settledIndices in *. rewrite flat_map_app. simpl.
    rewrite in_app_iff, Hset. simpl. split.
    + intros [[Hj Hnj] | [<- | []]].
      * split; [exact Hj|]. intros Hin. apply in_remove in Hin. tauto.
      * split; [exact Hic|]. apply remove_In.
    + intros [Hj Hnj]. destruct (Nat.eq_dec i j) as [<- | Hne]; [tauto|].
      left. split; [exact Hj|].
      intros Hin. apply Hnj. apply in_in_remove; auto.
  - unfold settledIndices in *. rewrite flat_map_app. simpl.
    apply NoDup_app; [exact Honce | repeat constructor; intros [] |].
    intros j Hj [<- | []]. apply Hset in Hj. tauto.
Qed.

Lemma resume_quiescent i st :
  invariant st -> quiescent (resume i st).
Proof. intros Hinv. apply claim_quiescent. simpl. apply Hinv. Qed.

Lemma resume_remaining i st :
  In i (inFlight st) -> remaining (resume i st) < remaining st.
Proof.
  intros Hi. unfold Dispatcher.resume. rewrite claim_remaining.
  unfold remaining. simpl.
  pose proof (remove_length_lt Nat.eq_dec (inFlight st) i Hi). lia.
Qed.

Lemma pick_inFlight t st :
  inFlight st <> [] -> In (pick T schedule t st) (inFlight st).
Proof.
  intros Hne. unfold pick. apply nth_In.
  apply Nat.mod_upper_bound. destruct (inFlight st); simpl; [congruence | lia].
Qed.

Lemma eventLoop_completes fuel t st :
  invariant st -> quiescent st -> remaining st <= fuel ->
  let final := eventLoop fuel t st in
  invariant final /\ inFlight final = [] /\ currentIndex final = K.
Proof.
  revert t st; induction fuel as [|fuel IH]; intros t st Hinv Hq Hfuel; simpl.
  - destruct (inFlight st) as [|i F] eqn:E.
    + split; [exact Hinv | split; [exact E | apply Hq, E]].
    + unfold remaining in Hfuel. rewrite E in Hfuel. simpl in Hfuel. lia.
  - destruct (inFlight st) as [|i F] eqn:E.
    + split; [exact Hinv | split; [exact E | apply Hq, E]].
    + assert (In (pick T schedule t st) (inFlight st)) as Hin.
      { apply pick_inFlight. rewrite E. discriminate. }
      apply IH.
      * now apply resume_invariant.
      * now apply resume_quiescent.
      * pose proof (resume_remaining _ _ Hin). lia.
Qed.

Lemma eventLoop_invariant fuel t st :
  invariant st -> invariant (eventLoop fuel t st).
Proof.
  revert t st; induction fuel as [|fuel IH]; intros t st Hinv; simpl.
  - now destruct (inFlight st).
  - destruct (inFlight st) as [|i F] eqn:E; [exact Hinv|].
    apply IH. apply resume_invariant; [exact Hinv|].
    apply pick_inFlight. rewrite E. discriminate.
Qed.

(** At most [limit] tasks are in flight after any number of resumptions. *)
Lemma inFlight_bounded steps :
  length (inFlight
            (eventLoop steps 0
               (spawn (Nat.min limit K) (initial T tasks)))) <= limit.
Proof.
  apply inv_bound with (tasks := tasks). apply eventLoop_invariant.
  apply spawn_invariant; [apply initial_invariant | simpl; lia |].
  unfold Dispatcher.claim. destruct (_ <? _); simpl; lia.
Qed.

Lemma run_completes :
  1 <= limit ->
  let final := run T tasks schedule limit in
  invariant final /\ inFlight final = [] /\ currentIndex final = K.
Proof.
  intros Hl. unfold run.
  assert (Nat.min limit K <= limit) as Hmin by lia.
  apply eventLoop_completes.
  - apply spawn_invariant; [apply initial_invariant | simpl; lia | ].
    unfold Dispatcher.claim. destruct (_ <? _); simpl; lia.
  - apply spawn_quiescent; [apply initial_invariant | simpl; lia | ].
    destruct (Nat.eq_dec K 0) as [E | E].
    + right. unfold quiescent. simpl. intros _. lia.
    + left. lia.
  - rewrite spawn_remaining. unfold remaining. simpl. lia.
Qed.

End Facts.

Lemma dispatch_results (T : Type) (tasks : list (Completion T))
  (schedule : nat -> nat) (limit : nat) :
  1 <= limit ->
  withConcurrencyLimit T tasks schedule limit = Some (map (slot T) tasks) /\
  startedIndices (trace (run T tasks schedule limit)) = seq 0 (length tasks) /\
  Permutation (settledIndices (trace (run T tasks schedule limit)))
    (seq 0 (length tasks)).
Proof.
  intros Hl.
  destruct (run_completes T tasks schedule limit Hl) as (Hinv & Hnil & Hc).
  destruct Hinv as [_ Hlen _ _ _ Hdone Hstart Hset Honce].
  rewrite Hc in *. rewrite Hnil in *.
  split; [|split].
  - unfold withConcurrencyLimit. rewrite Hnil. f_equal.
    apply nth_error_ext. intros i.
    destruct (Nat.lt_ge_cases i (length tasks)) as [Hi | Hi].
    + rewrite Hdone by (auto; intros []).
      rewrite nth_error_map. unfold outcome.
      destruct (nth_error tasks i) eqn:E; [reflexivity|].
      apply nth_error_None in E. lia.
    + rewrite (proj2 (nth_error_None _ _)) by lia.
      symmetry. apply nth_error_None. rewrite length_map. exact Hi.
  - exact Hstart.
  - apply NoDup_Permutation; [exact Honce | apply seq_NoDup |].
    intros i. rewrite Hset, in_seq. split; [lia|].
    intros H. split; [lia | intros []].
Qed.

Lemma dispatch_resolves (T : Type) (tasks : list (Completion T))
  (schedule : nat -> nat) (limit : nat) :
  exists results, withConcurrencyLimit T tasks schedule limit = Some results.
Proof.
  destruct limit as [|limit].
  - unfold withConcurrencyLimit, run. simpl.
    destruct (length tasks); simpl; eauto.
  - destruct (dispatch_results T tasks schedule (S limit)) as (H & _); [lia|].
    eauto.
Qed.

(** C4.  For every list of K tasks, every concurrency limit L >= 1 and every
    order in which the environment settles the promises, the dispatcher
    resolves (it never rejects and never hangs on a settled task) with an
    array of length K whose index i holds task i's value when task i resolved
    and null when it threw; every task is started exactly once, in index
    order, and every task is awaited to its end, whatever the other tasks
    did. *)
Theorem withConcurrencyLimit_isolates_failures :
  forall (T : Type) (tasks : list (Completion T)) (schedule : nat -> nat)
         (limit : nat),
    1 <= limit ->
    withConcurrencyLimit T tasks schedule limit = Some (map (slot T) tasks) /\
    startedIndices (trace (run T tasks schedule limit)) = seq 0 (length tasks) /\
    (forall i, i < length tasks ->
       In i (settledIndices (trace (run T tasks schedule limit)))).
Proof.
  intros T tasks schedule limit Hl.
  destruct (dispatch_results T tasks schedule limit Hl) as (Hres & Hstart & Hperm).
  split; [exact Hres|]. split; [exact Hstart|].
  intros i Hi. apply (Permutation_in _ (Permutation_sym Hperm)).
  apply in_seq. lia.
Qed.

(** Three tasks, the second one throws, two workers, and the later promise
    of each pair settles first. *)
Lemma withConcurrencyLimit_isolates_failures_witness :
  1 <= 2 /\
  withConcurrencyLimit nat [Returned 10; Threw "boom"; Returned 30]
    (fun _ => 1) 2 = Some [Some 10; None; Some 30].
Proof.
  split; [lia|].
  exact (proj1 (withConcurrencyLimit_isolates_failures nat
                  [Returned 10; Threw "boom"; Returned 30] (fun _ => 1) 2
                  (le_S 1 1 (le_n 1)))).
Defined.

End DispatcherFacts.

(* ================================================================== *)
(** * Chairman selector (audit.ts, selectChairman)                     *)
(* ================================================================== *)

Module Alternative.
Record t : Type := mk
  { model : string;
    averageRank : Q }.
End Alternative.

Inductive Method : Type :=
| user_specified
| algorithmic
| fallback.

Module ChairmanSelectionResult.
Record t : Type := mk
  { model : string;
    method : Method;
    rationale : string;
    alternativesConsidered : option (list Alternative.t) }.
End ChairmanSelectionResult.

Module Chairman.

Definition two_digits (z : Z) : string :=
  ((if z <? 10 then "0" else "") ++ string_of_Z z)%Z%string.

(** [x.toFixed(2)] for |x| < 10^21: the integer n nearest to 100|x|, the
    larger one on a tie, printed with two fraction digits and the sign of x. *)
Definition toFixed2 (x : Q) : string :=
  let n := Qfloor (Qabs x * 100 + (1 # 2))%Q in
  ((if Qle_bool 0 x then "" else "-") ++
   string_of_Z (n / 100) ++ "." ++ two_digits (n mod 100))%string.

Definition producedBy (m : string) (a : IndividualAnalysis.t) : bool :=
  match IndividualAnalysis._modelId a with
  | Some id => String.eqb id m
  | None => false
  end.

Definition hasLabel (l : string) (a : IndividualAnalysis.t) : bool :=
  String.eqb (IndividualAnalysis.label a) l.

(** [a._modelId] when it is truthy. *)
Definition modelOf (a : IndividualAnalysis.t) : option string :=
  match IndividualAnalysis._modelId a with
  | Some id => if truthy_string id then Some id else None
  | None => None
  end.

Definition alternativeFor (analyses : list IndividualAnalysis.t)
  (r : AggregateRanking.t) : Alternative.t :=
  let analysis := find (hasLabel (AggregateRanking.label r)) analyses in
  Alternative.mk
    (or_string (match analysis with
                | Some a => IndividualAnalysis._modelId a
                | None => None
                end) (AggregateRanking.label r))
    (AggregateRanking.averageRank r).

Definition fallbackSelection (analyses : list IndividualAnalysis.t)
  : ChairmanSelectionResult.t :=
  let firstResponder := nth_error analyses 0 in
  ChairmanSelectionResult.mk
    (or_string (match firstResponder with
                | Some a => IndividualAnalysis._modelId a
                | None => None
                end) "unknown")
    fallback
    "Fallback to first responding model (ranking data unavailable)"
    None.

(** The part of [selectChairman] below the override block. *)
Definition selectByRanking (stage1 : Stage1Result.t) (stage2 : Stage2Result.t)
  : ChairmanSelectionResult.t :=
  let analyses := Stage1Result.analyses stage1 in
  let rankings := Stage2Result.aggregateRankings stage2 in
  match rankings with
  | topRanked :: _ =>
      match find (hasLabel (AggregateRanking.label topRanked)) analyses with
      | Some topAnalysis =>
          match modelOf topAnalysis with
          | Some id =>
              ChairmanSelectionResult.mk id algorithmic
                ("Highest peer-ranked analysis (avg rank " ++
                 toFixed2 (AggregateRanking.averageRank topRanked) ++ ")")%string
                (Some (map (alternativeFor analyses)
                         (firstn (Nat.min 3 (length rankings)) rankings)))
          | None => fallbackSelection analyses
          end
      | None => fallbackSelection analyses
      end
  | [] => fallbackSelection analyses
  end.

(** The result together with the lines written by [console.warn]. *)
Definition selectChairman (stage1 : Stage1Result.t) (stage2 : Stage2Result.t)
  (userOverride : option string) : ChairmanSelectionResult.t * list string :=
  match userOverride with
  | Some o =>
      if truthy_string o then
        if existsb (producedBy o) (Stage1Result.analyses stage1)
        then (ChairmanSelectionResult.mk o user_specified
                "User specified chairman" None, [])
        else (selectByRanking stage1 stage2,
              [("User-specified chairman " ++ o ++
                " did not participate in Stage 1")%string])
      else (selectByRanking stage1 stage2, [])
  | None => (selectByRanking stage1 stage2, [])
  end.

End Chairman.

(* ------------------------------------------------------------------ *)
(** ** Properties of the chairman selector                             *)
(* ------------------------------------------------------------------ *)

Module ChairmanFacts.
Import Chairman.

(** The override is absent, empty, or names a model that produced no
    Stage-1 analysis. *)
Definition overrideIdle (override : option string)
  (analyses : list IndividualAnalysis.t) : Prop :=
  match override with
  | None => True
  | Some o =>
      o = "" \/
      forall a, In a analyses -> IndividualAnalysis._modelId a <> Some o
  end.

(** The model recorded for the first analysis, or the sentinel. *)
Definition firstResponderModel (analyses : list IndividualAnalysis.t) : string :=
  match analyses with
  | a :: _ => match modelOf a with Some id => id | None => "unknown" end
  | [] => "unknown"
  end.

(** The first entry of the rankings names an analysis with a recorded model. *)
Definition topRankedModel (analyses : list IndividualAnalysis.t)
  (rankings : list AggregateRanking.t) : option string :=
  match rankings with
  | topRanked :: _ =>
      match find (hasLabel (AggregateRanking.label topRanked)) analyses with
      | Some a => modelOf a
      | None => None
      end
  | [] => None
  end.

Definition mkStage1 (analyses : list IndividualAnalysis.t) : Stage1Result.t :=
  Stage1Result.mk analyses true [].

Definition mkStage2 (rankings : list AggregateRanking.t) : Stage2Result.t :=
  Stage2Result.mk [] rankings true [].

(** The claim's second rule as it is worded: without an override, non-empty
    rankings give an algorithmic selection. *)
Definition claimedAlgorithmic (stage1 : Stage1Result.t)
  (stage2 : Stage2Result.t) : Prop :=
  Stage2Result.aggregateRankings stage2 <> [] ->
  ChairmanSelectionResult.method (fst (selectChairman stage1 stage2 None))
  = algorithmic.

Lemma or_string_modelOf a d :
  or_string (IndividualAnalysis._modelId a) d =
  match modelOf a with Some id => id | None => d end.
Proof.
  unfold or_string, modelOf.
  destruct (IndividualAnalysis._modelId a) as [id|]; [|reflexivity].
  now destruct (truthy_string id).
Qed.

Lemma fallbackSelection_spec analyses :
  ChairmanSelectionResult.method (fallbackSelection analyses) = fallback /\
  ChairmanSelectionResult.model (fallbackSelection analyses)
  = firstResponderModel analyses /\
  ChairmanSelectionResult.alternativesConsidered (fallbackSelection analyses)
  = None.
Proof.
  unfold fallbackSelection, firstResponderModel. simpl.
  destruct analyses as [|a rest]; simpl; [auto|].
  rewrite or_string_modelOf. auto.
Qed.

Lemma truthy_string_false s : truthy_string s = false <-> s = "".
Proof.
  unfold truthy_string. destruct (String.eqb_spec s ""); simpl; split;
    congruence.
Qed.

Lemma existsb_producedBy o analyses :
  existsb (producedBy o) analyses = true <->
  exists a, In a analyses /\ IndividualAnalysis._modelId a = Some o.
Proof.
  rewrite existsb_exists. unfold producedBy. split; intros (a & Ha & H);
    exists a; split; auto.
  - destruct (IndividualAnalysis._modelId a); [|discriminate].
    apply String.eqb_eq in H. now subst.
  - rewrite H. apply String.eqb_refl.
Qed.

Lemma selectChairman_idle stage1 stage2 override :
  overrideIdle override (Stage1Result.analyses stage1) ->
  fst (selectChairman stage1 stage2 override) = selectByRanking stage1 stage2.
Proof.
  unfold overrideIdle, selectChairman.
  destruct override as [o|]; [|reflexivity].
  intros [-> | H]; [reflexivity|].
  destruct (truthy_string o); [|reflexivity].
  destruct (existsb (producedBy o) (Stage1Result.analyses stage1)) eqn:E;
    [|reflexivity].
  apply existsb_producedBy in E as (a & Ha & Hm). now apply H in Ha.
Qed.

Lemma sorted_head_least top rest :
  StronglySorted AggregationFacts.rankLe (top :: rest) ->
  forall r, In r (top :: rest) -> AggregationFacts.rankLe top r.
Proof.
  intros Hs r [<- | Hr].
  - unfold AggregationFacts.rankLe. apply Qle_refl.
  - inversion Hs as [|? ? _ Hall]; subst.
    rewrite Forall_forall in Hall. now apply Hall.
Qed.

Lemma selectByRanking_top stage1 stage2 topRanked rest id :
  Stage2Result.aggregateRankings stage2 = topRanked :: rest ->
  topRankedModel (Stage1Result.analyses stage1)
    (Stage2Result.aggregateRankings stage2) = Some id ->
  selectByRanking stage1 stage2 =
  ChairmanSelectionResult.mk id algorithmic
    ("Highest peer-ranked analysis (avg rank " ++
     toFixed2 (AggregateRanking.averageRank topRanked) ++ ")")%string
    (Some (map (alternativeFor (Stage1Result.analyses stage1))
             (firstn (Nat.min 3 (length (topRanked :: rest)))
                (topRanked :: rest)))).
Proof.
  unfold selectByRanking, topRankedModel. intros -> H.
  destruct (find _ _) as [a|]; [|discriminate].
  destruct (modelOf a); [|discriminate].
  now injection H as ->.
Qed.

Lemma selectByRanking_none stage1 stage2 :
  topRankedModel (Stage1Result.analyses stage1)
    (Stage2Result.aggregateRankings stage2) = None ->
  selectByRanking stage1 stage2 = fallbackSelection (Stage1Result.analyses stage1).
Proof.
  unfold selectByRanking, topRankedModel.
  destruct (Stage2Result.aggregateRankings stage2) as [|top rest]; [reflexivity|].
  destruct (find _ _) as [a|]; [|reflexivity].
  now intros ->.
Qed.



(** C10.  [selectChairman] is a total function.  Whenever the override is
    absent, empty or names no participant and the rankings are empty, it
    returns method fallback with the first Stage-1 analysis's model (the
    sentinel "unknown" when that analysis records none); and when there is no
    Stage-1 analysis at all it returns method fallback with "unknown",
    whatever the override and the rankings are. *)
Theorem selectChairman_fallback_total :
  forall (stage1 : Stage1Result.t) (stage2 : Stage2Result.t)
         (override : option string),
    let analyses := Stage1Result.analyses stage1 in
    let result := fst (selectChairman stage1 stage2 override) in
    (overrideIdle override analyses ->
     Stage2Result.aggregateRankings stage2 = [] ->
     ChairmanSelectionResult.method result = fallback /\
     ChairmanSelectionResult.model result = firstResponderModel analyses /\
     forall a rest id,
       analyses = a :: rest ->
       IndividualAnalysis._modelId a = Some id -> id <> "" ->
       ChairmanSelectionResult.model result = id)
    /\
    (analyses = [] ->
     ChairmanSelectionResult.method result = fallback /\
     ChairmanSelectionResult.model result = "unknown").
Proof.
  intros stage1 stage2 override analyses result. split.
  - intros Hidle Hr. unfold result.
    rewrite selectChairman_idle by exact Hidle.
    rewrite selectByRanking_none
      by (unfold topRankedModel; now rewrite Hr).
    destruct (fallbackSelection_spec analyses) as (Hm & Hmod & _).
    fold analyses. split; [exact Hm|]. split; [exact Hmod|].
    intros a rest id Ha Hid Hne. rewrite Hmod, Ha. simpl.
    unfold modelOf. rewrite Hid.
    destruct (truthy_string id) eqn:E; [reflexivity|].
    apply truthy_string_false in E. contradiction.
  - intros Hnil.
    assert (overrideIdle override analyses) as Hidle.
    { unfold overrideIdle. destruct override; [|exact I].
      right. rewrite Hnil. intros a []. }
    unfold result. rewrite selectChairman_idle by exact Hidle.
    rewrite selectByRanking_none.
    + fold analyses. rewrite Hnil. split; reflexivity.
    + unfold topRankedModel. fold analyses. rewrite Hnil.
      destruct (Stage2Result.aggregateRankings stage2); reflexivity.
Qed.

End ChairmanFacts.

(* ================================================================== *)
(** * Stage 3 data and audit data (types.ts)                           *)
(* ================================================================== *)

Module ConsensusResult.
Record t : Type := mk
  { reached : bool;
    position : string;
    confidence : Q;
    agreementCount : Z;
    totalMembers : nat }.
End ConsensusResult.

Module CalibratedRisk.
Record t : Type := mk
  { overallLevel : string;
    factors : list json;
    catastrophizingDetected : bool;
    understatingDetected : bool;
    calibrationNotes : string }.
End CalibratedRisk.

Module Stage3Synthesis.
Record t : Type := mk
  { consensus : ConsensusResult.t;
    issues : list json;
    risk : CalibratedRisk.t;
    dissent : list json;
    weaknesses : list json;
    openQuestions : list string;
    actionItems : list json;
    sourceAttribution : option (list json) }.
End Stage3Synthesis.

Module Stage3Result.
Record t : Type := mk
  { synthesis : Stage3Synthesis.t;
    chairmanModel : string;
    complete : bool;
    errors : list StageError.t }.
End Stage3Result.

Inductive Severity : Type := critical | warning | info.

Inductive AnomalyType : Type :=
| confidence_mismatch
| citation_consensus
| threshold_gap
| ranking_outlier
| synthesis_divergence
| latency_outlier
| retry_excessive
| dissent_suppression
| quorum_risk
| single_source_dominance
| model_failure.

Inductive AnomalyStage : Type :=
| in_stage (n : nat)
| cross_stage.

Module AuditAnomaly.
Record t : Type := mk
  { stage : AnomalyStage;
    severity : Severity;
    type : AnomalyType;
    description : string;
    affectedModels : option (list string);
    recommendation : option string }.
End AuditAnomaly.

Module Stage1ModelMetrics.
Record t : Type := mk
  { latencyMs : Z;
    tokensUsed : Z;
    confidenceStated : json;
    thresholdIssuesIdentified : nat;
    citationsUsed : nat;
    adversarialArgumentProvided : bool;
    retries : nat }.
End Stage1ModelMetrics.

Module Stage1Audit.
Record t : Type := mk
  { modelsQueried : list string;
    modelsResponded : list string;
    modelsFailed : list string;
    perModelMetrics : list (string * Stage1ModelMetrics.t);
    anomalies : list AuditAnomaly.t }.
End Stage1Audit.

Inductive RankingConsensus : Type := strong | moderate | weak | none.

Module RankingStats.
Record t : Type := mk
  { averageRank : Q;
    rankVariance : Q;
    highestRank : Q;
    lowestRank : Q }.
End RankingStats.

Module Agreement.
Record t : Type := mk
  { agreedWith : list string;
    disagreedWith : list string }.
End Agreement.

Module Stage2Audit.
Record t : Type := mk
  { reviewsCompleted : nat;
    rankingConsensus : RankingConsensus;
    agreementMatrix : list (string * Agreement.t);
    perAnalysisRankings : list (string * RankingStats.t);
    outlierReviews : list (string * string);
    citationsAcrossAnalyses : list (string * list string);
    anomalies : list AuditAnomaly.t }.
End Stage2Audit.

Module Stage3Audit.
Record t : Type := mk
  { chairmanModel : string;
    consensusReached : bool;
    dissentPreserved : nat;
    dissentSuppressed : Z;
    catastrophizingDetected : bool;
    understatingDetected : bool;
    calibrationAction : string;
    citationsInSynthesis : nat;
    sourceReliance : list (string * nat);
    anomalies : list AuditAnomaly.t }.
End Stage3Audit.

Inductive Score : Type := score_high | score_medium | score_low.

Module ProcessIntegrity.
Record t : Type := mk
  { score : Score;
    flags : list string;
    recommendations : list string }.
End ProcessIntegrity.

Module ChairmanSelectionAudit.
Record t : Type := mk
  { method : Method;
    selectedModel : string;
    rationale : string;
    alternativesConsidered : option (list Alternative.t) }.
End ChairmanSelectionAudit.

Module CouncilAudit.
Record t : Type := mk
  { sessionId : string;
    durationMs : Z;
    chairmanSelection : option ChairmanSelectionAudit.t;
    stage1 : Stage1Audit.t;
    stage2 : Stage2Audit.t;
    stage3 : Stage3Audit.t;
    crossStageAnomalies : list AuditAnomaly.t;
    processIntegrity : ProcessIntegrity.t }.
End CouncilAudit.

(** Metrics collected during Stage 1 execution (audit.ts, Stage1Metrics). *)
Module Stage1Metrics.
Record t : Type := mk
  { modelId : string;
    label : string;
    startTime : Z;
    endTime : option Z;
    tokensUsed : option Z;
    confidenceStated : option json;
    thresholdIssuesIdentified : option nat;
    citationsUsed : option nat;
    adversarialArgumentProvided : option bool;
    retries : nat;
    success : bool;
    error : option string }.
End Stage1Metrics.

(* ================================================================== *)
(** * Audit collector (audit.ts)                                       *)
(* ================================================================== *)

Module Audit.

Definition MINIMUM_QUORUM : nat := 2.

(** The double-quote character, for the messages that quote a value. *)
Definition dquote : string := String (ascii_of_nat 34) EmptyString.

(** [Map.prototype.set] and the update of an entry found by [get], on a map
    kept in insertion order. *)
Fixpoint map_set {V} (k : string) (v : V) (m : list (string * V))
  : list (string * V) :=
  match m with
  | [] => [(k, v)]
  | (k', v') :: rest =>
      if String.eqb k' k then (k, v) :: rest else (k', v') :: map_set k v rest
  end.

Fixpoint map_update {V} (k : string) (f : V -> V) (m : list (string * V))
  : list (string * V) :=
  match m with
  | [] => []
  | (k', v') :: rest =>
      if String.eqb k' k then (k', f v') :: rest
      else (k', v') :: map_update k f rest
  end.

(** [m.get(k).push(x)], creating the entry when it is missing. *)
Definition map_push (k : string) (x : string) (m : list (string * list string))
  : list (string * list string) :=
  match assoc k m with
  | Some _ => map_update k (fun xs => xs ++ [x]) m
  | None => m ++ [(k, [x])]
  end.

Definition isSpace (c : ascii) : bool :=
  let n := nat_of_ascii c in
  (n =? 32) || ((9 <=? n) && (n <=? 13)).

Fixpoint trimStart (s : string) : string :=
  match s with
  | String c s' => if isSpace c then trimStart s' else s
  | EmptyString => EmptyString
  end.

Fixpoint trimEnd (s : string) : string :=
  match s with
  | String c s' =>
      match trimEnd s' with
      | EmptyString => if isSpace c then EmptyString else String c EmptyString
      | t => String c t
      end
  | EmptyString => EmptyString
  end.

(** [String.prototype.trim] for ASCII white space. *)
Definition trim (s : string) : string := trimEnd (trimStart s).

(** [s.split(/[.!?]/)]. *)
Fixpoint splitSentences (acc s : string) : list string :=
  match s with
  | EmptyString => [acc]
  | String c s' =>
      if (Ascii.eqb c "." || Ascii.eqb c "!" || Ascii.eqb c "?")%bool
      then acc :: splitSentences EmptyString s'
      else splitSentences (acc ++ String c EmptyString)%string s'
  end.

Definition Qsum := Aggregation.Qsum.
Definition Qlen {A} := @Aggregation.Qlen A.

Definition Qgtb (a b : Q) : bool := negb (Qle_bool a b).

Definition Qminimum (l : list Q) : Q :=
  match l with [] => 0%Q | x :: r => fold_left Qmin r x end.

Definition Qmaximum (l : list Q) : Q :=
  match l with [] => 0%Q | x :: r => fold_left Qmax r x end.

Definition severityIs (s : Severity) (a : AuditAnomaly.t) : bool :=
  match s, AuditAnomaly.severity a with
  | critical, critical | warning, warning | info, info => true
  | _, _ => false
  end.

Definition isCitationConsensus (a : AuditAnomaly.t) : bool :=
  match AuditAnomaly.type a with
  | citation_consensus => true
  | _ => false
  end.

(* ------------------------------------------------------------------ *)
(** ** The collector's accumulators                                    *)
(* ------------------------------------------------------------------ *)

Record AuditCollector : Type := mkCollector
  { sessionId : string;
    startTime : Z;
    stage1Metrics : list (string * Stage1Metrics.t);
    chairmanSelection : option ChairmanSelectionAudit.t }.

Definition newCollector (sessionId : string) (now : Z) : AuditCollector :=
  mkCollector sessionId now [] None.

Definition withMetrics (c : AuditCollector)
  (m : list (string * Stage1Metrics.t)) : AuditCollector :=
  mkCollector (sessionId c) (startTime c) m (chairmanSelection c).

Definition recordStage1Start (modelId label : string) (now : Z)
  (c : AuditCollector) : AuditCollector :=
  withMetrics c
    (map_set modelId
       (Stage1Metrics.mk modelId label now None None None None None None 0
          false None)
       (stage1Metrics c)).

Definition recordChairmanSelection (selection : ChairmanSelectionAudit.t)
  (c : AuditCollector) : AuditCollector :=
  mkCollector (sessionId c) (startTime c) (stage1Metrics c) (Some selection).

Definition recordStage1Failure (modelId error : string) (now : Z)
  (c : AuditCollector) : AuditCollector :=
  withMetrics c
    (map_update modelId
       (fun m =>
          Stage1Metrics.mk (Stage1Metrics.modelId m) (Stage1Metrics.label m)
            (Stage1Metrics.startTime m) (Some now)
            (Stage1Metrics.tokensUsed m) (Stage1Metrics.confidenceStated m)
            (Stage1Metrics.thresholdIssuesIdentified m)
            (Stage1Metrics.citationsUsed m)
            (Stage1Metrics.adversarialArgumentProvided m)
            (Stage1Metrics.retries m) false (Some error))
       (stage1Metrics c)).

Definition recordStage1Retry (modelId : string) (c : AuditCollector)
  : AuditCollector :=
  withMetrics c
    (map_update modelId
       (fun m =>
          Stage1Metrics.mk (Stage1Metrics.modelId m) (Stage1Metrics.label m)
            (Stage1Metrics.startTime m) (Stage1Metrics.endTime m)
            (Stage1Metrics.tokensUsed m) (Stage1Metrics.confidenceStated m)
            (Stage1Metrics.thresholdIssuesIdentified m)
            (Stage1Metrics.citationsUsed m)
            (Stage1Metrics.adversarialArgumentProvided m)
            (S (Stage1Metrics.retries m)) (Stage1Metrics.success m)
            (Stage1Metrics.error m))
       (stage1Metrics c)).

Definition truthyStructured (a : IndividualAnalysis.t) : option json :=
  match IndividualAnalysis._structured a with
  | Some j => if truthy j then Some j else None
  | None => None
  end.

Section Runtime.

(** The regular-expression scan of [extractCitations] (the three patterns,
    their matches concatenated and de-duplicated), and
    [JSON.stringify(synthesis)]: both are left to the runtime. *)
Variable extractCitations : string -> list string.
Variable stringifySynthesis : Stage3Synthesis.t -> string.

Definition countCitations (text : string) : nat :=
  length (extractCitations text).

Definition recordStage1Complete (modelId : string)
  (analysis : IndividualAnalysis.t) (tokensUsed : option Z) (now : Z)
  (c : AuditCollector) : AuditCollector :=
  withMetrics c
    (map_update modelId
       (fun m =>
          let structured := truthyStructured analysis in
          Stage1Metrics.mk (Stage1Metrics.modelId m) (Stage1Metrics.label m)
            (Stage1Metrics.startTime m) (Some now) tokensUsed
            (Some (IndividualAnalysis.confidence analysis))
            (match structured with
             | Some s =>
                 Some (match isArray (getProp "thresholdIssues" s) with
                       | Some xs => length xs
                       | None => 0
                       end)
             | None => Stage1Metrics.thresholdIssuesIdentified m
             end)
            (match structured with
             | Some _ => Some (countCitations (IndividualAnalysis.content analysis))
             | None => Stage1Metrics.citationsUsed m
             end)
            (match structured with
             | Some s =>
                 Some (match getProp "adversarialArgument" s with
                       | Some v => truthy v
                       | None => false
                       end)
             | None => Stage1Metrics.adversarialArgumentProvided m
             end)
            (Stage1Metrics.retries m) true (Stage1Metrics.error m))
       (stage1Metrics c)).

(* ------------------------------------------------------------------ *)
(** ** buildStage1Audit                                                *)
(* ------------------------------------------------------------------ *)

(** [metrics.success && metrics.endTime]: the latency when both hold. *)
Definition respondedLatency (m : Stage1Metrics.t) : option Z :=
  match Stage1Metrics.endTime m with
  | Some e =>
      if Stage1Metrics.success m && negb (e =? 0)%Z
      then Some (e - Stage1Metrics.startTime m)%Z
      else None
  | None => None
  end.

Definition orZ (o : option Z) : Z := match o with Some z => z | None => 0%Z end.
Definition orNat (o : option nat) : nat := match o with Some n => n | None => 0 end.

Definition modelFailureAnomaly (modelId : string) (m : Stage1Metrics.t)
  : AuditAnomaly.t :=
  AuditAnomaly.mk (in_stage 1) warning model_failure
    ("Model " ++ modelId ++ " failed to respond: " ++
     or_string (Stage1Metrics.error m) "Unknown error")%string
    (Some [modelId])
    (Some "Consider model availability or configuration").

Definition latencyAnomaly (modelId : string) (latency : Z) (avgLatency : Q)
  : AuditAnomaly.t :=
  AuditAnomaly.mk (in_stage 1) info latency_outlier
    ("Model " ++ modelId ++ " took " ++ string_of_Z latency ++ "ms (avg: " ++
     string_of_Z (Math_round avgLatency) ++ "ms)")%string
    (Some [modelId]) None.

Definition retryAnomaly (modelId : string) (m : Stage1Metrics.t)
  : AuditAnomaly.t :=
  AuditAnomaly.mk (in_stage 1) warning retry_excessive
    ("Model " ++ modelId ++ " required " ++
     string_of_nat (Stage1Metrics.retries m) ++ " retries")%string
    (Some [modelId])
    (Some "Check model reliability or prompt compatibility").

Definition quorumRiskAnomaly : AuditAnomaly.t :=
  AuditAnomaly.mk (in_stage 1) warning quorum_risk
    ("Bare minimum quorum (" ++ string_of_nat MINIMUM_QUORUM ++
     ") - deliberation quality may be reduced")%string
    None
    (Some "Consider adding council members for more robust deliberation").

Definition buildStage1Audit (c : AuditCollector) (stage1 : Stage1Result.t)
  (councilModels : list string) : Stage1Audit.t :=
  let metrics := stage1Metrics c in
  let responded :=
    flat_map (fun km => match respondedLatency (snd km) with
                        | Some l => [(fst km, snd km, l)]
                        | None => []
                        end) metrics in
  let failed :=
    filter (fun km => match respondedLatency (snd km) with
                      | Some _ => false
                      | None => true
                      end) metrics in
  let latencies := map (fun x => inject_Z (snd x)) responded in
  let modelsResponded := map (fun x => fst (fst x)) responded in
  let perModelMetrics :=
    fold_left
      (fun acc x =>
         let m := snd (fst x) in
         map_set (fst (fst x))
           (Stage1ModelMetrics.mk (snd x)
              (orZ (Stage1Metrics.tokensUsed m))
              (match Stage1Metrics.confidenceStated m with
               | Some cf => cf
               | None => JStr "medium"
               end)
              (orNat (Stage1Metrics.thresholdIssuesIdentified m))
              (orNat (Stage1Metrics.citationsUsed m))
              (match Stage1Metrics.adversarialArgumentProvided m with
               | Some b => b
               | None => false
               end)
              (Stage1Metrics.retries m)) acc)
      responded [] in
  let failures := map (fun km => modelFailureAnomaly (fst km) (snd km)) failed in
  let outliers :=
    if 2 <=? length latencies
    then
      let avgLatency := (Qsum latencies / Qlen latencies)%Q in
      flat_map (fun x =>
                  if Qgtb (inject_Z (snd x)) (avgLatency * 2)%Q
                  then [latencyAnomaly (fst (fst x)) (snd x) avgLatency]
                  else []) responded
    else [] in
  let retried :=
    flat_map (fun km => if 2 <=? Stage1Metrics.retries (snd km)
                        then [retryAnomaly (fst km) (snd km)]
                        else []) metrics in
  let quorum :=
    if length modelsResponded =? MINIMUM_QUORUM then [quorumRiskAnomaly] else [] in
  Stage1Audit.mk councilModels modelsResponded (map fst failed)
    perModelMetrics (failures ++ outliers ++ retried ++ quorum).

(* ------------------------------------------------------------------ *)
(** ** buildStage2Audit                                                *)
(* ------------------------------------------------------------------ *)

Definition topPick (review : PeerReview.t) : option string :=
  nth_error (PeerReview.ranking review) 0.

Definition uniqueTopPicks (reviews : list PeerReview.t) : nat :=
  Set_size option_string_dec (map topPick reviews).

Definition rankingConsensusOf (reviews : list PeerReview.t) : RankingConsensus :=
  let uniqueTopPicks := uniqueTopPicks reviews in
  if uniqueTopPicks =? 1 then strong
  else if uniqueTopPicks <=? ceil_half (length reviews) then moderate
  else if uniqueTopPicks <? length reviews then weak
  else none.

Definition sameTopPick (a b : PeerReview.t) : bool :=
  if option_string_dec (topPick a) (topPick b) then true else false.

Definition agreementOf (reviews : list PeerReview.t) (review : PeerReview.t)
  : Agreement.t :=
  let others :=
    filter (fun o => negb (String.eqb (PeerReview.reviewerLabel review)
                             (PeerReview.reviewerLabel o))) reviews in
  Agreement.mk
    (map PeerReview.reviewerLabel (filter (sameTopPick review) others))
    (map PeerReview.reviewerLabel
       (filter (fun o => negb (sameTopPick review o)) others)).

Definition rankingStatsOf (reviews : list PeerReview.t)
  (acc : list (string * RankingStats.t)) (ranking : AggregateRanking.t)
  : list (string * RankingStats.t) :=
  let ps := Aggregation.positions (AggregateRanking.label ranking) reviews in
  match ps with
  | [] => acc
  | _ =>
      map_set (AggregateRanking.label ranking)
        (RankingStats.mk (Aggregation.avgRank ps) (Aggregation.variance ps)
           (Qminimum ps) (Qmaximum ps)) acc
  end.

(** The aggregate entry of a reviewer's top pick, when the aggregate ranks
    it last. *)
Definition outlierTopPick (stage1 : Stage1Result.t) (stage2 : Stage2Result.t)
  (review : PeerReview.t) : option string :=
  match topPick review with
  | Some top =>
      match find (fun r => String.eqb (AggregateRanking.label r) top)
              (Stage2Result.aggregateRankings stage2) with
      | Some aggregateRank =>
          if Qgtb (AggregateRanking.averageRank aggregateRank)
               (Qlen (Stage1Result.analyses stage1) - (1 # 2))%Q
          then Some top else None
      | None => None
      end
  | None => None
  end.

Definition rankingOutlierAnomaly (review : PeerReview.t) (top : string)
  : AuditAnomaly.t :=
  AuditAnomaly.mk (in_stage 2) info ranking_outlier
    ("Reviewer " ++ PeerReview.reviewerLabel review ++ " ranked analysis " ++
     top ++ " first, but aggregate ranked it last")%string
    (Some [or_string (PeerReview._reviewerModelId review)
             (PeerReview.reviewerLabel review)])
    None.

Definition extractCitationsPerAnalysis (analyses : list IndividualAnalysis.t)
  : list (string * list string) :=
  fold_left
    (fun acc a => map_set (IndividualAnalysis.label a)
                    (extractCitations (IndividualAnalysis.content a)) acc)
    analyses [].

Definition citationCountsOf (perAnalysis : list (string * list string))
  : list (string * list string) :=
  fold_left
    (fun counts entry =>
       fold_left (fun counts citation =>
                    map_push (trim (toLowerCase citation)) (fst entry) counts)
         (snd entry) counts)
    perAnalysis [].

Definition citationConsensusAnomaly (citation : string) (labels : list string)
  : AuditAnomaly.t :=
  AuditAnomaly.mk (in_stage 2) warning citation_consensus
    (string_of_nat (length labels) ++ " analyses cited " ++ dquote ++ citation ++
     dquote ++ " - verify independently for shared hallucination")%string
    (Some labels)
    (Some "Run independent citation verification on shared authority").

Definition buildStage2Audit (stage1 : Stage1Result.t) (stage2 : Stage2Result.t)
  : Stage2Audit.t :=
  let reviews := Stage2Result.peerReviews stage2 in
  let perAnalysisRankings :=
    fold_left (rankingStatsOf reviews) (Stage2Result.aggregateRankings stage2) [] in
  let agreementMatrix :=
    fold_left (fun acc review =>
                 map_set (PeerReview.reviewerLabel review)
                   (agreementOf reviews review) acc) reviews [] in
  let outliers :=
    flat_map (fun review => match outlierTopPick stage1 stage2 review with
                            | Some top => [(review, top)]
                            | None => []
                            end) reviews in
  let citationsAcrossAnalyses :=
    extractCitationsPerAnalysis (Stage1Result.analyses stage1) in
  let shared :=
    filter (fun entry => 3 <=? length (snd entry))
      (citationCountsOf citationsAcrossAnalyses) in
  Stage2Audit.mk (length reviews) (rankingConsensusOf reviews)
    agreementMatrix perAnalysisRankings
    (map (fun x => (PeerReview.reviewerLabel (fst x),
                    ("Ranked " ++ snd x ++
                     " first while aggregate ranked it last")%string)) outliers)
    citationsAcrossAnalyses
    (map (fun x => rankingOutlierAnomaly (fst x) (snd x)) outliers ++
     map (fun entry => citationConsensusAnomaly (fst entry) (snd entry)) shared).

(* ------------------------------------------------------------------ *)
(** ** buildStage3Audit                                                *)
(* ------------------------------------------------------------------ *)

(** What [new Set(...)] compares: a string or a number by value, [true] as
    itself, and an object or an array by identity, which is the analysis
    that holds it. *)
Inductive positionKey : Type :=
| KStr (s : string)
| KNum (n : Z)
| KTrue
| KRef (holder : nat).

Definition positionKey_dec (a b : positionKey) : {a = b} + {a <> b}.
Proof.
  decide equality; try apply string_dec; try apply Z.eq_dec; apply Nat.eq_dec.
Defined.

(** [structured?.assessment || ''] for the analysis at index [i]. *)
Definition assessmentKey (i : nat) (a : IndividualAnalysis.t) : positionKey :=
  match IndividualAnalysis._structured a with
  | Some (JObj kvs) =>
      match assoc "assessment" kvs with
      | Some v =>
          if truthy v then
            match v with
            | JStr s => KStr s
            | JNum n => KNum n
            | JBool _ => KTrue
            | _ => KRef i
            end
          else KStr ""
      | None => KStr ""
      end
  | _ => KStr ""
  end.

Fixpoint mapi {A B} (f : nat -> A -> B) (i : nat) (l : list A) : list B :=
  match l with
  | [] => []
  | a :: l' => f i a :: mapi f (S i) l'
  end.

Definition uniquePositions (stage1 : Stage1Result.t) : nat :=
  Set_size positionKey_dec (mapi assessmentKey 0 (Stage1Result.analyses stage1)).

Definition dissentPreservedOf (stage3 : Stage3Result.t) : nat :=
  length (Stage3Synthesis.dissent (Stage3Result.synthesis stage3)).

Definition dissentSuppressedOf (stage1 : Stage1Result.t) (stage3 : Stage3Result.t)
  : Z :=
  Z.max 0 (Z.of_nat (uniquePositions stage1) - 1
           - Z.of_nat (dissentPreservedOf stage3)).

Definition dissentSuppressionAnomaly (dissentSuppressed : Z) : AuditAnomaly.t :=
  AuditAnomaly.mk (in_stage 3) warning dissent_suppression
    (string_of_Z dissentSuppressed ++
     " potentially distinct position(s) not preserved in dissent")%string
    None
    (Some "Review stage 1 analyses for suppressed minority views").

Definition dissentAnomalies (stage1 : Stage1Result.t) (stage3 : Stage3Result.t)
  : list AuditAnomaly.t :=
  if (0 <? dissentSuppressedOf stage1 stage3)%Z
  then [dissentSuppressionAnomaly (dissentSuppressedOf stage1 stage3)]
  else [].

(** The number of the first three sentences of an analysis, longer than 20
    characters, whose first 30 characters occur in the synthesis text. *)
Definition phraseOverlap (synthesisText : string) (a : IndividualAnalysis.t) : nat :=
  let analysisText := toLowerCase (IndividualAnalysis.content a) in
  let keyPhrases := firstn 3 (splitSentences EmptyString analysisText) in
  length (filter (fun phrase =>
                    (20 <? String.length phrase) &&
                    includes synthesisText (substring 0 30 phrase))
            keyPhrases).

Definition sourceRelianceOf (stage1 : Stage1Result.t) (stage3 : Stage3Result.t)
  : list (string * nat) :=
  let analyses := Stage1Result.analyses stage1 in
  let synthesisText :=
    toLowerCase (stringifySynthesis (Stage3Result.synthesis stage3)) in
  let zeroed :=
    fold_left (fun acc a => map_set (IndividualAnalysis.label a) 0 acc)
      analyses [] in
  fold_left (fun acc a =>
               map_update (IndividualAnalysis.label a)
                 (fun n => n + phraseOverlap synthesisText a) acc)
    analyses zeroed.

(** [entries.sort((a, b) => b[1] - a[1])]: stable, descending by value. *)
Fixpoint insertByReliance (x : string * nat) (l : list (string * nat))
  : list (string * nat) :=
  match l with
  | [] => [x]
  | y :: l' => if snd y <=? snd x then x :: y :: l'
               else y :: insertByReliance x l'
  end.

Definition singleSourceAnomalies (sourceReliance : list (string * nat))
  : list AuditAnomaly.t :=
  let relianceValues := map snd sourceReliance in
  let totalReliance := fold_left Nat.add relianceValues 0 in
  if 0 <? totalReliance then
    let maxReliance := fold_left Nat.max relianceValues 0 in
    let dominantLabel :=
      match find (fun e => snd e =? maxReliance) sourceReliance with
      | Some e => fst e
      | None => "undefined"
      end in
    if Qgtb (inject_Z (Z.of_nat maxReliance) / inject_Z (Z.of_nat totalReliance))
         (7 # 10)%Q
    then [AuditAnomaly.mk (in_stage 3) warning single_source_dominance
            ("Synthesis appears to rely heavily on analysis " ++
             dominantLabel)%string
            None
            (Some "Verify synthesis incorporates diverse council perspectives")]
    else []
  else [].

Definition divergenceAnomalies (stage1 : Stage1Result.t)
  (stage2 : Stage2Result.t) (sourceReliance : list (string * nat))
  : list AuditAnomaly.t :=
  let totalReliance := fold_left Nat.add (map snd sourceReliance) 0 in
  match Stage2Result.aggregateRankings stage2 with
  | top :: _ =>
      let topRanked := AggregateRanking.label top in
      if truthy_string topRanked
         && match assoc topRanked sourceReliance with
            | Some 0 => true
            | _ => false
            end
         && (0 <? totalReliance)
      then
        match fold_right insertByReliance [] sourceReliance with
        | (dominantLabel, _) :: _ =>
            if truthy_string dominantLabel then
              match find (fun r => String.eqb (AggregateRanking.label r)
                                     dominantLabel)
                      (Stage2Result.aggregateRankings stage2) with
              | Some dominantRanking =>
                  if Qgtb (AggregateRanking.averageRank dominantRanking)
                       (Qlen (Stage1Result.analyses stage1) / 2)%Q
                  then [AuditAnomaly.mk (in_stage 3) critical synthesis_divergence
                          ("Synthesis relies on analysis " ++ dominantLabel ++
                           " (low-ranked) while ignoring " ++ topRanked ++
                           " (top-ranked)")%string
                          None
                          (Some "Review chairman synthesis for bias or error")]
                  else []
              | None => []
              end
            else []
        | [] => []
        end
      else []
  | [] => []
  end.

Definition buildStage3Audit (stage1 : Stage1Result.t) (stage2 : Stage2Result.t)
  (stage3 : Stage3Result.t) : Stage3Audit.t :=
  let synthesis := Stage3Result.synthesis stage3 in
  let sourceReliance := sourceRelianceOf stage1 stage3 in
  Stage3Audit.mk (Stage3Result.chairmanModel stage3)
    (ConsensusResult.reached (Stage3Synthesis.consensus synthesis))
    (dissentPreservedOf stage3)
    (dissentSuppressedOf stage1 stage3)
    (CalibratedRisk.catastrophizingDetected (Stage3Synthesis.risk synthesis))
    (CalibratedRisk.understatingDetected (Stage3Synthesis.risk synthesis))
    (or_string (Some (CalibratedRisk.calibrationNotes
                        (Stage3Synthesis.risk synthesis))) "None noted")
    (countCitations (stringifySynthesis synthesis))
    sourceReliance
    (dissentAnomalies stage1 stage3 ++
     singleSourceAnomalies sourceReliance ++
     divergenceAnomalies stage1 stage2 sourceReliance).

(* ------------------------------------------------------------------ *)
(** ** detectCrossStageAnomalies                                       *)
(* ------------------------------------------------------------------ *)

Definition confidenceMismatchAnomaly (a : IndividualAnalysis.t) : AuditAnomaly.t :=
  AuditAnomaly.mk cross_stage warning confidence_mismatch
    ("Analysis " ++ IndividualAnalysis.label a ++ " stated " ++ dquote ++
     "high" ++ dquote ++ " confidence but was ranked last by peers")%string
    (Some [or_string (IndividualAnalysis._modelId a)
             (IndividualAnalysis.label a)])
    (Some "Review analysis for overconfidence or peer misunderstanding").

Definition isHigh (j : json) : bool :=
  match j with
  | JStr s => String.eqb s "high"
  | _ => false
  end.

Definition confidenceMismatches (stage1 : Stage1Result.t)
  (stage2 : Stage2Result.t) : list AuditAnomaly.t :=
  let analyses := Stage1Result.analyses stage1 in
  flat_map
    (fun a =>
       if isHigh (IndividualAnalysis.confidence a) then
         match find (fun r => String.eqb (AggregateRanking.label r)
                                (IndividualAnalysis.label a))
                 (Stage2Result.aggregateRankings stage2) with
         | Some ranking =>
             if Qle_bool (Qlen analyses - (1 # 2))%Q
                  (AggregateRanking.averageRank ranking)
             then [confidenceMismatchAnomaly a]
             else []
         | None => []
         end
       else [])
    analyses.

(** [issue.issue?.toLowerCase() || ''] on one element of a thresholdIssues
    array.  Reading a property of [null] throws, and so does calling
    [toLowerCase] on a value that is neither nullish nor a string. *)
Definition normalizedIssue (issue : json) : Completion string :=
  match issue with
  | JNull =>
      Threw "TypeError: Cannot read properties of null (reading 'issue')"
  | JObj kvs =>
      match assoc "issue" kvs with
      | None | Some JNull => Returned ""
      | Some (JStr s) => Returned (toLowerCase s)
      | Some _ => Threw "TypeError: issue.issue.toLowerCase is not a function"
      end
  | _ => Returned ""
  end.

(** [structured?.thresholdIssues] when it is an array. *)
Definition thresholdIssuesOf (a : IndividualAnalysis.t) : option (list json) :=
  match IndividualAnalysis._structured a with
  | Some JNull | None => None
  | Some structured => isArray (getProp "thresholdIssues" structured)
  end.

Fixpoint countIssues (label : string) (issues : list json)
  (counts : list (string * list string)) : Completion (list (string * list string)) :=
  match issues with
  | [] => Returned counts
  | issue :: rest =>
      normalized <- normalizedIssue issue ;;
      countIssues label rest (map_push normalized label counts)
  end.

Fixpoint thresholdCountsOf (analyses : list IndividualAnalysis.t)
  (counts : list (string * list string)) : Completion (list (string * list string)) :=
  match analyses with
  | [] => Returned counts
  | a :: rest =>
      match thresholdIssuesOf a with
      | Some issues =>
          counts' <- countIssues (IndividualAnalysis.label a) issues counts ;;
          thresholdCountsOf rest counts'
      | None => thresholdCountsOf rest counts
      end
  end.

Definition joinComma (l : list string) : string := String.concat ", " l.

Definition thresholdGaps (analyses : list IndividualAnalysis.t)
  (counts : list (string * list string)) : list AuditAnomaly.t :=
  let majority := ceil_half (length analyses) in
  flat_map
    (fun entry =>
       let identifiers := snd entry in
       if majority <=? length identifiers then
         let missers :=
           map IndividualAnalysis.label
             (filter (fun a => negb (existsb (String.eqb (IndividualAnalysis.label a))
                                       identifiers)) analyses) in
         if 0 <? length missers then
           [AuditAnomaly.mk cross_stage warning threshold_gap
              ("Threshold issue " ++ dquote ++ fst entry ++ dquote ++
               " identified by " ++ string_of_nat (length identifiers) ++
               " analyses but missed by " ++ joinComma missers)%string
              (Some missers)
              (Some "Review missed threshold issue for potential blind spot")]
         else []
       else [])
    counts.

Definition detectCrossStageAnomalies (stage1 : Stage1Result.t)
  (stage2 : Stage2Result.t) : Completion (list AuditAnomaly.t) :=
  counts <- thresholdCountsOf (Stage1Result.analyses stage1) [] ;;
  Returned (confidenceMismatches stage1 stage2 ++
            thresholdGaps (Stage1Result.analyses stage1) counts).

(* ------------------------------------------------------------------ *)
(** ** calculateProcessIntegrity                                       *)
(* ------------------------------------------------------------------ *)

Definition allAnomaliesOf (stage1Audit : Stage1Audit.t)
  (stage2Audit : Stage2Audit.t) (stage3Audit : Stage3Audit.t)
  (crossStageAnomalies : list AuditAnomaly.t) : list AuditAnomaly.t :=
  Stage1Audit.anomalies stage1Audit ++ Stage2Audit.anomalies stage2Audit ++
  Stage3Audit.anomalies stage3Audit ++ crossStageAnomalies.

Definition isHighScore (s : Score) : bool :=
  match s with score_high => true | _ => false end.

Definition isLowScore (s : Score) : bool :=
  match s with score_low => true | _ => false end.

Definition isNone (c : RankingConsensus) : bool :=
  match c with none => true | _ => false end.

Definition calculateProcessIntegrity (stage1Audit : Stage1Audit.t)
  (stage2Audit : Stage2Audit.t) (stage3Audit : Stage3Audit.t)
  (crossStageAnomalies : list AuditAnomaly.t) (totalModels : nat)
  : ProcessIntegrity.t :=
  let allAnomalies :=
    allAnomaliesOf stage1Audit stage2Audit stage3Audit crossStageAnomalies in
  let criticalCount := length (filter (severityIs critical) allAnomalies) in
  let warningCount := length (filter (severityIs warning) allAnomalies) in
  (* critical anomalies *)
  let score1 := if 0 <? criticalCount then score_low else score_high in
  let flags1 :=
    if 0 <? criticalCount
    then [(string_of_nat criticalCount ++ " critical anomal" ++
           (if (1 <? criticalCount)%nat then "ies" else "y") ++ " detected")%string]
    else [] in
  let recs1 :=
    if 0 <? criticalCount
    then ["Review critical anomalies before relying on synthesis"] else [] in
  (* multiple warnings *)
  let manyWarnings := (3 <=? warningCount) && negb (isLowScore score1) in
  let score2 := if manyWarnings then score_medium else score1 in
  let flags2 :=
    if manyWarnings
    then [(string_of_nat warningCount ++ " warnings detected")%string] else [] in
  (* quorum concerns *)
  let bareQuorum :=
    length (Stage1Audit.modelsResponded stage1Audit) =? MINIMUM_QUORUM in
  let score3 :=
    if bareQuorum && isHighScore score2 then score_medium else score2 in
  let flags3 := if bareQuorum then ["Bare minimum quorum achieved"] else [] in
  (* model failures *)
  let failedCount := length (Stage1Audit.modelsFailed stage1Audit) in
  let flags4 :=
    if 0 <? failedCount
    then [(string_of_nat failedCount ++ " model(s) failed to respond")%string]
    else [] in
  (* ranking consensus *)
  let noConsensus := isNone (Stage2Audit.rankingConsensus stage2Audit) in
  let score5 :=
    if noConsensus && isHighScore score3 then score_medium else score3 in
  let flags5 :=
    if noConsensus then ["No ranking consensus among reviewers"] else [] in
  let recs5 :=
    if noConsensus
    then ["Council disagreed significantly - review individual analyses"]
    else [] in
  (* citation consensus *)
  let citationCount := length (filter isCitationConsensus allAnomalies) in
  let flags6 :=
    if 0 <? citationCount
    then [(string_of_nat citationCount ++
           " potential shared citation(s) - verify independently")%string]
    else [] in
  let recs6 :=
    if 0 <? citationCount
    then ["Run independent citation check on shared authorities"] else [] in
  (* dissent suppression *)
  let suppressed := Stage3Audit.dissentSuppressed stage3Audit in
  let flags7 :=
    if (0 <? suppressed)%Z
    then [(string_of_Z suppressed ++
           " dissenting view(s) may not be preserved")%string]
    else [] in
  let recs7 :=
    if (0 <? suppressed)%Z
    then ["Review stage 1 analyses for important minority positions"] else [] in
  ProcessIntegrity.mk score5
    (flags1 ++ flags2 ++ flags3 ++ flags4 ++ flags5 ++ flags6 ++ flags7)
    (recs1 ++ recs5 ++ recs6 ++ recs7).

(* ------------------------------------------------------------------ *)
(** ** buildAudit                                                      *)
(* ------------------------------------------------------------------ *)

Definition buildAudit (c : AuditCollector) (now : Z) (stage1 : Stage1Result.t)
  (stage2 : Stage2Result.t) (stage3 : Stage3Result.t)
  (councilModels : list string) : Completion CouncilAudit.t :=
  let durationMs := (now - startTime c)%Z in
  let stage1Audit := buildStage1Audit c stage1 councilModels in
  let stage2Audit := buildStage2Audit stage1 stage2 in
  let stage3Audit := buildStage3Audit stage1 stage2 stage3 in
  crossStageAnomalies <- detectCrossStageAnomalies stage1 stage2 ;;
  let processIntegrity :=
    calculateProcessIntegrity stage1Audit stage2Audit stage3Audit
      crossStageAnomalies (length councilModels) in
  Returned (CouncilAudit.mk (sessionId c) durationMs (chairmanSelection c)
              stage1Audit stage2Audit stage3Audit crossStageAnomalies
              processIntegrity).

End Runtime.

End Audit.

(* ------------------------------------------------------------------ *)
(** ** Properties of the audit collector                               *)
(* ------------------------------------------------------------------ *)

Module AuditFacts.
Import Audit.

Section SetSize.

Variable A : Type.
Variable dec : forall a b : A, {a = b} + {a <> b}.

Lemma Set_size_le (l : list A) : Set_size dec l <= length l.
Proof.
  unfold Set_size. induction l as [|x l IH]; simpl; [lia|].
  destruct (in_dec dec x l); simpl; lia.
Qed.

Lemma Set_size_full (l : list A) : Set_size dec l = length l <-> NoDup l.
Proof.
  split.
  - unfold Set_size. induction l as [|x l IH]; simpl; [constructor|].
    pose proof (Set_size_le l) as Hle. unfold Set_size in Hle.
    destruct (in_dec dec x l); simpl; intros H; [lia|].
    constructor; [assumption | apply IH; lia].
  - intros H. unfold Set_size. now rewrite nodup_fixed_point.
Qed.

Lemma Set_size_one (l : list A) :
  Set_size dec l = 1 <-> l <> [] /\ exists p, forall x, In x l -> x = p.
Proof.
  unfold Set_size. split.
  - intros H.
    destruct (nodup dec l) as [|p [|q r]] eqn:E; simpl in H; try lia.
    split.
    + intros ->. discriminate.
    + exists p. intros x Hx. apply (nodup_In dec) in Hx. rewrite E in Hx.
      destruct Hx as [<- | []]. reflexivity.
  - intros [Hne (p & Hp)].
    pose proof (NoDup_nodup dec l) as Hnd.
    destruct (nodup dec l) as [|a [|b r]] eqn:E; simpl.
    + destruct l as [|x l]; [congruence|].
      assert (In x (nodup dec (x :: l))) as Hin by (apply nodup_In; now left).
      rewrite E in Hin. destruct Hin.
    + reflexivity.
    + exfalso.
      assert (a = p) as Ha by (apply Hp, (nodup_In dec); rewrite E; now left).
      assert (b = p) as Hb
        by (apply Hp, (nodup_In dec); rewrite E; right; now left).
      subst. inversion Hnd as [|? ? Hn _]; subst. apply Hn. now left.
Qed.

Lemma Set_size_three (l : list A) a b c :
  In a l -> In b l -> In c l -> a <> b -> a <> c -> b <> c ->
  3 <= Set_size dec l.
Proof.
  intros Ha Hb Hc Hab Hac Hbc. unfold Set_size.
  change 3 with (length [a; b; c]).
  apply NoDup_incl_length.
  - repeat constructor; simpl; intuition congruence.
  - intros x [<- | [<- | [<- | []]]]; now apply nodup_In.
Qed.

End SetSize.

(* ---- ranking consensus ---- *)

Definition reviewOf (by_ : string) (order : list string) : PeerReview.t :=
  PeerReview.mk by_ (JObj []) order "" None.

(** The claim's wording of the middle tier: at most half the reviewer count. *)
Definition claimedModerate (reviews : list PeerReview.t) : Prop :=
  rankingConsensusOf reviews = moderate <->
  uniqueTopPicks reviews <> 1 /\ 2 * uniqueTopPicks reviews <= length reviews.

(** C8, counterexample.  Three reviewers with top picks A, A, B: two unique
    top picks are more than half of three, yet the code rounds the half up
    ([Math.ceil(3 / 2) = 2]) and reports moderate, not weak. *)
Lemma moderate_rounds_up_counterexample :
  ~ claimedModerate
      [reviewOf "A" ["A"; "B"; "C"]; reviewOf "B" ["A"; "C"; "B"];
       reviewOf "C" ["B"; "A"; "C"]]
  /\ rankingConsensusOf
       [reviewOf "A" ["A"; "B"; "C"]; reviewOf "B" ["A"; "C"; "B"];
        reviewOf "C" ["B"; "A"; "C"]] = moderate.
Proof.
  split; [|reflexivity].
  intros [H _]. specialize (H eq_refl). vm_compute in H. lia.
Qed.

Lemma rankingConsensusOf_cases reviews :
  let u := uniqueTopPicks reviews in
  let n := length reviews in
  (u = 1 /\ rankingConsensusOf reviews = strong) \/
  (u <> 1 /\ u <= ceil_half n /\ rankingConsensusOf reviews = moderate) \/
  (u <> 1 /\ ceil_half n < u /\ u < n /\ rankingConsensusOf reviews = weak) \/
  (u <> 1 /\ ceil_half n < u /\ n <= u /\ rankingConsensusOf reviews = none).
Proof.
  intros u n. unfold rankingConsensusOf. fold u. fold n.
  destruct (u =? 1) eqn:E1; [apply Nat.eqb_eq in E1; auto|].
  apply Nat.eqb_neq in E1. right.
  destruct (u <=? ceil_half n) eqn:E2; [apply Nat.leb_le in E2; auto|].
  apply Nat.leb_gt in E2. right.
  destruct (u <? n) eqn:E3; [apply Nat.ltb_lt in E3; auto|].
  apply Nat.ltb_ge in E3. auto.
Qed.

(** C8 (amended).  For every non-empty set of completed peer reviews the
    Stage-2 audit's rankingConsensus is strong exactly when there is one
    unique top pick, that is when every reviewer's top-ranked label is the
    same; moderate exactly when it is not strong and the number of unique top
    picks is at most half the reviewer count rounded up; weak exactly when it
    is neither and the number of unique top picks is smaller than the
    reviewer count; and none otherwise, which is exactly when there are at
    least two reviewers and all their top picks differ. *)
Theorem rankingConsensus_tiers :
  forall (extractCitations : string -> list string)
         (stage1 : Stage1Result.t) (stage2 : Stage2Result.t),
    Stage2Result.peerReviews stage2 <> [] ->
    let reviews := Stage2Result.peerReviews stage2 in
    let tier :=
      Stage2Audit.rankingConsensus
        (buildStage2Audit extractCitations stage1 stage2) in
    let u := uniqueTopPicks reviews in
    let n := length reviews in
    (tier = strong <-> u = 1) /\
    (u = 1 <-> exists p, forall r, In r reviews -> topPick r = p) /\
    (tier = moderate <-> u <> 1 /\ u <= ceil_half n) /\
    (tier = weak <-> u <> 1 /\ ceil_half n < u /\ u < n) /\
    (tier = none <-> u <> 1 /\ ceil_half n < u /\ u = n) /\
    (tier = none <-> 2 <= n /\ NoDup (map topPick reviews)).
Proof.
  intros extractCitations stage1 stage2 Hne reviews tier u n.
  assert (tier = rankingConsensusOf reviews) as Ht by reflexivity.
  clearbody tier. subst tier. fold reviews in Hne. clearbody reviews.
  pose proof (Set_size_le _ option_string_dec (map topPick reviews)) as Hle.
  rewrite length_map in Hle. fold (uniqueTopPicks reviews) in Hle.
  fold u in Hle. fold n in Hle.
  assert (n <> 0) as Hn.
  { unfold n. destruct reviews; [congruence | simpl; lia]. }
  assert (ceil_half n < n \/ n = 1) as Hhalf.
  { unfold ceil_half.
    destruct (Nat.eq_dec n 1) as [-> | H1]; [now right | left].
    apply Nat.Div0.div_lt_upper_bound. lia. }
  assert (u = n <-> NoDup (map topPick reviews)) as Hfull.
  { unfold u, uniqueTopPicks, n.
    rewrite <- (length_map topPick reviews). apply Set_size_full. }
  assert (u = 1 <-> exists p, forall r, In r reviews -> topPick r = p) as Hone.
  { unfold u, uniqueTopPicks. rewrite Set_size_one. split.
    - intros [_ (p & Hp)]. exists p. intros r Hr. apply Hp. now apply in_map.
    - intros (p & Hp). split.
      + destruct reviews; [congruence | discriminate].
      + exists p. intros x Hx. apply in_map_iff in Hx as (r & <- & Hr). auto. }
  destruct (rankingConsensusOf_cases reviews)
    as [(H1 & ->) | [(H1 & H2 & ->) | [(H1 & H2 & H3 & ->) | (H1 & H2 & H3 & ->)]]];
    fold u in H1; fold u in H2 || idtac; fold n in H2 || idtac;
    fold u in H3 || idtac; fold n in H3 || idtac.
  all: repeat split; try exact Hone; try (apply Hone); try discriminate;
    try tauto; try lia; try (intros; exfalso; lia).
  all: try (intros [? ?]; exfalso; lia).
  all: try (intros [Hn2 Hd]; apply Hfull in Hd; exfalso; lia).
  all: try (apply Hfull; lia).
  all: try (intros (? & ? & ?); exfalso; lia).
Qed.

(** Three reviewers, two of which put A first. *)
Lemma rankingConsensus_tiers_witness :
  Stage2Result.peerReviews
    (Stage2Result.mk
       [reviewOf "A" ["A"; "B"]; reviewOf "B" ["A"; "B"]; reviewOf "C" ["B"; "A"]]
       [] true []) <> [] /\
  (Stage2Audit.rankingConsensus
     (buildStage2Audit (fun _ => []) (Stage1Result.mk [] true [])
        (Stage2Result.mk
           [reviewOf "A" ["A"; "B"]; reviewOf "B" ["A"; "B"];
            reviewOf "C" ["B"; "A"]]
           [] true [])) = moderate <->
   uniqueTopPicks
     [reviewOf "A" ["A"; "B"]; reviewOf "B" ["A"; "B"]; reviewOf "C" ["B"; "A"]]
   <> 1 /\
   uniqueTopPicks
     [reviewOf "A" ["A"; "B"]; reviewOf "B" ["A"; "B"]; reviewOf "C" ["B"; "A"]]
   <= ceil_half 3).
Proof.
  split; [discriminate|].
  apply (rankingConsensus_tiers (fun _ => []) (Stage1Result.mk [] true [])
           (Stage2Result.mk
              [reviewOf "A" ["A"; "B"]; reviewOf "B" ["A"; "B"];
               reviewOf "C" ["B"; "A"]]
              [] true [])).
  discriminate.
Defined.

(* ---- dissent suppression ---- *)

(** The assessment of an analysis when its structured payload is an object
    whose [assessment] property is a string. *)
Definition assessmentText (a : IndividualAnalysis.t) : option string :=
  match IndividualAnalysis._structured a with
  | Some (JObj kvs) =>
      match assoc "assessment" kvs with
      | Some (JStr s) => Some s
      | _ => None
      end
  | _ => None
  end.

Definition assessed (lbl text : string) : IndividualAnalysis.t :=
  IndividualAnalysis.mk lbl "" (JStr "medium") [] (Some ("model-" ++ lbl)%string)
    (Some (JObj [("assessment", JStr text)])).

Definition emptyConsensus : ConsensusResult.t :=
  ConsensusResult.mk false "" 0 0 0.

Definition emptyRisk : CalibratedRisk.t :=
  CalibratedRisk.mk "medium" [] false false "".

Definition stage3With (dissent : list json) : Stage3Result.t :=
  Stage3Result.mk
    (Stage3Synthesis.mk emptyConsensus [] emptyRisk dissent [] [] [] None)
    "chair" true [].

(** The claim's wording: distinct positions minus preserved dissent. *)
Definition claimedDissentSuppressed (stage1 : Stage1Result.t)
  (stage3 : Stage3Result.t) : Z :=
  Z.max 0 (Z.of_nat (uniquePositions stage1)
           - Z.of_nat (dissentPreservedOf stage3)).

Definition isDissentSuppression (a : AuditAnomaly.t) : Prop :=
  AuditAnomaly.type a = dissent_suppression /\
  AuditAnomaly.severity a = warning.

Lemma assessmentText_key a s i :
  assessmentText a = Some s -> assessmentKey i a = KStr s.
Proof.
  unfold assessmentText, assessmentKey.
  destruct (IndividualAnalysis._structured a) as [[| | | |?|kvs]|];
    try discriminate.
  destruct (assoc "assessment" kvs) as [[| | |t| |]|]; try discriminate.
  intros H. injection H as ->. simpl. unfold truthy_string.
  destruct (String.eqb_spec s ""); simpl; congruence.
Qed.

Lemma In_mapi {A B} (f : nat -> A -> B) l a :
  In a l -> forall i, exists j, In (f j a) (mapi f i l).
Proof.
  induction l as [|x l IH]; intros Hin i; [destruct Hin|].
  destruct Hin as [<- | Hin].
  - exists i. now left.
  - destruct (IH Hin (S i)) as (j & Hj). exists j. now right.
Qed.

Lemma dissentAnomalies_spec stage1 stage3 :
  ((0 < dissentSuppressedOf stage1 stage3)%Z ->
   exists a, dissentAnomalies stage1 stage3 = [a] /\ isDissentSuppression a) /\
  ((dissentSuppressedOf stage1 stage3 <= 0)%Z ->
   dissentAnomalies stage1 stage3 = []).
Proof.
  unfold dissentAnomalies.
  destruct (0 <? dissentSuppressedOf stage1 stage3)%Z eqn:E.
  - apply Z.ltb_lt in E. split; [|lia].
    intros _. eexists. split; [reflexivity | split; reflexivity].
  - apply Z.ltb_ge in E. split; [lia | reflexivity].
Qed.

Lemma other_stage3_anomalies stage1 stage2 reliance a :
  In a (singleSourceAnomalies reliance ++
        divergenceAnomalies stage1 stage2 reliance) ->
  AuditAnomaly.type a <> dissent_suppression.
Proof.
  intros H. apply in_app_or in H as [H | H].
  - unfold singleSourceAnomalies in H.
    destruct (0 <? _); [|destruct H].
    destruct (Qgtb _ _); [|destruct H].
    destruct H as [<- | []]. discriminate.
  - unfold divergenceAnomalies in H.
    destruct (Stage2Result.aggregateRankings stage2) as [|top rest];
      [destruct H|].
    destruct (_ && _ && _); [|destruct H].
    destruct (fold_right insertByReliance [] reliance) as [|[d v] l];
      [destruct H|].
    destruct (truthy_string d); [|destruct H].
    destruct (find _ _); [|destruct H].
    destruct (Qgtb _ _); [|destruct H].
    destruct H as [<- | []]. discriminate.
Qed.

(** C9, counterexample.  Two distinct Stage-1 assessments and one dissent
    entry: the difference of the claim is 1, but the code also takes the
    majority position off ([uniquePositions - 1 - dissentPreserved]), finds
    0 and raises no dissent-suppression anomaly. *)
Lemma dissent_minus_majority_counterexample :
  claimedDissentSuppressed
    (Stage1Result.mk [assessed "A" "liable"; assessed "B" "not liable"] true [])
    (stage3With [JObj []]) = 1%Z
  /\ (forall extractCitations stringifySynthesis stage2,
        Stage3Audit.dissentSuppressed
          (buildStage3Audit extractCitations stringifySynthesis
             (Stage1Result.mk [assessed "A" "liable"; assessed "B" "not liable"]
                true [])
             stage2 (stage3With [JObj []])) = 0%Z)
  /\ dissentAnomalies
       (Stage1Result.mk [assessed "A" "liable"; assessed "B" "not liable"] true [])
       (stage3With [JObj []]) = [].
Proof.
  split; [reflexivity|]. split; [|reflexivity].
  intros. reflexivity.
Qed.

(** C9 (amended).  The Stage-3 audit's dissentSuppressed equals the count of
    distinct Stage-1 positions (distinct assessment values across the
    analyses), minus one for the majority position, minus the number of
    dissent entries preserved in the synthesis, floored at 0.  A
    dissent-suppression warning is among the audit's anomalies exactly when
    this value is positive.  Whenever the analyses hold three textually
    distinct assessment strings and the synthesis keeps fewer than two
    dissent entries, the anomaly is raised. *)
Theorem dissentSuppressed_flagged :
  forall (extractCitations : string -> list string)
         (stringifySynthesis : Stage3Synthesis.t -> string)
         (stage1 : Stage1Result.t) (stage2 : Stage2Result.t)
         (stage3 : Stage3Result.t),
    let audit :=
      buildStage3Audit extractCitations stringifySynthesis stage1 stage2 stage3 in
    let preserved :=
      length (Stage3Synthesis.dissent (Stage3Result.synthesis stage3)) in
    Stage3Audit.dissentPreserved audit = preserved /\
    Stage3Audit.dissentSuppressed audit =
      Z.max 0 (Z.of_nat (uniquePositions stage1) - 1 - Z.of_nat preserved) /\
    ((0 < Stage3Audit.dissentSuppressed audit)%Z <->
     exists a, In a (Stage3Audit.anomalies audit) /\ isDissentSuppression a) /\
    (forall a1 a2 a3 s1 s2 s3,
       In a1 (Stage1Result.analyses stage1) ->
       In a2 (Stage1Result.analyses stage1) ->
       In a3 (Stage1Result.analyses stage1) ->
       assessmentText a1 = Some s1 ->
       assessmentText a2 = Some s2 ->
       assessmentText a3 = Some s3 ->
       s1 <> s2 -> s1 <> s3 -> s2 <> s3 ->
       preserved < 2 ->
       exists a, In a (Stage3Audit.anomalies audit) /\ isDissentSuppression a).
Proof.
  intros extractCitations stringifySynthesis stage1 stage2 stage3 audit preserved.
  assert ((0 < dissentSuppressedOf stage1 stage3)%Z ->
          exists a, In a (Stage3Audit.anomalies audit) /\ isDissentSuppression a)
    as Hflag.
  { intros Hpos.
    destruct (dissentAnomalies_spec stage1 stage3) as [H _].
    destruct (H Hpos) as (a & Ha & Hd).
    exists a. split; [|exact Hd].
    unfold audit. simpl. rewrite Ha. now left. }
  split; [reflexivity|]. split; [reflexivity|]. split; [split|].
  - exact Hflag.
  - intros (a & Ha & Htype & _). unfold audit in Ha. simpl in Ha.
    apply in_app_or in Ha as [Ha | Ha].
    + simpl.
      destruct (Z_lt_le_dec 0 (dissentSuppressedOf stage1 stage3)) as [|Hle];
        [assumption|].
      destruct (dissentAnomalies_spec stage1 stage3) as [_ H].
      rewrite (H Hle) in Ha. destruct Ha.
    + apply other_stage3_anomalies in Ha. contradiction.
  - intros a1 a2 a3 s1 s2 s3 H1 H2 H3 T1 T2 T3 N12 N13 N23 Hp.
    apply Hflag.
    assert (3 <= uniquePositions stage1) as Hu.
    { unfold uniquePositions.
      destruct (In_mapi assessmentKey _ _ H1 0) as (i1 & I1).
      destruct (In_mapi assessmentKey _ _ H2 0) as (i2 & I2).
      destruct (In_mapi assessmentKey _ _ H3 0) as (i3 & I3).
      rewrite (assessmentText_key _ _ _ T1) in I1.
      rewrite (assessmentText_key _ _ _ T2) in I2.
      rewrite (assessmentText_key _ _ _ T3) in I3.
      apply (Set_size_three _ positionKey_dec _ _ _ _ I1 I2 I3); congruence. }
    unfold dissentSuppressedOf, dissentPreservedOf. fold preserved. lia.
Qed.

(* ---- process integrity ---- *)

Definition hasCritical (l : list AuditAnomaly.t) : Prop :=
  exists a, In a l /\ AuditAnomaly.severity a = critical.

Definition warningCountOf (l : list AuditAnomaly.t) : nat :=
  length (filter (severityIs warning) l).

Definition bareQuorumFlag : string := "Bare minimum quorum achieved".

(** Three council members start Stage 1 together; A and B complete, C
    fails. *)
Definition oneOfThreeFails (extractCitations : string -> list string)
  (mA mB mC : string) (aA aB : IndividualAnalysis.t) (started endA endB endC : Z)
  (failure : string) : AuditCollector :=
  recordStage1Failure mC failure endC
    (recordStage1Complete extractCitations mB aB None endB
       (recordStage1Complete extractCitations mA aA None endA
          (recordStage1Start mC "C" started
             (recordStage1Start mB "B" started
                (recordStage1Start mA "A" started
                   (newCollector "session" started)))))).

(** Three council members start Stage 1 together and all complete. *)
Definition allThreeRespond (extractCitations : string -> list string)
  (mA mB mC : string) (aA aB aC : IndividualAnalysis.t)
  (started endA endB endC : Z) : AuditCollector :=
  recordStage1Complete extractCitations mC aC None endC
    (recordStage1Complete extractCitations mB aB None endB
       (recordStage1Complete extractCitations mA aA None endA
          (recordStage1Start mC "C" started
             (recordStage1Start mB "B" started
                (recordStage1Start mA "A" started
                   (newCollector "session" started)))))).

(** The claim's wording of the quorum signal: without a critical anomaly the
    score is medium whenever exactly the configured minimum number of seats
    responded in Stage 1. *)
Definition claimedQuorumSignal (minimumSeats : nat) (s1a : Stage1Audit.t)
  (s2a : Stage2Audit.t) (s3a : Stage3Audit.t) (cross : list AuditAnomaly.t)
  (totalModels : nat) : Prop :=
  ~ hasCritical (allAnomaliesOf s1a s2a s3a cross) ->
  length (Stage1Audit.modelsResponded s1a) = minimumSeats ->
  ProcessIntegrity.score
    (calculateProcessIntegrity s1a s2a s3a cross totalModels) = score_medium.

(** The claim's wording of the scenario: when the third of three seats
    fails Stage 1 and no anomaly is critical, the score is medium and the
    bare-quorum flag is raised. *)
Definition claimedScenario (extractCitations : string -> list string)
  (mA mB mC : string) (aA aB : IndividualAnalysis.t) (started endA endB endC : Z)
  (failure : string) (stage1 : Stage1Result.t) (s2a : Stage2Audit.t)
  (s3a : Stage3Audit.t) (cross : list AuditAnomaly.t) : Prop :=
  let s1a :=
    buildStage1Audit
      (oneOfThreeFails extractCitations mA mB mC aA aB started endA endB endC
         failure) stage1 [mA; mB; mC] in
  let verdict := calculateProcessIntegrity s1a s2a s3a cross 3 in
  ~ hasCritical (allAnomaliesOf s1a s2a s3a cross) ->
  ProcessIntegrity.score verdict = score_medium /\
  In bareQuorumFlag (ProcessIntegrity.flags verdict).

Definition quietStage2Audit : Stage2Audit.t :=
  Stage2Audit.mk 2 strong [] [] [] [] [].

Definition quietStage3Audit : Stage3Audit.t :=
  Stage3Audit.mk "vendor/a" true 0 0 false false "None noted" 0 [] [].

Lemma critical_count_pos l :
  (0 <? length (filter (severityIs critical) l)) = true <-> hasCritical l.
Proof.
  rewrite Nat.ltb_lt. unfold hasCritical. split.
  - intros H. destruct (filter (severityIs critical) l) as [|a r] eqn:E;
      [simpl in H; lia|].
    assert (In a (filter (severityIs critical) l)) as Hin
      by (rewrite E; now left).
    apply filter_In in Hin as [Hin Hs]. exists a. split; [exact Hin|].
    unfold severityIs in Hs. now destruct (AuditAnomaly.severity a).
  - intros (a & Hin & Hs).
    assert (In a (filter (severityIs critical) l)) as Hf.
    { apply filter_In. split; [exact Hin|]. unfold severityIs. now rewrite Hs. }
    destruct (filter (severityIs critical) l); [destruct Hf | simpl; lia].
Qed.

Lemma hasCritical_app l1 l2 :
  hasCritical (l1 ++ l2) <-> hasCritical l1 \/ hasCritical l2.
Proof.
  unfold hasCritical. split.
  - intros (a & Hin & Hs). apply in_app_or in Hin as [H | H];
      [left | right]; exists a; auto.
  - intros [(a & Hin & Hs) | (a & Hin & Hs)]; exists a; split; auto;
      apply in_or_app; auto.
Qed.

Lemma stage1_never_critical c stage1 councilModels :
  ~ hasCritical (Stage1Audit.anomalies (buildStage1Audit c stage1 councilModels)).
Proof.
  unfold buildStage1Audit. cbn [Stage1Audit.anomalies].
  rewrite !hasCritical_app. intros [H | [H | [H | H]]];
    destruct H as (a & Hin & Hs).
  - apply in_map_iff in Hin as (km & <- & _). discriminate.
  - destruct (2 <=? _); [|destruct Hin].
    apply in_flat_map in Hin as (x & _ & Hin).
    destruct (Qgtb _ _); [|destruct Hin].
    destruct Hin as [<- | []]. discriminate.
  - apply in_flat_map in Hin as (x & _ & Hin).
    destruct (2 <=? _); [|destruct Hin].
    destruct Hin as [<- | []]. discriminate.
  - destruct (_ =? _); [|destruct Hin].
    destruct Hin as [<- | []]. discriminate.
Qed.

Lemma calculateProcessIntegrity_score s1a s2a s3a cross totalModels :
  let all := allAnomaliesOf s1a s2a s3a cross in
  ProcessIntegrity.score
    (calculateProcessIntegrity s1a s2a s3a cross totalModels) =
  if 0 <? length (filter (severityIs critical) all) then score_low
  else if (3 <=? warningCountOf all)
          || (length (Stage1Audit.modelsResponded s1a) =? MINIMUM_QUORUM)
          || isNone (Stage2Audit.rankingConsensus s2a)
       then score_medium
       else score_high.
Proof.
  intros all. unfold calculateProcessIntegrity, warningCountOf. fold all.
  cbn [ProcessIntegrity.score].
  destruct (0 <? length (filter (severityIs critical) all));
    destruct (3 <=? length (filter (severityIs warning) all));
    destruct (length (Stage1Audit.modelsResponded s1a) =? MINIMUM_QUORUM);
    destruct (isNone (Stage2Audit.rankingConsensus s2a)); reflexivity.
Qed.

Lemma bareQuorum_flagged s1a s2a s3a cross totalModels :
  length (Stage1Audit.modelsResponded s1a) = MINIMUM_QUORUM ->
  In bareQuorumFlag
    (ProcessIntegrity.flags
       (calculateProcessIntegrity s1a s2a s3a cross totalModels)).
Proof.
  intros H. unfold calculateProcessIntegrity. cbn [ProcessIntegrity.flags].
  rewrite H, Nat.eqb_refl.
  apply in_or_app. right. apply in_or_app. right. apply in_or_app. left.
  now left.
Qed.

Lemma oneOfThreeFails_audit extractCitations mA mB mC aA aB started endA endB
  endC failure stage1 councilModels :
  mA <> mB -> mA <> mC -> mB <> mC -> endA <> 0%Z -> endB <> 0%Z ->
  let s1a :=
    buildStage1Audit
      (oneOfThreeFails extractCitations mA mB mC aA aB started endA endB endC
         failure) stage1 councilModels in
  Stage1Audit.modelsResponded s1a = [mA; mB] /\
  Stage1Audit.modelsFailed s1a = [mC].
Proof.
  intros Hab Hac Hbc HA HB.
  apply String.eqb_neq in Hab, Hac, Hbc.
  assert (String.eqb mB mA = false) as Hba by (now rewrite String.eqb_sym).
  assert (String.eqb mC mA = false) as Hca by (now rewrite String.eqb_sym).
  assert (String.eqb mC mB = false) as Hcb by (now rewrite String.eqb_sym).
  apply Z.eqb_neq in HA, HB.
  unfold oneOfThreeFails, buildStage1Audit, recordStage1Failure,
    recordStage1Complete, recordStage1Start, newCollector, withMetrics,
    respondedLatency.
  repeat (progress (cbn -[String.eqb Z.eqb Z.sub];
                    rewrite ?String.eqb_refl, ?Hab, ?Hac, ?Hbc, ?Hba, ?Hca, ?Hcb,
                      ?HA, ?HB)).
  split; reflexivity.
Qed.

(** C7, counterexample.  The audit compares the number of responders with
    its own constant of 2, not with the configured minimum, and it counts
    responders by model identifier, not by seat.  (1) Three models, all of
    which respond: with a configured minimum of 3 exactly the minimum
    responded, yet no quorum signal is raised and the score is high.
    (2) Seats A and B are both held by the model vendor/a and seat C fails:
    one of three seats failed, yet the audit counts one responder, raises no
    bare-quorum flag and scores high. *)
Lemma audit_quorum_is_two_by_model_counterexample :
  (~ claimedQuorumSignal 3
       (buildStage1Audit
          (allThreeRespond (fun _ => []) "vendor/a" "vendor/b" "vendor/c"
             (assessed "A" "liable") (assessed "B" "liable")
             (assessed "C" "liable") 1000 1900 2100 2300)
          (Stage1Result.mk
             [assessed "A" "liable"; assessed "B" "liable";
              assessed "C" "liable"] true [])
          ["vendor/a"; "vendor/b"; "vendor/c"])
       quietStage2Audit quietStage3Audit [] 3)
  /\
  (~ claimedScenario (fun _ => []) "vendor/a" "vendor/a" "vendor/c"
       (assessed "A" "liable") (assessed "B" "liable") 1000 1900 2100 121000
       "Request timed out"
       (Stage1Result.mk [assessed "A" "liable"; assessed "B" "liable"] false [])
       quietStage2Audit quietStage3Audit [])
  /\
  ProcessIntegrity.score
    (calculateProcessIntegrity
       (buildStage1Audit
          (oneOfThreeFails (fun _ => []) "vendor/a" "vendor/a" "vendor/c"
             (assessed "A" "liable") (assessed "B" "liable") 1000 1900 2100
             121000 "Request timed out")
          (Stage1Result.mk [assessed "A" "liable"; assessed "B" "liable"]
             false [])
          ["vendor/a"; "vendor/a"; "vendor/c"])
       quietStage2Audit quietStage3Audit [] 3) = score_high.
Proof.
  assert (forall l : list AuditAnomaly.t,
            Forall (fun a => AuditAnomaly.severity a <> critical) l ->
            ~ hasCritical l) as Hquiet.
  { intros l Hl (a & Hin & Hs). rewrite Forall_forall in Hl.
    exact (Hl a Hin Hs). }
  split; [|split].
  - intros H. unfold claimedQuorumSignal in H.
    match type of H with
    | ?P -> ?Q -> _ =>
        assert P as Hp
          by (apply Hquiet; vm_compute; repeat constructor; discriminate);
        assert Q as Hq by (vm_compute; reflexivity);
        specialize (H Hp Hq)
    end.
    vm_compute in H. discriminate H.
  - intros H. unfold claimedScenario in H. cbv zeta in H.
    match type of H with
    | ?P -> _ =>
        assert P as Hp
          by (apply Hquiet; vm_compute; repeat constructor; discriminate);
        specialize (H Hp)
    end.
    destruct H as [H _]. vm_compute in H. discriminate H.
  - vm_compute. reflexivity.
Qed.

(** C7.  Over all collected anomalies (Stage 1, Stage 2, Stage 3 and
    cross-stage) the process-integrity score is low whenever some anomaly is
    critical; otherwise medium whenever there are at least 3 warnings, or
    exactly 2 models responded in Stage 1 (the audit's own minimum quorum,
    counted by model identifier), or the Stage-2 ranking consensus is none;
    otherwise high.  When one of three council members with pairwise
    different model identifiers fails Stage 1 and the other two respond, the
    Stage-1 audit lists the failed model, and without a critical anomaly the
    score is medium and the flags hold the bare-quorum flag. *)
Theorem processIntegrity_verdict :
  (forall (s1a : Stage1Audit.t) (s2a : Stage2Audit.t) (s3a : Stage3Audit.t)
          (cross : list AuditAnomaly.t) (totalModels : nat),
      let verdict := calculateProcessIntegrity s1a s2a s3a cross totalModels in
      let all := allAnomaliesOf s1a s2a s3a cross in
      let mediumSignal :=
        3 <= warningCountOf all \/
        length (Stage1Audit.modelsResponded s1a) = MINIMUM_QUORUM \/
        Stage2Audit.rankingConsensus s2a = none in
      (hasCritical all -> ProcessIntegrity.score verdict = score_low) /\
      (~ hasCritical all -> mediumSignal ->
       ProcessIntegrity.score verdict = score_medium) /\
      (~ hasCritical all -> ~ mediumSignal ->
       ProcessIntegrity.score verdict = score_high))
  /\
  (forall (extractCitations : string -> list string) (mA mB mC : string)
          (aA aB : IndividualAnalysis.t) (started endA endB endC : Z)
          (failure : string) (stage1 : Stage1Result.t) (s2a : Stage2Audit.t)
          (s3a : Stage3Audit.t) (cross : list AuditAnomaly.t),
      mA <> mB -> mA <> mC -> mB <> mC -> endA <> 0%Z -> endB <> 0%Z ->
      ~ hasCritical
          (Stage2Audit.anomalies s2a ++ Stage3Audit.anomalies s3a ++ cross) ->
      let s1a :=
        buildStage1Audit
          (oneOfThreeFails extractCitations mA mB mC aA aB started endA endB
             endC failure) stage1 [mA; mB; mC] in
      let verdict := calculateProcessIntegrity s1a s2a s3a cross 3 in
      Stage1Audit.modelsFailed s1a = [mC] /\
      ProcessIntegrity.score verdict = score_medium /\
      In bareQuorumFlag (ProcessIntegrity.flags verdict)).
Proof.
  split.
  - intros s1a s2a s3a cross totalModels verdict all mediumSignal.
    unfold verdict. rewrite calculateProcessIntegrity_score. fold all.
    pose proof (critical_count_pos all) as Hc.
    assert (mediumSignal <->
            (3 <=? warningCountOf all)
            || (length (Stage1Audit.modelsResponded s1a) =? MINIMUM_QUORUM)
            || isNone (Stage2Audit.rankingConsensus s2a) = true) as Hm.
    { unfold mediumSignal.
      rewrite !orb_true_iff, Nat.leb_le, Nat.eqb_eq.
      assert (Stage2Audit.rankingConsensus s2a = none <->
              isNone (Stage2Audit.rankingConsensus s2a) = true) as ->
        by (destruct (Stage2Audit.rankingConsensus s2a); simpl; split;
            congruence).
      tauto. }
    destruct (0 <? length (filter (severityIs critical) all)).
    + split; [reflexivity|]. split; intros Hn; exfalso; apply Hn, Hc;
        reflexivity.
    + assert (~ hasCritical all) as Hnc by (intros H; apply Hc in H; discriminate).
      split; [intros H; contradiction|].
      destruct (_ || _ || _).
      * split; [reflexivity|]. intros _ Hn. exfalso. apply Hn, Hm. reflexivity.
      * split; [|reflexivity]. intros _ H. apply Hm in H. discriminate.
  - intros extractCitations mA mB mC aA aB started endA endB endC failure stage1
      s2a s3a cross Hab Hac Hbc HA HB Hnc s1a verdict.
    destruct (oneOfThreeFails_audit extractCitations mA mB mC aA aB started endA
                endB endC failure stage1 [mA; mB; mC] Hab Hac Hbc HA HB)
      as [Hresp Hfail].
    fold s1a in Hresp, Hfail.
    split; [exact Hfail|]. split.
    + unfold verdict. rewrite calculateProcessIntegrity_score.
      assert (~ hasCritical (allAnomaliesOf s1a s2a s3a cross)) as Hall.
      { unfold allAnomaliesOf. rewrite hasCritical_app. intros [H | H].
        - now apply stage1_never_critical in H.
        - contradiction. }
      destruct (0 <? _) eqn:E; [apply critical_count_pos in E; contradiction|].
      rewrite Hresp. simpl. rewrite orb_true_r. reflexivity.
    + apply bareQuorum_flagged. rewrite Hresp. reflexivity.
Qed.

(** Models a, b and c; c times out; no other anomaly is recorded. *)
Lemma processIntegrity_verdict_witness :
  ProcessIntegrity.score
    (calculateProcessIntegrity
       (buildStage1Audit
          (oneOfThreeFails (fun _ => []) "vendor/a" "vendor/b" "vendor/c"
             (assessed "A" "liable") (assessed "B" "liable") 1000 1900 2100
             121000 "Request timed out")
          (Stage1Result.mk [assessed "A" "liable"; assessed "B" "liable"]
             false [])
          ["vendor/a"; "vendor/b"; "vendor/c"])
       (Stage2Audit.mk 2 strong [] [] [] [] [])
       (Stage3Audit.mk "vendor/a" true 0 0 false false "None noted" 0 [] [])
       [] 3) = score_medium.
Proof.
  refine (proj1 (proj2 (proj2 processIntegrity_verdict (fun _ => []) "vendor/a"
           "vendor/b" "vendor/c" (assessed "A" "liable") (assessed "B" "liable")
           1000%Z 1900%Z 2100%Z 121000%Z "Request timed out"
           (Stage1Result.mk [assessed "A" "liable"; assessed "B" "liable"]
              false [])
           (Stage2Audit.mk 2 strong [] [] [] [] [])
           (Stage3Audit.mk "vendor/a" true 0 0%Z false false "None noted" 0 [] [])
           [] _ _ _ _ _ _))); try discriminate.
  intros (a & [] & _).
Defined.

End AuditFacts.

(* ================================================================== *)
(** * JSON serialisation ([JSON.stringify(v, null, 2)], [String(v)])   *)
(* ================================================================== *)

Module Serialize.

Definition nl : string := String (ascii_of_nat 10) EmptyString.
Definition dquote : string := Audit.dquote.
Definition backslash : string := String (ascii_of_nat 92) EmptyString.

Definition hexDigit (n : nat) : ascii :=
  ascii_of_nat (if n <? 10 then 48 + n else 87 + n).

(** One character inside a JSON string literal. *)
Definition escapeChar (c : ascii) : string :=
  let n := nat_of_ascii c in
  if n =? 34 then (backslash ++ dquote)%string
  else if n =? 92 then (backslash ++ backslash)%string
  else if n =? 8 then (backslash ++ "b")%string
  else if n =? 12 then (backslash ++ "f")%string
  else if n =? 10 then (backslash ++ "n")%string
  else if n =? 13 then (backslash ++ "r")%string
  else if n =? 9 then (backslash ++ "t")%string
  else if n <? 32
       then (backslash ++ "u00" ++
             String (hexDigit (n / 16)) (String (hexDigit (n mod 16)) EmptyString))%string
       else String c EmptyString.

Fixpoint escape (s : string) : string :=
  match s with
  | EmptyString => EmptyString
  | String c s' => (escapeChar c ++ escape s')%string
  end.

Definition quote (s : string) : string := (dquote ++ escape s ++ dquote)%string.

(** [JSON.stringify(j, null, 2)] at the nesting given by [indent]. *)
Fixpoint stringifyAt (indent : string) (j : json) : string :=
  let inner := (indent ++ "  ")%string in
  match j with
  | JNull => "null"
  | JBool true => "true"
  | JBool false => "false"
  | JNum n => string_of_Z n
  | JStr s => quote s
  | JArr [] => "[]"
  | JArr xs =>
      ("[" ++ nl ++ inner ++
       (fix items (l : list json) : string :=
          match l with
          | [] => EmptyString
          | x :: r =>
              stringifyAt inner x ++
              match r with
              | [] => EmptyString
              | _ => "," ++ nl ++ inner
              end ++ items r
          end) xs ++
       nl ++ indent ++ "]")%string
  | JObj [] => "{}"
  | JObj kvs =>
      ("{" ++ nl ++ inner ++
       (fix members (l : list (string * json)) : string :=
          match l with
          | [] => EmptyString
          | (k, v) :: r =>
              quote k ++ ": " ++ stringifyAt inner v ++
              match r with
              | [] => EmptyString
              | _ => "," ++ nl ++ inner
              end ++ members r
          end) kvs ++
       nl ++ indent ++ "}")%string
  end.

Definition stringify (j : json) : string := stringifyAt EmptyString j.

(** [String(j)]. *)
Fixpoint js_String (j : json) : string :=
  match j with
  | JNull => "null"
  | JBool true => "true"
  | JBool false => "false"
  | JNum n => string_of_Z n
  | JStr s => s
  | JObj _ => "[object Object]"
  | JArr xs =>
      (fix join (l : list json) : string :=
         match l with
         | [] => EmptyString
         | x :: r =>
             (match x with JNull => EmptyString | _ => js_String x end ++
              match r with [] => EmptyString | _ => "," end ++ join r)%string
         end) xs
  end.

Definition lines (l : list string) : string := String.concat nl l.

End Serialize.

(* ================================================================== *)
(** * Stage 2 prompt construction (orchestrator.ts, runStage2)         *)
(* ================================================================== *)

Module Stage2Prompt.
Import Serialize.

(** [a._structured || a.content]. *)
Definition analysisBody (a : IndividualAnalysis.t) : json :=
  match Audit.truthyStructured a with
  | Some structured => structured
  | None => JStr (IndividualAnalysis.content a)
  end.

(** One element of [analysesForReview]. *)
Definition reviewEntry (a : IndividualAnalysis.t) : json :=
  JObj [("label", JStr (IndividualAnalysis.label a));
        ("analysis", analysisBody a)].

Definition analysesForReview (stage1 : Stage1Result.t) : json :=
  JArr (map reviewEntry (Stage1Result.analyses stage1)).

Definition userPromptHead : string :=
  lines ["Review these anonymized legal analyses. Do NOT try to guess which model produced each.";
         "";
         "ANALYSES:";
         ""].

Definition userPromptTail : string :=
  lines ["";
         "";
         "Respond with JSON containing:";
         "- evaluations: Object with analysis labels (A, B, etc.) as keys, each containing:";
         "  - legalAccuracy (1-5)";
         "  - issueIdentification (1-5)  ";
         "  - riskCalibration (1-5) - neither catastrophizing nor dismissive";
         "  - practicalUtility (1-5)";
         "  - comment (optional string)";
         ("- ranking: Array of analysis labels ordered best to worst (e.g., [" ++
          dquote ++ "B" ++ dquote ++ ", " ++ dquote ++ "A" ++ dquote ++ ", " ++
          dquote ++ "C" ++ dquote ++ "])")%string;
         "- rankingRationale: Brief explanation for your ranking"].

Definition userPrompt (stage1 : Stage1Result.t) : string :=
  (userPromptHead ++ stringify (analysesForReview stage1) ++ userPromptTail)%string.

Definition systemPrompt (baseSystemPrompt : string) : string :=
  lines [baseSystemPrompt;
         "";
         "---";
         "";
         "## STAGE 2: PEER REVIEW INSTRUCTIONS";
         "";
         "You are reviewing anonymized legal analyses. Judge only on merit. Do NOT try to guess authorship.";
         "Apply the same verification discipline to your review: do not validate fabricated citations.";
         "You must respond with valid JSON."].

(** The two messages sent to every reviewer. *)
Definition messages (baseSystemPrompt : string) (stage1 : Stage1Result.t)
  : list (string * string) :=
  [("system", systemPrompt baseSystemPrompt); ("user", userPrompt stage1)].

End Stage2Prompt.

(* ------------------------------------------------------------------ *)
(** ** Properties of the Stage 2 prompt                                *)
(* ------------------------------------------------------------------ *)

Module Stage2PromptFacts.
Import Serialize Stage2Prompt.

(** What a reviewer is shown of an analysis. *)
Definition publicView (a : IndividualAnalysis.t) : string * json :=
  (IndividualAnalysis.label a, analysisBody a).

Definition entryOfView (v : string * json) : json :=
  JObj [("label", JStr (fst v)); ("analysis", snd v)].

Definition keysOf (j : json) : list string :=
  match j with
  | JObj kvs => map fst kvs
  | _ => []
  end.

(** The same analyses with other model identifiers (and other internal
    confidence and key points). *)
Definition reidentified (rename : IndividualAnalysis.t -> option string)
  (stage1 : Stage1Result.t) : Stage1Result.t :=
  Stage1Result.mk
    (map (fun a =>
            IndividualAnalysis.mk (IndividualAnalysis.label a)
              (IndividualAnalysis.content a) (IndividualAnalysis.confidence a)
              (IndividualAnalysis.keyPoints a) (rename a)
              (IndividualAnalysis._structured a))
       (Stage1Result.analyses stage1))
    (Stage1Result.complete stage1) (Stage1Result.errors stage1).

(** The claim's last sentence as it is worded: when no model identifier
    occurs in any analysis's content, none occurs in the user prompt. *)
Definition claimedNoIdentifier (members : list CouncilMember.t)
  (stage1 : Stage1Result.t) : Prop :=
  (forall m a, In m members -> In a (Stage1Result.analyses stage1) ->
     includes (IndividualAnalysis.content a) (CouncilMember.modelId m) = false) ->
  forall m, In m members ->
    includes (userPrompt stage1) (CouncilMember.modelId m) = false.

Definition plainAnalysis (lbl id text : string) : IndividualAnalysis.t :=
  IndividualAnalysis.mk lbl text (JStr "medium") [] (Some id) None.

Lemma reviewEntry_view a : reviewEntry a = entryOfView (publicView a).
Proof. reflexivity. Qed.

Lemma analysesForReview_views stage1 :
  analysesForReview stage1 =
  JArr (map entryOfView (map publicView (Stage1Result.analyses stage1))).
Proof.
  unfold analysesForReview. rewrite map_map. f_equal.
Qed.

Lemma publicView_reidentified rename stage1 :
  map publicView (Stage1Result.analyses (reidentified rename stage1)) =
  map publicView (Stage1Result.analyses stage1).
Proof.
  unfold reidentified. cbn [Stage1Result.analyses]. rewrite map_map.
  apply map_ext. intros a. reflexivity.
Qed.

Lemma messages_views base stage1 stage1' :
  map publicView (Stage1Result.analyses stage1) =
  map publicView (Stage1Result.analyses stage1') ->
  messages base stage1 = messages base stage1'.
Proof.
  intros H. unfold messages, userPrompt.
  now rewrite !analysesForReview_views, H.
Qed.

(** C6, counterexample.  A council seat configured with the identifier
    "model": neither analysis mentions it, but the fixed instruction text
    does ("guess which model produced each"), so the identifier occurs in
    the prompt. *)
Lemma identifier_in_instructions_counterexample :
  ~ claimedNoIdentifier
      [CouncilMember.mk "model" "A"; CouncilMember.mk "vendor/b" "B"]
      (Stage1Result.mk
         [plainAnalysis "A" "model" "No liability.";
          plainAnalysis "B" "vendor/b" "Liability is likely."] true []).
Proof.
  intros H.
  assert (includes
            (userPrompt
               (Stage1Result.mk
                  [plainAnalysis "A" "model" "No liability.";
                   plainAnalysis "B" "vendor/b" "Liability is likely."] true []))
            "model" = false) as E.
  { apply (H ltac:(intros m a [<- | [<- | []]] [<- | [<- | []]]; reflexivity)
             (CouncilMember.mk "model" "A")).
    now left. }
  vm_compute in E. discriminate.
Qed.

(** C6 (amended).  For every Stage-2 invocation the review payload holds, per
    Stage-1 analysis and in order, one object with exactly the keys "label"
    and "analysis": the session label and the analysis's structured data or
    content; the model-identifier field is not serialized.  The two messages
    sent to the reviewers are a function of those labels and bodies alone:
    two Stage-1 results that agree on them give the same messages, so
    replacing every model identifier by any other value leaves the prompt
    unchanged: a text occurs in the prompt exactly when it occurs in the
    prompt built from the analyses with their identifiers erased. *)
Theorem stage2_prompt_hides_identity :
  forall (baseSystemPrompt : string) (stage1 : Stage1Result.t),
    (exists entries,
        analysesForReview stage1 = JArr entries /\
        Forall (fun e => keysOf e = ["label"; "analysis"]) entries /\
        map (getProp "label") entries =
          map (fun a => Some (JStr (IndividualAnalysis.label a)))
            (Stage1Result.analyses stage1) /\
        map (getProp "analysis") entries =
          map (fun a => Some (analysisBody a)) (Stage1Result.analyses stage1))
    /\
    (forall stage1',
        map publicView (Stage1Result.analyses stage1) =
        map publicView (Stage1Result.analyses stage1') ->
        messages baseSystemPrompt stage1 = messages baseSystemPrompt stage1')
    /\
    (forall rename,
        messages baseSystemPrompt (reidentified rename stage1) =
        messages baseSystemPrompt stage1)
    /\
    (forall text,
        includes (userPrompt stage1) text =
        includes (userPrompt (reidentified (fun _ => None) stage1)) text).
Proof.
  intros base stage1. split; [|split; [|split]].
  - exists (map reviewEntry (Stage1Result.analyses stage1)).
    split; [reflexivity|]. split; [|split].
    + apply Forall_forall. intros e He.
      apply in_map_iff in He as (a & <- & _). reflexivity.
    + rewrite map_map. apply map_ext. intros a. reflexivity.
    + rewrite map_map. apply map_ext. intros a. reflexivity.
  - intros stage1'. apply messages_views.
  - intros rename. apply messages_views. apply publicView_reidentified.
  - intros text. unfold userPrompt.
    now rewrite !analysesForReview_views, publicView_reidentified.
Qed.

End Stage2PromptFacts.

(* ================================================================== *)
(** * Schema validation (schemas.ts)                                   *)
(* ================================================================== *)

Module Zod.

(** [schema.safeParse(j)]: the parsed data, or [None] when [success] is
    false. *)
Definition Schema : Type := json -> option json.

Definition z_string : Schema :=
  fun j => match j with JStr _ => Some j | _ => None end.

Definition z_boolean : Schema :=
  fun j => match j with JBool _ => Some j | _ => None end.

Definition z_enum (values : list string) : Schema :=
  fun j => match j with
           | JStr s => if existsb (String.eqb s) values then Some j else None
           | _ => None
           end.

(** [z.number().min(lo).max(hi)]. *)
Definition z_number_between (lo hi : Z) : Schema :=
  fun j => match j with
           | JNum n => if ((lo <=? n) && (n <=? hi))%Z then Some j else None
           | _ => None
           end.

Fixpoint all {A B} (f : A -> option B) (l : list A) : option (list B) :=
  match l with
  | [] => Some []
  | a :: l' =>
      match f a, all f l' with
      | Some b, Some bs => Some (b :: bs)
      | _, _ => None
      end
  end.

Definition z_array (element : Schema) : Schema :=
  fun j => match j with
           | JArr xs => option_map JArr (all element xs)
           | _ => None
           end.

(** A property of a [z.object] shape: its key, whether it is [.optional()],
    and its schema.  Unknown keys are stripped; the parsed object lists the
    known keys in shape order. *)
Definition Shape : Type := list (string * bool * Schema).

Fixpoint parseShape (shape : Shape) (kvs : list (string * json))
  : option (list (string * json)) :=
  match shape with
  | [] => Some []
  | (key, optional, schema) :: rest =>
      match assoc key kvs with
      | Some v =>
          match schema v, parseShape rest kvs with
          | Some v', Some parsed => Some ((key, v') :: parsed)
          | _, _ => None
          end
      | None => if optional then parseShape rest kvs else None
      end
  end.

Definition z_object (shape : Shape) : Schema :=
  fun j => match j with
           | JObj kvs => option_map JObj (parseShape shape kvs)
           | _ => None
           end.

(** [z.record(z.string(), value)]. *)
Definition z_record (value : Schema) : Schema :=
  fun j => match j with
           | JObj kvs =>
               option_map JObj
                 (all (fun kv => option_map (pair (fst kv)) (value (snd kv))) kvs)
           | _ => None
           end.

Definition levels : list string := ["low"; "medium"; "high"].

Definition Stage1AnalysisSchema : Schema :=
  z_object
    [("assessment", false, z_string);
     ("strengths", false, z_array z_string);
     ("weaknesses", false, z_array z_string);
     ("risks", false,
      z_array (z_object [("risk", false, z_string);
                         ("likelihood", false, z_enum levels);
                         ("impact", false, z_enum levels)]));
     ("confidence", false, z_enum levels);
     ("confidenceRationale", false, z_string);
     ("thresholdIssues", true,
      z_array (z_object [("issue", false, z_string);
                         ("status", false, z_enum ["known"; "assumed"; "unknown"]);
                         ("basis", true, z_string)]));
     ("adversarialArgument", true, z_string)].

Definition AnalysisEvaluationSchema : Schema :=
  z_object
    [("legalAccuracy", false, z_number_between 1 5);
     ("issueIdentification", false, z_number_between 1 5);
     ("riskCalibration", false, z_number_between 1 5);
     ("practicalUtility", false, z_number_between 1 5);
     ("comment", true, z_string)].

Definition Stage2ReviewSchema : Schema :=
  z_object
    [("evaluations", false, z_record AnalysisEvaluationSchema);
     ("ranking", false, z_array z_string);
     ("rankingRationale", false, z_string)].

End Zod.

(* ================================================================== *)
(** * Deliberation controller (orchestrator.ts)                        *)
(* ================================================================== *)

Module CouncilConfig.
(** [minimumSeats] is [None] when the caller left it undefined (or NaN).
    [concurrencyLimit] is a non-negative integer, as the loader produces. *)
Record t : Type := mk
  { councilModels : list string;
    chairmanOverrideModel : option string;
    minimumSeats : option Z;
    concurrencyLimit : nat }.
End CouncilConfig.

Module CouncilQuery.
Record t : Type := mk
  { query : string;
    queryType : option string }.
End CouncilQuery.

Module UsageSummary.
Record t : Type := mk
  { totalTokens : Z;
    totalCost : Q }.
End UsageSummary.

Module DeliberationMetadata.
Record t : Type := mk
  { durationMs : Z;
    participatingModels : list string;
    chairmanModel : string;
    estimatedTokens : Z;
    estimatedCostUsd : Q;
    debateRounds : nat }.
End DeliberationMetadata.

Module StageResults.
Record t : Type := mk
  { stage1 : Stage1Result.t;
    stage2 : Stage2Result.t;
    stage3 : Stage3Result.t }.
End StageResults.

Module CouncilDeliberation.
Record t : Type := mk
  { query : string;
    queryType : option string;
    sessionId : string;
    consensus : ConsensusResult.t;
    issuesIdentified : list json;
    riskAssessment : CalibratedRisk.t;
    dissent : list json;
    weaknessesFound : list json;
    openQuestions : list string;
    actionItems : list json;
    _stageResults : StageResults.t;
    metadata : DeliberationMetadata.t;
    _usage : UsageSummary.t;
    _audit : CouncilAudit.t }.
End CouncilDeliberation.

Module Orchestrator.
Import Serialize.

Definition DEFAULT_MINIMUM_QUORUM : Z := 2.

(** What [deliberate] can throw. *)
Inductive Thrown : Type :=
| CouncilQuorumError (message : string) (actualCount : nat) (requiredCount : Z)
    (underlyingErrors : list StageError.t)
| OtherError (message : string).

(** How the promise returned by [deliberate] ends. *)
Inductive Settlement : Type :=
| Resolved (deliberation : CouncilDeliberation.t)
| Rejected (error : Thrown)
| Pending.

(** A model call leaving the controller.  Stage 1 makes none: its tasks
    fail before [runAgentLoop] is entered (see [agentLoopAnswer]). *)
Inductive ModelCall : Type :=
| ReviewCall (modelId : string) (messages : list (string * string))
| ChairmanCall (modelId : string).

(** What a Stage-3 answer becomes after [safeParse], and after
    [extractPartialSynthesis] when validation fails. *)
Inductive ChairmanAnswer : Type :=
| Validated (synthesis : Stage3Synthesis.t)
| Salvaged (synthesis : Stage3Synthesis.t).

(** The environment of one deliberation: the appropriateness gate, the
    session id, what each Stage-2 and Stage-3 model call settles to, the
    order in which the promises of a stage settle, the clock readings and
    the usage tracker's summary.  Stage 1 takes from it only the order of
    settlement and the clock: no model call leaves it. *)
Record World : Type := mkWorld
  { appropriate : bool;
    reason : string;
    sessionId : string;
    reviewAnswer : nat -> Completion json;
    chairmanAnswer : string -> Completion ChairmanAnswer;
    settles1 : nat -> nat;
    settles2 : nat -> nat;
    beganAt : Z;
    startedAt : nat -> Z;
    settledAt : nat -> Z;
    endedAt : Z;
    usage : UsageSummary.t;
    baseSystemPrompt : string }.

Inductive MemberOutcome (A : Type) : Type :=
| Succeeded (a : A)
| Failed (errorMsg : string).
Arguments Succeeded {A} a.
Arguments Failed {A} errorMsg.

(** The task handed to the dispatcher catches its own errors and returns
    the value or null. *)
Definition taskOf {A} (o : MemberOutcome A) : Completion (option A) :=
  match o with
  | Succeeded a => Returned (Some a)
  | Failed _ => Returned None
  end.

(** [for (const result of results) if (result) out.push(result)]. *)
Definition keep {A} (results : list (option (option A))) : list A :=
  flat_map (fun r => match r with Some (Some a) => [a] | _ => [] end) results.

Definition assignLabels (modelIds : list string) : list CouncilMember.t :=
  Audit.mapi (fun index modelId =>
                CouncilMember.mk modelId
                  (String (ascii_of_nat (65 + index)) EmptyString))
    0 modelIds.

Definition minQuorumOf (config : CouncilConfig.t) : Z :=
  match CouncilConfig.minimumSeats config with
  | Some n => if (n =? 0)%Z then DEFAULT_MINIMUM_QUORUM else n
  | None => DEFAULT_MINIMUM_QUORUM
  end.

(* ------------------------------------------------------------------ *)
(** ** Stage 1                                                         *)
(* ------------------------------------------------------------------ *)

(** [Array.isArray(x) ? x.slice(0, 3).map(String) : []]. *)
Definition firstThree (x : option json) : list string :=
  match isArray x with
  | Some xs => map js_String (firstn 3 xs)
  | None => []
  end.

Definition extractKeyPointsFromAnalysis (analysis : json) : list string :=
  firstThree (getProp "strengths" analysis) ++
  firstThree (getProp "weaknesses" analysis).

Definition field (k : string) (data : json) : json :=
  match getProp k data with
  | Some v => v
  | None => JNull
  end.

(** The body of a Stage-1 task from the awaited call to the return, as a
    function of how the awaited call completes. *)
Definition stage1Outcome (member : CouncilMember.t)
  (answer : Completion (option json * option Z))
  : MemberOutcome (IndividualAnalysis.t * option Z) :=
  match answer with
  | Threw errorMsg => Failed errorMsg
  | Returned (finalJson, tokens) =>
      match finalJson with
      | Some j =>
          if truthy j then
            match Zod.Stage1AnalysisSchema j with
            | Some validatedData =>
                Succeeded
                  (IndividualAnalysis.mk (CouncilMember.sessionLabel member)
                     (stringify validatedData)
                     (field "confidence" validatedData)
                     (extractKeyPointsFromAnalysis validatedData)
                     (Some (CouncilMember.modelId member))
                     (Some validatedData), tokens)
            | None =>
                Succeeded
                  (IndividualAnalysis.mk (CouncilMember.sessionLabel member)
                     (stringify j)
                     (match getProp "confidence" j with
                      | Some v => if truthy v then v else JStr "medium"
                      | None => JStr "medium"
                      end)
                     (extractKeyPointsFromAnalysis j)
                     (Some (CouncilMember.modelId member))
                     (Some j), tokens)
            end
          else Failed "Agent failed to produce valid JSON after investigation"
      | None => Failed "Agent failed to produce valid JSON after investigation"
      end
  end.

(** The message of the ReferenceError that reading an unbound [sessionId]
    raises. *)
Definition referenceErrorMessage : string := "sessionId is not defined".

(** How the awaited call of a Stage-1 task completes.  The call is
    [this.runAgentLoop(member.modelId, [...], stage1JsonSchema,
    { sessionId, label })], and [runStage1] has no [sessionId] in scope: the
    only binding is a local constant of [deliberate].  Evaluating the last
    argument therefore raises a ReferenceError, inside the task's try and
    before [runAgentLoop] is entered. *)
Definition agentLoopAnswer : Completion (option json * option Z) :=
  Threw referenceErrorMessage.

Definition stage1Task (member : CouncilMember.t)
  : MemberOutcome (IndividualAnalysis.t * option Z) :=
  stage1Outcome member agentLoopAnswer.

Definition modelAt (members : list CouncilMember.t) (i : nat) : string :=
  match nth_error members i with
  | Some m => CouncilMember.modelId m
  | None => EmptyString
  end.

Definition labelAt (members : list CouncilMember.t) (i : nat) : string :=
  match nth_error members i with
  | Some m => CouncilMember.sessionLabel m
  | None => EmptyString
  end.

(** The [errors.push] of the tasks that failed, in the order in which their
    catch blocks ran. *)
Definition errorsOf {A} (stage : nat) (members : list CouncilMember.t)
  (outcomes : list (MemberOutcome A)) (settled : list nat) : list StageError.t :=
  flat_map (fun i => match nth_error outcomes i with
                     | Some (Failed errorMsg) =>
                         [StageError.mk stage (Some (modelAt members i))
                            errorMsg true]
                     | _ => []
                     end) settled.

Section Runtime.

Variable extractCitations : string -> list string.
Variable stringifySynthesis : Stage3Synthesis.t -> string.

(** The audit calls of Stage-1 task [i].  The task records its start, and
    its catch block records the failure before the task first suspends. *)
Definition recordTask (w : World) (members : list CouncilMember.t)
  (c : Audit.AuditCollector) (i : nat) : Audit.AuditCollector :=
  Audit.recordStage1Failure (modelAt members i) referenceErrorMessage
    (settledAt w i)
    (Audit.recordStage1Start (modelAt members i) (labelAt members i)
       (startedAt w i) c).

(** [runStage1].  Every task fails while it is being started, so the error
    entries and the audit records come in the order in which the dispatcher
    starts the tasks. *)
Definition runStage1 (w : World) (config : CouncilConfig.t)
  (members : list CouncilMember.t) (collector : Audit.AuditCollector)
  : option (Stage1Result.t * Audit.AuditCollector) :=
  let outcomes := map stage1Task members in
  let tasks := map taskOf outcomes in
  let limit := CouncilConfig.concurrencyLimit config in
  let final := Dispatcher.run _ tasks (settles1 w) limit in
  let started := Dispatcher.startedIndices (Dispatcher.trace final) in
  match Dispatcher.withConcurrencyLimit _ tasks (settles1 w) limit with
  | Some results =>
      let analyses := map fst (keep results) in
      Some (Stage1Result.mk analyses (length analyses =? length members)
              (errorsOf 1 members outcomes started),
            fold_left (recordTask w members) started collector)
  | None => None
  end.

(* ------------------------------------------------------------------ *)
(** ** Stage 2                                                         *)
(* ------------------------------------------------------------------ *)

Definition rankingOf (x : option json) (fallback : list string) : list string :=
  match isArray x with
  | Some xs => map js_String xs
  | None => fallback
  end.

(** The body of a Stage-2 task between the model call and the return. *)
Definition stage2Outcome (member : CouncilMember.t) (stage1 : Stage1Result.t)
  (answer : Completion json) : MemberOutcome PeerReview.t :=
  match answer with
  | Threw errorMsg => Failed errorMsg
  | Returned content =>
      match Zod.Stage2ReviewSchema content with
      | Some data =>
          Succeeded
            (PeerReview.mk (CouncilMember.sessionLabel member)
               (field "evaluations" data)
               (rankingOf (getProp "ranking" data) [])
               (js_String (field "rankingRationale" data))
               (Some (CouncilMember.modelId member)))
      | None =>
          match content with
          | JNull =>
              Failed "Cannot read properties of null (reading 'evaluations')"
          | raw =>
              Succeeded
                (PeerReview.mk (CouncilMember.sessionLabel member)
                   (match getProp "evaluations" raw with
                    | Some v => if truthy v then v else JObj []
                    | None => JObj []
                    end)
                   (rankingOf (getProp "ranking" raw)
                      (map IndividualAnalysis.label
                         (Stage1Result.analyses stage1)))
                   (match getProp "rankingRationale" raw with
                    | Some (JStr s) => s
                    | _ => "Rationale not provided"
                    end)
                   (Some (CouncilMember.modelId member)))
          end
      end
  end.

Definition runStage2 (w : World) (config : CouncilConfig.t)
  (stage1 : Stage1Result.t) (members : list CouncilMember.t)
  : option (Stage2Result.t * list ModelCall) :=
  let messages := Stage2Prompt.messages (baseSystemPrompt w) stage1 in
  let outcomes :=
    Audit.mapi (fun i m => stage2Outcome m stage1 (reviewAnswer w i)) 0 members in
  let tasks := map taskOf outcomes in
  let limit := CouncilConfig.concurrencyLimit config in
  let final := Dispatcher.run _ tasks (settles2 w) limit in
  match Dispatcher.withConcurrencyLimit _ tasks (settles2 w) limit with
  | Some results =>
      let peerReviews := keep results in
      Some (Stage2Result.mk peerReviews
              (Aggregation.calculateAggregateRankings peerReviews
                 (Stage1Result.analyses stage1))
              (length peerReviews =? length members)
              (errorsOf 2 members outcomes
                 (Dispatcher.settledIndices (Dispatcher.trace final))),
            map (fun i => ReviewCall (modelAt members i) messages)
              (Dispatcher.startedIndices (Dispatcher.trace final)))
  | None => None
  end.

(* ------------------------------------------------------------------ *)
(** ** Stage 3                                                         *)
(* ------------------------------------------------------------------ *)

Definition getEmptySynthesis (config : CouncilConfig.t) : Stage3Synthesis.t :=
  Stage3Synthesis.mk
    (ConsensusResult.mk false "Synthesis failed - see errors" 0 0
       (length (CouncilConfig.councilModels config)))
    []
    (CalibratedRisk.mk "medium" [] false false
       "Unable to complete risk assessment")
    [] [] [] [] None.

Definition runStage3WithChairman (w : World) (config : CouncilConfig.t)
  (chairmanModel : string) : Stage3Result.t :=
  match chairmanAnswer w chairmanModel with
  | Returned (Validated synthesis) =>
      Stage3Result.mk synthesis chairmanModel true []
  | Returned (Salvaged synthesis) =>
      Stage3Result.mk synthesis chairmanModel true
        [StageError.mk 3 None
           "Chairman response did not fully validate, using partial extraction"
           true]
  | Threw errorMsg =>
      Stage3Result.mk (getEmptySynthesis config) chairmanModel false
        [StageError.mk 3 (Some chairmanModel) errorMsg false]
  end.

(* ------------------------------------------------------------------ *)
(** ** deliberate                                                      *)
(* ------------------------------------------------------------------ *)

Definition constructDeliberation (w : World) (query : CouncilQuery.t)
  (stage1 : Stage1Result.t) (stage2 : Stage2Result.t) (stage3 : Stage3Result.t)
  (members : list CouncilMember.t) (audit : CouncilAudit.t)
  : CouncilDeliberation.t :=
  let synthesis := Stage3Result.synthesis stage3 in
  CouncilDeliberation.mk (CouncilQuery.query query)
    (CouncilQuery.queryType query) (sessionId w)
    (Stage3Synthesis.consensus synthesis) (Stage3Synthesis.issues synthesis)
    (Stage3Synthesis.risk synthesis) (Stage3Synthesis.dissent synthesis)
    (Stage3Synthesis.weaknesses synthesis)
    (Stage3Synthesis.openQuestions synthesis)
    (Stage3Synthesis.actionItems synthesis)
    (StageResults.mk stage1 stage2 stage3)
    (DeliberationMetadata.mk (endedAt w - beganAt w)%Z
       (map CouncilMember.modelId
          (filter (fun m => existsb (Chairman.producedBy (CouncilMember.modelId m))
                              (Stage1Result.analyses stage1)) members))
       (Stage3Result.chairmanModel stage3)
       (UsageSummary.totalTokens (usage w)) (UsageSummary.totalCost (usage w)) 1)
    (usage w) audit.

Definition stage1QuorumError (stage1 : Stage1Result.t)
  (members : list CouncilMember.t) (minQuorum : Z) : Thrown :=
  let n := length (Stage1Result.analyses stage1) in
  CouncilQuorumError
    ("Council failed to reach quorum. Only " ++ string_of_nat n ++ " of " ++
     string_of_nat (length members) ++ " members responded. Minimum required: " ++
     string_of_Z minQuorum)%string
    n minQuorum (Stage1Result.errors stage1).

Definition stage2QuorumError (stage2 : Stage2Result.t) (minQuorum : Z) : Thrown :=
  let n := length (Stage2Result.peerReviews stage2) in
  CouncilQuorumError
    ("Peer review failed to reach quorum. Only " ++ string_of_nat n ++
     " reviews completed. Minimum required: " ++ string_of_Z minQuorum)%string
    n minQuorum (Stage2Result.errors stage2).

(** [runStage3WithChairman] sorts [stage2.aggregateRankings] in place before
    it builds its prompt. *)
Definition sortedInPlace (stage2 : Stage2Result.t) : Stage2Result.t :=
  Stage2Result.mk (Stage2Result.peerReviews stage2)
    (Aggregation.sortByRank (Stage2Result.aggregateRankings stage2))
    (Stage2Result.complete stage2) (Stage2Result.errors stage2).

(** The tail of [deliberate] once both quorum checks have passed. *)
Definition synthesize (w : World) (config : CouncilConfig.t)
  (query : CouncilQuery.t) (members : list CouncilMember.t)
  (collector : Audit.AuditCollector) (stage1 : Stage1Result.t)
  (stage2 : Stage2Result.t) : Settlement * list ModelCall :=
  let chairmanSelection :=
    fst (Chairman.selectChairman stage1 stage2
           (CouncilConfig.chairmanOverrideModel config)) in
  let collector' :=
    Audit.recordChairmanSelection
      (ChairmanSelectionAudit.mk
         (ChairmanSelectionResult.method chairmanSelection)
         (ChairmanSelectionResult.model chairmanSelection)
         (ChairmanSelectionResult.rationale chairmanSelection)
         (ChairmanSelectionResult.alternativesConsidered chairmanSelection))
      collector in
  let chairmanModel := ChairmanSelectionResult.model chairmanSelection in
  let stage2' := sortedInPlace stage2 in
  let stage3 := runStage3WithChairman w config chairmanModel in
  (match Audit.buildAudit extractCitations stringifySynthesis collector'
           (endedAt w) stage1 stage2' stage3
           (CouncilConfig.councilModels config) with
   | Returned audit =>
       Resolved (constructDeliberation w query stage1 stage2' stage3 members audit)
   | Threw message => Rejected (OtherError message)
   end,
   [ChairmanCall chairmanModel]).

(** [deliberate] from the Stage-1 quorum check on. *)
Definition afterStage1 (w : World) (config : CouncilConfig.t)
  (query : CouncilQuery.t) (members : list CouncilMember.t)
  (collector : Audit.AuditCollector) (stage1 : Stage1Result.t)
  : Settlement * list ModelCall :=
  let minQuorum := minQuorumOf config in
  if (Z.of_nat (length (Stage1Result.analyses stage1)) <? minQuorum)%Z
  then (Rejected (stage1QuorumError stage1 members minQuorum), [])
  else
    match runStage2 w config stage1 members with
    | None => (Pending, [])
    | Some (stage2, calls2) =>
        if (Z.of_nat (length (Stage2Result.peerReviews stage2)) <? minQuorum)%Z
        then (Rejected (stage2QuorumError stage2 minQuorum), calls2)
        else
          let tail :=
            synthesize w config query members collector stage1 stage2 in
          (fst tail, calls2 ++ snd tail)
    end.

Definition deliberate (w : World) (config : CouncilConfig.t)
  (query : CouncilQuery.t) : Settlement * list ModelCall :=
  if negb (appropriate w) then (Rejected (OtherError (reason w)), [])
  else
    let members := assignLabels (CouncilConfig.councilModels config) in
    match runStage1 w config members
            (Audit.newCollector (sessionId w) (beganAt w)) with
    | None => (Pending, [])
    | Some (stage1, collector) =>
        afterStage1 w config query members collector stage1
    end.

End Runtime.

End Orchestrator.

(* ------------------------------------------------------------------ *)
(** ** Properties of the deliberation controller                       *)
(* ------------------------------------------------------------------ *)

Module OrchestratorFacts.
Import Orchestrator.

(** The values of the members that succeeded, in member order. *)
Definition successes {A} (outcomes : list (MemberOutcome A)) : list A :=
  flat_map (fun o => match o with Succeeded a => [a] | Failed _ => [] end)
    outcomes.

Definition stage2Outcomes (w : World) (stage1 : Stage1Result.t)
  (members : list CouncilMember.t) : list (MemberOutcome PeerReview.t) :=
  Audit.mapi (fun i m => stage2Outcome m stage1 (reviewAnswer w i)) 0 members.

(** One error entry per failed member, in member order. *)
Definition failuresOf {A} (stage : nat) (members : list CouncilMember.t)
  (outcomes : list (MemberOutcome A)) : list StageError.t :=
  errorsOf stage members outcomes (seq 0 (length outcomes)).

Definition isReviewCall (c : ModelCall) : Prop :=
  match c with
  | ReviewCall _ _ => True
  | _ => False
  end.

(** The error entry of a seat whose Stage-1 task failed on the unbound
    identifier. *)
Definition seatError (m : CouncilMember.t) : StageError.t :=
  StageError.mk 1 (Some (CouncilMember.modelId m)) referenceErrorMessage true.

(** The Stage-3 result of a chairman call that threw. *)
Definition failedSynthesis (config : CouncilConfig.t) (chairmanModel errorMsg : string)
  : Stage3Result.t :=
  Stage3Result.mk (getEmptySynthesis config) chairmanModel false
    [StageError.mk 3 (Some chairmanModel) errorMsg false].

(** An element of a thresholdIssues array that the audit can normalise. *)
Definition wellFormedIssue (issue : json) : Prop :=
  exists s, Audit.normalizedIssue issue = Returned s.

Definition wellFormedAnalysis (a : IndividualAnalysis.t) : Prop :=
  forall issues, Audit.thresholdIssuesOf a = Some issues ->
                 Forall wellFormedIssue issues.

Lemma keep_slots {A} (outcomes : list (MemberOutcome A)) :
  keep (map (Dispatcher.slot _) (map taskOf outcomes)) = successes outcomes.
Proof.
  unfold keep, successes.
  induction outcomes as [|o rest IH]; simpl; [reflexivity|].
  rewrite IH. now destruct o.
Qed.

Lemma keep_repeat_None {A} n : keep (repeat (@None (option A)) n) = [].
Proof. induction n as [|n IH]; simpl; [reflexivity | exact IH]. Qed.

Lemma errorsOf_perm {A} stage members (outcomes : list (MemberOutcome A))
  settled settled' :
  Permutation settled settled' ->
  Permutation (errorsOf stage members outcomes settled)
    (errorsOf stage members outcomes settled').
Proof. intros H. unfold errorsOf. now apply Permutation_flat_map. Qed.

Lemma successes_stage1 members : successes (map stage1Task members) = [].
Proof. induction members as [|m members IH]; [reflexivity | exact IH]. Qed.

(** Started in seat order, the Stage-1 tasks leave one error entry per
    seat, in seat order. *)
Lemma errorsOf_stage1 before members :
  errorsOf 1 (before ++ members) (map stage1Task (before ++ members))
    (seq (length before) (length members))
  = map seatError members.
Proof.
  revert before. induction members as [|m members IH]; intros before;
    [reflexivity|].
  cbn [length seq]. unfold errorsOf in *. cbn [flat_map map].
  rewrite nth_error_map, nth_error_app2, Nat.sub_diag by lia.
  cbn [nth_error option_map stage1Task stage1Outcome agentLoopAnswer].
  unfold modelAt. rewrite nth_error_app2, Nat.sub_diag by lia.
  cbn [nth_error app]. fold (seatError m). f_equal.
  specialize (IH (before ++ [m])).
  rewrite <- app_assoc, length_app in IH. cbn [app length] in IH.
  rewrite Nat.add_1_r in IH. exact IH.
Qed.

(** Without a worker the dispatcher starts nothing and resolves with the
    array of nulls. *)
Lemma dispatch_without_workers (T : Type) (tasks : list (Completion T))
  (schedule : nat -> nat) :
  Dispatcher.run T tasks schedule 0 = Dispatcher.initial T tasks /\
  Dispatcher.withConcurrencyLimit T tasks schedule 0
  = Some (repeat None (length tasks)).
Proof.
  assert (Dispatcher.run T tasks schedule 0 = Dispatcher.initial T tasks) as H.
  { unfold Dispatcher.run. cbn [Nat.min Dispatcher.spawn].
    destruct (length tasks); reflexivity. }
  split; [exact H|].
  unfold Dispatcher.withConcurrencyLimit. now rewrite H.
Qed.

Lemma countIssues_returns label issues counts :
  Forall wellFormedIssue issues ->
  exists counts', Audit.countIssues label issues counts = Returned counts'.
Proof.
  intros H. revert counts.
  induction H as [|issue rest (s & Hs) _ IH]; intros counts; simpl;
    [eauto|].
  rewrite Hs. simpl. apply IH.
Qed.

Lemma thresholdCountsOf_returns analyses counts :
  Forall wellFormedAnalysis analyses ->
  exists counts', Audit.thresholdCountsOf analyses counts = Returned counts'.
Proof.
  intros H. revert counts.
  induction H as [|a rest Ha _ IH]; intros counts; simpl; [eauto|].
  destruct (Audit.thresholdIssuesOf a) as [issues|] eqn:E; [|apply IH].
  destruct (countIssues_returns (IndividualAnalysis.label a) issues counts
              (Ha issues E)) as (counts' & ->).
  simpl. apply IH.
Qed.

Lemma detectCrossStageAnomalies_returns stage1 stage2 :
  Forall wellFormedAnalysis (Stage1Result.analyses stage1) ->
  exists cross, Audit.detectCrossStageAnomalies stage1 stage2 = Returned cross.
Proof.
  intros H. unfold Audit.detectCrossStageAnomalies.
  destruct (thresholdCountsOf_returns (Stage1Result.analyses stage1) [] H)
    as (counts & ->).
  simpl. eauto.
Qed.

Section Facts.

Variable extractCitations : string -> list string.
Variable stringifySynthesis : Stage3Synthesis.t -> string.

Local Abbreviation deliberate := (deliberate extractCitations stringifySynthesis).
Local Abbreviation afterStage1 := (afterStage1 extractCitations stringifySynthesis).
Local Abbreviation synthesize := (synthesize extractCitations stringifySynthesis).

(** Stage 1 always completes, and never with an analysis. *)
Lemma runStage1_resolves w config members collector :
  exists stage1 collector',
    runStage1 w config members collector = Some (stage1, collector') /\
    Stage1Result.analyses stage1 = [].
Proof.
  unfold runStage1. cbv zeta.
  destruct (CouncilConfig.concurrencyLimit config) as [|limit].
  - destruct (dispatch_without_workers _
                (map taskOf (map stage1Task members)) (settles1 w)) as [_ ->].
    do 2 eexists. split; [reflexivity|].
    cbn [Stage1Result.analyses]. now rewrite keep_repeat_None.
  - destruct (DispatcherFacts.dispatch_results _
                (map taskOf (map stage1Task members)) (settles1 w) (S limit))
      as (-> & _); [lia|].
    do 2 eexists. split; [reflexivity|].
    cbn [Stage1Result.analyses]. now rewrite keep_slots, successes_stage1.
Qed.

(** With at least one worker every seat is started, fails and is recorded,
    in seat order. *)
Lemma runStage1_results w config members collector :
  1 <= CouncilConfig.concurrencyLimit config ->
  runStage1 w config members collector =
  Some (Stage1Result.mk [] (0 =? length members) (map seatError members),
        fold_left (recordTask w members) (seq 0 (length members)) collector).
Proof.
  intros Hl. unfold runStage1. cbv zeta.
  destruct (DispatcherFacts.dispatch_results _
              (map taskOf (map stage1Task members)) (settles1 w)
              (CouncilConfig.concurrencyLimit config) Hl) as (-> & -> & _).
  rewrite keep_slots, successes_stage1, !length_map.
  pose proof (errorsOf_stage1 [] members) as He. cbn [app length] in He.
  now rewrite He.
Qed.

Lemma runStage2_resolves w config stage1 members :
  exists stage2 calls,
    runStage2 w config stage1 members = Some (stage2, calls) /\
    Forall isReviewCall calls.
Proof.
  unfold runStage2. cbv zeta.
  destruct (DispatcherFacts.dispatch_resolves _
              (map taskOf (stage2Outcomes w stage1 members)) (settles2 w)
              (CouncilConfig.concurrencyLimit config)) as (results & Hres).
  unfold stage2Outcomes in Hres. rewrite Hres.
  do 2 eexists. split; [reflexivity|].
  apply Forall_forall. intros c Hc.
  apply in_map_iff in Hc as (i & <- & _). exact I.
Qed.

Lemma runStage2_results w config stage1 members stage2 calls :
  1 <= CouncilConfig.concurrencyLimit config ->
  runStage2 w config stage1 members = Some (stage2, calls) ->
  Stage2Result.peerReviews stage2 = successes (stage2Outcomes w stage1 members) /\
  Stage2Result.aggregateRankings stage2 =
    Aggregation.calculateAggregateRankings (Stage2Result.peerReviews stage2)
      (Stage1Result.analyses stage1) /\
  Permutation (Stage2Result.errors stage2)
    (failuresOf 2 members (stage2Outcomes w stage1 members)).
Proof.
  intros Hl. unfold runStage2. cbv zeta.
  fold (stage2Outcomes w stage1 members).
  destruct (DispatcherFacts.dispatch_results _
              (map taskOf (stage2Outcomes w stage1 members)) (settles2 w)
              (CouncilConfig.concurrencyLimit config) Hl) as (Hres & _ & Hperm).
  rewrite Hres. intros H. injection H as <- _.
  cbn [Stage2Result.peerReviews Stage2Result.aggregateRankings
       Stage2Result.errors].
  rewrite keep_slots. split; [reflexivity|]. split; [reflexivity|].
  unfold failuresOf. apply errorsOf_perm.
  now rewrite length_map in Hperm.
Qed.

Lemma afterStage1_stage1_gate w config query members collector stage1 :
  (Z.of_nat (length (Stage1Result.analyses stage1)) < minQuorumOf config)%Z ->
  afterStage1 w config query members collector stage1 =
  (Rejected (stage1QuorumError stage1 members (minQuorumOf config)), []).
Proof.
  intros Hlt. unfold Orchestrator.afterStage1. cbv zeta.
  apply Z.ltb_lt in Hlt. now rewrite Hlt.
Qed.

Lemma afterStage1_stage2_gate w config query members collector stage1 stage2
  calls2 :
  (minQuorumOf config <= Z.of_nat (length (Stage1Result.analyses stage1)))%Z ->
  runStage2 w config stage1 members = Some (stage2, calls2) ->
  (Z.of_nat (length (Stage2Result.peerReviews stage2)) < minQuorumOf config)%Z ->
  afterStage1 w config query members collector stage1 =
  (Rejected (stage2QuorumError stage2 (minQuorumOf config)), calls2).
Proof.
  intros Hge Hrun2 Hlt. unfold Orchestrator.afterStage1. cbv zeta.
  apply Z.ltb_ge in Hge. rewrite Hge, Hrun2.
  apply Z.ltb_lt in Hlt. now rewrite Hlt.
Qed.

Lemma afterStage1_synthesis w config query members collector stage1 stage2
  calls2 :
  (minQuorumOf config <= Z.of_nat (length (Stage1Result.analyses stage1)))%Z ->
  runStage2 w config stage1 members = Some (stage2, calls2) ->
  (minQuorumOf config <= Z.of_nat (length (Stage2Result.peerReviews stage2)))%Z ->
  afterStage1 w config query members collector stage1 =
  (fst (synthesize w config query members collector stage1 stage2),
   calls2 ++ snd (synthesize w config query members collector stage1 stage2)).
Proof.
  intros Hge1 Hrun2 Hge2. unfold Orchestrator.afterStage1. cbv zeta.
  apply Z.ltb_ge in Hge1. rewrite Hge1, Hrun2.
  apply Z.ltb_ge in Hge2. now rewrite Hge2.
Qed.

(** [deliberate] on an appropriate query is the code after Stage 1 applied
    to a Stage-1 result that holds no analysis. *)
Lemma deliberate_afterStage1 w config query :
  appropriate w = true ->
  exists stage1 collector,
    runStage1 w config (assignLabels (CouncilConfig.councilModels config))
      (Audit.newCollector (sessionId w) (beganAt w))
    = Some (stage1, collector) /\
    Stage1Result.analyses stage1 = [] /\
    deliberate w config query =
    afterStage1 w config query
      (assignLabels (CouncilConfig.councilModels config)) collector stage1.
Proof.
  intros Ha.
  destruct (runStage1_resolves w config
              (assignLabels (CouncilConfig.councilModels config))
              (Audit.newCollector (sessionId w) (beganAt w)))
    as (stage1 & collector & Hrun & Hnone).
  exists stage1, collector. split; [exact Hrun|]. split; [exact Hnone|].
  unfold Orchestrator.deliberate. rewrite Ha. cbn [negb]. cbv zeta.
  now rewrite Hrun.
Qed.

(** C1.  The required count is the configured minimumSeats, or 2 when none
    is configured.  Once the appropriateness gate has let the query through,
    Stage 1 always completes, and [deliberate] is the code that follows
    Stage 1 run on its result.  That code, for every Stage-1 result: if the
    number of Stage-1 analyses is below the required count, it rejects with
    a CouncilQuorumError carrying that number, the required count and the
    Stage-1 error list, and no model call has been made, so no Stage-2 call
    is dispatched; otherwise Stage 2 completes, and if the number of
    completed peer reviews is below the required count, it rejects with a
    CouncilQuorumError carrying that number, the required count and the
    Stage-2 error list, after review calls only.  The Stage-1 result that
    [deliberate] itself obtains holds no analysis (every seat fails on the
    unbound [sessionId]), and with at least one worker its error list holds
    one entry per seat, in seat order. *)
Theorem deliberate_quorum_gate :
  forall (w : World) (config : CouncilConfig.t) (query : CouncilQuery.t),
    appropriate w = true ->
    let members := assignLabels (CouncilConfig.councilModels config) in
    let minQuorum := minQuorumOf config in
    (forall n, CouncilConfig.minimumSeats config = Some n -> n <> 0%Z ->
               minQuorum = n) /\
    (CouncilConfig.minimumSeats config = None -> minQuorum = 2%Z) /\
    (exists stage1 collector,
        runStage1 w config members (Audit.newCollector (sessionId w) (beganAt w))
        = Some (stage1, collector) /\
        Stage1Result.analyses stage1 = [] /\
        (1 <= CouncilConfig.concurrencyLimit config ->
         Stage1Result.errors stage1 = map seatError members) /\
        deliberate w config query =
        afterStage1 w config query members collector stage1) /\
    forall (collector : Audit.AuditCollector) (stage1 : Stage1Result.t),
      let outcome := afterStage1 w config query members collector stage1 in
      ((Z.of_nat (length (Stage1Result.analyses stage1)) < minQuorum)%Z ->
       exists message,
         outcome =
           (Rejected (CouncilQuorumError message
                        (length (Stage1Result.analyses stage1)) minQuorum
                        (Stage1Result.errors stage1)), [])) /\
      ((minQuorum <= Z.of_nat (length (Stage1Result.analyses stage1)))%Z ->
       exists stage2 calls2,
         runStage2 w config stage1 members = Some (stage2, calls2) /\
         Forall isReviewCall calls2 /\
         (1 <= CouncilConfig.concurrencyLimit config ->
          Stage2Result.peerReviews stage2 =
            successes (stage2Outcomes w stage1 members) /\
          Permutation (Stage2Result.errors stage2)
            (failuresOf 2 members (stage2Outcomes w stage1 members))) /\
         ((Z.of_nat (length (Stage2Result.peerReviews stage2)) < minQuorum)%Z ->
          exists message,
            outcome =
              (Rejected (CouncilQuorumError message
                           (length (Stage2Result.peerReviews stage2)) minQuorum
                           (Stage2Result.errors stage2)), calls2))).
Proof.
  intros w config query Ha members minQuorum.
  split; [|split; [|split]].
  - intros n Hn Hz. unfold minQuorum, minQuorumOf. rewrite Hn.
    apply Z.eqb_neq in Hz. now rewrite Hz.
  - intros Hn. unfold minQuorum, minQuorumOf. now rewrite Hn.
  - destruct (deliberate_afterStage1 w config query Ha)
      as (stage1 & collector & Hrun & Hnone & Hd).
    exists stage1, collector. fold members in Hrun, Hd.
    split; [exact Hrun|]. split; [exact Hnone|]. split; [|exact Hd].
    intros Hl.
    rewrite (runStage1_results w config members _ Hl) in Hrun.
    injection Hrun as <- _. reflexivity.
  - intros collector stage1 outcome. split.
    + intros Hlt. eexists. unfold outcome.
      rewrite (afterStage1_stage1_gate w config query members collector stage1
                 Hlt).
      reflexivity.
    + intros Hge.
      destruct (runStage2_resolves w config stage1 members)
        as (stage2 & calls2 & Hrun2 & Hcalls).
      exists stage2, calls2. split; [exact Hrun2|]. split; [exact Hcalls|].
      split.
      * intros Hl.
        destruct (runStage2_results w config stage1 members stage2 calls2 Hl
                    Hrun2) as (H1 & _ & H2).
        now split.
      * intros Hlt. eexists. unfold outcome.
        rewrite (afterStage1_stage2_gate w config query members collector
                   stage1 stage2 calls2 Hge Hrun2 Hlt).
        reflexivity.
Qed.

(** After both quorum checks, a chairman call that throws is absorbed by
    Stage 3; what the code then does is decided by the audit: it resolves
    with the empty synthesis when the cross-stage scan returns, and rejects
    with the scan's error when the scan throws. *)
Lemma synthesize_after_chairman_failure w config query members collector
  stage1 stage2 errorMsg :
  let chairmanModel :=
    ChairmanSelectionResult.model
      (fst (Chairman.selectChairman stage1 stage2
              (CouncilConfig.chairmanOverrideModel config))) in
  let settlement :=
    fst (synthesize w config query members collector stage1 stage2) in
  chairmanAnswer w chairmanModel = Threw errorMsg ->
  (forall cross,
     Audit.detectCrossStageAnomalies stage1 (sortedInPlace stage2)
     = Returned cross ->
     exists d,
       settlement = Resolved d /\
       StageResults.stage3 (CouncilDeliberation._stageResults d)
       = failedSynthesis config chairmanModel errorMsg /\
       CouncilDeliberation.consensus d
       = Stage3Synthesis.consensus (getEmptySynthesis config) /\
       CouncilDeliberation.issuesIdentified d = [] /\
       CouncilDeliberation.dissent d = [] /\
       CouncilDeliberation.weaknessesFound d = [] /\
       CouncilDeliberation.openQuestions d = [] /\
       CouncilDeliberation.actionItems d = []) /\
  (forall message,
     Audit.detectCrossStageAnomalies stage1 (sortedInPlace stage2)
     = Threw message ->
     settlement = Rejected (OtherError message)).
Proof.
  intros chairmanModel settlement Hthrow.
  unfold settlement, Orchestrator.synthesize. cbv zeta.
  fold chairmanModel. unfold runStage3WithChairman. rewrite Hthrow.
  unfold Audit.buildAudit. cbv zeta.
  split.
  - intros cross ->. cbn [bindC fst]. eexists. split; [reflexivity|].
    repeat split.
  - intros message ->. reflexivity.
Qed.

(** The chairman call of a deliberation, when there is one, goes to the
    model that [selectChairman] returns for the results of the two stages,
    and both quorum checks have passed. *)
Lemma chairman_call_inv w config query chairman :
  In (ChairmanCall chairman) (snd (deliberate w config query)) ->
  exists stage1 collector stage2 calls2,
    Stage1Result.analyses stage1 = [] /\
    chairman =
      ChairmanSelectionResult.model
        (fst (Chairman.selectChairman stage1 stage2
                (CouncilConfig.chairmanOverrideModel config))) /\
    deliberate w config query =
    (fst (synthesize w config query
            (assignLabels (CouncilConfig.councilModels config)) collector
            stage1 stage2),
     calls2 ++ [ChairmanCall chairman]).
Proof.
  intros Hin. unfold Orchestrator.deliberate in *.
  destruct (appropriate w) eqn:Ha; cbn [negb] in *; [|destruct Hin].
  cbv zeta in *.
  destruct (runStage1_resolves w config
              (assignLabels (CouncilConfig.councilModels config))
              (Audit.newCollector (sessionId w) (beganAt w)))
    as (stage1 & collector & Hrun & Hnone).
  rewrite Hrun in *. unfold Orchestrator.afterStage1 in *. cbv zeta in *.
  destruct (_ <? _)%Z; [destruct Hin|].
  destruct (runStage2_resolves w config stage1
              (assignLabels (CouncilConfig.councilModels config)))
    as (stage2 & calls2 & Hrun2 & Hcalls).
  rewrite Hrun2 in *.
  destruct (_ <? _)%Z.
  { cbn [snd] in Hin. rewrite Forall_forall in Hcalls.
    destruct (Hcalls _ Hin). }
  cbn [snd fst] in *. unfold Orchestrator.synthesize in Hin. cbn [snd] in Hin.
  apply in_app_or in Hin as [Hin | [Hin | []]].
  { rewrite Forall_forall in Hcalls. destruct (Hcalls _ Hin). }
  injection Hin as Hc.
  exists stage1, collector, stage2, calls2.
  split; [exact Hnone|]. split; [now rewrite Hc|].
  unfold Orchestrator.synthesize. cbn [fst snd]. rewrite Hc. reflexivity.
Qed.


End Facts.

(* ---- concrete deliberations ---- *)

Definition noCitations : string -> list string := fun _ => [].
Definition noText : Stage3Synthesis.t -> string := fun _ => EmptyString.

Definition twoSeats : CouncilConfig.t :=
  CouncilConfig.mk ["vendor/a"; "vendor/b"] None (Some 2%Z) 3.

(** Two seats and a negative minimum: both quorum checks pass with nothing. *)
Definition noQuorum : CouncilConfig.t :=
  CouncilConfig.mk ["vendor/a"; "vendor/b"] None (Some (-1)%Z) 3.

Definition someQuery : CouncilQuery.t :=
  CouncilQuery.mk "Is the claim time-barred?" (Some "issue-spotting").

Definition evaluation : json :=
  JObj [("legalAccuracy", JNum 4); ("issueIdentification", JNum 4);
        ("riskCalibration", JNum 3); ("practicalUtility", JNum 4)].

Definition reviewAB : json :=
  JObj [("evaluations", JObj [("A", evaluation); ("B", evaluation)]);
        ("ranking", JArr [JStr "A"; JStr "B"]);
        ("rankingRationale", JStr "A addresses the limitation period.")].

Definition world (review : nat -> Completion json)
  (chairman : string -> Completion ChairmanAnswer) : World :=
  mkWorld true "" "session-1" review chairman
    (fun _ => 0) (fun _ => 0) 1000 (fun i => 1000 + Z.of_nat i)%Z
    (fun i => 5000 + Z.of_nat i)%Z 9000 (UsageSummary.mk 4200 (1 # 10)) "base".

(** Seat A's review validates, seat B's review call times out. *)
Definition oneReview : World :=
  world (fun i => match i with
                  | 0 => Returned reviewAB
                  | _ => Threw "Request timed out"
                  end)
    (fun _ => Threw "unreachable").

(** Both review calls answer; the chairman call times out. *)
Definition chairmanTimesOut : World :=
  world (fun _ => Returned reviewAB) (fun _ => Threw "Request timed out").

(** Two seats, minimum 2.  [deliberate] obtains no analysis and rejects with
    0 of 2 and the two seats' errors, without a model call. *)
Lemma deliberate_quorum_gate_witness :
  appropriate oneReview = true /\
  exists message,
    deliberate noCitations noText oneReview twoSeats someQuery =
    (Rejected (CouncilQuorumError message 0 2
                 [StageError.mk 1 (Some "vendor/a") "sessionId is not defined"
                    true;
                  StageError.mk 1 (Some "vendor/b") "sessionId is not defined"
                    true]), []).
Proof.
  split; [reflexivity|].
  destruct (deliberate_quorum_gate noCitations noText oneReview twoSeats
              someQuery eq_refl)
    as (_ & _ & (stage1 & collector & Hrun & Hnone & Herr & Hd) & Hgate).
  destruct (proj1 (Hgate collector stage1)) as (message & Hout).
  { rewrite Hnone. reflexivity. }
  exists message. rewrite Hd, Hout, Hnone, Herr; [reflexivity|].
  cbv. repeat constructor.
Defined.


End OrchestratorFacts.

(* ================================================================== *)
(** * Further properties of the aggregation engine                     *)
(* ================================================================== *)

Module AggregationBounds.
Import Aggregation.

(** Some review ranks the label of the analysis. *)
Definition ranked (reviews : list PeerReview.t) (a : IndividualAnalysis.t) : bool :=
  existsb (AggregationFacts.mentions (IndividualAnalysis.label a)) reviews.

(** The longest ranking any reviewer returned. *)
Definition longestRanking (reviews : list PeerReview.t) : nat :=
  list_max (map (fun r => length (PeerReview.ranking r)) reviews).

Definition rankLt (x y : AggregateRanking.t) : Prop :=
  (AggregateRanking.averageRank x < AggregateRanking.averageRank y)%Q.

Lemma fold_Qplus_acc (l : list Q) (a : Q) :
  (fold_left Qplus l a == a + Qsum l)%Q.
Proof.
  unfold Qsum. revert a. induction l as [|x l IH]; intros a; simpl.
  - ring.
  - rewrite (IH (a + x)%Q), (IH (0 + x)%Q). ring.
Qed.

Lemma Qsum_cons (x : Q) (l : list Q) : (Qsum (x :: l) == x + Qsum l)%Q.
Proof. unfold Qsum at 1. simpl. rewrite fold_Qplus_acc. ring. Qed.

Lemma Qlen_cons {A} (x : A) (l : list A) : (Qlen (x :: l) == 1 + Qlen l)%Q.
Proof.
  unfold Qlen. cbn [length]. rewrite Nat2Z.inj_succ, <- Z.add_1_l.
  now rewrite inject_Z_plus.
Qed.

Lemma Qlen_nonneg {A} (l : list A) : (0 <= Qlen l)%Q.
Proof.
  unfold Qlen. change 0%Q with (inject_Z 0). rewrite <- Zle_Qle. lia.
Qed.

Lemma Qlen_pos {A} (l : list A) : l <> [] -> (0 < Qlen l)%Q.
Proof.
  intros H. unfold Qlen. change 0%Q with (inject_Z 0). rewrite <- Zlt_Qlt.
  destruct l; [congruence | simpl; lia].
Qed.

Lemma Qsum_between (lo hi : Q) (l : list Q) :
  Forall (fun p => lo <= p <= hi)%Q l ->
  (lo * Qlen l <= Qsum l <= hi * Qlen l)%Q.
Proof.
  induction 1 as [|p l [Hlo Hhi] _ [IHlo IHhi]].
  - unfold Qsum, Qlen. simpl. split; rewrite Qmult_0_r; apply Qle_refl.
  - rewrite Qsum_cons, Qlen_cons. split.
    + setoid_replace (lo * (1 + Qlen l))%Q with (lo + lo * Qlen l)%Q by ring.
      now apply Qplus_le_compat.
    + setoid_replace (hi * (1 + Qlen l))%Q with (hi + hi * Qlen l)%Q by ring.
      now apply Qplus_le_compat.
Qed.

Lemma avgRank_between (lo hi : Q) (ps : list Q) :
  ps <> [] -> Forall (fun p => lo <= p <= hi)%Q ps ->
  (lo <= avgRank ps <= hi)%Q.
Proof.
  intros Hne H. destruct (Qsum_between lo hi ps H) as [Hlo Hhi].
  pose proof (Qlen_pos ps Hne) as Hpos. unfold avgRank. split.
  - now apply Qle_shift_div_l.
  - now apply Qle_shift_div_r.
Qed.

Lemma indexOf_lt x l pos : indexOf x l = Some pos -> pos < length l.
Proof.
  revert pos. induction l as [|y l IH]; intros pos; simpl; [discriminate|].
  destruct (String.eqb y x).
  - intros H. injection H as <-. lia.
  - destruct (indexOf x l) as [p|]; [|discriminate].
    intros H. injection H as <-. specialize (IH p eq_refl). lia.
Qed.

Lemma positions_between lbl reviews :
  Forall (fun p => 1 <= p <= inject_Z (Z.of_nat (longestRanking reviews)))%Q
    (positions lbl reviews).
Proof.
  unfold longestRanking.
  induction reviews as [|r rs IH]; simpl; [constructor|].
  assert (Forall (fun p => 1 <= p <=
                   inject_Z (Z.of_nat (Nat.max (length (PeerReview.ranking r))
                     (list_max (map (fun r => length (PeerReview.ranking r)) rs)))))%Q
            (positions lbl rs)) as IH'.
  { eapply Forall_impl; [|exact IH]. intros p [H1 H2]. split; [exact H1|].
    eapply Qle_trans; [exact H2|]. rewrite <- Zle_Qle. lia. }
  destruct (indexOf lbl (PeerReview.ranking r)) as [pos|] eqn:E; [|exact IH'].
  constructor; [|exact IH'].
  apply indexOf_lt in E. change 1%Q with (inject_Z 1).
  split; rewrite <- Zle_Qle; lia.
Qed.

Lemma Qsquare_nonneg (a : Q) : (0 <= a ^ 2)%Q.
Proof. destruct a as [n d]. unfold Qle. simpl. nia. Qed.

Lemma fold_squares_nonneg (m : Q) (ps : list Q) (a : Q) :
  (0 <= a)%Q -> (0 <= fold_left (fun sum p => sum + (p - m) ^ 2) ps a)%Q.
Proof.
  revert a. induction ps as [|p ps IH]; intros a Ha; simpl; [exact Ha|].
  apply IH.
  setoid_replace 0%Q with (0 + 0)%Q by ring.
  apply Qplus_le_compat; [exact Ha|].
  apply Qsquare_nonneg.
Qed.

Lemma variance_nonneg (ps : list Q) : (0 <= variance ps)%Q.
Proof.
  unfold variance, Qdiv.
  apply Qmult_le_0_compat.
  - apply fold_squares_nonneg, Qle_refl.
  - apply Qinv_le_0_compat, Qlen_nonneg.
Qed.

Lemma consistency_le_1 (ps : list Q) (n : nat) : (consistency ps n <= 1)%Q.
Proof.
  unfold consistency.
  destruct (Qlt_le_dec 0 (maxVariance n)) as [Hpos|_]; [|apply Qle_refl].
  setoid_replace 1%Q with (1 - 0)%Q at 2 by ring.
  apply Qplus_le_compat; [apply Qle_refl|].
  apply Qopp_le_compat. unfold Qdiv.
  apply Qmult_le_0_compat; [apply variance_nonneg|].
  apply Qinv_le_0_compat, Qlt_le_weak, Hpos.
Qed.

Lemma collect_filter reviews n analyses :
  map AggregateRanking.label (collect reviews n analyses) =
  map IndividualAnalysis.label (filter (ranked reviews) analyses).
Proof.
  induction analyses as [|a rest IH]; simpl; [reflexivity|].
  unfold rankingFor, ranked at 1.
  rewrite AggregationFacts.positions_spec.
  unfold AggregationFacts.positionsSpec.
  destruct (existsb (AggregationFacts.mentions (IndividualAnalysis.label a)) reviews)
    eqn:E.
  - apply existsb_exists in E as (r & Hr & Hm).
    destruct (filter _ reviews) as [|r0 l0] eqn:F.
    + assert (In r (filter (AggregationFacts.mentions (IndividualAnalysis.label a))
                     reviews)) as Hin by (apply filter_In; auto).
      rewrite F in Hin. destruct Hin.
    + simpl. now rewrite IH.
  - destruct (filter _ reviews) as [|r0 l0] eqn:F; [exact IH|].
    assert (In r0 (filter (AggregationFacts.mentions (IndividualAnalysis.label a))
                     reviews)) as Hin by (rewrite F; now left).
    apply filter_In in Hin as [Hin Hm].
    assert (existsb (AggregationFacts.mentions (IndividualAnalysis.label a)) reviews
            = true) as X by (apply existsb_exists; eauto).
    congruence.
Qed.

(** The entry that the sort puts first is the earliest of the entries with
    the least average rank: everything before it in the unsorted list has a
    strictly larger average, everything after it one at least as large. *)
Lemma sortByRank_head (l : list AggregateRanking.t) :
  match sortByRank l with
  | [] => l = []
  | top :: _ =>
      exists before after,
        l = before ++ top :: after /\
        Forall (rankLt top) before /\
        Forall (AggregationFacts.rankLe top) after
  end.
Proof.
  induction l as [|x l IH]; simpl; [reflexivity|].
  fold (sortByRank l).
  destruct (sortByRank l) as [|t s]; simpl.
  - subst l. exists [], []. repeat split; constructor.
  - destruct IH as (before & after & -> & Hb & Ha).
    destruct (Qle_bool (AggregateRanking.averageRank x)
                (AggregateRanking.averageRank t)) eqn:E.
    + apply Qle_bool_iff in E.
      exists [], (before ++ t :: after). split; [reflexivity|].
      split; [constructor|].
      apply Forall_app. split.
      * eapply Forall_impl; [|exact Hb]. intros r Hr.
        unfold AggregationFacts.rankLe, rankLt in *.
        apply Qlt_le_weak. eapply Qle_lt_trans; eauto.
      * constructor; [exact E|].
        eapply Forall_impl; [|exact Ha]. intros r Hr.
        unfold AggregationFacts.rankLe in *. eapply Qle_trans; eauto.
    + exists (x :: before), after. split; [reflexivity|].
      split; [|exact Ha].
      constructor; [|exact Hb].
      unfold rankLt. apply Qnot_le_lt. intros H.
      apply Qle_bool_iff in H. congruence.
Qed.

(** X1.  Every entry returned by [calculateAggregateRankings] has an
    averageRank between 1 and the length of the longest ranking any reviewer
    returned, and a rankingConsistency between 0 and 1, whatever the reviews
    contain (labels ranked twice, unknown labels, rankings of different
    lengths). *)
Theorem aggregate_ranking_bounds :
  forall (reviews : list PeerReview.t) (analyses : list IndividualAnalysis.t),
    Forall (fun r =>
              (1 <= AggregateRanking.averageRank r)%Q /\
              (AggregateRanking.averageRank r <=
               inject_Z (Z.of_nat (longestRanking reviews)))%Q /\
              (0 <= AggregateRanking.rankingConsistency r)%Q /\
              (AggregateRanking.rankingConsistency r <= 1)%Q)
      (calculateAggregateRankings reviews analyses).
Proof.
  intros reviews analyses. apply Forall_forall. intros r Hr.
  apply AggregationFacts.In_calculateAggregateRankings in Hr as (a & _ & Hr).
  unfold rankingFor in Hr.
  pose proof (positions_between (IndividualAnalysis.label a) reviews) as Hps.
  destruct (positions (IndividualAnalysis.label a) reviews) as [|p ps] eqn:E;
    [discriminate|].
  injection Hr as <-. cbn [AggregateRanking.averageRank
                           AggregateRanking.rankingConsistency].
  destruct (avgRank_between _ _ (p :: ps) ltac:(discriminate) Hps) as [Hlo Hhi].
  split; [exact Hlo|]. split; [exact Hhi|]. split.
  - apply Q.le_max_l.
  - apply Q.max_lub; [discriminate | apply consistency_le_1].
Qed.

(** X2.  [calculateAggregateRankings] returns exactly one entry per Stage-1
    analysis whose label some reviewer ranked: the labels of the result are a
    rearrangement of the labels of those analyses, so the result is never
    longer than the list of analyses, and distinct Stage-1 labels give
    distinct entries. *)
Theorem aggregate_one_entry_per_ranked_analysis :
  forall (reviews : list PeerReview.t) (analyses : list IndividualAnalysis.t),
    let result := calculateAggregateRankings reviews analyses in
    Permutation (map AggregateRanking.label result)
      (map IndividualAnalysis.label (filter (ranked reviews) analyses)) /\
    length result <= length analyses /\
    (NoDup (map IndividualAnalysis.label analyses) ->
     NoDup (map AggregateRanking.label result)).
Proof.
  intros reviews analyses result.
  assert (Permutation (map AggregateRanking.label result)
            (map IndividualAnalysis.label (filter (ranked reviews) analyses)))
    as Hperm.
  { unfold result, calculateAggregateRankings.
    rewrite <- (collect_filter reviews (length analyses) analyses).
    apply Permutation_map, Permutation_sym, AggregationFacts.sortByRank_perm. }
  split; [exact Hperm|]. split.
  - rewrite <- (length_map AggregateRanking.label).
    rewrite (Permutation_length Hperm), length_map.
    apply filter_length_le.
  - intros Hnd. eapply Permutation_NoDup; [symmetry; exact Hperm|].
    clear Hperm. induction analyses as [|a rest IH]; simpl; [constructor|].
    inversion Hnd as [|? ? Hn Hnd']; subst.
    destruct (ranked reviews a); [|now apply IH].
    simpl. constructor; [|now apply IH].
    intros Hin. apply Hn. apply in_map_iff in Hin as (b & Hb & Hin).
    apply filter_In in Hin as [Hin _]. apply in_map_iff. eauto.
Qed.

(** X3.  Ties are broken by Stage-1 order.  The first entry of the result
    (the one the chairman selector reads) has the least average rank, and
    among the entries with that average it belongs to the analysis that comes
    first in the Stage-1 list: every ranked analysis before it has a strictly
    larger average rank. *)
Theorem aggregate_ties_keep_stage1_order :
  forall (reviews : list PeerReview.t) (analyses : list IndividualAnalysis.t),
    match calculateAggregateRankings reviews analyses with
    | [] => filter (ranked reviews) analyses = []
    | top :: _ =>
        exists before after,
          collect reviews (length analyses) analyses = before ++ top :: after /\
          map IndividualAnalysis.label (filter (ranked reviews) analyses) =
            map AggregateRanking.label before ++
            AggregateRanking.label top :: map AggregateRanking.label after /\
          Forall (rankLt top) before /\
          Forall (AggregationFacts.rankLe top) after
    end.
Proof.
  intros reviews analyses. unfold calculateAggregateRankings.
  pose proof (sortByRank_head (collect reviews (length analyses) analyses)) as H.
  pose proof (collect_filter reviews (length analyses) analyses) as Hl.
  destruct (sortByRank (collect reviews (length analyses) analyses)) as [|top s].
  - rewrite H in Hl. simpl in Hl.
    destruct (filter (ranked reviews) analyses); [reflexivity | discriminate].
  - destruct H as (before & after & He & Hb & Ha).
    exists before, after. split; [exact He|]. split; [|now split].
    rewrite <- Hl, He, map_app. reflexivity.
Qed.

End AggregationBounds.

(* ================================================================== *)
(** * Further properties of the dispatcher                             *)
(* ================================================================== *)

Module DispatcherBounds.
Import Dispatcher.

(** The closure state after the workers were created and [steps] promises
    have settled (fewer when everything settled before). *)
Definition after (T : Type) (tasks : list (Completion T)) (schedule : nat -> nat)
  (limit steps : nat) : state T :=
  eventLoop T tasks schedule steps 0
    (spawn T tasks (Nat.min limit (length tasks)) (initial T tasks)).

Lemma after_invariant T tasks schedule limit steps :
  invariant T tasks limit (after T tasks schedule limit steps).
Proof.
  unfold after. apply DispatcherFacts.eventLoop_invariant.
  apply (DispatcherFacts.spawn_invariant T tasks schedule limit).
  - apply (DispatcherFacts.initial_invariant T tasks schedule limit).
  - simpl. lia.
  - unfold claim. destruct (_ <? _); simpl; lia.
Qed.

(** X4.  The concurrency limit is respected at every moment of a call of
    [withConcurrencyLimit], for every settlement order: after any number of
    settlements at most [limit] tasks are awaited, no task is awaited twice,
    a task that is awaited has been started and has not settled, and the
    tasks started so far are exactly the first ones, in index order. *)
Theorem concurrency_limit_respected :
  forall (T : Type) (tasks : list (Completion T)) (schedule : nat -> nat)
         (limit steps : nat),
    let st := after T tasks schedule limit steps in
    length (inFlight st) <= limit /\
    length (inFlight st) <= length tasks /\
    NoDup (inFlight st) /\
    (forall i, In i (inFlight st) ->
       In i (startedIndices (trace st)) /\
       ~ In i (settledIndices (trace st))) /\
    startedIndices (trace st) = seq 0 (currentIndex st) /\
    currentIndex st <= length tasks.
Proof.
  intros T tasks schedule limit steps st.
  destruct (after_invariant T tasks schedule limit steps)
    as [Hc _ Hcl Hnd Hb _ Hs Hset _].
  fold st in Hc, Hcl, Hnd, Hb, Hs, Hset.
  split; [exact Hb|]. split; [|split; [exact Hnd|split; [|split; [exact Hs|exact Hc]]]].
  - assert (incl (inFlight st) (seq 0 (length tasks))) as Hincl.
    { intros i Hi. apply in_seq. specialize (Hcl i Hi). lia. }
    apply (NoDup_incl_length Hnd) in Hincl. now rewrite length_seq in Hincl.
  - intros i Hi. split.
    + rewrite Hs. apply in_seq. specialize (Hcl i Hi). lia.
    + intros Hin. apply Hset in Hin. tauto.
Qed.

End DispatcherBounds.

(* ================================================================== *)
(** * Further properties of the chairman selector                      *)
(* ================================================================== *)

Module ChairmanParticipation.
Import Chairman.

(** The model recorded some Stage-1 analysis under this identifier. *)
Definition participated (m : string) (stage1 : Stage1Result.t) : Prop :=
  exists a, In a (Stage1Result.analyses stage1) /\
            IndividualAnalysis._modelId a = Some m.

Lemma modelOf_Some a id :
  modelOf a = Some id -> IndividualAnalysis._modelId a = Some id /\ id <> "".
Proof.
  unfold modelOf. destruct (IndividualAnalysis._modelId a) as [x|]; [|discriminate].
  destruct (truthy_string x) eqn:E; [|discriminate].
  intros H. injection H as ->. split; [reflexivity|].
  intros ->. discriminate.
Qed.

Lemma fallbackSelection_participant stage1 :
  let result := fallbackSelection (Stage1Result.analyses stage1) in
  ChairmanSelectionResult.model result = "unknown" \/
  participated (ChairmanSelectionResult.model result) stage1.
Proof.
  unfold fallbackSelection, participated. cbn.
  destruct (Stage1Result.analyses stage1) as [|a rest]; cbn; [now left|].
  rewrite ChairmanFacts.or_string_modelOf.
  destruct (modelOf a) as [id|] eqn:E; [|now left].
  right. exists a. split; [now left | apply (modelOf_Some _ _ E)].
Qed.

(** The fallback names the first responder when that analysis records a
    model, and the sentinel otherwise. *)
Lemma fallbackSelection_first analyses :
  let result := fallbackSelection analyses in
  (exists a rest, analyses = a :: rest /\
                  modelOf a = Some (ChairmanSelectionResult.model result)) \/
  (ChairmanSelectionResult.model result = "unknown" /\
   (analyses = [] \/ exists a rest, analyses = a :: rest /\ modelOf a = None)).
Proof.
  unfold fallbackSelection. cbn.
  destruct analyses as [|a rest]; cbn; [right; auto|].
  rewrite ChairmanFacts.or_string_modelOf.
  destruct (modelOf a) as [id|] eqn:E.
  - left. exists a, rest. auto.
  - right. split; [reflexivity|]. right. exists a, rest. auto.
Qed.

(** The two ways in which [selectChairman] produces its result. *)
Lemma selectChairman_cases stage1 stage2 override
  (P : ChairmanSelectionResult.t -> Prop) :
  P (selectByRanking stage1 stage2) ->
  (forall o, override = Some o -> o <> "" -> participated o stage1 ->
     P (ChairmanSelectionResult.mk o user_specified
          "User specified chairman" None)) ->
  P (fst (selectChairman stage1 stage2 override)).
Proof.
  intros Hrank Huser. unfold selectChairman.
  destruct override as [o|]; [|exact Hrank].
  destruct (truthy_string o) eqn:Et; [|exact Hrank].
  destruct (existsb (producedBy o) (Stage1Result.analyses stage1)) eqn:Ep;
    [|exact Hrank].
  apply Huser; [reflexivity | intros ->; discriminate |].
  now apply ChairmanFacts.existsb_producedBy in Ep.
Qed.

Lemma selectByRanking_cases stage1 stage2 :
  let result := selectByRanking stage1 stage2 in
  (ChairmanSelectionResult.method result = fallback /\
   ChairmanSelectionResult.alternativesConsidered result = None /\
   (ChairmanSelectionResult.model result = "unknown" \/
    participated (ChairmanSelectionResult.model result) stage1)) \/
  (ChairmanSelectionResult.method result = algorithmic /\
   ChairmanSelectionResult.model result <> "" /\
   participated (ChairmanSelectionResult.model result) stage1 /\
   exists top rest alt alts,
     Stage2Result.aggregateRankings stage2 = top :: rest /\
     ChairmanSelectionResult.alternativesConsidered result = Some (alt :: alts) /\
     Alternative.model alt = ChairmanSelectionResult.model result /\
     (Alternative.averageRank alt == AggregateRanking.averageRank top)%Q /\
     length alts <= 2).
Proof.
  assert (forall analyses, fallbackSelection analyses
            = ChairmanSelectionResult.mk
                (ChairmanSelectionResult.model (fallbackSelection analyses))
                fallback
                "Fallback to first responding model (ranking data unavailable)"
                None) as Hfb by reflexivity.
  pose proof (fallbackSelection_participant stage1) as Hp. cbv zeta in Hp.
  unfold selectByRanking. cbv zeta.
  destruct (Stage2Result.aggregateRankings stage2) as [|top rest] eqn:R.
  { left. rewrite Hfb. cbn. auto. }
  destruct (find (hasLabel (AggregateRanking.label top))
              (Stage1Result.analyses stage1)) as [a|] eqn:F.
  2: { left. rewrite Hfb. cbn. auto. }
  destruct (modelOf a) as [id|] eqn:M.
  2: { left. rewrite Hfb. cbn. auto. }
  right. cbn [ChairmanSelectionResult.method ChairmanSelectionResult.model
              ChairmanSelectionResult.alternativesConsidered].
  destruct (modelOf_Some _ _ M) as [Hid Hne].
  split; [reflexivity|]. split; [exact Hne|]. split.
  - exists a. split; [apply (find_some _ _ F) | exact Hid].
  - exists top, rest.
    exists (alternativeFor (Stage1Result.analyses stage1) top).
    exists (map (alternativeFor (Stage1Result.analyses stage1))
              (firstn (Nat.min 3 (length (top :: rest)) - 1) rest)).
    split; [reflexivity|]. split; [|split; [|split]].
    + f_equal. cbn [length]. destruct rest as [|r1 [|r2 [|r3 rest]]]; reflexivity.
    + unfold alternativeFor. cbn [Alternative.model]. rewrite F.
      rewrite ChairmanFacts.or_string_modelOf, M. reflexivity.
    + reflexivity.
    + rewrite length_map, length_firstn. cbn [length]. lia.
Qed.

(** X5.  Whoever [selectChairman] names took part in Stage 1, or is the
    sentinel.  For every input, the selected model is recorded as the model
    of some Stage-1 analysis, unless the method is fallback and the model is
    "unknown".  The method is user-specified only for the override itself.
    With the algorithmic method the model is non-empty and the first listed
    alternative is the chairman with the top entry's average rank, out of at
    most three alternatives; with the other methods no alternative is
    listed.  A warning is logged exactly when a non-empty override names no
    Stage-1 participant, and never more than one. *)
Theorem chairman_is_participant :
  forall (stage1 : Stage1Result.t) (stage2 : Stage2Result.t)
         (override : option string),
    let selection := selectChairman stage1 stage2 override in
    let result := fst selection in
    let chairman := ChairmanSelectionResult.model result in
    (participated chairman stage1 \/
     (chairman = "unknown" /\ ChairmanSelectionResult.method result = fallback)) /\
    (ChairmanSelectionResult.method result = user_specified ->
     override = Some chairman /\ chairman <> "") /\
    (ChairmanSelectionResult.method result = algorithmic ->
     chairman <> "" /\
     exists top rest alt alts,
       Stage2Result.aggregateRankings stage2 = top :: rest /\
       ChairmanSelectionResult.alternativesConsidered result = Some (alt :: alts) /\
       Alternative.model alt = chairman /\
       (Alternative.averageRank alt == AggregateRanking.averageRank top)%Q /\
       length alts <= 2) /\
    (ChairmanSelectionResult.method result <> algorithmic ->
     ChairmanSelectionResult.alternativesConsidered result = None) /\
    (snd selection <> [] <->
     exists o, override = Some o /\ o <> "" /\ ~ participated o stage1) /\
    length (snd selection) <= 1.
Proof.
  intros stage1 stage2 override selection result chairman.
  assert (forall (P : ChairmanSelectionResult.t -> Prop),
             P (selectByRanking stage1 stage2) ->
             (forall o, override = Some o -> o <> "" -> participated o stage1 ->
                P (ChairmanSelectionResult.mk o user_specified
                     "User specified chairman" None)) ->
             P result) as Hcases
    by (intros P; apply selectChairman_cases).
  pose proof (selectByRanking_cases stage1 stage2) as Hr. cbv zeta in Hr.
  split; [|split; [|split; [|split; [|split]]]].
  - unfold chairman. apply Hcases.
    + destruct Hr as [(Hm & _ & [Hu | Hp]) | (_ & _ & Hp & _)]; auto.
    + intros o _ _ Hp. now left.
  - unfold chairman. apply Hcases.
    + destruct Hr as [(Hm & _) | (Hm & _)]; rewrite Hm; discriminate.
    + intros o Ho Hne _ _. cbn. split; [exact Ho | exact Hne].
  - unfold chairman. apply Hcases.
    + destruct Hr as [(Hm & _) | (_ & Hne & _ & Halts)];
        [rewrite Hm; discriminate|].
      intros _. split; [exact Hne | exact Halts].
    + intros o _ _ _. cbn. discriminate.
  - apply Hcases.
    + destruct Hr as [(_ & Ha & _) | (Hm & _)]; [intros _; exact Ha|].
      intros H. contradiction.
    + intros o _ _ _ _. reflexivity.
  - unfold selection, selectChairman.
    destruct override as [o|].
    2: { cbn. split; [congruence | intros (o & H & _); discriminate]. }
    destruct (truthy_string o) eqn:Et.
    2: { cbn. apply ChairmanFacts.truthy_string_false in Et.
         split; [congruence|]. intros (o' & H & Hne & _).
         injection H as <-. contradiction. }
    destruct (existsb (producedBy o) (Stage1Result.analyses stage1)) eqn:Ep.
    + cbn. apply ChairmanFacts.existsb_producedBy in Ep.
      split; [congruence|]. intros (o' & H & _ & Hn).
      injection H as <-. contradiction.
    + cbn. split; [|discriminate]. intros _. exists o.
      split; [reflexivity|]. split; [intros ->; discriminate|].
      intros Hp. apply ChairmanFacts.existsb_producedBy in Hp. congruence.
  - unfold selection, selectChairman.
    destruct override as [o|]; [|cbn; lia].
    destruct (truthy_string o); [|cbn; lia].
    destruct (existsb _ _); cbn; lia.
Qed.

End ChairmanParticipation.

(* ================================================================== *)
(** * Further properties of the stage executors                        *)
(* ================================================================== *)

Module StageExecution.
Import Orchestrator.

Definition isFailed {A} (o : MemberOutcome A) : bool :=
  match o with Failed _ => true | Succeeded _ => false end.

(** A capital letter of the Latin alphabet, as a one-character string. *)
Definition capitalLetter (s : string) : Prop :=
  exists c, s = String c EmptyString /\ 65 <= nat_of_ascii c <= 90.

Lemma length_mapi {A B} (f : nat -> A -> B) i l :
  length (Audit.mapi f i l) = length l.
Proof.
  revert i. induction l as [|a l IH]; intros i; simpl; [reflexivity|].
  now rewrite IH.
Qed.

Lemma nth_error_mapi {A B} (f : nat -> A -> B) i l k :
  nth_error (Audit.mapi f i l) k = option_map (f (i + k)) (nth_error l k).
Proof.
  revert i k. induction l as [|a l IH]; intros i [|k]; simpl; try reflexivity.
  - now rewrite Nat.add_0_r.
  - rewrite IH. now rewrite Nat.add_succ_r.
Qed.

Lemma In_mapi_inv {A B} (f : nat -> A -> B) i l b :
  In b (Audit.mapi f i l) ->
  exists k a, nth_error l k = Some a /\ b = f (i + k) a.
Proof.
  revert i. induction l as [|a l IH]; intros i; simpl; [tauto|].
  intros [<- | H].
  - exists 0, a. split; [reflexivity|]. now rewrite Nat.add_0_r.
  - destruct (IH _ H) as (k & a' & Hk & ->).
    exists (S k), a'. split; [exact Hk|]. now rewrite Nat.add_succ_r.
Qed.

Lemma map_nth_error_seq {A B} (h : option A -> B) (l : list A) :
  map (fun i => h (nth_error l i)) (seq 0 (length l)) = map (fun x => h (Some x)) l.
Proof.
  induction l as [|a l IH]; simpl; [reflexivity|].
  f_equal. rewrite <- seq_shift, map_map. exact IH.
Qed.

Lemma flat_map_nth_error_seq {A B} (h : option A -> list B) (l : list A) :
  flat_map (fun i => h (nth_error l i)) (seq 0 (length l)) =
  flat_map (fun x => h (Some x)) l.
Proof.
  induction l as [|a l IH]; simpl; [reflexivity|].
  f_equal. rewrite <- seq_shift, flat_map_concat_map, map_map,
    <- flat_map_concat_map. exact IH.
Qed.

(** The error entries of a stage, member by member. *)
Lemma failuresOf_members {A} stage (members : list CouncilMember.t)
  (f : nat -> CouncilMember.t -> MemberOutcome A) :
  OrchestratorFacts.failuresOf stage members (Audit.mapi f 0 members) =
  flat_map (fun i =>
              match nth_error members i with
              | Some m =>
                  match f i m with
                  | Failed errorMsg =>
                      [StageError.mk stage (Some (CouncilMember.modelId m))
                         errorMsg true]
                  | Succeeded _ => []
                  end
              | None => []
              end) (seq 0 (length members)).
Proof.
  unfold OrchestratorFacts.failuresOf, errorsOf. rewrite length_mapi.
  apply flat_map_ext. intros i. rewrite nth_error_mapi. simpl.
  unfold modelAt. destruct (nth_error members i) as [m|]; reflexivity.
Qed.

Lemma successes_members {A} (members : list CouncilMember.t)
  (f : nat -> CouncilMember.t -> MemberOutcome A) :
  OrchestratorFacts.successes (Audit.mapi f 0 members) =
  flat_map (fun i =>
              match nth_error members i with
              | Some m =>
                  match f i m with
                  | Succeeded a => [a]
                  | Failed _ => []
                  end
              | None => []
              end) (seq 0 (length members)).
Proof.
  unfold OrchestratorFacts.successes.
  rewrite <- (length_mapi f 0 members).
  rewrite <- (flat_map_nth_error_seq
                (fun o => match o with
                          | Some (Succeeded a) => [a]
                          | _ => []
                          end) (Audit.mapi f 0 members)).
  apply flat_map_ext. intros i. rewrite nth_error_mapi. simpl.
  destruct (nth_error members i) as [m|]; reflexivity.
Qed.

Lemma outcomes_accounted {A} stage (members : list CouncilMember.t)
  (f : nat -> CouncilMember.t -> MemberOutcome A) :
  length (OrchestratorFacts.successes (Audit.mapi f 0 members)) +
  length (OrchestratorFacts.failuresOf stage members (Audit.mapi f 0 members)) =
  length members.
Proof.
  rewrite failuresOf_members, successes_members.
  assert (forall (l : list nat),
             (forall i, In i l -> i < length members) ->
             length (flat_map (fun i =>
                       match nth_error members i with
                       | Some m => match f i m with
                                   | Succeeded a => [a]
                                   | Failed _ => []
                                   end
                       | None => []
                       end) l) +
             length (flat_map (fun i =>
                       match nth_error members i with
                       | Some m =>
                           match f i m with
                           | Failed errorMsg =>
                               [StageError.mk stage (Some (CouncilMember.modelId m))
                                  errorMsg true]
                           | Succeeded _ => []
                           end
                       | None => []
                       end) l) = length l) as H.
  { induction l as [|i l IH]; intros Hl; simpl; [reflexivity|].
    rewrite !length_app.
    assert (i < length members) as Hi by (apply Hl; now left).
    destruct (nth_error members i) as [m|] eqn:E;
      [|apply nth_error_None in E; lia].
    specialize (IH (fun j Hj => Hl j (or_intror Hj))).
    destruct (f i m); simpl; lia. }
  rewrite H; [apply length_seq|].
  intros i Hi. apply in_seq in Hi. lia.
Qed.

Lemma ascii_of_nat_inj n m :
  n < 256 -> m < 256 -> ascii_of_nat n = ascii_of_nat m -> n = m.
Proof.
  intros Hn Hm H. rewrite <- (nat_ascii_embedding n Hn),
    <- (nat_ascii_embedding m Hm). now rewrite H.
Qed.

Lemma assignLabels_nth modelIds k m :
  nth_error (assignLabels modelIds) k = Some m ->
  nth_error modelIds k = Some (CouncilMember.modelId m) /\
  CouncilMember.sessionLabel m = String (ascii_of_nat (65 + k)) EmptyString.
Proof.
  unfold assignLabels. rewrite nth_error_mapi. simpl.
  destruct (nth_error modelIds k); [|discriminate].
  intros H. injection H as <-. auto.
Qed.

(** X6.  [assignLabels] keeps the configured models in seat order, and for a
    council of at most 26 seats it gives every seat a different label, a
    single capital letter starting at "A", whatever the model identifiers are
    (duplicates included). *)
Theorem assignLabels_distinct_letters :
  forall modelIds : list string,
    length modelIds <= 26 ->
    let members := assignLabels modelIds in
    map CouncilMember.modelId members = modelIds /\
    NoDup (map CouncilMember.sessionLabel members) /\
    Forall (fun m => capitalLetter (CouncilMember.sessionLabel m)) members /\
    (forall m rest, members = m :: rest -> CouncilMember.sessionLabel m = "A").
Proof.
  intros modelIds Hlen members.
  split; [|split; [|split]].
  - apply nth_error_ext. intros k. rewrite nth_error_map.
    unfold members, assignLabels. rewrite nth_error_mapi.
    now destruct (nth_error modelIds k).
  - apply (proj2 (NoDup_nth_error _)). intros i j Hi Heq.
    rewrite length_map in Hi. rewrite !nth_error_map in Heq.
    unfold members, assignLabels in Hi. rewrite length_mapi in Hi.
    destruct (nth_error members i) as [mi|] eqn:Ei.
    2: { apply nth_error_None in Ei. unfold members, assignLabels in Ei.
         rewrite length_mapi in Ei. lia. }
    destruct (nth_error members j) as [mj|] eqn:Ej; [|discriminate].
    assert (j < length modelIds) as Hj.
    { apply nth_error_Some. apply assignLabels_nth in Ej as [Ej _].
      rewrite Ej. discriminate. }
    apply assignLabels_nth in Ei as [_ Li].
    apply assignLabels_nth in Ej as [_ Lj].
    simpl in Heq. injection Heq as Heq. rewrite Li, Lj in Heq.
    injection Heq as Heq.
    assert (65 + i = 65 + j) by
      (apply ascii_of_nat_inj; [lia | lia | exact Heq]).
    lia.
  - apply Forall_forall. intros m Hm.
    apply In_nth_error in Hm as (k & Hk).
    assert (k < length modelIds) as Hlt.
    { apply nth_error_Some. apply assignLabels_nth in Hk as [Hk _].
      rewrite Hk. discriminate. }
    apply assignLabels_nth in Hk as [_ Hl].
    exists (ascii_of_nat (65 + k)). split; [exact Hl|].
    rewrite nat_ascii_embedding by lia. lia.
  - intros m rest H.
    assert (nth_error (assignLabels modelIds) 0 = Some m) as H0
      by (fold members; now rewrite H).
    apply assignLabels_nth in H0 as [_ ->]. reflexivity.
Qed.

(** A council of three seats, two of them on the same model. *)
Lemma assignLabels_distinct_letters_witness :
  length ["vendor/a"; "vendor/b"; "vendor/a"] <= 26 /\
  NoDup (map CouncilMember.sessionLabel
           (assignLabels ["vendor/a"; "vendor/b"; "vendor/a"])).
Proof.
  split; [simpl; lia|].
  exact (proj1 (proj2 (assignLabels_distinct_letters
                         ["vendor/a"; "vendor/b"; "vendor/a"]
                         ltac:(simpl; lia)))).
Defined.

End StageExecution.

(* ================================================================== *)
(** * Properties of the schemas (schemas.ts)                           *)
(* ================================================================== *)

Module SchemaFacts.
Import Zod.

Definition keysOfShape (shape : Shape) : list string :=
  map (fun e => fst (fst e)) shape.

Definition keysOf (j : json) : list string :=
  match j with
  | JObj kvs => map fst kvs
  | _ => []
  end.

(** Validating again what a schema returned gives it back unchanged. *)
Definition stable (s : Schema) : Prop :=
  forall j d, s j = Some d -> s d = Some d.

(** [l] keeps some of the elements of [l'], in the order of [l']. *)
Inductive sublist {A} : list A -> list A -> Prop :=
| sublist_nil : sublist [] []
| sublist_skip l l' x : sublist l l' -> sublist l (x :: l')
| sublist_keep l l' x : sublist l l' -> sublist (x :: l) (x :: l').

Definition stage1Keys : list string :=
  ["assessment"; "strengths"; "weaknesses"; "risks"; "confidence";
   "confidenceRationale"; "thresholdIssues"; "adversarialArgument"].

Definition stage2Keys : list string :=
  ["evaluations"; "ranking"; "rankingRationale"].

Lemma sublist_incl {A} (l l' : list A) : sublist l l' -> incl l l'.
Proof.
  induction 1 as [|l l' x _ IH|l l' x _ IH]; intros y Hy.
  - destruct Hy.
  - right. now apply IH.
  - destruct Hy as [<- | Hy]; [now left | right; now apply IH].
Qed.

Lemma assoc_None_iff {A} k (kvs : list (string * A)) :
  assoc k kvs = None <-> ~ In k (map fst kvs).
Proof.
  induction kvs as [|[k' v] rest IH]; simpl; [tauto|].
  destruct (String.eqb_spec k' k) as [-> | Hne].
  - split; [discriminate | intros H; exfalso; apply H; now left].
  - rewrite IH. tauto.
Qed.

Lemma assoc_app_notin {A} k (pre kvs : list (string * A)) :
  ~ In k (map fst pre) -> assoc k (pre ++ kvs) = assoc k kvs.
Proof.
  induction pre as [|[k' v] pre IH]; simpl; [reflexivity|].
  intros H. destruct (String.eqb_spec k' k) as [-> | Hne]; [tauto|].
  apply IH. tauto.
Qed.

Lemma parseShape_keys shape kvs parsed :
  parseShape shape kvs = Some parsed ->
  sublist (map fst parsed) (keysOfShape shape).
Proof.
  revert parsed. induction shape as [|[[k o] s] rest IH]; intros parsed H;
    simpl in H.
  - injection H as <-. constructor.
  - destruct (assoc k kvs) as [v|].
    + destruct (s v) as [v'|]; [|discriminate].
      destruct (parseShape rest kvs) as [p|]; [|discriminate].
      injection H as <-. simpl. apply sublist_keep. now apply IH.
    + destruct o; [|discriminate]. simpl. apply sublist_skip. now apply IH.
Qed.

(** What the parsed object holds under a key of the shape. *)
Lemma parseShape_lookup shape kvs parsed :
  NoDup (keysOfShape shape) -> parseShape shape kvs = Some parsed ->
  forall key optional schema, In (key, optional, schema) shape ->
    match assoc key kvs with
    | Some v => exists v', schema v = Some v' /\ assoc key parsed = Some v'
    | None => optional = true /\ assoc key parsed = None
    end.
Proof.
  revert parsed. induction shape as [|[[k o] s] rest IH];
    intros parsed Hnd H key optional schema Hin; [destruct Hin|].
  simpl in Hnd. inversion Hnd as [|? ? Hk Hnd']; subst.
  simpl in H. destruct Hin as [Heq | Hin].
  - injection Heq as -> -> ->.
    destruct (assoc key kvs) as [v|].
    + destruct (schema v) as [v'|]; [|discriminate].
      destruct (parseShape rest kvs) as [p|]; [|discriminate].
      injection H as <-. exists v'. split; [reflexivity|].
      simpl. now rewrite String.eqb_refl.
    + destruct optional; [|discriminate]. split; [reflexivity|].
      apply assoc_None_iff. intros Hin.
      apply Hk. apply (sublist_incl _ _ (parseShape_keys _ _ _ H)), Hin.
  - assert (k <> key) as Hne.
    { intros ->. apply Hk. unfold keysOfShape. apply in_map_iff.
      exists (key, optional, schema). auto. }
    apply String.eqb_neq in Hne.
    destruct (assoc k kvs) as [v|].
    + destruct (s v) as [v'|]; [|discriminate].
      destruct (parseShape rest kvs) as [p|] eqn:Hp; [|discriminate].
      injection H as <-. simpl. rewrite Hne.
      apply (IH p Hnd' eq_refl key optional schema Hin).
    + destruct o; [|discriminate].
      apply (IH parsed Hnd' H key optional schema Hin).
Qed.

Lemma parseShape_stable shape kvs parsed :
  NoDup (keysOfShape shape) ->
  Forall (fun e => stable (snd e)) shape ->
  parseShape shape kvs = Some parsed ->
  forall pre, (forall k, In k (keysOfShape shape) -> ~ In k (map fst pre)) ->
    parseShape shape (pre ++ parsed) = Some parsed.
Proof.
  revert parsed. induction shape as [|[[k o] s] rest IH];
    intros parsed Hnd Hst H pre Hpre; simpl in H.
  - injection H as <-. reflexivity.
  - simpl in Hnd. inversion Hnd as [|? ? Hk Hnd']; subst.
    inversion Hst as [|? ? Hs Hst']; subst. simpl in Hs.
    assert (~ In k (map fst pre)) as Hkpre by (apply Hpre; now left).
    simpl. rewrite (assoc_app_notin _ _ _ Hkpre).
    destruct (assoc k kvs) as [v|].
    + destruct (s v) as [v'|] eqn:Ev; [|discriminate].
      destruct (parseShape rest kvs) as [p|] eqn:Hp; [|discriminate].
      injection H as <-. simpl. rewrite String.eqb_refl.
      rewrite (Hs _ _ Ev).
      change (pre ++ (k, v') :: p) with (pre ++ [(k, v')] ++ p).
      rewrite app_assoc.
      rewrite (IH p Hnd' Hst' eq_refl (pre ++ [(k, v')])); [reflexivity|].
      intros k' Hk' Hin. rewrite map_app in Hin.
      apply in_app_or in Hin as [Hin | [<- | []]].
      * apply (Hpre k'); [now right | exact Hin].
      * contradiction.
    + destruct o; [|discriminate].
      assert (assoc k parsed = None) as Hnone.
      { apply assoc_None_iff. intros Hin.
        apply Hk, (sublist_incl _ _ (parseShape_keys _ _ _ H)), Hin. }
      rewrite Hnone.
      apply (IH parsed Hnd' Hst' H pre).
      intros k' Hk'. apply Hpre. now right.
Qed.

Lemma all_stable {A} (f : A -> option A) l l' :
  (forall a b, f a = Some b -> f b = Some b) ->
  all f l = Some l' -> all f l' = Some l'.
Proof.
  intros Hf. revert l'. induction l as [|a l IH]; intros l' H; simpl in H.
  - injection H as <-. reflexivity.
  - destruct (f a) as [b|] eqn:E; [|discriminate].
    destruct (all f l) as [bs|]; [|discriminate].
    injection H as <-. simpl. now rewrite (Hf _ _ E), (IH bs eq_refl).
Qed.

Lemma stable_z_string : stable z_string.
Proof. intros [| | | | |] d H; try discriminate. now injection H as <-. Qed.

Lemma stable_z_enum values : stable (z_enum values).
Proof.
  intros [| | |s| |] d H; try discriminate. simpl in H.
  destruct (existsb _ _) eqn:E; [|discriminate].
  injection H as <-. simpl. now rewrite E.
Qed.

Lemma stable_z_number_between lo hi : stable (z_number_between lo hi).
Proof.
  intros [| |n| | |] d H; try discriminate. simpl in H.
  destruct (_ && _)%bool eqn:E; [|discriminate].
  injection H as <-. simpl. now rewrite E.
Qed.

Lemma stable_z_array element : stable element -> stable (z_array element).
Proof.
  intros Hs [| | | |xs|] d H; try discriminate. simpl in H.
  destruct (all element xs) as [ys|] eqn:E; [|discriminate].
  injection H as <-. simpl. now rewrite (all_stable _ _ _ Hs E).
Qed.

Lemma stable_z_record value : stable value -> stable (z_record value).
Proof.
  intros Hs [| | | | |kvs] d H; try discriminate. simpl in H.
  destruct (all _ kvs) as [ys|] eqn:E; [|discriminate].
  injection H as <-. simpl.
  erewrite all_stable; [reflexivity | | exact E].
  intros a b Hab. simpl in Hab.
  destruct (value (snd a)) as [v|] eqn:Ev; [|discriminate].
  injection Hab as <-. simpl. now rewrite (Hs _ _ Ev).
Qed.

Lemma stable_z_object shape :
  NoDup (keysOfShape shape) -> Forall (fun e => stable (snd e)) shape ->
  stable (z_object shape).
Proof.
  intros Hnd Hst [| | | | |kvs] d H; try discriminate. simpl in H.
  destruct (parseShape shape kvs) as [parsed|] eqn:E; [|discriminate].
  injection H as <-. simpl.
  pose proof (parseShape_stable _ _ _ Hnd Hst E [] (fun _ _ H => H)) as Hp.
  simpl in Hp. now rewrite Hp.
Qed.

Ltac distinct_keys :=
  repeat constructor; simpl; intuition discriminate.

Ltac stable_schema :=
  repeat first
    [ apply stable_z_string
    | apply stable_z_enum
    | apply stable_z_number_between
    | apply stable_z_array
    | apply stable_z_record
    | apply stable_z_object; [distinct_keys | repeat constructor; simpl] ].

Lemma stable_AnalysisEvaluationSchema : stable AnalysisEvaluationSchema.
Proof. unfold AnalysisEvaluationSchema. stable_schema. Qed.

Lemma stable_Stage1AnalysisSchema : stable Stage1AnalysisSchema.
Proof. unfold Stage1AnalysisSchema. stable_schema. Qed.

Lemma stable_Stage2ReviewSchema : stable Stage2ReviewSchema.
Proof. unfold Stage2ReviewSchema. stable_schema. Qed.

Lemma z_object_keys shape j d :
  z_object shape j = Some d -> sublist (keysOf d) (keysOfShape shape).
Proof.
  destruct j as [| | | | |kvs]; try discriminate. simpl.
  destruct (parseShape shape kvs) as [parsed|] eqn:E; [|discriminate].
  intros H. injection H as <-. simpl. now apply parseShape_keys in E.
Qed.

(** X7.  Validation strips what the schema does not know and is idempotent.
    Data accepted by the Stage-1 or the Stage-2 schema is an object whose
    keys are some of the schema's keys, in the schema's order, whatever other
    properties the model sent; and validating accepted data again accepts it
    and returns it unchanged. *)
Theorem validation_strips_and_is_idempotent :
  forall j d : json,
    (Stage1AnalysisSchema j = Some d ->
     sublist (keysOf d) stage1Keys /\ Stage1AnalysisSchema d = Some d) /\
    (Stage2ReviewSchema j = Some d ->
     sublist (keysOf d) stage2Keys /\ Stage2ReviewSchema d = Some d).
Proof.
  intros j d. split; intros H.
  - split; [apply (z_object_keys _ _ _ H) | apply (stable_Stage1AnalysisSchema _ _ H)].
  - split; [apply (z_object_keys _ _ _ H) | apply (stable_Stage2ReviewSchema _ _ H)].
Qed.

(** A Stage-1 answer that also names its author. *)
Definition signedAnswer : json :=
  JObj [("author", JStr "vendor/a");
        ("assessment", JStr "The claim is likely time-barred.");
        ("strengths", JArr [JStr "Clear accrual date"]);
        ("weaknesses", JArr []);
        ("risks", JArr []);
        ("confidence", JStr "high");
        ("confidenceRationale", JStr "Settled law")].

Lemma validation_strips_and_is_idempotent_witness :
  exists d,
    Stage1AnalysisSchema signedAnswer = Some d /\
    keysOf d = ["assessment"; "strengths"; "weaknesses"; "risks"; "confidence";
                "confidenceRationale"] /\
    Stage1AnalysisSchema d = Some d.
Proof.
  eexists. split; [reflexivity|]. split; [reflexivity|].
  exact (proj2 (proj1 (validation_strips_and_is_idempotent signedAnswer _)
                  eq_refl)).
Defined.

End SchemaFacts.

(* ================================================================== *)
(** * What a stage task returns (orchestrator.ts, runStage1, runStage2) *)
(* ================================================================== *)

Module StageOutcomes.
Import Orchestrator.

(** The members whose task succeeded, in seat order. *)
Definition succeeded {A} (f : nat -> CouncilMember.t -> MemberOutcome A)
  (i : nat) (members : list CouncilMember.t) : list CouncilMember.t :=
  flat_map (fun im => match f (fst im) (snd im) with
                      | Succeeded _ => [snd im]
                      | Failed _ => []
                      end)
    (combine (seq i (length members)) members).

Definition stage2Task (w : World) (stage1 : Stage1Result.t)
  : nat -> CouncilMember.t -> MemberOutcome PeerReview.t :=
  fun i m => stage2Outcome m stage1 (reviewAnswer w i).

Lemma firstThree_length x : length (firstThree x) <= 3.
Proof.
  unfold firstThree. destruct (isArray x) as [xs|]; [|simpl; lia].
  rewrite length_map, length_firstn. lia.
Qed.

Lemma levels_truthy level : In level Zod.levels -> truthy (JStr level) = true.
Proof.
  intros [<- | [<- | [<- | []]]]; reflexivity.
Qed.

Lemma z_enum_inv values v v' :
  Zod.z_enum values v = Some v' -> exists s, v' = JStr s /\ In s values.
Proof.
  destruct v as [| | |s| |]; try discriminate. simpl.
  destruct (existsb (String.eqb s) values) eqn:E; [|discriminate].
  intros H. injection H as <-. exists s. split; [reflexivity|].
  apply existsb_exists in E as (x & Hx & Hs). apply String.eqb_eq in Hs.
  now subst.
Qed.

Lemma all_z_string xs ys :
  Zod.all Zod.z_string xs = Some ys ->
  ys = xs /\ xs = map JStr (map Serialize.js_String xs).
Proof.
  revert ys. induction xs as [|x xs IH]; intros ys H; simpl in H.
  - injection H as <-. auto.
  - destruct x as [| | |s| |]; try discriminate. simpl in H.
    destruct (Zod.all Zod.z_string xs) as [zs|]; [|discriminate].
    injection H as <-. destruct (IH zs eq_refl) as [-> Hx].
    split; [reflexivity|]. simpl. now rewrite <- Hx.
Qed.

Lemma validated_confidence j data :
  Zod.Stage1AnalysisSchema j = Some data ->
  exists level, In level Zod.levels /\ field "confidence" data = JStr level.
Proof.
  unfold Zod.Stage1AnalysisSchema, Zod.z_object at 1.
  destruct j as [| | | | |kvs]; try discriminate.
  destruct (Zod.parseShape _ kvs) as [parsed|] eqn:Hp; [|discriminate].
  intros H. injection H as <-.
  match type of Hp with
  | Zod.parseShape ?shape _ = _ =>
      assert (NoDup (SchemaFacts.keysOfShape shape)) as Hnd
        by SchemaFacts.distinct_keys
  end.
  pose proof (SchemaFacts.parseShape_lookup _ _ _ Hnd Hp
                "confidence" false (Zod.z_enum Zod.levels)
                ltac:(simpl; tauto)) as Hl.
  destruct (assoc "confidence" kvs) as [v|]; [|destruct Hl as [Hl _]; discriminate Hl].
  destruct Hl as (v' & Hv & Ha).
  apply z_enum_inv in Hv as (s & -> & Hs).
  exists s. split; [exact Hs|]. unfold field. simpl. now rewrite Ha.
Qed.

Lemma validated_ranking content data :
  Zod.Stage2ReviewSchema content = Some data ->
  exists xs rationale,
    getProp "ranking" content = Some (JArr xs) /\
    getProp "ranking" data = Some (JArr xs) /\
    xs = map JStr (map Serialize.js_String xs) /\
    getProp "rankingRationale" content = Some (JStr rationale) /\
    field "rankingRationale" data = JStr rationale /\
    (exists evaluations, getProp "evaluations" data = Some (JObj evaluations)).
Proof.
  unfold Zod.Stage2ReviewSchema, Zod.z_object at 1.
  destruct content as [| | | | |kvs]; try discriminate.
  destruct (Zod.parseShape _ kvs) as [parsed|] eqn:Hp; [|discriminate].
  intros H. injection H as <-.
  match type of Hp with
  | Zod.parseShape ?shape _ = _ =>
      assert (NoDup (SchemaFacts.keysOfShape shape)) as Hnd
        by SchemaFacts.distinct_keys
  end.
  pose proof (SchemaFacts.parseShape_lookup _ _ _ Hnd Hp) as Hl.
  pose proof (Hl "ranking" false (Zod.z_array Zod.z_string)
                ltac:(simpl; tauto)) as Hr.
  pose proof (Hl "rankingRationale" false Zod.z_string
                ltac:(simpl; tauto)) as Ht.
  pose proof (Hl "evaluations" false (Zod.z_record Zod.AnalysisEvaluationSchema)
                ltac:(simpl; tauto)) as He.
  clear Hl. cbn [getProp].
  destruct (assoc "ranking" kvs) as [v|]; [|destruct Hr as [Hr _]; discriminate Hr].
  destruct Hr as (v' & Hv & Ha).
  destruct v as [| | | |xs|]; try discriminate. simpl in Hv.
  destruct (Zod.all Zod.z_string xs) as [ys|] eqn:Hall; [|discriminate].
  injection Hv as <-. destruct (all_z_string _ _ Hall) as [-> Hxs].
  destruct (assoc "rankingRationale" kvs) as [t|]; [|destruct Ht as [Ht _]; discriminate Ht].
  destruct Ht as (t' & Htv & Hta).
  destruct t as [| | |s| |]; try discriminate. injection Htv as <-.
  destruct (assoc "evaluations" kvs) as [e|]; [|destruct He as [He _]; discriminate He].
  destruct He as (e' & Hev & Hea).
  destruct e as [| | | | |ekvs]; try discriminate. simpl in Hev.
  destruct (Zod.all _ ekvs) as [es|]; [|discriminate].
  injection Hev as <-.
  exists xs, s. unfold field. cbn [getProp]. rewrite Ha, Hta, Hea.
  repeat split; eauto.
Qed.



Lemma mapi_combine {A B} (f : nat -> A -> B) i l :
  Audit.mapi f i l = map (fun im => f (fst im) (snd im)) (combine (seq i (length l)) l).
Proof.
  revert i. induction l as [|a l IH]; intros i; simpl; [reflexivity|].
  now rewrite IH.
Qed.

Lemma succeeded_sublist {A} (f : nat -> CouncilMember.t -> MemberOutcome A) i members :
  SchemaFacts.sublist (succeeded f i members) members.
Proof.
  unfold succeeded. revert i.
  induction members as [|m members IH]; intros i; simpl; [constructor|].
  destruct (f i m); simpl.
  - apply SchemaFacts.sublist_keep, IH.
  - apply SchemaFacts.sublist_skip, IH.
Qed.

Lemma successes_succeeded {A B} (f : nat -> CouncilMember.t -> MemberOutcome A)
  (g : A -> B) (h : CouncilMember.t -> B) i members :
  (forall k m a, f k m = Succeeded a -> g a = h m) ->
  map g (OrchestratorFacts.successes (Audit.mapi f i members)) =
  map h (succeeded f i members).
Proof.
  intros Hf. unfold succeeded, OrchestratorFacts.successes. revert i.
  induction members as [|m members IH]; intros i; simpl; [reflexivity|].
  rewrite !map_app, IH. f_equal.
  destruct (f i m) eqn:E; simpl; [|reflexivity].
  now rewrite (Hf _ _ _ E).
Qed.

Lemma stage2Task_label w stage1 k m r :
  stage2Task w stage1 k m = Succeeded r ->
  PeerReview.reviewerLabel r = CouncilMember.sessionLabel m /\
  PeerReview._reviewerModelId r = Some (CouncilMember.modelId m).
Proof.
  unfold stage2Task, stage2Outcome.
  destruct (reviewAnswer w k) as [content|]; try discriminate.
  destruct (Zod.Stage2ReviewSchema content).
  - intros H. injection H as <-. auto.
  - destruct content; try discriminate; intros H; injection H as <-; auto.
Qed.

End StageOutcomes.

(* ================================================================== *)
(** * Further properties of the deliberation controller                *)
(* ================================================================== *)

Module DeliberationFacts.
Import Orchestrator.

Definition isChairmanCall (c : ModelCall) : bool :=
  match c with ChairmanCall _ => true | _ => false end.

(** The chairman that [deliberate] selects from the results of the two
    stages. *)
Definition chairmanOf (config : CouncilConfig.t) (stage1 : Stage1Result.t)
  (stage2 : Stage2Result.t) : string :=
  ChairmanSelectionResult.model
    (fst (Chairman.selectChairman stage1 stage2
            (CouncilConfig.chairmanOverrideModel config))).

(** The audit record of the chairman selection that [deliberate] stores. *)
Definition selectionAudit (config : CouncilConfig.t) (stage1 : Stage1Result.t)
  (stage2 : Stage2Result.t) : ChairmanSelectionAudit.t :=
  let selection :=
    fst (Chairman.selectChairman stage1 stage2
           (CouncilConfig.chairmanOverrideModel config)) in
  ChairmanSelectionAudit.mk
    (ChairmanSelectionResult.method selection)
    (ChairmanSelectionResult.model selection)
    (ChairmanSelectionResult.rationale selection)
    (ChairmanSelectionResult.alternativesConsidered selection).

Definition stage1Of (d : CouncilDeliberation.t) : Stage1Result.t :=
  StageResults.stage1 (CouncilDeliberation._stageResults d).

Definition stage2Of (d : CouncilDeliberation.t) : Stage2Result.t :=
  StageResults.stage2 (CouncilDeliberation._stageResults d).

Definition stage3Of (d : CouncilDeliberation.t) : Stage3Result.t :=
  StageResults.stage3 (CouncilDeliberation._stageResults d).

Lemma assignLabels_models ids :
  map CouncilMember.modelId (assignLabels ids) = ids.
Proof.
  apply nth_error_ext. intros k. rewrite nth_error_map.
  unfold assignLabels. rewrite StageExecution.nth_error_mapi.
  now destruct (nth_error ids k).
Qed.

Lemma modelAt_seq {B} (g : string -> B) (members : list CouncilMember.t) :
  map (fun i => g (modelAt members i)) (seq 0 (length members)) =
  map (fun m => g (CouncilMember.modelId m)) members.
Proof.
  unfold modelAt.
  apply (StageExecution.map_nth_error_seq
           (fun o => g match o with
                       | Some m => CouncilMember.modelId m
                       | None => EmptyString
                       end) members).
Qed.

Lemma errorsOf_Forall {A} stage (members : list CouncilMember.t)
  (f : nat -> CouncilMember.t -> MemberOutcome A) :
  Forall (fun e =>
            StageError.stage e = stage /\ StageError.recoverable e = true /\
            exists m, In m members /\
                      StageError.modelId e = Some (CouncilMember.modelId m))
    (OrchestratorFacts.failuresOf stage members (Audit.mapi f 0 members)).
Proof.
  rewrite StageExecution.failuresOf_members.
  apply Forall_forall. intros e He.
  apply in_flat_map in He as (i & _ & He).
  destruct (nth_error members i) as [m|] eqn:E; [|destruct He].
  destruct (f i m); [destruct He|]. destruct He as [<- | []]. cbn.
  split; [reflexivity|]. split; [reflexivity|].
  exists m. split; [apply (nth_error_In _ _ E) | reflexivity].
Qed.

(** Every seat recorded so far is recorded as failed. *)
Definition allFailed (c : Audit.AuditCollector) : Prop :=
  Forall (fun km => Stage1Metrics.success (snd km) = false)
    (Audit.stage1Metrics c).

Lemma complete_only_empty (members : list CouncilMember.t) :
  (0 =? length members) = true <-> members = [].
Proof. destruct members; simpl; split; congruence. Qed.

Lemma runStage1_without_workers w config members collector :
  CouncilConfig.concurrencyLimit config = 0 ->
  runStage1 w config members collector
  = Some (Stage1Result.mk [] (0 =? length members) [], collector).
Proof.
  intros Hl. unfold runStage1. cbv zeta. rewrite Hl.
  destruct (OrchestratorFacts.dispatch_without_workers _
              (map taskOf (map stage1Task members)) (settles1 w)) as [-> ->].
  now rewrite OrchestratorFacts.keep_repeat_None.
Qed.

Lemma map_set_Forall {V} (P : string * V -> Prop) k v m :
  P (k, v) -> Forall P m -> Forall P (Audit.map_set k v m).
Proof.
  intros Hk. induction 1 as [|[k' v'] m Hx Hm IH]; simpl;
    [constructor; [exact Hk | constructor]|].
  destruct (String.eqb k' k); constructor; auto.
Qed.

Lemma map_set_keys {V} k (v : V) m id :
  In id (map fst (Audit.map_set k v m)) <-> id = k \/ In id (map fst m).
Proof.
  induction m as [|[k' v'] m IH]; simpl; [intuition congruence|].
  destruct (String.eqb_spec k' k) as [-> | Hne]; simpl.
  - intuition congruence.
  - rewrite IH. intuition congruence.
Qed.

Lemma map_update_Forall {V} (P : string * V -> Prop) k f m :
  (forall v, P (k, f v)) -> Forall P m -> Forall P (Audit.map_update k f m).
Proof.
  intros Hk. induction 1 as [|[k' v'] m Hx Hm IH]; simpl; [constructor|].
  destruct (String.eqb_spec k' k) as [-> | Hne]; constructor; auto.
Qed.

Lemma map_update_keys {V} k (f : V -> V) m :
  map fst (Audit.map_update k f m) = map fst m.
Proof.
  induction m as [|[k' v'] m IH]; simpl; [reflexivity|].
  destruct (String.eqb k' k); simpl; [reflexivity | now rewrite IH].
Qed.

Lemma recordTask_failed w members c i :
  allFailed c ->
  allFailed (recordTask w members c i) /\
  forall id,
    In id (map fst (Audit.stage1Metrics (recordTask w members c i))) <->
    id = modelAt members i \/ In id (map fst (Audit.stage1Metrics c)).
Proof.
  intros Hc. unfold recordTask, allFailed, Audit.recordStage1Failure,
    Audit.recordStage1Start, Audit.withMetrics.
  cbn [Audit.stage1Metrics]. split.
  - apply map_update_Forall; [reflexivity|].
    apply map_set_Forall; [reflexivity | exact Hc].
  - intros id. rewrite map_update_keys. apply map_set_keys.
Qed.

(** After the tasks of all seats, every seat is recorded as failed, under
    its model. *)
Lemma recorded_failures w members collector :
  allFailed collector ->
  let collector' :=
    fold_left (recordTask w members) (seq 0 (length members)) collector in
  allFailed collector' /\
  forall id,
    In id (map fst (Audit.stage1Metrics collector')) <->
    In id (map CouncilMember.modelId members) \/
    In id (map fst (Audit.stage1Metrics collector)).
Proof.
  intros Hc collector'.
  assert (forall indices c,
            allFailed c ->
            allFailed (fold_left (recordTask w members) indices c) /\
            forall id,
              In id (map fst (Audit.stage1Metrics
                                (fold_left (recordTask w members) indices c)))
              <-> In id (map (modelAt members) indices) \/
                  In id (map fst (Audit.stage1Metrics c))) as Hfold.
  { induction indices as [|i indices IH]; intros c Hf; cbn [fold_left map In].
    - split; [exact Hf | tauto].
    - destruct (recordTask_failed w members c i Hf) as [Hf' Hk'].
      destruct (IH _ Hf') as [Hf'' Hk'']. split; [exact Hf''|].
      intros id. rewrite Hk'', Hk'. intuition congruence. }
  destruct (Hfold (seq 0 (length members)) collector Hc) as [Hf Hk].
  split; [exact Hf|]. intros id. unfold collector'. rewrite Hk.
  assert (map (modelAt members) (seq 0 (length members))
          = map CouncilMember.modelId members) as ->
    by exact (modelAt_seq (fun x => x) members).
  reflexivity.
Qed.

Lemma failed_no_latency c :
  allFailed c ->
  Forall (fun km => Audit.respondedLatency (snd km) = None)
    (Audit.stage1Metrics c).
Proof.
  intros H. eapply Forall_impl; [|exact H].
  intros [k m] Hs. cbn [snd] in *. unfold Audit.respondedLatency.
  rewrite Hs. now destruct (Stage1Metrics.endTime m).
Qed.

Lemma failed_not_responded c stage1 councilModels :
  allFailed c ->
  Stage1Audit.modelsResponded (Audit.buildStage1Audit c stage1 councilModels)
  = [].
Proof.
  intros H. apply failed_no_latency in H.
  unfold Audit.buildStage1Audit. cbn [Stage1Audit.modelsResponded].
  induction H as [|km l Hkm _ IH]; [reflexivity|].
  cbn [flat_map]. now rewrite Hkm.
Qed.

Lemma failed_all_listed c stage1 councilModels :
  allFailed c ->
  forall id,
    In id (Stage1Audit.modelsFailed
             (Audit.buildStage1Audit c stage1 councilModels)) <->
    In id (map fst (Audit.stage1Metrics c)).
Proof.
  intros H id. apply failed_no_latency in H.
  unfold Audit.buildStage1Audit. cbn [Stage1Audit.modelsFailed].
  induction H as [|km l Hkm _ IH]; [reflexivity|].
  cbn [filter]. rewrite Hkm. cbn [map In]. now rewrite IH.
Qed.


Section Facts.

Variable extractCitations : string -> list string.
Variable stringifySynthesis : Stage3Synthesis.t -> string.

Local Abbreviation deliberate := (deliberate extractCitations stringifySynthesis).
Local Abbreviation synthesize := (synthesize extractCitations stringifySynthesis).
Local Abbreviation buildAudit := (Audit.buildAudit extractCitations stringifySynthesis).

Lemma runStage2_explicit w config stage1 members :
  1 <= CouncilConfig.concurrencyLimit config ->
  exists errors,
    runStage2 w config stage1 members =
    Some (Stage2Result.mk
            (OrchestratorFacts.successes
               (Audit.mapi (StageOutcomes.stage2Task w stage1) 0 members))
            (Aggregation.calculateAggregateRankings
               (OrchestratorFacts.successes
                  (Audit.mapi (StageOutcomes.stage2Task w stage1) 0 members))
               (Stage1Result.analyses stage1))
            (length (OrchestratorFacts.successes
                       (Audit.mapi (StageOutcomes.stage2Task w stage1) 0 members))
             =? length members)
            errors,
          map (fun m => ReviewCall (CouncilMember.modelId m)
                          (Stage2Prompt.messages (baseSystemPrompt w) stage1))
            members) /\
    Permutation errors
      (OrchestratorFacts.failuresOf 2 members
         (Audit.mapi (StageOutcomes.stage2Task w stage1) 0 members)).
Proof.
  intros Hl. unfold Orchestrator.runStage2. cbv zeta.
  change (Audit.mapi (fun i m => stage2Outcome m stage1 (reviewAnswer w i)) 0
            members)
    with (Audit.mapi (StageOutcomes.stage2Task w stage1) 0 members).
  destruct (DispatcherFacts.dispatch_results _
              (map taskOf
                 (Audit.mapi (StageOutcomes.stage2Task w stage1) 0 members))
              (settles2 w) (CouncilConfig.concurrencyLimit config) Hl)
    as (Hres & Hstart & Hperm).
  rewrite Hres, Hstart, OrchestratorFacts.keep_slots.
  rewrite !length_map, StageExecution.length_mapi in *.
  rewrite (modelAt_seq
             (fun id => ReviewCall id
                          (Stage2Prompt.messages (baseSystemPrompt w) stage1))).
  eexists. split; [reflexivity|].
  unfold OrchestratorFacts.failuresOf. rewrite StageExecution.length_mapi.
  now apply OrchestratorFacts.errorsOf_perm.
Qed.

Lemma complete_iff_no_error {A} stage (members : list CouncilMember.t)
  (f : nat -> CouncilMember.t -> MemberOutcome A) errors :
  Permutation errors
    (OrchestratorFacts.failuresOf stage members (Audit.mapi f 0 members)) ->
  length (OrchestratorFacts.successes (Audit.mapi f 0 members)) + length errors
  = length members /\
  ((length (OrchestratorFacts.successes (Audit.mapi f 0 members))
    =? length members) = true <-> errors = []).
Proof.
  intros Hperm.
  pose proof (StageExecution.outcomes_accounted stage members f) as Hacc.
  rewrite <- (Permutation_length Hperm) in Hacc.
  split; [exact Hacc|]. rewrite Nat.eqb_eq. split.
  - intros H. destruct errors; [reflexivity | simpl in Hacc; lia].
  - intros ->. simpl in Hacc. lia.
Qed.

(** X11.  Stage 2 asks every council member for a review, also a member
    whose Stage-1 call failed, and sends all of them the same two messages.
    With at least one worker, [runStage2] makes one review call per member in
    seat order; every member ends either as a peer review or as a
    recoverable Stage-2 error entry; the result is complete exactly when
    there is no error entry; the reviews are those of the members that
    succeeded, in seat order, under the member's label and model; and the
    aggregate rankings are computed from exactly these reviews and the
    Stage-1 analyses. *)
Theorem runStage2_asks_every_member :
  forall (w : World) (config : CouncilConfig.t) (stage1 : Stage1Result.t)
         (members : list CouncilMember.t),
    1 <= CouncilConfig.concurrencyLimit config ->
    exists stage2 calls,
      runStage2 w config stage1 members = Some (stage2, calls) /\
      calls = map (fun m => ReviewCall (CouncilMember.modelId m)
                              (Stage2Prompt.messages (baseSystemPrompt w) stage1))
                members /\
      length (Stage2Result.peerReviews stage2) + length (Stage2Result.errors stage2)
      = length members /\
      (Stage2Result.complete stage2 = true <-> Stage2Result.errors stage2 = []) /\
      Forall (fun e =>
                StageError.stage e = 2 /\ StageError.recoverable e = true /\
                exists m, In m members /\
                          StageError.modelId e = Some (CouncilMember.modelId m))
        (Stage2Result.errors stage2) /\
      Stage2Result.aggregateRankings stage2 =
        Aggregation.calculateAggregateRankings (Stage2Result.peerReviews stage2)
          (Stage1Result.analyses stage1) /\
      exists reviewers,
        SchemaFacts.sublist reviewers members /\
        map PeerReview.reviewerLabel (Stage2Result.peerReviews stage2)
        = map CouncilMember.sessionLabel reviewers /\
        map PeerReview._reviewerModelId (Stage2Result.peerReviews stage2)
        = map (fun m => Some (CouncilMember.modelId m)) reviewers.
Proof.
  intros w config stage1 members Hl.
  destruct (runStage2_explicit w config stage1 members Hl)
    as (errors & Hrun & Hperm).
  destruct (complete_iff_no_error 2 members (StageOutcomes.stage2Task w stage1)
              errors Hperm) as [Hacc Hcomplete].
  do 2 eexists. split; [exact Hrun|]. cbn.
  split; [reflexivity|]. split; [exact Hacc|]. split; [exact Hcomplete|]. split.
  - eapply Permutation_Forall; [symmetry; exact Hperm|]. apply errorsOf_Forall.
  - split; [reflexivity|].
    exists (StageOutcomes.succeeded (StageOutcomes.stage2Task w stage1) 0 members).
    split; [apply StageOutcomes.succeeded_sublist|]. split.
    + apply (StageOutcomes.successes_succeeded
               (StageOutcomes.stage2Task w stage1)).
      intros k m r H. apply (StageOutcomes.stage2Task_label _ _ _ _ _ H).
    + apply (StageOutcomes.successes_succeeded
               (StageOutcomes.stage2Task w stage1)
               PeerReview._reviewerModelId
               (fun m => Some (CouncilMember.modelId m))).
      intros k m r H. apply (StageOutcomes.stage2Task_label _ _ _ _ _ H).
Qed.

Lemma runStage2_calls w config stage1 members stage2 calls :
  runStage2 w config stage1 members = Some (stage2, calls) ->
  Forall (fun c => isChairmanCall c = false) calls /\
  Stage2Result.aggregateRankings stage2
  = Aggregation.calculateAggregateRankings (Stage2Result.peerReviews stage2)
      (Stage1Result.analyses stage1).
Proof.
  unfold Orchestrator.runStage2. cbv zeta.
  destruct (Dispatcher.withConcurrencyLimit _ _ _ _); [|discriminate].
  intros H. injection H as <- <-. split; [|reflexivity].
  apply Forall_forall. intros c Hc.
  apply in_map_iff in Hc as (i & <- & _). reflexivity.
Qed.

(** Without a Stage-1 analysis the selector falls back to the sentinel,
    whatever the override. *)
Lemma selectChairman_without_analyses stage1 stage2 override :
  Stage1Result.analyses stage1 = [] ->
  Stage2Result.aggregateRankings stage2
  = Aggregation.calculateAggregateRankings (Stage2Result.peerReviews stage2)
      (Stage1Result.analyses stage1) ->
  fst (Chairman.selectChairman stage1 stage2 override)
  = ChairmanSelectionResult.mk "unknown" fallback
      "Fallback to first responding model (ranking data unavailable)" None.
Proof.
  intros Hnone Hrank. rewrite Hnone in Hrank.
  assert (Chairman.selectByRanking stage1 stage2
          = ChairmanSelectionResult.mk "unknown" fallback
              "Fallback to first responding model (ranking data unavailable)"
              None) as Hs.
  { unfold Chairman.selectByRanking. rewrite Hrank, Hnone. reflexivity. }
  unfold Chairman.selectChairman. rewrite Hnone.
  destruct override as [o|]; [|exact Hs].
  destruct (truthy_string o); exact Hs.
Qed.

(** What is known of a deliberation that resolved. *)
Lemma deliberate_resolved_inv w config query d :
  fst (deliberate w config query) = Resolved d ->
  let members := assignLabels (CouncilConfig.councilModels config) in
  exists stage1 collector stage2 calls2 audit,
    appropriate w = true /\
    Stage1Result.analyses stage1 = [] /\
    (minQuorumOf config <= 0)%Z /\
    runStage2 w config stage1 members = Some (stage2, calls2) /\
    buildAudit
      (Audit.recordChairmanSelection (selectionAudit config stage1 stage2)
         collector)
      (endedAt w) stage1 (sortedInPlace stage2)
      (runStage3WithChairman w config (chairmanOf config stage1 stage2))
      (CouncilConfig.councilModels config) = Returned audit /\
    d = constructDeliberation w query stage1 (sortedInPlace stage2)
          (runStage3WithChairman w config (chairmanOf config stage1 stage2))
          members audit /\
    snd (deliberate w config query) =
      calls2 ++ [ChairmanCall (chairmanOf config stage1 stage2)].
Proof.
  intros H members.
  destruct (appropriate w) eqn:Ha.
  2: { unfold Orchestrator.deliberate in H. rewrite Ha in H. discriminate. }
  destruct (OrchestratorFacts.deliberate_afterStage1 extractCitations
              stringifySynthesis w config query Ha)
    as (stage1 & collector & _ & Hnone & Hd).
  fold members in Hd. rewrite Hd in *. clear Hd.
  unfold Orchestrator.afterStage1 in *. cbv zeta in *.
  rewrite Hnone in *. cbn [length Z.of_nat] in *.
  destruct (0 <? minQuorumOf config)%Z eqn:E1; [discriminate|].
  destruct (runStage2 w config stage1 members) as [[stage2 calls2]|] eqn:Hrun2;
    [|discriminate].
  destruct (Z.of_nat (length (Stage2Result.peerReviews stage2)) <? minQuorumOf config)%Z
    eqn:E2; [discriminate|].
  apply Z.ltb_ge in E1.
  cbn [fst snd] in *. unfold Orchestrator.synthesize in *. cbv zeta in *.
  cbn [fst snd] in *.
  fold (chairmanOf config stage1 stage2) in *.
  fold (selectionAudit config stage1 stage2) in *.
  destruct (Audit.buildAudit _ _ _ _ _ _ _ _) as [audit|message] eqn:Ea;
    [|discriminate].
  injection H as <-.
  exists stage1, collector, stage2, calls2, audit.
  repeat split; auto.
Qed.

Lemma buildAudit_selection c now stage1 stage2 stage3 models audit :
  buildAudit c now stage1 stage2 stage3 models = Returned audit ->
  CouncilAudit.chairmanSelection audit = Audit.chairmanSelection c.
Proof.
  unfold Audit.buildAudit. cbv zeta.
  destruct (Audit.detectCrossStageAnomalies stage1 stage2); [|discriminate].
  cbn. intros H. injection H as <-. reflexivity.
Qed.


(** X14.  A deliberation resolves only without a quorum requirement, and
    then without any analysis.  Whenever [deliberate] resolves, the query was
    appropriate and the configured minimumSeats is negative; the result
    holds no Stage-1 analysis, no aggregate ranking and no participating
    model; the chairman that ran Stage 3 is the sentinel "unknown", chosen
    by the fallback method whatever override is configured, and the
    metadata and the audit name it; the result reports the query and the
    session it was given and mirrors the synthesis in its top-level fields;
    and exactly one chairman call was made, after the review calls. *)
Theorem resolves_only_without_quorum :
  forall (w : World) (config : CouncilConfig.t) (query : CouncilQuery.t)
         (d : CouncilDeliberation.t),
    fst (deliberate w config query) = Resolved d ->
    appropriate w = true /\
    (exists n, CouncilConfig.minimumSeats config = Some n /\ (n < 0)%Z) /\
    Stage1Result.analyses (stage1Of d) = [] /\
    Stage2Result.aggregateRankings (stage2Of d) = [] /\
    DeliberationMetadata.participatingModels (CouncilDeliberation.metadata d)
    = [] /\
    Stage3Result.chairmanModel (stage3Of d) = "unknown" /\
    DeliberationMetadata.chairmanModel (CouncilDeliberation.metadata d)
    = "unknown" /\
    (exists selection,
        CouncilAudit.chairmanSelection (CouncilDeliberation._audit d)
        = Some selection /\
        ChairmanSelectionAudit.selectedModel selection = "unknown" /\
        ChairmanSelectionAudit.method selection = fallback) /\
    CouncilDeliberation.query d = CouncilQuery.query query /\
    CouncilDeliberation.sessionId d = sessionId w /\
    CouncilDeliberation.consensus d
    = Stage3Synthesis.consensus (Stage3Result.synthesis (stage3Of d)) /\
    CouncilDeliberation.dissent d
    = Stage3Synthesis.dissent (Stage3Result.synthesis (stage3Of d)) /\
    exists reviews,
      snd (deliberate w config query) = reviews ++ [ChairmanCall "unknown"] /\
      Forall (fun c => isChairmanCall c = false) reviews.
Proof.
  intros w config query d Hd.
  destruct (deliberate_resolved_inv w config query d Hd)
    as (stage1 & collector & stage2 & calls2 & audit & Ha & Hnone & Hq & Hrun2 &
        Haudit & -> & Hcalls).
  destruct (runStage2_calls _ _ _ _ _ _ Hrun2) as [Hreviews Hrank].
  pose proof (selectChairman_without_analyses stage1 stage2
                (CouncilConfig.chairmanOverrideModel config) Hnone Hrank)
    as Hsel.
  assert (chairmanOf config stage1 stage2 = "unknown") as Hch
    by (unfold chairmanOf; now rewrite Hsel).
  assert (forall s3 : Stage3Result.t,
            s3 = runStage3WithChairman w config "unknown" ->
            Stage3Result.chairmanModel s3 = "unknown") as Hs3.
  { intros s3 ->. unfold runStage3WithChairman.
    destruct (chairmanAnswer w _) as [[?|?]|?]; reflexivity. }
  rewrite Hch in *.
  unfold stage1Of, stage2Of, stage3Of. cbn.
  split; [exact Ha|]. split.
  { unfold minQuorumOf, DEFAULT_MINIMUM_QUORUM in Hq.
    destruct (CouncilConfig.minimumSeats config) as [n|]; [|lia].
    exists n. split; [reflexivity|].
    destruct (Z.eqb_spec n 0); lia. }
  split; [exact Hnone|]. split.
  { rewrite Hrank, Hnone. reflexivity. }
  split.
  { rewrite Hnone. cbn [existsb].
    generalize (assignLabels (CouncilConfig.councilModels config)).
    intros l. induction l as [|m l IH]; [reflexivity | exact IH]. }
  split; [now apply Hs3|]. split; [now apply Hs3|]. split.
  { exists (selectionAudit config stage1 stage2).
    rewrite (buildAudit_selection _ _ _ _ _ _ _ Haudit). cbn.
    split; [reflexivity|]. unfold selectionAudit. rewrite Hsel.
    split; reflexivity. }
  split; [reflexivity|]. split; [reflexivity|]. split; [reflexivity|].
  split; [reflexivity|].
  exists calls2. split; [exact Hcalls | exact Hreviews].
Qed.

(** X13.  A concurrency limit of 0 starves the council.  With no worker the
    dispatcher starts no task and resolves with an array of nulls, so for an
    appropriate query and a positive quorum [deliberate] calls no model at
    all and rejects with a Stage-1 quorum error that counts 0 responses and
    carries no underlying error. *)
Theorem zero_concurrency_starves_the_council :
  forall (w : World) (config : CouncilConfig.t) (query : CouncilQuery.t),
    appropriate w = true ->
    CouncilConfig.concurrencyLimit config = 0 ->
    (0 < minQuorumOf config)%Z ->
    exists message,
      deliberate w config query =
      (Rejected (CouncilQuorumError message 0 (minQuorumOf config) []), []).
Proof.
  intros w config query Ha Hl Hq.
  destruct (OrchestratorFacts.deliberate_afterStage1 extractCitations
              stringifySynthesis w config query Ha)
    as (stage1 & collector & Hrun & Hnone & ->).
  rewrite (runStage1_without_workers w config _ _ Hl) in Hrun.
  injection Hrun as <- _.
  rewrite OrchestratorFacts.afterStage1_stage1_gate by exact Hq.
  eexists. unfold stage1QuorumError. cbn. reflexivity.
Qed.

End Facts.


(** Stage 1 left only seat A's analysis; both seats are asked for a review. *)
Lemma runStage2_asks_every_member_witness :
  1 <= CouncilConfig.concurrencyLimit OrchestratorFacts.twoSeats /\
  exists stage2 calls,
    runStage2 OrchestratorFacts.oneReview OrchestratorFacts.twoSeats
      (Stage1Result.mk [AggregationFacts.analysis "A"] false [])
      (assignLabels ["vendor/a"; "vendor/b"])
    = Some (stage2, calls) /\
    map (fun c => match c with
                  | ReviewCall modelId _ => modelId
                  | _ => EmptyString
                  end) calls = ["vendor/a"; "vendor/b"] /\
    length (Stage2Result.peerReviews stage2) + length (Stage2Result.errors stage2)
    = 2.
Proof.
  split; [vm_compute; lia|].
  destruct (runStage2_asks_every_member OrchestratorFacts.oneReview
              OrchestratorFacts.twoSeats
              (Stage1Result.mk [AggregationFacts.analysis "A"] false [])
              (assignLabels ["vendor/a"; "vendor/b"])
              (le_S 1 2 (le_S 1 1 (le_n 1))))
    as (stage2 & calls & Hrun & Hcalls & Hacc & _).
  exists stage2, calls. split; [exact Hrun|]. split; [|exact Hacc].
  rewrite Hcalls. reflexivity.
Defined.

(** Two seats and a limit of 0. *)
Definition noWorkers : CouncilConfig.t :=
  CouncilConfig.mk ["vendor/a"; "vendor/b"] None (Some 2%Z) 0.

Lemma zero_concurrency_starves_the_council_witness :
  appropriate OrchestratorFacts.chairmanTimesOut = true /\
  CouncilConfig.concurrencyLimit noWorkers = 0 /\
  (0 < minQuorumOf noWorkers)%Z /\
  snd (Orchestrator.deliberate OrchestratorFacts.noCitations
         OrchestratorFacts.noText OrchestratorFacts.chairmanTimesOut noWorkers
         OrchestratorFacts.someQuery) = [].
Proof.
  split; [reflexivity|]. split; [reflexivity|]. split; [reflexivity|].
  destruct (zero_concurrency_starves_the_council OrchestratorFacts.noCitations
              OrchestratorFacts.noText OrchestratorFacts.chairmanTimesOut
              noWorkers OrchestratorFacts.someQuery eq_refl eq_refl eq_refl)
    as (message & ->).
  reflexivity.
Defined.


Definition someSynthesis : Stage3Synthesis.t :=
  Stage3Synthesis.mk (ConsensusResult.mk true "Time-barred" (4 # 5) 2 2) []
    (CalibratedRisk.mk "medium" [] false false "") [] [] [] [] None.

(** Both review calls answer and the chairman call returns a synthesis. *)
Definition chairmanAnswers : World :=
  OrchestratorFacts.world (fun _ => Returned OrchestratorFacts.reviewAB)
    (fun _ => Returned (Validated someSynthesis)).

Lemma chairmanAnswers_resolves :
  exists d,
    fst (Orchestrator.deliberate OrchestratorFacts.noCitations
           OrchestratorFacts.noText chairmanAnswers OrchestratorFacts.noQuorum
           OrchestratorFacts.someQuery) = Resolved d.
Proof. vm_compute. eexists. reflexivity. Qed.

(** Two seats and a minimum of -1: the deliberation resolves, chaired by
    the sentinel. *)
Lemma resolves_only_without_quorum_witness :
  exists d,
    fst (Orchestrator.deliberate OrchestratorFacts.noCitations
           OrchestratorFacts.noText chairmanAnswers OrchestratorFacts.noQuorum
           OrchestratorFacts.someQuery) = Resolved d /\
    Stage1Result.analyses (stage1Of d) = [] /\
    Stage3Result.chairmanModel (stage3Of d) = "unknown".
Proof.
  destruct chairmanAnswers_resolves as (d & Hd). exists d.
  split; [exact Hd|].
  destruct (resolves_only_without_quorum OrchestratorFacts.noCitations
              OrchestratorFacts.noText chairmanAnswers
              OrchestratorFacts.noQuorum OrchestratorFacts.someQuery d Hd)
    as (_ & _ & Hnone & _ & _ & Hchair & _).
  split; [exact Hnone | exact Hchair].
Defined.

End DeliberationFacts.

(* ================================================================== *)
(** * Further properties of the audit collector                        *)
(* ================================================================== *)

Module AuditScan.
Import Audit.

(** An element of a thresholdIssues array on which the cross-stage scan
    throws: null, or an object whose [issue] is neither missing, null nor a
    string. *)
Definition malformedIssue (issue : json) : bool :=
  match issue with
  | JNull => true
  | JObj kvs =>
      match assoc "issue" kvs with
      | None | Some JNull | Some (JStr _) => false
      | Some _ => true
      end
  | _ => false
  end.

(** The analysis holds a thresholdIssues array with a malformed element. *)
Definition hasMalformedIssue (a : IndividualAnalysis.t) : bool :=
  match thresholdIssuesOf a with
  | Some issues => existsb malformedIssue issues
  | None => false
  end.

Definition isDivergence (a : AuditAnomaly.t) : Prop :=
  AuditAnomaly.type a = synthesis_divergence /\
  AuditAnomaly.stage a = in_stage 3.

Definition crossStageWarning (a : AuditAnomaly.t) : Prop :=
  AuditAnomaly.stage a = cross_stage /\ AuditAnomaly.severity a = warning /\
  (AuditAnomaly.type a = confidence_mismatch \/
   AuditAnomaly.type a = threshold_gap).

(** The label of a reviewer's row, and whether two reviewers put the same
    analysis first. *)
Definition agreesWith (matrix : list (string * Agreement.t)) (a b : string)
  : Prop :=
  exists row, assoc a matrix = Some row /\ In b (Agreement.agreedWith row).

Definition disagreesWith (matrix : list (string * Agreement.t)) (a b : string)
  : Prop :=
  exists row, assoc a matrix = Some row /\ In b (Agreement.disagreedWith row).

Lemma normalizedIssue_malformed issue :
  match normalizedIssue issue with
  | Returned _ => malformedIssue issue = false
  | Threw _ => malformedIssue issue = true
  end.
Proof.
  destruct issue as [| | | | |kvs]; simpl; try reflexivity.
  destruct (assoc "issue" kvs) as [[| | | | |]|]; reflexivity.
Qed.

Lemma countIssues_malformed label issues counts :
  match countIssues label issues counts with
  | Returned _ => existsb malformedIssue issues = false
  | Threw _ => existsb malformedIssue issues = true
  end.
Proof.
  revert counts. induction issues as [|issue rest IH]; intros counts; simpl;
    [reflexivity|].
  pose proof (normalizedIssue_malformed issue) as Hn.
  destruct (normalizedIssue issue) as [s|m]; simpl; rewrite Hn; simpl;
    [apply IH | reflexivity].
Qed.

Lemma thresholdCountsOf_malformed analyses counts :
  match thresholdCountsOf analyses counts with
  | Returned _ => existsb hasMalformedIssue analyses = false
  | Threw _ => existsb hasMalformedIssue analyses = true
  end.
Proof.
  revert counts. induction analyses as [|a rest IH]; intros counts; simpl;
    [reflexivity|].
  unfold hasMalformedIssue at 1 3.
  destruct (thresholdIssuesOf a) as [issues|]; simpl; [|apply IH].
  pose proof (countIssues_malformed (IndividualAnalysis.label a) issues counts)
    as Hc.
  destruct (countIssues _ issues counts) as [counts'|m]; simpl; rewrite Hc;
    simpl; [apply IH | reflexivity].
Qed.

Lemma confidenceMismatches_warnings stage1 stage2 :
  Forall crossStageWarning (confidenceMismatches stage1 stage2).
Proof.
  apply Forall_forall. intros x Hx. unfold confidenceMismatches in Hx.
  apply in_flat_map in Hx as (a & _ & Hx).
  destruct (isHigh _); [|destruct Hx].
  destruct (find _ _); [|destruct Hx].
  destruct (Qle_bool _ _); [|destruct Hx].
  destruct Hx as [<- | []]. repeat split. now left.
Qed.

Lemma thresholdGaps_warnings analyses counts :
  Forall crossStageWarning (thresholdGaps analyses counts).
Proof.
  apply Forall_forall. intros x Hx. unfold thresholdGaps in Hx.
  apply in_flat_map in Hx as (entry & _ & Hx).
  destruct (_ <=? _); [|destruct Hx].
  destruct (0 <? _); [|destruct Hx].
  destruct Hx as [<- | []]. repeat split. now right.
Qed.

Lemma crossStage_warnings stage1 stage2 cross :
  detectCrossStageAnomalies stage1 stage2 = Returned cross ->
  Forall crossStageWarning cross.
Proof.
  unfold detectCrossStageAnomalies.
  destruct (thresholdCountsOf _ _) as [counts|]; [|discriminate].
  simpl. intros H. injection H as <-. apply Forall_app. split.
  - apply confidenceMismatches_warnings.
  - apply thresholdGaps_warnings.
Qed.

(** X16.  The cross-stage scan throws exactly on a malformed threshold
    issue.  [detectCrossStageAnomalies] throws when, and only when, some
    Stage-1 analysis has a structured payload whose thresholdIssues array
    holds a null, or an object whose [issue] is present, not null and not a
    string.  When it returns, every anomaly it reports is a cross-stage
    warning, of type confidence-mismatch or threshold-gap. *)
Theorem crossStage_scan_throws_on_malformed_issue :
  forall (stage1 : Stage1Result.t) (stage2 : Stage2Result.t),
    match detectCrossStageAnomalies stage1 stage2 with
    | Returned cross =>
        existsb hasMalformedIssue (Stage1Result.analyses stage1) = false /\
        Forall crossStageWarning cross
    | Threw _ =>
        existsb hasMalformedIssue (Stage1Result.analyses stage1) = true
    end.
Proof.
  intros stage1 stage2.
  pose proof (crossStage_warnings stage1 stage2) as Hw.
  unfold detectCrossStageAnomalies in *.
  pose proof (thresholdCountsOf_malformed (Stage1Result.analyses stage1) [])
    as Hc.
  destruct (thresholdCountsOf _ _) as [counts|]; simpl in *.
  - split; [exact Hc | now apply Hw].
  - exact Hc.
Qed.

Section Integrity.

Variable extractCitations : string -> list string.
Variable stringifySynthesis : Stage3Synthesis.t -> string.

Lemma stage2_never_critical stage1 stage2 :
  ~ AuditFacts.hasCritical
      (Stage2Audit.anomalies (buildStage2Audit extractCitations stage1 stage2)).
Proof.
  unfold buildStage2Audit. cbn [Stage2Audit.anomalies].
  rewrite AuditFacts.hasCritical_app. intros [H | H];
    destruct H as (a & Hin & Hs); apply in_map_iff in Hin as (x & <- & _);
    discriminate.
Qed.

Lemma stage3_critical_is_divergence stage1 stage2 stage3 a :
  In a (Stage3Audit.anomalies
          (buildStage3Audit extractCitations stringifySynthesis stage1 stage2
             stage3)) ->
  (AuditAnomaly.severity a = critical <-> isDivergence a).
Proof.
  unfold buildStage3Audit. cbn [Stage3Audit.anomalies]. intros Hin.
  apply in_app_or in Hin as [Hin | Hin].
  { unfold dissentAnomalies in Hin. destruct (0 <? _)%Z; [|destruct Hin].
    destruct Hin as [<- | []]. split; [discriminate | intros [H _]; discriminate]. }
  apply in_app_or in Hin as [Hin | Hin].
  { unfold singleSourceAnomalies in Hin.
    destruct (0 <? _); [|destruct Hin].
    destruct (Qgtb _ _); [|destruct Hin].
    destruct Hin as [<- | []]. split; [discriminate | intros [H _]; discriminate]. }
  unfold divergenceAnomalies in Hin.
  destruct (Stage2Result.aggregateRankings stage2) as [|top rest]; [destruct Hin|].
  destruct (_ && _ && _); [|destruct Hin].
  destruct (fold_right insertByReliance [] _) as [|[dl v] l]; [destruct Hin|].
  destruct (truthy_string dl); [|destruct Hin].
  destruct (find _ _); [|destruct Hin].
  destruct (Qgtb _ _); [|destruct Hin].
  destruct Hin as [<- | []]. split; [intros _; split; reflexivity | reflexivity].
Qed.

(** X17.  Only a synthesis divergence makes the process-integrity score
    low.  In every audit that [buildAudit] returns, the score is low
    exactly when the Stage-3 audit raised a synthesis-divergence anomaly
    (the synthesis relies on a low-ranked analysis and ignores the
    top-ranked one); no model failure, retry, latency, quorum, ranking,
    citation, dissent or cross-stage finding is ever critical. *)
Theorem low_score_means_synthesis_divergence :
  forall (c : AuditCollector) (now : Z) (stage1 : Stage1Result.t)
         (stage2 : Stage2Result.t) (stage3 : Stage3Result.t)
         (councilModels : list string) (audit : CouncilAudit.t),
    buildAudit extractCitations stringifySynthesis c now stage1 stage2 stage3
      councilModels = Returned audit ->
    let all :=
      Stage1Audit.anomalies (CouncilAudit.stage1 audit) ++
      Stage2Audit.anomalies (CouncilAudit.stage2 audit) ++
      Stage3Audit.anomalies (CouncilAudit.stage3 audit) ++
      CouncilAudit.crossStageAnomalies audit in
    (ProcessIntegrity.score (CouncilAudit.processIntegrity audit) = score_low <->
     exists a, In a (Stage3Audit.anomalies (CouncilAudit.stage3 audit)) /\
               isDivergence a) /\
    (forall a, In a all ->
       (AuditAnomaly.severity a = critical <-> isDivergence a)).
Proof.
  intros c now stage1 stage2 stage3 councilModels audit Hb all.
  unfold buildAudit in Hb. cbv zeta in Hb.
  destruct (detectCrossStageAnomalies stage1 stage2) as [cross|] eqn:Ecross;
    [|discriminate].
  simpl in Hb. injection Hb as <-. unfold all. clear all.
  cbn [CouncilAudit.stage1 CouncilAudit.stage2 CouncilAudit.stage3
       CouncilAudit.crossStageAnomalies CouncilAudit.processIntegrity].
  pose proof (crossStage_warnings _ _ _ Ecross) as Hcross.
  rewrite Forall_forall in Hcross.
  assert (forall a,
            In a (Stage1Audit.anomalies
                    (buildStage1Audit c stage1 councilModels) ++
                  Stage2Audit.anomalies
                    (buildStage2Audit extractCitations stage1 stage2) ++
                  Stage3Audit.anomalies
                    (buildStage3Audit extractCitations stringifySynthesis
                       stage1 stage2 stage3) ++ cross) ->
            (AuditAnomaly.severity a = critical <-> isDivergence a) /\
            (AuditAnomaly.severity a = critical ->
             In a (Stage3Audit.anomalies
                     (buildStage3Audit extractCitations stringifySynthesis
                        stage1 stage2 stage3)))) as Hall.
  { intros a Hin.
    apply in_app_or in Hin as [Hin | Hin].
    { assert (AuditAnomaly.severity a <> critical) as Hn.
      { intros Hs. apply (AuditFacts.stage1_never_critical c stage1 councilModels).
        exists a. auto. }
      split; [|contradiction]. split; [contradiction|].
      intros [Ht Hst]. exfalso.
      unfold buildStage1Audit in Hin. cbn [Stage1Audit.anomalies] in Hin.
      repeat (apply in_app_or in Hin as [Hin | Hin]).
      - apply in_map_iff in Hin as (x & <- & _). discriminate.
      - destruct (2 <=? _); [|destruct Hin].
        apply in_flat_map in Hin as (x & _ & Hin).
        destruct (Qgtb _ _); [|destruct Hin].
        destruct Hin as [<- | []]. discriminate.
      - apply in_flat_map in Hin as (x & _ & Hin).
        destruct (2 <=? _); [|destruct Hin].
        destruct Hin as [<- | []]. discriminate.
      - destruct (_ =? _); [|destruct Hin].
        destruct Hin as [<- | []]. discriminate. }
    apply in_app_or in Hin as [Hin | Hin].
    { assert (AuditAnomaly.severity a <> critical) as Hn.
      { intros Hs. apply (stage2_never_critical stage1 stage2). exists a. auto. }
      split; [|contradiction]. split; [contradiction|].
      intros [Ht Hst]. exfalso.
      unfold buildStage2Audit in Hin. cbn [Stage2Audit.anomalies] in Hin.
      apply in_app_or in Hin as [Hin | Hin];
        apply in_map_iff in Hin as (x & <- & _); discriminate. }
    apply in_app_or in Hin as [Hin | Hin].
    { split; [apply (stage3_critical_is_divergence _ _ _ _ Hin)
             | intros _; exact Hin]. }
    destruct (Hcross a Hin) as (Hst & Hsev & _).
    split; [split|]; try (intros H; rewrite Hsev in H; discriminate).
    intros [_ H]. rewrite Hst in H. discriminate. }
  split.
  - rewrite AuditFacts.calculateProcessIntegrity_score.
    unfold allAnomaliesOf.
    destruct (0 <? _) eqn:E.
    + apply AuditFacts.critical_count_pos in E as (a & Hin & Hs).
      split; [|reflexivity]. intros _.
      destruct (Hall a Hin) as [Hd H3]. exists a.
      split; [now apply H3 | now apply Hd].
    + split.
      * destruct (_ || _ || _); discriminate.
      * intros (a & Hin & Hd). exfalso.
        assert (AuditFacts.hasCritical
                  (Stage1Audit.anomalies
                     (buildStage1Audit c stage1 councilModels) ++
                   Stage2Audit.anomalies
                     (buildStage2Audit extractCitations stage1 stage2) ++
                   Stage3Audit.anomalies
                     (buildStage3Audit extractCitations stringifySynthesis
                        stage1 stage2 stage3) ++ cross)) as Hc.
        { exists a. split.
          - apply in_or_app. right. apply in_or_app. right.
            apply in_or_app. now left.
          - now apply (stage3_critical_is_divergence _ _ _ _ Hin). }
        apply AuditFacts.critical_count_pos in Hc. congruence.
  - intros a Hin. apply (Hall a Hin).
Qed.

End Integrity.

(** Analysis A: nothing of it comes back in the synthesis. *)
Definition ignoredAnalysis : IndividualAnalysis.t :=
  IndividualAnalysis.mk "A"
    "Liability is clear under the contract terms. Damages are certain."
    (JStr "high") [] (Some "vendor/a") None.

(** Analysis B: its first sentence comes back in the synthesis. *)
Definition echoedAnalysis : IndividualAnalysis.t :=
  IndividualAnalysis.mk "B"
    "The limitation period expired in March 2020. The claim is barred."
    (JStr "medium") [] (Some "vendor/b") None.

(** Both reviewers rank A first and B last. *)
Definition bothPreferA : list PeerReview.t :=
  [AuditFacts.reviewOf "A" ["A"; "B"]; AuditFacts.reviewOf "B" ["A"; "B"]].

(** Two analyses; both reviewers rank A first; the text of the synthesis
    repeats B's first sentence and nothing of A.  The audit raises the
    synthesis-divergence anomaly and the score is low. *)
Lemma low_score_means_synthesis_divergence_witness :
  exists audit,
    buildAudit (fun _ => [])
      (fun _ => "The limitation period expired in March 2020")
      (newCollector "session" 0) 10
      (Stage1Result.mk [ignoredAnalysis; echoedAnalysis] true [])
      (Stage2Result.mk bothPreferA
         (Aggregation.calculateAggregateRankings bothPreferA
            [ignoredAnalysis; echoedAnalysis]) true [])
      (AuditFacts.stage3With []) ["vendor/a"; "vendor/b"] = Returned audit /\
    (exists a, In a (Stage3Audit.anomalies (CouncilAudit.stage3 audit)) /\
               isDivergence a) /\
    ProcessIntegrity.score (CouncilAudit.processIntegrity audit) = score_low.
Proof.
  eexists. split; [vm_compute; reflexivity|].
  assert (exists a,
            In a (Stage3Audit.anomalies
                    (buildStage3Audit (fun _ => [])
                       (fun _ => "The limitation period expired in March 2020")
                       (Stage1Result.mk [ignoredAnalysis; echoedAnalysis] true [])
                       (Stage2Result.mk bothPreferA
                          (Aggregation.calculateAggregateRankings bothPreferA
                             [ignoredAnalysis; echoedAnalysis]) true [])
                       (AuditFacts.stage3With []))) /\
            isDivergence a) as Hdiv.
  { eexists. split; [vm_compute; right; left; reflexivity|].
    split; reflexivity. }
  split; [exact Hdiv|].
  exact (proj2 (proj1 (low_score_means_synthesis_divergence (fun _ => [])
                         (fun _ => "The limitation period expired in March 2020")
                         (newCollector "session" 0) 10%Z
                         (Stage1Result.mk [ignoredAnalysis; echoedAnalysis]
                            true [])
                         (Stage2Result.mk bothPreferA
                            (Aggregation.calculateAggregateRankings bothPreferA
                               [ignoredAnalysis; echoedAnalysis]) true [])
                         (AuditFacts.stage3With []) ["vendor/a"; "vendor/b"] _
                         eq_refl)) Hdiv).
Defined.

(* ---- agreement matrix ---- *)

Lemma map_set_fresh {V} k (v : V) m :
  ~ In k (map fst m) -> map_set k v m = m ++ [(k, v)].
Proof.
  induction m as [|[k' v'] m IH]; simpl; [reflexivity|].
  intros H. destruct (String.eqb_spec k' k) as [-> | Hne]; [tauto|].
  rewrite IH; tauto.
Qed.

(** Setting distinct keys one after the other lists them in that order. *)
Lemma fold_map_set_distinct {X V} (key : X -> string) (val : X -> V) l acc :
  NoDup (map key l) ->
  (forall x, In x l -> ~ In (key x) (map fst acc)) ->
  fold_left (fun acc x => map_set (key x) (val x) acc) l acc =
  acc ++ map (fun x => (key x, val x)) l.
Proof.
  revert acc. induction l as [|x l IH]; intros acc Hnd Hacc; simpl.
  - now rewrite app_nil_r.
  - inversion Hnd as [|? ? Hx Hnd']; subst.
    rewrite map_set_fresh by (apply Hacc; now left).
    rewrite IH; [now rewrite <- app_assoc | exact Hnd' |].
    intros y Hy Hin. rewrite map_app in Hin.
    apply in_app_or in Hin as [Hin | [Heq | []]].
    + apply (Hacc y); [now right | exact Hin].
    + simpl in Heq. apply Hx. rewrite Heq. now apply in_map.
Qed.

Lemma assoc_map_key {X V} (key : X -> string) (val : X -> V) l k v :
  assoc k (map (fun x => (key x, val x)) l) = Some v ->
  exists x, In x l /\ key x = k /\ v = val x.
Proof.
  induction l as [|x l IH]; simpl; [discriminate|].
  destruct (String.eqb_spec (key x) k) as [He | Hne].
  - intros H. injection H as <-. exists x. auto.
  - intros H. destruct (IH H) as (y & Hy & Hk & Hv). exists y. auto.
Qed.

Lemma NoDup_map_eq {X} (key : X -> string) l x y :
  NoDup (map key l) -> In x l -> In y l -> key x = key y -> x = y.
Proof.
  induction l as [|z l IH]; simpl; intros Hnd Hx Hy He; [destruct Hx|].
  inversion Hnd as [|? ? Hz Hnd']; subst.
  destruct Hx as [<- | Hx], Hy as [<- | Hy]; auto.
  - exfalso. apply Hz. rewrite He. now apply in_map.
  - exfalso. apply Hz. rewrite <- He. now apply in_map.
Qed.

Lemma assoc_map_key_In {X V} (key : X -> string) (val : X -> V) l x :
  NoDup (map key l) -> In x l ->
  assoc (key x) (map (fun x => (key x, val x)) l) = Some (val x).
Proof.
  intros Hnd Hx.
  destruct (assoc (key x) (map (fun x => (key x, val x)) l)) as [v|] eqn:E.
  - apply assoc_map_key in E as (y & Hy & Hk & ->).
    now rewrite (NoDup_map_eq key l y x Hnd Hy Hx Hk).
  - exfalso. apply SchemaFacts.assoc_None_iff in E. apply E.
    rewrite map_map. simpl. now apply in_map.
Qed.

Lemma sameTopPick_sym a b : sameTopPick a b = sameTopPick b a.
Proof.
  unfold sameTopPick.
  destruct (option_string_dec (topPick a) (topPick b)),
    (option_string_dec (topPick b) (topPick a)); congruence.
Qed.

Definition side (pick : bool) (row : Agreement.t) : list string :=
  if pick then Agreement.agreedWith row else Agreement.disagreedWith row.

Section Matrix.

Variable reviews : list PeerReview.t.
Hypothesis distinct : NoDup (map PeerReview.reviewerLabel reviews).

Local Abbreviation matrix :=
  (map (fun r => (PeerReview.reviewerLabel r, agreementOf reviews r)) reviews).

(** Reviewer [b] is on the given side of reviewer [a]'s row exactly when they
    are two different reviewers whose top picks compare that way. *)
Lemma row_iff (pick : bool) a b :
  (exists row, assoc a matrix = Some row /\ In b (side pick row)) <->
  exists ra rb, In ra reviews /\ In rb reviews /\
                PeerReview.reviewerLabel ra = a /\
                PeerReview.reviewerLabel rb = b /\ a <> b /\
                sameTopPick ra rb = pick.
Proof.
  split.
  - intros (row & Hrow & Hin).
    apply assoc_map_key in Hrow as (ra & Hra & Hla & ->).
    assert (exists rb, PeerReview.reviewerLabel rb = b /\ In rb reviews /\
                       String.eqb (PeerReview.reviewerLabel ra)
                         (PeerReview.reviewerLabel rb) = false /\
                       sameTopPick ra rb = pick) as (rb & Hlb & Hrb & Hne & Hp).
    { destruct pick; simpl in Hin;
        apply in_map_iff in Hin as (rb & Hlb & Hin);
        apply filter_In in Hin as [Hin Hp];
        apply filter_In in Hin as [Hrb Hne];
        apply negb_true_iff in Hne; exists rb; repeat split; auto.
      now apply negb_true_iff in Hp. }
    exists ra, rb. repeat split; auto.
    apply String.eqb_neq in Hne. congruence.
  - intros (ra & rb & Hra & Hrb & Hla & Hlb & Hne & Hp).
    exists (agreementOf reviews ra). split.
    + rewrite <- Hla. now apply assoc_map_key_In.
    + assert (In rb (filter (fun o => negb (String.eqb
                                            (PeerReview.reviewerLabel ra)
                                            (PeerReview.reviewerLabel o)))
                       reviews)) as Hothers.
      { apply filter_In. split; [exact Hrb|].
        apply negb_true_iff, String.eqb_neq. congruence. }
      destruct pick; simpl; apply in_map_iff; exists rb;
        (split; [exact Hlb|]); apply filter_In; (split; [exact Hothers|]).
      * exact Hp.
      * now rewrite Hp.
Qed.

Lemma row_sym (pick : bool) a b :
  (exists row, assoc a matrix = Some row /\ In b (side pick row)) ->
  exists row, assoc b matrix = Some row /\ In a (side pick row).
Proof.
  intros H. apply row_iff in H as (ra & rb & Hra & Hrb & Hla & Hlb & Hne & Hp).
  apply row_iff. exists rb, ra. repeat split; auto.
  now rewrite sameTopPick_sym.
Qed.

End Matrix.

(** X18.  The agreement matrix of the Stage-2 audit is symmetric.  When the
    reviewers carry distinct labels, the matrix has one row per reviewer, in
    review order; reviewer B is listed as agreeing with reviewer A exactly
    when A is listed as agreeing with B, and likewise for disagreeing; two
    different reviewers are always on exactly one of the two lists of each
    other, according to whether they put the same analysis first; and
    nobody is listed in their own row. *)
Theorem agreement_matrix_symmetric :
  forall (extractCitations : string -> list string)
         (stage1 : Stage1Result.t) (stage2 : Stage2Result.t),
    NoDup (map PeerReview.reviewerLabel (Stage2Result.peerReviews stage2)) ->
    let reviews := Stage2Result.peerReviews stage2 in
    let matrix :=
      Stage2Audit.agreementMatrix
        (buildStage2Audit extractCitations stage1 stage2) in
    map fst matrix = map PeerReview.reviewerLabel reviews /\
    (forall a b, agreesWith matrix a b <-> agreesWith matrix b a) /\
    (forall a b, disagreesWith matrix a b <-> disagreesWith matrix b a) /\
    (forall ra rb, In ra reviews -> In rb reviews ->
       PeerReview.reviewerLabel ra <> PeerReview.reviewerLabel rb ->
       (agreesWith matrix (PeerReview.reviewerLabel ra)
          (PeerReview.reviewerLabel rb) <-> topPick ra = topPick rb) /\
       (disagreesWith matrix (PeerReview.reviewerLabel ra)
          (PeerReview.reviewerLabel rb) <-> topPick ra <> topPick rb)) /\
    (forall a, ~ agreesWith matrix a a /\ ~ disagreesWith matrix a a).
Proof.
  intros extractCitations stage1 stage2 Hnd reviews matrix.
  assert (matrix = map (fun r => (PeerReview.reviewerLabel r,
                                   agreementOf reviews r)) reviews) as Hm.
  { unfold matrix, buildStage2Audit. cbn [Stage2Audit.agreementMatrix].
    fold reviews.
    rewrite (fold_map_set_distinct PeerReview.reviewerLabel
               (agreementOf reviews) reviews [] Hnd); [reflexivity|].
    intros x _ []. }
  clearbody matrix. subst matrix.
  assert (forall pick ra rb, In ra reviews -> In rb reviews ->
            PeerReview.reviewerLabel ra <> PeerReview.reviewerLabel rb ->
            ((exists row,
                assoc (PeerReview.reviewerLabel ra)
                  (map (fun r => (PeerReview.reviewerLabel r,
                                  agreementOf reviews r)) reviews) = Some row /\
                In (PeerReview.reviewerLabel rb) (side pick row)) <->
             sameTopPick ra rb = pick)) as Hpick.
  { intros pick ra rb Hra Hrb Hne. rewrite (row_iff reviews Hnd). split.
    - intros (ra' & rb' & Hra' & Hrb' & Hla & Hlb & _ & Hp).
      rewrite <- (NoDup_map_eq _ _ _ _ Hnd Hra' Hra Hla).
      now rewrite <- (NoDup_map_eq _ _ _ _ Hnd Hrb' Hrb Hlb).
    - intros Hp. exists ra, rb. repeat split; auto. }
  split; [|split; [|split; [|split]]].
  - rewrite map_map. reflexivity.
  - intros a b. split; apply (row_sym reviews Hnd true).
  - intros a b. split; apply (row_sym reviews Hnd false).
  - intros ra rb Hra Hrb Hne. split.
    + unfold agreesWith. change Agreement.agreedWith with (side true).
      rewrite (Hpick true ra rb Hra Hrb Hne). unfold sameTopPick.
      destruct (option_string_dec (topPick ra) (topPick rb)); split;
        congruence.
    + unfold disagreesWith. change Agreement.disagreedWith with (side false).
      rewrite (Hpick false ra rb Hra Hrb Hne). unfold sameTopPick.
      destruct (option_string_dec (topPick ra) (topPick rb)); split;
        congruence.
  - intros a. split; intros H.
    + apply (row_iff reviews Hnd true) in H
        as (_ & _ & _ & _ & _ & _ & Hne & _). now apply Hne.
    + apply (row_iff reviews Hnd false) in H
        as (_ & _ & _ & _ & _ & _ & Hne & _). now apply Hne.
Qed.

(** Three reviewers: A and B put analysis A first, C puts B first. *)
Lemma agreement_matrix_symmetric_witness :
  NoDup (map PeerReview.reviewerLabel
           [AuditFacts.reviewOf "A" ["A"; "B"]; AuditFacts.reviewOf "B" ["A"; "B"];
            AuditFacts.reviewOf "C" ["B"; "A"]]) /\
  map fst
    (Stage2Audit.agreementMatrix
       (buildStage2Audit (fun _ => []) (Stage1Result.mk [] true [])
          (Stage2Result.mk
             [AuditFacts.reviewOf "A" ["A"; "B"];
              AuditFacts.reviewOf "B" ["A"; "B"];
              AuditFacts.reviewOf "C" ["B"; "A"]] [] true [])))
  = ["A"; "B"; "C"].
Proof.
  assert (NoDup (map PeerReview.reviewerLabel
                   [AuditFacts.reviewOf "A" ["A"; "B"];
                    AuditFacts.reviewOf "B" ["A"; "B"];
                    AuditFacts.reviewOf "C" ["B"; "A"]])) as Hnd
    by (repeat constructor; simpl; intuition discriminate).
  split; [exact Hnd|].
  exact (proj1 (agreement_matrix_symmetric (fun _ => [])
                  (Stage1Result.mk [] true [])
                  (Stage2Result.mk
                     [AuditFacts.reviewOf "A" ["A"; "B"];
                      AuditFacts.reviewOf "B" ["A"; "B"];
                      AuditFacts.reviewOf "C" ["B"; "A"]] [] true [])
                  Hnd)).
Defined.

End AuditScan.

(* ================================================================== *)
(** * Token usage tracking (usage.ts)                                  *)
(* ================================================================== *)

Module TokenUsage.
Record t : Type := mk
  { promptTokens : Z;
    completionTokens : Z;
    totalTokens : Z }.
End TokenUsage.

Inductive PricingSource : Type := known | estimated.

Module ModelUsage.
Record t : Type := mk
  { modelId : string;
    calls : nat;
    usage : TokenUsage.t;
    estimatedCostUsd : option Q;
    pricingSource : PricingSource }.
End ModelUsage.

Module SessionUsage.
Record t : Type := mk
  { sessionId : string;
    startTime : Z;
    byModel : list (string * ModelUsage.t);
    stage1 : TokenUsage.t;
    stage2 : TokenUsage.t;
    stage3 : TokenUsage.t;
    totals : TokenUsage.t;
    totalCostUsd : option Q;
    hasEstimatedCosts : bool }.
End SessionUsage.

Module ModelUsageSummary.
Record t : Type := mk
  { model : string;
    fullModelId : string;
    calls : nat;
    tokens : Z;
    cost : option Q;
    pricingSource : PricingSource }.
End ModelUsageSummary.

Module SessionSummary.
Record t : Type := mk
  { totalTokens : Z;
    totalCost : option Q;
    hasEstimatedCosts : bool;
    durationMs : Z;
    byModel : list ModelUsageSummary.t;
    byStage1 : Z;
    byStage2 : Z;
    byStage3 : Z }.
End SessionSummary.

Module Usage.

(** The stage argument of [recordUsage], typed [1 | 2 | 3]. *)
Inductive Stage : Type := first | second | third.

(** A price per 1K tokens.  A cost is [None] when JavaScript computes NaN. *)
Definition Price : Type := (Q * Q)%type.

Definition KNOWN_PRICING : list (string * Price) :=
  [("anthropic/claude-3-opus", (15 # 1000, 75 # 1000));
   ("anthropic/claude-3.5-sonnet", (3 # 1000, 15 # 1000));
   ("anthropic/claude-3-sonnet", (3 # 1000, 15 # 1000));
   ("anthropic/claude-3-haiku", (25 # 100000, 125 # 100000));
   ("anthropic/claude-sonnet-4", (3 # 1000, 15 # 1000));
   ("openai/gpt-4o", (5 # 1000, 15 # 1000));
   ("openai/gpt-4o-mini", (15 # 100000, 6 # 10000));
   ("openai/gpt-4-turbo", (1 # 100, 3 # 100));
   ("openai/o1-preview", (15 # 1000, 6 # 100));
   ("openai/o1-mini", (3 # 1000, 12 # 1000));
   ("google/gemini-pro", (25 # 100000, 5 # 10000));
   ("google/gemini-pro-1.5", (125 # 100000, 5 # 1000));
   ("google/gemini-2.0-flash", (1 # 1000, 4 # 1000));
   ("x-ai/grok-2", (5 # 1000, 1 # 100));
   ("x-ai/grok-3", (5 # 1000, 15 # 1000));
   ("meta-llama/llama-3.1-405b", (3 # 1000, 3 # 1000));
   ("meta-llama/llama-3.1-70b", (8 # 10000, 8 # 10000));
   ("mistralai/mistral-large", (4 # 1000, 12 # 1000));
   ("mistralai/mixtral-8x7b", (6 # 10000, 6 # 10000))]%Q.

Definition DEFAULT_PRICING : Price := (1 # 100, 3 # 100)%Q.

(** The properties that [KNOWN_PRICING], a plain object, inherits from
    [Object.prototype]: [KNOWN_PRICING[id]] is truthy for them, and has
    neither [input] nor [output]. *)
Definition inheritedKeys : list string :=
  ["constructor"; "__defineGetter__"; "__defineSetter__"; "hasOwnProperty";
   "__lookupGetter__"; "__lookupSetter__"; "isPrototypeOf";
   "propertyIsEnumerable"; "toString"; "valueOf"; "__proto__";
   "toLocaleString"].

(** [s.split('/')]. *)
Fixpoint splitSlash (acc s : string) : list string :=
  match s with
  | EmptyString => [acc]
  | String c s' =>
      if Ascii.eqb c "/" then acc :: splitSlash EmptyString s'
      else splitSlash (acc ++ String c EmptyString)%string s'
  end.

(** [s.split('/')[1]]; [None] is [undefined]. *)
Definition afterSlash (s : string) : option string :=
  nth_error (splitSlash EmptyString s) 1.

(** [modelId.includes(x)] for an [x] that may be [undefined]. *)
Definition includesOpt (s : string) (x : option string) : bool :=
  match x with
  | Some t => includes s t
  | None => includes s "undefined"
  end.

(** [getModelPricing]: the price, when the table entry found is one, and the
    source. *)
Definition getModelPricing (modelId : string) : option Price * PricingSource :=
  match assoc modelId KNOWN_PRICING with
  | Some price => (Some price, known)
  | None =>
      if existsb (String.eqb modelId) inheritedKeys then (None, known)
      else
        match find (fun entry =>
                      prefix (fst entry) modelId
                      || includesOpt modelId (afterSlash (fst entry)))
                KNOWN_PRICING with
        | Some entry => (Some (snd entry), known)
        | None => (Some DEFAULT_PRICING, estimated)
        end
  end.

Definition calculateCost (modelId : string) (usage : TokenUsage.t)
  : option Q * PricingSource :=
  let (pricing, source) := getModelPricing modelId in
  (match pricing with
   | Some (input, output) =>
       Some (inject_Z (TokenUsage.promptTokens usage) / 1000 * input +
             inject_Z (TokenUsage.completionTokens usage) / 1000 * output)%Q
   | None => None
   end, source).

(** [a + b] on numbers that may be NaN. *)
Definition addCost (a b : option Q) : option Q :=
  match a, b with
  | Some x, Some y => Some (x + y)%Q
  | _, _ => None
  end.

Definition addUsage (a b : TokenUsage.t) : TokenUsage.t :=
  TokenUsage.mk
    (TokenUsage.promptTokens a + TokenUsage.promptTokens b)
    (TokenUsage.completionTokens a + TokenUsage.completionTokens b)
    (TokenUsage.totalTokens a + TokenUsage.totalTokens b)%Z.

Definition noUsage : TokenUsage.t := TokenUsage.mk 0 0 0.

(** What is recorded for a call that reports no usage. *)
Definition typicalUsage : TokenUsage.t := TokenUsage.mk 500 1000 1500.

Definition newTracker (sessionId : string) (now : Z) : SessionUsage.t :=
  SessionUsage.mk sessionId now [] noUsage noUsage noUsage noUsage (Some 0%Q)
    false.

Definition isEstimated (s : PricingSource) : bool :=
  match s with estimated => true | known => false end.

Definition recordUsage (modelId : string) (stage : Stage)
  (reported : option TokenUsage.t) (session : SessionUsage.t) : SessionUsage.t :=
  let usage := match reported with Some u => u | None => typicalUsage end in
  let (cost, source) := calculateCost modelId usage in
  let byModel :=
    match assoc modelId (SessionUsage.byModel session) with
    | Some _ =>
        Audit.map_update modelId
          (fun existing =>
             ModelUsage.mk (ModelUsage.modelId existing)
               (ModelUsage.calls existing + 1)
               (addUsage (ModelUsage.usage existing) usage)
               (addCost (ModelUsage.estimatedCostUsd existing) cost)
               (ModelUsage.pricingSource existing))
          (SessionUsage.byModel session)
    | None =>
        Audit.map_set modelId (ModelUsage.mk modelId 1 usage cost source)
          (SessionUsage.byModel session)
    end in
  let bump (s : Stage) (u : TokenUsage.t) : TokenUsage.t :=
    match stage, s with
    | first, first | second, second | third, third => addUsage u usage
    | _, _ => u
    end in
  SessionUsage.mk (SessionUsage.sessionId session)
    (SessionUsage.startTime session)
    byModel
    (bump first (SessionUsage.stage1 session))
    (bump second (SessionUsage.stage2 session))
    (bump third (SessionUsage.stage3 session))
    (addUsage (SessionUsage.totals session) usage)
    (addCost (SessionUsage.totalCostUsd session) cost)
    (SessionUsage.hasEstimatedCosts session || isEstimated source).

(** [modelId.split('/')[1] || modelId]. *)
Definition displayName (modelId : string) : string :=
  or_string (afterSlash modelId) modelId.

(** [modelBreakdown.sort((a, b) => b.cost - a.cost)], stable, written as
    insertion from the right.  With a NaN cost the comparator is not
    consistent and the order is left to the engine; the model then treats
    the two entries as equal. *)
Definition costLe (a b : option Q) : bool :=
  match a, b with
  | Some x, Some y => Qle_bool x y
  | _, _ => true
  end.

Fixpoint insertByCost (x : ModelUsageSummary.t) (l : list ModelUsageSummary.t)
  : list ModelUsageSummary.t :=
  match l with
  | [] => [x]
  | y :: l' =>
      if costLe (ModelUsageSummary.cost y) (ModelUsageSummary.cost x)
      then x :: y :: l'
      else y :: insertByCost x l'
  end.

Definition breakdownOf (entry : string * ModelUsage.t) : ModelUsageSummary.t :=
  ModelUsageSummary.mk (displayName (fst entry)) (fst entry)
    (ModelUsage.calls (snd entry))
    (TokenUsage.totalTokens (ModelUsage.usage (snd entry)))
    (ModelUsage.estimatedCostUsd (snd entry))
    (ModelUsage.pricingSource (snd entry)).

Definition getSummary (now : Z) (session : SessionUsage.t) : SessionSummary.t :=
  SessionSummary.mk
    (TokenUsage.totalTokens (SessionUsage.totals session))
    (SessionUsage.totalCostUsd session)
    (SessionUsage.hasEstimatedCosts session)
    (now - SessionUsage.startTime session)
    (fold_right insertByCost [] (map breakdownOf (SessionUsage.byModel session)))
    (TokenUsage.totalTokens (SessionUsage.stage1 session))
    (TokenUsage.totalTokens (SessionUsage.stage2 session))
    (TokenUsage.totalTokens (SessionUsage.stage3 session)).

(** One call of [recordUsage], and a session as the sequence of its calls. *)
Record Call : Type := mkCall
  { callModel : string;
    callStage : Stage;
    callUsage : option TokenUsage.t }.

Definition record (session : SessionUsage.t) (c : Call) : SessionUsage.t :=
  recordUsage (callModel c) (callStage c) (callUsage c) session.

Definition replay (sessionId : string) (now : Z) (calls : list Call)
  : SessionUsage.t :=
  fold_left record calls (newTracker sessionId now).

End Usage.

(* ------------------------------------------------------------------ *)
(** ** Properties of the usage tracker                                 *)
(* ------------------------------------------------------------------ *)

Module UsageFacts.
Import Usage.

Local Open Scope Z_scope.

Definition reportedOf (c : Call) : TokenUsage.t :=
  match callUsage c with Some u => u | None => typicalUsage end.

Definition sumUsage (l : list TokenUsage.t) : TokenUsage.t :=
  fold_right addUsage noUsage l.

Definition Zsum (l : list Z) : Z := fold_right Z.add 0 l.

Definition natSum (l : list nat) : nat := fold_right Nat.add 0%nat l.

Definition inStage (s : Stage) (c : Call) : bool :=
  match s, callStage c with
  | first, first | second, second | third, third => true
  | _, _ => false
  end.

Definition sourceOf (modelId : string) : PricingSource :=
  snd (getModelPricing modelId).

(** Descending by cost, for costs that are numbers. *)
Definition costGe (a b : ModelUsageSummary.t) : Prop :=
  match ModelUsageSummary.cost a, ModelUsageSummary.cost b with
  | Some x, Some y => (y <= x)%Q
  | _, _ => False
  end.

(** What the tracker maintains between two calls of [recordUsage]. *)
Record consistent (calls : list Call) (session : SessionUsage.t) : Prop :=
  mkConsistent
  { c_totals :
      SessionUsage.totals session = sumUsage (map reportedOf calls);
    c_stage1 :
      SessionUsage.stage1 session
      = sumUsage (map reportedOf (filter (inStage first) calls));
    c_stage2 :
      SessionUsage.stage2 session
      = sumUsage (map reportedOf (filter (inStage second) calls));
    c_stage3 :
      SessionUsage.stage3 session
      = sumUsage (map reportedOf (filter (inStage third) calls));
    c_keys : NoDup (map fst (SessionUsage.byModel session));
    c_models :
      forall m, In m (map fst (SessionUsage.byModel session)) <->
                In m (map callModel calls);
    c_entry :
      forall m u, assoc m (SessionUsage.byModel session) = Some u ->
        ModelUsage.modelId u = m /\
        ModelUsage.pricingSource u = sourceOf m /\
        ModelUsage.usage u
        = sumUsage (map reportedOf
                      (filter (fun c => String.eqb (callModel c) m) calls)) /\
        ModelUsage.calls u
        = length (filter (fun c => String.eqb (callModel c) m) calls) /\
        (~ In m inheritedKeys -> ModelUsage.estimatedCostUsd u <> None);
    c_estimated :
      SessionUsage.hasEstimatedCosts session
      = existsb (fun c => isEstimated (sourceOf (callModel c))) calls }.

Lemma addUsage_assoc a b c :
  addUsage (addUsage a b) c = addUsage a (addUsage b c).
Proof. unfold addUsage. simpl. f_equal; lia. Qed.

Lemma addUsage_comm a b : addUsage a b = addUsage b a.
Proof. unfold addUsage. f_equal; lia. Qed.

Lemma addUsage_noUsage a : addUsage a noUsage = a.
Proof. destruct a. unfold addUsage. simpl. f_equal; lia. Qed.

Lemma noUsage_addUsage a : addUsage noUsage a = a.
Proof. destruct a. unfold addUsage. simpl. f_equal; lia. Qed.

Lemma sumUsage_app l1 l2 :
  sumUsage (l1 ++ l2) = addUsage (sumUsage l1) (sumUsage l2).
Proof.
  induction l1 as [|x l1 IH]; simpl; [now rewrite noUsage_addUsage|].
  now rewrite IH, addUsage_assoc.
Qed.

Lemma sumUsage_snoc l x : sumUsage (l ++ [x]) = addUsage (sumUsage l) x.
Proof. rewrite sumUsage_app. simpl. now rewrite addUsage_noUsage. Qed.

Lemma filter_snoc {A} (p : A -> bool) l x :
  filter p (l ++ [x]) = filter p l ++ (if p x then [x] else []).
Proof. rewrite filter_app. reflexivity. Qed.

Lemma assoc_map_update_same {V} k (f : V -> V) m :
  assoc k (Audit.map_update k f m) = option_map f (assoc k m).
Proof.
  induction m as [|[k' v] m IH]; simpl; [reflexivity|].
  destruct (String.eqb_spec k' k) as [-> | Hne]; simpl.
  - now rewrite String.eqb_refl.
  - apply String.eqb_neq in Hne. now rewrite Hne.
Qed.

Lemma assoc_map_update_other {V} k k' (f : V -> V) m :
  k <> k' -> assoc k' (Audit.map_update k f m) = assoc k' m.
Proof.
  intros Hne. induction m as [|[k0 v] m IH]; simpl; [reflexivity|].
  destruct (String.eqb_spec k0 k) as [-> | Hne0]; simpl.
  - apply String.eqb_neq in Hne. now rewrite Hne.
  - destruct (String.eqb k0 k'); [reflexivity | exact IH].
Qed.

Lemma keys_map_update {V} k (f : V -> V) m :
  map fst (Audit.map_update k f m) = map fst m.
Proof.
  induction m as [|[k0 v] m IH]; simpl; [reflexivity|].
  destruct (String.eqb k0 k); simpl; [reflexivity | now rewrite IH].
Qed.

Lemma assoc_app {V} k (m1 m2 : list (string * V)) :
  assoc k (m1 ++ m2) = match assoc k m1 with
                       | Some v => Some v
                       | None => assoc k m2
                       end.
Proof.
  induction m1 as [|[k0 v] m1 IH]; simpl; [reflexivity|].
  destruct (String.eqb k0 k); [reflexivity | exact IH].
Qed.

Lemma assoc_Some_In {V} k (m : list (string * V)) v :
  assoc k m = Some v -> In k (map fst m).
Proof.
  intros H. destruct (in_dec string_dec k (map fst m)) as [Hin | Hn]; [exact Hin|].
  apply SchemaFacts.assoc_None_iff in Hn. congruence.
Qed.

Lemma cost_is_number modelId usage :
  ~ In modelId inheritedKeys -> fst (calculateCost modelId usage) <> None.
Proof.
  intros Hn. unfold calculateCost, getModelPricing.
  destruct (assoc modelId KNOWN_PRICING) as [[i o]|]; [discriminate|].
  destruct (existsb (String.eqb modelId) inheritedKeys) eqn:E.
  - exfalso. apply Hn. apply existsb_exists in E as (x & Hx & He).
    apply String.eqb_eq in He. now subst.
  - destruct (find _ KNOWN_PRICING) as [[k [i o]]|]; discriminate.
Qed.

Lemma calculateCost_source modelId usage :
  snd (calculateCost modelId usage) = sourceOf modelId.
Proof.
  unfold calculateCost, sourceOf.
  now destruct (getModelPricing modelId) as [[[i o]|] s].
Qed.

Lemma stage_step s c calls u :
  u = sumUsage (map reportedOf (filter (inStage s) calls)) ->
  (if inStage s c then addUsage u (reportedOf c) else u)
  = sumUsage (map reportedOf (filter (inStage s) (calls ++ [c]))).
Proof.
  intros ->. rewrite filter_snoc, map_app, sumUsage_app.
  destruct (inStage s c); simpl; now rewrite ?addUsage_noUsage.
Qed.

Lemma new_consistent sessionId now : consistent [] (newTracker sessionId now).
Proof.
  unfold newTracker. constructor; simpl; try reflexivity.
  - constructor.
  - intros m u H. discriminate.
Qed.

Lemma record_consistent calls session c :
  consistent calls session -> consistent (calls ++ [c]) (record session c).
Proof.
  intros [Ht H1 H2 H3 Hk Hm He Hest].
  unfold record, recordUsage.
  pose proof (calculateCost_source (callModel c) (reportedOf c)) as Hsrc.
  pose proof (cost_is_number (callModel c) (reportedOf c)) as Hnum.
  fold (reportedOf c).
  destruct (calculateCost (callModel c) (reportedOf c)) as [cost source].
  simpl in Hsrc, Hnum. subst source.
  constructor; cbn [SessionUsage.totals SessionUsage.stage1 SessionUsage.stage2
                    SessionUsage.stage3 SessionUsage.byModel
                    SessionUsage.hasEstimatedCosts].
  - rewrite map_app, sumUsage_app, Ht. simpl. now rewrite addUsage_noUsage.
  - rewrite <- (stage_step first c calls _ H1). unfold inStage.
    now destruct (callStage c).
  - rewrite <- (stage_step second c calls _ H2). unfold inStage.
    now destruct (callStage c).
  - rewrite <- (stage_step third c calls _ H3). unfold inStage.
    now destruct (callStage c).
  - destruct (assoc (callModel c) (SessionUsage.byModel session)) eqn:E.
    + now rewrite keys_map_update.
    + apply SchemaFacts.assoc_None_iff in E.
      rewrite (AuditScan.map_set_fresh _ _ _ E), map_app. simpl.
      apply NoDup_app; [exact Hk | repeat constructor; intros [] |].
      intros x Hx [<- | []]. contradiction.
  - intros m. rewrite map_app, in_app_iff. simpl.
    destruct (assoc (callModel c) (SessionUsage.byModel session)) eqn:E.
    + rewrite keys_map_update, Hm. split; [tauto|].
      intros [H | [<- | []]]; [exact H|].
      apply Hm. apply (assoc_Some_In _ _ _ E).
    + apply SchemaFacts.assoc_None_iff in E.
      rewrite (AuditScan.map_set_fresh _ _ _ E), map_app, in_app_iff. simpl.
      rewrite Hm. tauto.
  - intros m u Hu. rewrite !filter_snoc, !map_app, sumUsage_app, length_app.
    destruct (assoc (callModel c) (SessionUsage.byModel session)) as [old|] eqn:E.
    + destruct (String.eqb_spec (callModel c) m) as [Heq | Hne].
      * subst m. rewrite assoc_map_update_same, E in Hu. simpl in Hu.
        injection Hu as <-. destruct (He _ _ E) as (Hid & Hs & Hus & Hc & Hco).
        cbn. rewrite addUsage_noUsage, Hus, Hc.
        repeat split; auto; try lia.
        intros Hn. specialize (Hco Hn). specialize (Hnum Hn).
        destruct (ModelUsage.estimatedCostUsd old), cost; simpl; congruence.
      * rewrite (assoc_map_update_other _ _ _ _ Hne) in Hu.
        destruct (He _ _ Hu) as (Hid & Hs & Hus & Hc & Hco).
        simpl. rewrite addUsage_noUsage, Nat.add_0_r. auto.
    + apply SchemaFacts.assoc_None_iff in E.
      rewrite (AuditScan.map_set_fresh _ _ _ E), assoc_app in Hu.
      destruct (assoc m (SessionUsage.byModel session)) as [old|] eqn:E'.
      * injection Hu as <-.
        destruct (String.eqb_spec (callModel c) m) as [Heq | Hne].
        -- exfalso. apply E. rewrite Heq. apply (assoc_Some_In _ _ _ E').
        -- destruct (He _ _ E') as (Hid & Hs & Hus & Hc & Hco).
           simpl. rewrite addUsage_noUsage, Nat.add_0_r. auto.
      * simpl in Hu. destruct (String.eqb_spec (callModel c) m) as [Heq | Hne];
          [|discriminate].
        injection Hu as <-. subst m. cbn.
        assert (filter (fun c0 => String.eqb (callModel c0) (callModel c)) calls
                = []) as Hnone.
        { destruct (filter (fun c0 => String.eqb (callModel c0) (callModel c))
                      calls) as [|c0 l] eqn:F; [reflexivity|].
          exfalso. apply E, Hm.
          assert (In c0 (filter (fun c0 => String.eqb (callModel c0) (callModel c))
                           calls)) as Hin by (rewrite F; now left).
          apply filter_In in Hin as [Hin Hc0]. apply String.eqb_eq in Hc0.
          rewrite <- Hc0. now apply in_map. }
        rewrite Hnone. simpl. rewrite ?addUsage_noUsage, ?noUsage_addUsage.
        repeat split; auto.
  - rewrite existsb_app, Hest. simpl. now rewrite orb_false_r.
Qed.

Lemma replay_consistent sessionId now calls :
  consistent calls (replay sessionId now calls).
Proof.
  unfold replay. induction calls as [|c calls IH] using rev_ind.
  - apply new_consistent.
  - rewrite fold_left_app. simpl. now apply record_consistent.
Qed.

Lemma replay_startTime sessionId started calls :
  SessionUsage.startTime (replay sessionId started calls) = started.
Proof.
  unfold replay.
  assert (forall l s, SessionUsage.startTime (fold_left record l s)
                      = SessionUsage.startTime s) as Hstart.
  { induction l as [|c l IH]; intros s; simpl; [reflexivity|].
    rewrite IH. unfold record, recordUsage.
    now destruct (calculateCost _ _). }
  now rewrite Hstart.
Qed.

Lemma totalTokens_sumUsage l :
  TokenUsage.totalTokens (sumUsage l) = Zsum (map TokenUsage.totalTokens l).
Proof. induction l as [|x l IH]; simpl; [reflexivity | now rewrite IH]. Qed.

Lemma Zsum_app l1 l2 : Zsum (l1 ++ l2) = Zsum l1 + Zsum l2.
Proof. induction l1 as [|x l1 IH]; simpl; [reflexivity | rewrite IH; lia]. Qed.

Lemma Zsum_perm l1 l2 : Permutation l1 l2 -> Zsum l1 = Zsum l2.
Proof. induction 1; simpl; lia. Qed.

Lemma natSum_perm l1 l2 : Permutation l1 l2 -> natSum l1 = natSum l2.
Proof. induction 1; simpl; lia. Qed.

(** Every call is in exactly one stage. *)
Lemma Zsum_by_stage (f : Call -> Z) calls :
  Zsum (map f calls) =
  Zsum (map f (filter (inStage first) calls)) +
  Zsum (map f (filter (inStage second) calls)) +
  Zsum (map f (filter (inStage third) calls)).
Proof.
  induction calls as [|c calls IH]; simpl; [reflexivity|].
  rewrite IH. unfold inStage. destruct (callStage c); simpl; lia.
Qed.

Lemma Zsum_single (keys : list string) (m : string) (x : Z) :
  NoDup keys -> In m keys ->
  Zsum (map (fun k => if String.eqb m k then x else 0) keys) = x.
Proof.
  induction keys as [|k keys IH]; intros Hnd Hin; [destruct Hin|].
  inversion Hnd as [|? ? Hk Hnd']; subst. simpl.
  destruct (String.eqb_spec m k) as [-> | Hne].
  - assert (Zsum (map (fun k0 => if String.eqb k k0 then x else 0) keys) = 0)
      as ->; [|lia].
    clear IH Hnd Hnd' Hin. induction keys as [|k0 keys IH]; simpl; [reflexivity|].
    destruct (String.eqb_spec k k0) as [-> | Hne].
    + exfalso. apply Hk. now left.
    + rewrite IH; [reflexivity|]. intros H. apply Hk. now right.
  - destruct Hin as [-> | Hin]; [congruence|]. rewrite IH; auto.
Qed.

(** Every call belongs to exactly one of the models recorded. *)
Lemma Zsum_by_model (f : Call -> Z) (keys : list string) calls :
  NoDup keys -> (forall c, In c calls -> In (callModel c) keys) ->
  Zsum (map (fun k => Zsum (map f (filter (fun c => String.eqb (callModel c) k)
                                     calls))) keys)
  = Zsum (map f calls).
Proof.
  intros Hnd. induction calls as [|c calls IH]; intros Hin; simpl.
  - induction keys as [|k keys IHk]; simpl; [reflexivity|].
    inversion Hnd; subst. now rewrite IHk.
  - rewrite <- IH by (intros c0 Hc0; apply Hin; now right).
    rewrite <- (Zsum_single keys (callModel c) (f c) Hnd
                  (Hin c (or_introl eq_refl))).
    clear IH Hin Hnd. induction keys as [|k keys IHk]; simpl; [reflexivity|].
    rewrite IHk. destruct (String.eqb (callModel c) k); simpl; lia.
Qed.

Lemma insertByCost_perm x l : Permutation (x :: l) (insertByCost x l).
Proof.
  induction l as [|y l IH]; simpl; [reflexivity|].
  destruct (costLe _ _); [reflexivity|].
  rewrite perm_swap. now apply perm_skip.
Qed.

Lemma sortByCost_perm l : Permutation l (fold_right insertByCost [] l).
Proof.
  induction l as [|x l IH]; simpl; [reflexivity|].
  rewrite <- insertByCost_perm. now apply perm_skip.
Qed.

Lemma insertByCost_sorted x l :
  ModelUsageSummary.cost x <> None ->
  Forall (fun y => ModelUsageSummary.cost y <> None) l ->
  StronglySorted costGe l -> StronglySorted costGe (insertByCost x l).
Proof.
  intros Hx. induction l as [|y l IH]; simpl; intros Hall Hs.
  - constructor; constructor.
  - inversion Hall as [|? ? Hy Hall']; subst.
    inversion Hs as [|? ? Hs' Hge]; subst.
    destruct (ModelUsageSummary.cost x) as [cx|] eqn:Ex; [|congruence].
    destruct (ModelUsageSummary.cost y) as [cy|] eqn:Ey; [|congruence].
    simpl. destruct (Qle_bool cy cx) eqn:E.
    + apply Qle_bool_iff in E. constructor; [exact Hs|].
      constructor; [unfold costGe; now rewrite Ex, Ey|].
      rewrite Forall_forall in *. intros z Hz. specialize (Hge z Hz).
      unfold costGe in *. rewrite Ex. rewrite Ey in Hge.
      destruct (ModelUsageSummary.cost z) as [cz|]; [|contradiction].
      eapply Qle_trans; eauto.
    + constructor; [now apply IH|].
      eapply Permutation_Forall; [apply insertByCost_perm|].
      constructor; [|exact Hge].
      unfold costGe. rewrite Ey, Ex. apply Qlt_le_weak, Qnot_le_lt.
      intros H. apply Qle_bool_iff in H. congruence.
Qed.

Lemma sortByCost_sorted l :
  Forall (fun y => ModelUsageSummary.cost y <> None) l ->
  StronglySorted costGe (fold_right insertByCost [] l).
Proof.
  induction 1 as [|x l Hx Hall IH]; simpl; [constructor|].
  apply insertByCost_sorted; [exact Hx | | exact IH].
  eapply Permutation_Forall; [apply sortByCost_perm | exact Hall].
Qed.

Lemma In_assoc_NoDup {V} (m : list (string * V)) k v :
  NoDup (map fst m) -> In (k, v) m -> assoc k m = Some v.
Proof.
  induction m as [|[k0 v0] m IH]; simpl; intros Hnd Hin; [destruct Hin|].
  inversion Hnd as [|? ? Hk Hnd']; subst.
  destruct Hin as [Heq | Hin].
  - injection Heq as -> ->. now rewrite String.eqb_refl.
  - destruct (String.eqb_spec k0 k) as [-> | Hne]; [|auto].
    exfalso. apply Hk. apply in_map_iff. exists (k, v). auto.
Qed.

(** X19.  The token accounting of a session adds up.  After any sequence
    of [recordUsage] calls on a new tracker, the summary's total is the sum
    of what the calls reported (1500 tokens for a call that reported
    nothing); the three per-stage counts add up to the total, and so do the
    per-model counts; the per-model call counts add up to the number of
    calls; every model that was called has exactly one line, under its full
    identifier; the estimate flag is set exactly when some call used a
    model without reference pricing; and the duration is measured from the
    tracker's creation. *)
Theorem usage_accounting_adds_up :
  forall (sessionId : string) (started now : Z) (calls : list Call),
    let summary := getSummary now (replay sessionId started calls) in
    SessionSummary.totalTokens summary
    = Zsum (map (fun c => TokenUsage.totalTokens (reportedOf c)) calls) /\
    SessionSummary.totalTokens summary
    = SessionSummary.byStage1 summary + SessionSummary.byStage2 summary +
      SessionSummary.byStage3 summary /\
    SessionSummary.totalTokens summary
    = Zsum (map ModelUsageSummary.tokens (SessionSummary.byModel summary)) /\
    natSum (map ModelUsageSummary.calls (SessionSummary.byModel summary))
    = length calls /\
    NoDup (map ModelUsageSummary.fullModelId (SessionSummary.byModel summary)) /\
    (forall m, In m (map ModelUsageSummary.fullModelId
                       (SessionSummary.byModel summary)) <->
               In m (map callModel calls)) /\
    SessionSummary.hasEstimatedCosts summary
    = existsb (fun c => isEstimated (sourceOf (callModel c))) calls /\
    SessionSummary.durationMs summary = now - started.
Proof.
  intros sessionId started now calls summary.
  destruct (replay_consistent sessionId started calls)
    as [Ht H1 H2 H3 Hk Hm He Hest].
  set (session := replay sessionId started calls) in *.
  set (f := fun c => TokenUsage.totalTokens (reportedOf c)).
  assert (forall l, Zsum (map TokenUsage.totalTokens (map reportedOf l))
                    = Zsum (map f l)) as Hf
    by (intros l; now rewrite map_map).
  assert (Permutation (SessionSummary.byModel summary)
            (map breakdownOf (SessionUsage.byModel session))) as Hperm
    by (symmetry; apply sortByCost_perm).
  assert (forall e, In e (SessionUsage.byModel session) ->
            ModelUsage.usage (snd e)
            = sumUsage (map reportedOf
                          (filter (fun c => String.eqb (callModel c) (fst e))
                             calls)) /\
            ModelUsage.calls (snd e)
            = length (filter (fun c => String.eqb (callModel c) (fst e)) calls))
    as Hentry.
  { intros [k v] Hin. simpl.
    destruct (He k v (In_assoc_NoDup _ _ _ Hk Hin)) as (_ & _ & Hu & Hc & _).
    auto. }
  assert (forall c, In c calls ->
            In (callModel c) (map fst (SessionUsage.byModel session))) as Hcalls
    by (intros c Hc; apply Hm; now apply in_map).
  split; [|split; [|split; [|split; [|split; [|split; [|split]]]]]].
  - unfold summary, getSummary. cbn [SessionSummary.totalTokens].
    now rewrite Ht, totalTokens_sumUsage, Hf.
  - unfold summary, getSummary.
    cbn [SessionSummary.totalTokens SessionSummary.byStage1
         SessionSummary.byStage2 SessionSummary.byStage3].
    rewrite Ht, H1, H2, H3, !totalTokens_sumUsage, !Hf.
    apply Zsum_by_stage.
  - rewrite (Zsum_perm _ _ (Permutation_map ModelUsageSummary.tokens Hperm)).
    unfold summary, getSummary. cbn [SessionSummary.totalTokens].
    rewrite Ht, totalTokens_sumUsage, Hf, map_map.
    rewrite <- (Zsum_by_model f (map fst (SessionUsage.byModel session)) calls
                  Hk Hcalls).
    rewrite map_map. f_equal. apply map_ext_in. intros e Hin.
    unfold breakdownOf. cbn [ModelUsageSummary.tokens].
    destruct (Hentry e Hin) as [-> _].
    now rewrite totalTokens_sumUsage, Hf.
  - rewrite (natSum_perm _ _ (Permutation_map ModelUsageSummary.calls Hperm)).
    rewrite map_map. apply Nat2Z.inj.
    assert (forall l, Z.of_nat (natSum l) = Zsum (map Z.of_nat l)) as Hnat
      by (induction l as [|x l IH]; [reflexivity|];
          change (natSum (x :: l)) with (x + natSum l)%nat;
          change (Zsum (map Z.of_nat (x :: l)))
            with (Z.of_nat x + Zsum (map Z.of_nat l)); lia).
    assert (forall (l : list Call), Zsum (map (fun _ => 1) l)
                                    = Z.of_nat (length l)) as Hone
      by (induction l as [|x l IH]; [reflexivity|];
          change (Zsum (map (fun _ : Call => 1) (x :: l)))
            with (1 + Zsum (map (fun _ : Call => 1) l));
          rewrite IH; change (length (x :: l)) with (S (length l)); lia).
    rewrite Hnat, map_map, <- Hone.
    rewrite <- (Zsum_by_model (fun _ => 1)
                  (map fst (SessionUsage.byModel session)) calls Hk Hcalls).
    rewrite map_map. f_equal. apply map_ext_in. intros e Hin.
    unfold breakdownOf. cbn [ModelUsageSummary.calls].
    destruct (Hentry e Hin) as [_ ->]. now rewrite Hone.
  - eapply Permutation_NoDup;
      [symmetry; apply (Permutation_map ModelUsageSummary.fullModelId Hperm)|].
    rewrite map_map. exact Hk.
  - intros m. rewrite <- Hm.
    assert (Permutation
              (map ModelUsageSummary.fullModelId (SessionSummary.byModel summary))
              (map fst (SessionUsage.byModel session))) as Hp.
    { rewrite (Permutation_map ModelUsageSummary.fullModelId Hperm).
      now rewrite map_map. }
    split; apply Permutation_in; [exact Hp | symmetry; exact Hp].
  - exact Hest.
  - unfold summary, getSummary. cbn [SessionSummary.durationMs].
    f_equal. apply replay_startTime.
Qed.

(** X20.  The per-model breakdown is listed by descending cost.  When no
    model identifier is the name of a property that every JavaScript object
    inherits, every cost in the summary is a number and the lines of the
    breakdown are ordered from the most to the least expensive model. *)
Theorem usage_breakdown_sorted_by_cost :
  forall (sessionId : string) (started now : Z) (calls : list Call),
    Forall (fun c => ~ In (callModel c) inheritedKeys) calls ->
    let summary := getSummary now (replay sessionId started calls) in
    Forall (fun line => ModelUsageSummary.cost line <> None)
      (SessionSummary.byModel summary) /\
    StronglySorted costGe (SessionSummary.byModel summary).
Proof.
  intros sessionId started now calls Hcalls summary.
  destruct (replay_consistent sessionId started calls)
    as [_ _ _ _ Hk Hm He _].
  assert (Forall (fun line => ModelUsageSummary.cost line <> None)
            (map breakdownOf
               (SessionUsage.byModel (replay sessionId started calls)))) as Hall.
  { apply Forall_forall. intros line Hin.
    apply in_map_iff in Hin as ([k v] & <- & Hin).
    unfold breakdownOf. cbn [ModelUsageSummary.cost snd].
    destruct (He k v (In_assoc_NoDup _ _ _ Hk Hin)) as (_ & _ & _ & _ & Hc).
    apply Hc.
    assert (In k (map callModel calls)) as Hkc.
    { apply Hm. apply in_map_iff. exists (k, v). auto. }
    apply in_map_iff in Hkc as (c & <- & Hc').
    rewrite Forall_forall in Hcalls. now apply Hcalls. }
  split.
  - eapply Permutation_Forall; [apply sortByCost_perm | exact Hall].
  - now apply sortByCost_sorted.
Qed.

(** A review by gpt-4o without usage data, then two analyses. *)
Definition threeCalls : list Call :=
  [mkCall "openai/gpt-4o" second None;
   mkCall "anthropic/claude-3-opus" first
     (Some (TokenUsage.mk 1000 2000 3000));
   mkCall "openai/gpt-4o" first (Some (TokenUsage.mk 400 600 1000))].

Lemma usage_breakdown_sorted_by_cost_witness :
  Forall (fun c => ~ In (callModel c) inheritedKeys) threeCalls /\
  map ModelUsageSummary.fullModelId
    (SessionSummary.byModel (getSummary 9000 (replay "session" 1000 threeCalls)))
  = ["anthropic/claude-3-opus"; "openai/gpt-4o"] /\
  StronglySorted costGe
    (SessionSummary.byModel (getSummary 9000 (replay "session" 1000 threeCalls))).
Proof.
  assert (Forall (fun c => ~ In (callModel c) inheritedKeys) threeCalls) as H
    by (repeat constructor; simpl; intuition discriminate).
  split; [exact H|]. split; [reflexivity|].
  exact (proj2 (usage_breakdown_sorted_by_cost "session" 1000 9000 threeCalls H)).
Defined.

End UsageFacts.

(* ================================================================== *)
(** * OpenRouter client: the retry loop (openrouter.ts)                *)
(* ================================================================== *)

Module OpenRouter.

Local Open Scope Z_scope.

Definition DEFAULT_MAX_RETRIES : Z := 3.
Definition RETRY_BACKOFF_BASE_MS : Z := 1000.

(** What [executeRequest] can throw: an [OpenRouterError] with the HTTP
    status, or another [Error] with its name and message (an [AbortError]
    when the timeout fired). *)
Inductive Error : Type :=
| OpenRouterError (message : string) (statusCode : Z)
| PlainError (name message : string).

Definition errorName (e : Error) : string :=
  match e with
  | OpenRouterError _ _ => "OpenRouterError"
  | PlainError name _ => name
  end.

Definition errorMessage (e : Error) : string :=
  match e with
  | OpenRouterError message _ => message
  | PlainError _ message => message
  end.

(** How a promise of the client ends. *)
Inductive Outcome (R : Type) : Type :=
| Resolved (response : R)
| Rejected (error : Error).
Arguments Resolved {R} response.
Arguments Rejected {R} error.

(** What the client does, in order. *)
Inductive Event : Type :=
| Requested (attempt : nat)
| Slept (ms : Z).

Definition isRetryableError (error : Error) (attempt : nat) (maxRetries : Z)
  : bool :=
  if Z.of_nat attempt >=? maxRetries then false
  else if String.eqb (errorName error) "AbortError" then true
  else match error with
       | OpenRouterError _ status =>
           (status =? 429) || ((500 <=? status) && (status <? 600))
       | PlainError _ message =>
           includes message "network" || includes message "ECONNRESET"
       end.

Section Client.

Variable R : Type.

(** The key the client was created with, and what the [n]-th call of
    [executeRequest] settles to. *)
Variable apiKey : string.
Variable request : nat -> Outcome R.

(** The iterations of the [for] loop that are still to run, from [attempt]
    on; [lastError] is the loop's variable of that name. *)
Fixpoint retryLoop (iterations attempt : nat) (maxRetries : Z)
  (lastError : option Error) : Outcome R * list Event :=
  match iterations with
  | O =>
      (Rejected (match lastError with
                 | Some e => e
                 | None => PlainError "Error" "Request failed after retries"
                 end), [])
  | S iterations' =>
      match request attempt with
      | Resolved response => (Resolved response, [Requested attempt])
      | Rejected e =>
          if isRetryableError e attempt maxRetries then
            let backoffMs := RETRY_BACKOFF_BASE_MS * 2 ^ Z.of_nat attempt in
            let (outcome, events) :=
              retryLoop iterations' (S attempt) maxRetries (Some e) in
            (outcome, Requested attempt :: Slept backoffMs :: events)
          else (Rejected e, [Requested attempt])
      end
  end.

(** [queryModel] with the [maxRetries] option, if given. *)
Definition queryModel (maxRetriesOption : option Z) : Outcome R * list Event :=
  if negb (truthy_string apiKey)
  then (Rejected (PlainError "Error" "OpenRouter API key not configured"), [])
  else
    let maxRetries :=
      match maxRetriesOption with
      | Some n => n
      | None => DEFAULT_MAX_RETRIES
      end in
    retryLoop (Z.to_nat (maxRetries + 1)) 0 maxRetries None.

(** [healthCheck]: one probe with a single retry; it never throws. *)
Definition healthCheck : (bool * string) * list Event :=
  if negb (truthy_string apiKey) then ((false, "API key not configured"), [])
  else
    let (outcome, events) := queryModel (Some 1) in
    (match outcome with
     | Resolved _ => (true, "OpenRouter connection successful")
     | Rejected e =>
         (false, ("OpenRouter connection failed: " ++ errorMessage e)%string)
     end, events).

End Client.

Definition requestsOf (events : list Event) : list nat :=
  flat_map (fun e => match e with Requested n => [n] | Slept _ => [] end) events.

Definition sleepsOf (events : list Event) : list Z :=
  flat_map (fun e => match e with Slept ms => [ms] | Requested _ => [] end) events.

End OpenRouter.

(* ------------------------------------------------------------------ *)
(** ** Properties of the retry loop                                    *)
(* ------------------------------------------------------------------ *)

Module OpenRouterFacts.
Import OpenRouter.

Local Open Scope Z_scope.

(** The failures worth retrying: a timeout, a rate limit, a server error, a
    network error. *)
Definition transient (e : Error) : bool :=
  String.eqb (errorName e) "AbortError"
  || match e with
     | OpenRouterError _ status =>
         (status =? 429) || ((500 <=? status) && (status <? 600))
     | PlainError _ message =>
         includes message "network" || includes message "ECONNRESET"
     end.

Definition backoff (attempt : nat) : Z := 1000 * 2 ^ Z.of_nat attempt.

Definition Zsum (l : list Z) : Z := fold_right Z.add 0 l.

Lemma isRetryableError_spec e attempt maxRetries :
  isRetryableError e attempt maxRetries
  = (Z.of_nat attempt <? maxRetries) && transient e.
Proof.
  unfold isRetryableError, transient.
  destruct (Z.geb_spec (Z.of_nat attempt) maxRetries) as [H | H].
  - assert ((Z.of_nat attempt <? maxRetries) = false) as ->
      by (apply Z.ltb_ge; lia).
    reflexivity.
  - assert ((Z.of_nat attempt <? maxRetries) = true) as ->
      by (apply Z.ltb_lt; lia).
    simpl. now destruct (String.eqb (errorName e) "AbortError").
Qed.

Section Facts.

Variable R : Type.
Variable request : nat -> Outcome R.

(** The loop stops at the first attempt that succeeds, fails for good, or
    is the last one allowed. *)
Lemma retryLoop_spec iterations attempt maxRetries lastError :
  Z.of_nat attempt + Z.of_nat iterations = maxRetries + 1 ->
  (1 <= iterations)%nat ->
  exists n : nat,
    (1 <= n <= iterations)%nat /\
    let result := retryLoop R request iterations attempt maxRetries lastError in
    requestsOf (snd result) = seq attempt n /\
    sleepsOf (snd result) = map backoff (seq attempt (n - 1)) /\
    (forall j, (attempt <= j < attempt + n - 1)%nat ->
       exists e, request j = Rejected e /\ transient e = true) /\
    match request (attempt + n - 1)%nat with
    | Resolved response => fst result = Resolved response
    | Rejected e =>
        fst result = Rejected e /\
        (transient e = false \/ Z.of_nat (attempt + n - 1) = maxRetries)
    end.
Proof.
  revert attempt lastError.
  induction iterations as [|iterations IH]; intros attempt lastError Hsum Hpos;
    [lia|].
  cbn [retryLoop].
  destruct (request attempt) as [response | e] eqn:Ereq.
  - exists 1%nat. split; [lia|]. cbn.
    replace (attempt + 1 - 1)%nat with attempt by lia. rewrite Ereq.
    repeat split; auto. intros j Hj. lia.
  - rewrite isRetryableError_spec.
    destruct (Z.ltb_spec (Z.of_nat attempt) maxRetries) as [Hlt | Hge]; cbn [andb].
    + destruct (transient e) eqn:Et.
      * destruct (IH (S attempt) (Some e) ltac:(lia) ltac:(lia))
          as (n & Hn & Hreq & Hsl & Hall & Hlast).
        cbv zeta in *.
        destruct (retryLoop R request iterations (S attempt) maxRetries (Some e))
          as [outcome events].
        cbn [fst snd] in *.
        exists (S n). split; [lia|].
        cbn [requestsOf sleepsOf flat_map app]. fold (requestsOf events).
        fold (sleepsOf events). rewrite Hreq, Hsl.
        replace (S n - 1)%nat with (S (n - 1)) by lia.
        replace (attempt + S n - 1)%nat with (S attempt + n - 1)%nat by lia.
        split; [reflexivity|]. split; [reflexivity|]. split; [|exact Hlast].
        intros j Hj. destruct (Nat.eq_dec j attempt) as [-> | Hne].
        -- exists e. auto.
        -- apply Hall. lia.
      * exists 1%nat. split; [lia|]. cbn.
        replace (attempt + 1 - 1)%nat with attempt by lia. rewrite Ereq.
        repeat split; auto. intros j Hj. lia.
    + exists 1%nat. split; [lia|]. cbn.
      replace (attempt + 1 - 1)%nat with attempt by lia. rewrite Ereq.
      repeat split; auto; [intros j Hj; lia|]. right. lia.
Qed.

Lemma Zsum_backoff n : Zsum (map backoff (seq 0 n)) = 1000 * (2 ^ Z.of_nat n - 1).
Proof.
  induction n as [|n IH]; [reflexivity|].
  rewrite seq_S, map_app. simpl map.
  assert (forall l x, Zsum (l ++ [x]) = Zsum l + x) as Happ.
  { induction l as [|y l IHl]; intros x; simpl; [lia|]. rewrite IHl. lia. }
  rewrite Happ, IH. unfold backoff. rewrite Nat2Z.inj_succ, Z.pow_succ_r by lia.
  lia.
Qed.

(** X21.  The retry discipline of [queryModel].  Without an API key, or
    with a negative retry count, the call rejects without sending any
    request.  Otherwise it sends requests 0, 1, ..., n-1 one after the other
    for some n between 1 and maxRetries + 1, and sleeps 1000 * 2^k ms after
    the failed attempt k (in total 1000 * (2^(n-1) - 1) ms); every attempt
    before the last failed with a timeout, a 429, a 5xx or a network error;
    and the call ends with the result of the last attempt: its response, or
    its error, which is then either not of that kind (a 4xx other than 429
    is never retried) or the error of attempt maxRetries. *)
Theorem queryModel_retry_discipline :
  forall (apiKey : string) (maxRetriesOption : option Z),
    let maxRetries :=
      match maxRetriesOption with
      | Some n => n
      | None => DEFAULT_MAX_RETRIES
      end in
    let result := queryModel R apiKey request maxRetriesOption in
    (apiKey = "" ->
     result =
       (Rejected (PlainError "Error" "OpenRouter API key not configured"), [])) /\
    (apiKey <> "" -> maxRetries < 0 ->
     result =
       (Rejected (PlainError "Error" "Request failed after retries"), [])) /\
    (apiKey <> "" -> 0 <= maxRetries ->
     exists n : nat,
       (1 <= n)%nat /\ Z.of_nat n <= maxRetries + 1 /\
       requestsOf (snd result) = seq 0 n /\
       sleepsOf (snd result) = map backoff (seq 0 (n - 1)) /\
       Zsum (sleepsOf (snd result)) = 1000 * (2 ^ Z.of_nat (n - 1) - 1) /\
       (forall j, (j < n - 1)%nat ->
          exists e, request j = Rejected e /\ transient e = true) /\
       match request (n - 1)%nat with
       | Resolved response => fst result = Resolved response
       | Rejected e =>
           fst result = Rejected e /\
           (transient e = false \/ Z.of_nat (n - 1) = maxRetries)
       end).
Proof.
  intros apiKey maxRetriesOption maxRetries result.
  split; [|split].
  - intros ->. reflexivity.
  - intros Hkey Hneg. unfold result, queryModel.
    destruct (truthy_string apiKey) eqn:Et.
    2: { apply ChairmanFacts.truthy_string_false in Et. contradiction. }
    cbn [negb]. fold maxRetries.
    replace (Z.to_nat (maxRetries + 1)) with 0%nat by lia. reflexivity.
  - intros Hkey Hpos. unfold result, queryModel.
    destruct (truthy_string apiKey) eqn:Et.
    2: { apply ChairmanFacts.truthy_string_false in Et. contradiction. }
    cbn [negb]. fold maxRetries.
    destruct (retryLoop_spec (Z.to_nat (maxRetries + 1)) 0 maxRetries None
                ltac:(lia) ltac:(lia))
      as (n & Hn & Hreq & Hsl & Hall & Hlast).
    cbv zeta in *. exists n.
    split; [lia|]. split; [lia|]. split; [exact Hreq|]. split; [exact Hsl|].
    split; [rewrite Hsl; apply Zsum_backoff|]. split.
    + intros j Hj. apply Hall. lia.
    + exact Hlast.
Qed.

(** X22.  [healthCheck] never throws and is cheap.  It sends no request
    without an API key and at most two requests otherwise, and it reports
    ok exactly when the key is set and the first request succeeds, or the
    first request fails with a timeout, a 429, a 5xx or a network error and
    the second one succeeds. *)
Theorem healthCheck_two_requests_at_most :
  forall apiKey : string,
    let probe := healthCheck R apiKey request in
    (length (requestsOf (snd probe)) <= 2)%nat /\
    (apiKey = "" -> snd probe = []) /\
    (fst (fst probe) = true <->
     apiKey <> "" /\
     ((exists response, request 0%nat = Resolved response) \/
      (exists e response,
         request 0%nat = Rejected e /\ transient e = true /\
         request 1%nat = Resolved response))).
Proof.
  intros apiKey probe. unfold probe, healthCheck, queryModel.
  destruct (truthy_string apiKey) eqn:Et; cbn [negb].
  2: { apply ChairmanFacts.truthy_string_false in Et. subst apiKey. cbn.
       split; [lia|]. split; [reflexivity|].
       split; [discriminate | intros [H _]; now contradiction H]. }
  assert (apiKey <> "") as Hkey by (intros ->; discriminate).
  change (Z.to_nat (1 + 1)) with 2%nat. cbn [retryLoop].
  destruct (request 0%nat) as [r0 | e0] eqn:E0.
  - cbn. split; [lia|]. split; [contradiction|].
    split; [intros _; split; [exact Hkey | left; eauto] | reflexivity].
  - rewrite isRetryableError_spec. cbn [Z.of_nat Z.ltb Z.compare andb].
    destruct (transient e0) eqn:T0.
    + destruct (request 1%nat) as [r1 | e1] eqn:E1.
      * cbn. split; [lia|]. split; [contradiction|].
        split; [intros _; split; [exact Hkey | right; eauto] | reflexivity].
      * rewrite isRetryableError_spec. cbn.
        split; [lia|]. split; [contradiction|].
        split; [discriminate|].
        intros [_ [(r & H) | (e & r & _ & _ & H)]]; discriminate.
    + cbn. split; [lia|]. split; [contradiction|].
      split; [discriminate|].
      intros [_ [(r & H) | (e & r & H & Ht & _)]]; [discriminate|].
      injection H as <-. congruence.
Qed.

End Facts.

(** A timeout, then a 503, then an answer. *)
Definition flaky (attempt : nat) : Outcome string :=
  match attempt with
  | 0%nat => Rejected (PlainError "AbortError" "This operation was aborted")
  | 1%nat => Rejected (OpenRouterError "OpenRouter API error (503): busy" 503)
  | _ => Resolved "OK"
  end.

Lemma queryModel_retry_discipline_witness :
  "sk-key" <> "" /\ 0 <= 3 /\
  queryModel string "sk-key" flaky None
  = (Resolved "OK",
     [Requested 0; Slept 1000; Requested 1; Slept 2000; Requested 2]) /\
  exists n : nat,
    requestsOf (snd (queryModel string "sk-key" flaky None)) = seq 0 n /\
    Z.of_nat n <= 3 + 1.
Proof.
  split; [discriminate|]. split; [lia|]. split; [reflexivity|].
  destruct (proj2 (proj2 (queryModel_retry_discipline string flaky "sk-key" None))
              ltac:(discriminate) ltac:(cbv; discriminate))
    as (n & _ & Hn & Hreq & _).
  exists n. split; [exact Hreq | exact Hn].
Defined.

End OpenRouterFacts.

(** * Configuration (config.ts) *)

Module LoadedConfig.
(** [CouncilConfig] as [loadCouncilConfig] fills it; [None] is [undefined]. *)
Record t : Type := mk
  { councilModels : list string;
    chairmanOverrideModel : option string;
    fallbackChairmanModel : string;
    minimumSeats : Z;
    maximumSeats : Z;
    concurrencyLimit : Z;
    jsonFallbackModels : option (list string);
    defaultJurisdiction : string }.
End LoadedConfig.

Module ConfigCheck.
Record t : Type := mk
  { valid : bool;
    errors : list string;
    warnings : list string }.
End ConfigCheck.

Module Config.
Import Audit.

(** [process.env]: [None] is [undefined]. *)
Definition Env : Type := string -> option string.

Definition nl : string := String (ascii_of_nat 10) EmptyString.

Definition seatVariable (i : nat) : string :=
  ("COUNCIL_MODEL_" ++ string_of_nat i)%string.

(** [s.split(sep)] for a one-character separator. *)
Fixpoint splitOn (sep : ascii) (acc s : string) : list string :=
  match s with
  | EmptyString => [acc]
  | String c s' =>
      if Ascii.eqb c sep then acc :: splitOn sep EmptyString s'
      else splitOn sep (acc ++ String c EmptyString)%string s'
  end.

Definition digitOf (c : ascii) : option Z :=
  let n := nat_of_ascii c in
  if (48 <=? n) && (n <=? 57) then Some (Z.of_nat (n - 48)) else None.

(** The value of the longest prefix of decimal digits; [None] when there is
    no digit. *)
Fixpoint digitsValue (seen : bool) (acc : Z) (s : string) : option Z :=
  match s with
  | String c s' =>
      match digitOf c with
      | Some d => digitsValue true (acc * 10 + d)%Z s'
      | None => if seen then Some acc else None
      end
  | EmptyString => if seen then Some acc else None
  end.

(** [Number.parseInt(s, 10)] as an exact integer; [None] is [NaN].  Leading
    ASCII white space is skipped, one sign is read, and the digits that
    follow give the value. *)
Definition parseInt (s : string) : option Z :=
  match trimStart s with
  | String c rest =>
      if Ascii.eqb c "-" then option_map Z.opp (digitsValue false 0%Z rest)
      else if Ascii.eqb c "+" then digitsValue false 0%Z rest
      else digitsValue false 0%Z (String c rest)
  | EmptyString => None
  end.

(** Integers from this bound on are [Infinity] as a double. *)
Definition INFINITY_FROM : Z := (2 ^ 1024 - 2 ^ 970)%Z.

(** [Number.isFinite(raw)] for a parsed integer. *)
Definition isFinite (raw : option Z) : bool :=
  match raw with
  | Some n => (Z.abs n <? INFINITY_FROM)%Z
  | None => false
  end.

(** The seats [COUNCIL_MODEL_1] .. [COUNCIL_MODEL_10] of [loadCouncilConfig]. *)
Definition loadedSeats (env : Env) : list string :=
  flat_map (fun i =>
              match env (seatVariable i) with
              | Some modelId =>
                  if truthy_string modelId && truthy_string (trim modelId)
                  then [trim modelId] else []
              | None => []
              end) (seq 1 10).

Definition quorumMessage (found : nat) : string :=
  ("Council requires at least 2 models. Found " ++ string_of_nat found ++ "." ++
   nl ++ nl ++
   "Set COUNCIL_MODEL_1, COUNCIL_MODEL_2, etc. in your environment or .env file." ++
   nl ++ nl ++
   "Example .env configuration:" ++ nl ++
   "  OPENROUTER_API_KEY=your_key_here" ++ nl ++
   "  COUNCIL_MODEL_1=provider/model-name-1" ++ nl ++
   "  COUNCIL_MODEL_2=provider/model-name-2" ++ nl ++
   "  COUNCIL_MODEL_3=provider/model-name-3" ++ nl ++ nl ++
   "Model identifiers must match your API provider's naming convention.")%string.

(** [x?.trim() || undefined]. *)
Definition trimmedOrUndefined (x : option string) : option string :=
  match x with
  | Some v => if truthy_string (trim v) then Some (trim v) else None
  | None => None
  end.

Definition loadConcurrencyLimit (env : Env) : Z :=
  let raw :=
    parseInt (match env "COUNCIL_CONCURRENCY_LIMIT" with
              | Some v => v
              | None => "3"
              end) in
  match raw with
  | Some n => if isFinite raw && (0 <? n)%Z then n else 3%Z
  | None => 3%Z
  end.

(** [loadCouncilConfig]; [Threw] carries the [ConfigurationError]'s message. *)
Definition loadCouncilConfig (env : Env) : Completion LoadedConfig.t :=
  let models := loadedSeats env in
  match models with
  | first :: _ :: _ =>
      let chairmanOverride := trimmedOrUndefined (env "CHAIRMAN_MODEL") in
      let jsonFallbackModels :=
        match trimmedOrUndefined (env "COUNCIL_JSON_FALLBACK_MODELS") with
        | Some listed =>
            Some (filter truthy_string
                    (map trim (splitOn "," EmptyString listed)))
        | None => None
        end in
      Returned
        (LoadedConfig.mk models chairmanOverride first 2%Z 10%Z
           (loadConcurrencyLimit env) jsonFallbackModels
           (or_string (env "DEFAULT_JURISDICTION") "NY"))
  | _ => Threw (quorumMessage (length models))
  end.

(** The seats as [validateConfig] collects them. *)
Definition checkedSeats (env : Env) : list string :=
  flat_map (fun i =>
              match env (seatVariable i) with
              | Some v => if truthy_string (trim v) then [trim v] else []
              | None => []
              end) (seq 1 10).

Definition validateConfig (env : Env) : ConfigCheck.t :=
  let errors0 :=
    match env "OPENROUTER_API_KEY" with
    | Some key => if truthy_string key then [] else ["OPENROUTER_API_KEY is required"]
    | None => ["OPENROUTER_API_KEY is required"]
    end in
  let models := checkedSeats env in
  let errors :=
    if length models =? 0
    then errors0 ++ ["No council models defined. Set COUNCIL_MODEL_1, COUNCIL_MODEL_2, etc."]
    else if length models =? 1
    then errors0 ++ ["Only 1 council model defined. At least 2 required for deliberation."]
    else errors0 in
  let warnings :=
    if negb (length models =? 0) && negb (length models =? 1) && (length models =? 2)
    then ["Only 2 council models defined. Consider adding more for diverse perspectives."]
    else [] in
  ConfigCheck.mk (length errors =? 0) errors warnings.

(** The fields of a loaded configuration that the orchestrator reads. *)
Definition forOrchestrator (config : LoadedConfig.t) : CouncilConfig.t :=
  CouncilConfig.mk
    (LoadedConfig.councilModels config)
    (LoadedConfig.chairmanOverrideModel config)
    (Some (LoadedConfig.minimumSeats config))
    (Z.to_nat (LoadedConfig.concurrencyLimit config)).

End Config.

Module ConfigFacts.
Import Audit Config.

(** The values of the seat variables that are set and not blank, trimmed,
    in seat order. *)
Definition configuredSeats (env : Env) : list string :=
  flat_map (fun i =>
              match env (seatVariable i) with
              | Some v => if String.eqb (trim v) "" then [] else [trim v]
              | None => []
              end) (seq 1 10).

Definition trimmed (s : string) : Prop := trim s = s.

Definition startsClean (s : string) : Prop :=
  match s with
  | String c _ => isSpace c = false
  | EmptyString => True
  end.

Lemma trimStart_startsClean s : startsClean (trimStart s).
Proof.
  induction s as [|c s IH]; simpl; [exact I|].
  destruct (isSpace c) eqn:E; [exact IH | exact E].
Qed.

Lemma startsClean_trimStart s : startsClean s -> trimStart s = s.
Proof. destruct s as [|c s]; simpl; [reflexivity | now intros ->]. Qed.

Lemma trimEnd_startsClean s : startsClean s -> startsClean (trimEnd s).
Proof.
  destruct s as [|c s]; simpl; [auto|]. intros Hc.
  destruct (trimEnd s); [rewrite Hc|]; exact Hc.
Qed.

Lemma trimEnd_idempotent s : trimEnd (trimEnd s) = trimEnd s.
Proof.
  induction s as [|c s IH]; [reflexivity|]. simpl.
  destruct (trimEnd s) as [|a t] eqn:E.
  - destruct (isSpace c) eqn:Ec; [reflexivity|]. simpl. now rewrite Ec.
  - change (trimEnd (String c (String a t)))
      with (match trimEnd (String a t) with
            | EmptyString =>
                if isSpace c then EmptyString else String c EmptyString
            | u => String c u
            end).
    now rewrite IH.
Qed.

Lemma trim_idempotent s : trimmed (trim s).
Proof.
  unfold trimmed, trim.
  rewrite (startsClean_trimStart (trimEnd (trimStart s))).
  - apply trimEnd_idempotent.
  - apply trimEnd_startsClean, trimStart_startsClean.
Qed.

Lemma loadedSeats_configured env : loadedSeats env = configuredSeats env.
Proof.
  unfold loadedSeats, configuredSeats.
  apply flat_map_ext. intros i.
  destruct (env (seatVariable i)) as [v|]; [|reflexivity].
  unfold truthy_string.
  destruct (String.eqb_spec (trim v) "") as [E|E];
    [now rewrite andb_false_r|].
  destruct (String.eqb_spec v "") as [->|_]; [now contradiction E|reflexivity].
Qed.

Lemma checkedSeats_configured env : checkedSeats env = configuredSeats env.
Proof.
  unfold checkedSeats, configuredSeats. apply flat_map_ext. intros i.
  destruct (env (seatVariable i)) as [v|]; [|reflexivity].
  unfold truthy_string. now destruct (String.eqb (trim v) "").
Qed.

Lemma configuredSeats_clean env :
  Forall (fun m => m <> "" /\ trimmed m) (configuredSeats env).
Proof.
  unfold configuredSeats. apply Forall_flat_map, Forall_forall.
  intros i _. destruct (env (seatVariable i)) as [v|]; [|constructor].
  destruct (String.eqb_spec (trim v) "") as [E|E]; constructor; [|constructor].
  split; [exact E | apply trim_idempotent].
Qed.

Lemma flat_map_length_le {A B} (f : A -> list B) (l : list A) n :
  (forall a, length (f a) <= n) -> length (flat_map f l) <= n * length l.
Proof.
  intros Hf. induction l as [|a l IH]; simpl; [lia|].
  rewrite length_app. specialize (Hf a). lia.
Qed.

Lemma configuredSeats_length env : length (configuredSeats env) <= 10.
Proof.
  unfold configuredSeats.
  eapply Nat.le_trans; [apply (flat_map_length_le _ _ 1)|].
  - intros i. destruct (env (seatVariable i)) as [v|]; [|simpl; lia].
    destruct (String.eqb (trim v) ""); simpl; lia.
  - rewrite length_seq. lia.
Qed.

Lemma loadConcurrencyLimit_positive env : (1 <= loadConcurrencyLimit env)%Z.
Proof.
  unfold loadConcurrencyLimit.
  destruct (parseInt _) as [n|]; [|lia].
  destruct (isFinite (Some n)); simpl; [|lia].
  destruct (Z.ltb_spec 0 n); lia.
Qed.

Lemma trimmedOrUndefined_clean x v :
  trimmedOrUndefined x = Some v -> v <> "" /\ trimmed v.
Proof.
  destruct x as [u|]; [|discriminate]. simpl.
  destruct (truthy_string (trim u)) eqn:E; [|discriminate].
  intros H. injection H as <-. split; [|apply trim_idempotent].
  intros H. rewrite H in E. discriminate.
Qed.

(** X23.  [loadCouncilConfig] either throws or returns a well-formed
    council.  It throws exactly when fewer than two of the ten seat
    variables hold a non-blank value, and the message reports how many were
    found.  Otherwise the council has the non-blank seat values, trimmed and
    in seat order: between 2 and 10 models, none empty; the fallback
    chairman is the first of them; a chairman override is never the empty
    string; 2 and 10 are the seat bounds; the concurrency limit is at least
    1; and the orchestrator sees a quorum of 2 and at least one worker. *)
Theorem loadCouncilConfig_wellformed :
  forall env : Env,
    match loadCouncilConfig env with
    | Returned config =>
        LoadedConfig.councilModels config = configuredSeats env /\
        2 <= length (LoadedConfig.councilModels config) <= 10 /\
        Forall (fun m => m <> "" /\ trimmed m)
          (LoadedConfig.councilModels config) /\
        hd_error (LoadedConfig.councilModels config)
        = Some (LoadedConfig.fallbackChairmanModel config) /\
        (forall o, LoadedConfig.chairmanOverrideModel config = Some o ->
                   o <> "" /\ trimmed o) /\
        LoadedConfig.minimumSeats config = 2%Z /\
        LoadedConfig.maximumSeats config = 10%Z /\
        (1 <= LoadedConfig.concurrencyLimit config)%Z /\
        LoadedConfig.defaultJurisdiction config <> "" /\
        Orchestrator.minQuorumOf (forOrchestrator config) = 2%Z /\
        1 <= CouncilConfig.concurrencyLimit (forOrchestrator config)
    | Threw message =>
        length (configuredSeats env) < 2 /\
        message = quorumMessage (length (configuredSeats env))
    end.
Proof.
  intros env. unfold loadCouncilConfig.
  pose proof (configuredSeats_clean env) as Hclean.
  pose proof (configuredSeats_length env) as Hlen.
  pose proof (loadConcurrencyLimit_positive env) as Hlimit.
  rewrite loadedSeats_configured.
  destruct (configuredSeats env) as [|first [|second rest]] eqn:E.
  - split; [simpl; lia | reflexivity].
  - split; [simpl; lia | reflexivity].
  - cbn [LoadedConfig.councilModels LoadedConfig.chairmanOverrideModel
         LoadedConfig.fallbackChairmanModel LoadedConfig.minimumSeats
         LoadedConfig.maximumSeats LoadedConfig.concurrencyLimit
         LoadedConfig.defaultJurisdiction forOrchestrator
         CouncilConfig.concurrencyLimit].
    split; [reflexivity|]. split; [simpl in *; lia|].
    split; [exact Hclean|]. split; [reflexivity|].
    split; [intros o; apply trimmedOrUndefined_clean|].
    split; [reflexivity|]. split; [reflexivity|]. split; [exact Hlimit|].
    split.
    { unfold or_string. destruct (env "DEFAULT_JURISDICTION") as [j|];
        [|discriminate].
      destruct (truthy_string j) eqn:Ej; [|discriminate].
      intros ->. discriminate. }
    split; [reflexivity | lia].
Qed.

(** X24.  The pre-flight check agrees with the loader.  [validateConfig]
    reports a valid configuration exactly when the API key is set and not
    empty and [loadCouncilConfig] would return a council; it reports at most
    two errors; and it warns exactly when two seats are configured. *)
Theorem validateConfig_agrees_with_loader :
  forall env : Env,
    let check := validateConfig env in
    (ConfigCheck.valid check = true <->
     (exists key, env "OPENROUTER_API_KEY" = Some key /\ key <> "") /\
     (exists config, loadCouncilConfig env = Returned config)) /\
    (ConfigCheck.valid check = true <-> ConfigCheck.errors check = []) /\
    length (ConfigCheck.errors check) <= 2 /\
    (ConfigCheck.warnings check <> [] <-> length (configuredSeats env) = 2).
Proof.
  intros env check. unfold check, validateConfig, loadCouncilConfig.
  rewrite checkedSeats_configured, loadedSeats_configured.
  cbn [ConfigCheck.valid ConfigCheck.errors ConfigCheck.warnings].
  assert (forall l : list string, (length l =? 0) = true <-> l = []) as Hnil.
  { intros [|x l]; simpl; split; congruence. }
  set (errors0 := match env "OPENROUTER_API_KEY" with
                  | Some key =>
                      if truthy_string key then []
                      else ["OPENROUTER_API_KEY is required"]
                  | None => ["OPENROUTER_API_KEY is required"]
                  end).
  assert (errors0 = [] <->
          exists key, env "OPENROUTER_API_KEY" = Some key /\ key <> "")
    as Hkey.
  { unfold errors0. destruct (env "OPENROUTER_API_KEY") as [key|].
    - destruct (truthy_string key) eqn:Ek.
      + split; [|reflexivity]. intros _. exists key. split; [reflexivity|].
        intros ->. discriminate.
      + apply ChairmanFacts.truthy_string_false in Ek. subst key.
        split; [discriminate|]. intros (k & H & Hk). injection H as <-.
        now contradiction Hk.
    - split; [discriminate|]. intros (k & H & _). discriminate. }
  assert (length errors0 <= 1) as Hlen0.
  { unfold errors0. destruct (env "OPENROUTER_API_KEY") as [key|];
      [destruct (truthy_string key)|]; simpl; lia. }
  destruct (configuredSeats env) as [|first [|second rest]];
    cbn [length Nat.eqb negb andb].
  - rewrite Hnil, length_app. cbn [length].
    split; [|split; [reflexivity|split; [lia|]]].
    + split.
      * intros H. destruct errors0; discriminate.
      * intros [_ (c & H)]. discriminate.
    + split; [intros H; now contradiction H | discriminate].
  - rewrite Hnil, length_app. cbn [length].
    split; [|split; [reflexivity|split; [lia|]]].
    + split.
      * intros H. destruct errors0; discriminate.
      * intros [_ (c & H)]. discriminate.
    + split; [intros H; now contradiction H | discriminate].
  - rewrite Hnil.
    split; [|split; [reflexivity|split; [lia|]]].
    + rewrite Hkey. split; [intros H; split; [exact H | eauto] | tauto].
    + destruct rest; simpl; split; try discriminate; try congruence.
Qed.

End ConfigFacts.

(** * The agent loop of Stage 1 (orchestrator.ts, runAgentLoop) *)

Module ChatMessage.
Inductive Role : Type := system | user | assistant.
Record t : Type := mk
  { role : Role;
    content : string }.
End ChatMessage.

Module ToolCall.
(** [call.function.name] and [call.function.arguments]. *)
Record t : Type := mk
  { name : string;
    arguments : string }.
End ToolCall.

Module ModelResponse.
(** [content] is the string that [executeRequest] returns when no response
    format is asked for; a [usage] or [tool_calls] of [None] is
    [undefined]. *)
Record t : Type := mk
  { content : string;
    usage : option TokenUsage.t;
    tool_calls : option (list ToolCall.t) }.
End ModelResponse.

Module AgentRun.
(** What a run of the loop leaves behind: its completion, the message
    history, the usage tracker, and the conversations sent to the model,
    oldest first. *)
Record t : Type := mk
  { outcome : Completion ModelResponse.t;
    messages : list ChatMessage.t;
    usageTracker : option SessionUsage.t;
    queries : list (list ChatMessage.t) }.
End AgentRun.

Module AgentLoop.
Import Usage.

Definition nl : string := String (ascii_of_nat 10) EmptyString.
Definition dquote : string := Audit.dquote.

Definition metaScaffold : string :=
  (nl ++
   "*** META-SCAFFOLDING PROTOCOL ACTIVE ***" ++ nl ++
   nl ++
   "You are operating under a strict " ++ dquote ++ "Plan-Execute-Verify" ++ dquote ++ " architecture." ++ nl ++
   "Do NOT attempt to answer the user's question immediately." ++ nl ++
   nl ++
   "PHASE 1: TRIAGE & PLAN" ++ nl ++
   "- Identify what information is missing (facts, law, procedural status)." ++ nl ++
   "- List specific tools you will use to fill these gaps." ++ nl ++
   "- Do NOT guess. If you need a statute, search for it." ++ nl ++
   nl ++
   "PHASE 2: EXECUTION" ++ nl ++
   "- Execute your plan using the provided tools." ++ nl ++
   "- Read the tool outputs carefully." ++ nl ++
   "- If a tool fails, try an alternative query." ++ nl ++
   nl ++
   "PHASE 3: VERIFICATION & SYNTHESIS" ++ nl ++
   "- Have you gathered sufficient evidence?" ++ nl ++
   "- Does the evidence support your conclusion?" ++ nl ++
   "- Only AFTER verification, produce the final JSON analysis." ++ nl)%string.

(** What reading [messages[0].role] of an empty array throws (V8's text). *)
Definition emptyHistoryError : string :=
  "Cannot read properties of undefined (reading 'role')".

Definition DEFAULT_MAX_TURNS : nat := 5.

Section Loop.

(** The names of [ALL_TOOLS]. *)
Variable ALL_TOOLS : list string.

(** [openRouter.queryModel] on the given turn with the given history. *)
Variable queryModel : nat -> list ChatMessage.t -> Completion ModelResponse.t.

(** [JSON.parse] of the arguments followed by [tool.execute], for the call
    at the given turn and position; [Threw] carries the caught message. *)
Variable execute : nat -> nat -> string -> string -> Completion string.

Variable modelId : string.

(** One tool call: a call that names no tool of [ALL_TOOLS] is skipped. *)
Definition runTool (turn position : nat) (call : ToolCall.t)
  (messages : list ChatMessage.t) : list ChatMessage.t :=
  if existsb (fun t => String.eqb t (ToolCall.name call)) ALL_TOOLS then
    match execute turn position (ToolCall.name call) (ToolCall.arguments call) with
    | Returned result =>
        messages ++
        [ChatMessage.mk ChatMessage.user
           ("[TOOL RESULT for " ++ ToolCall.name call ++ "]: " ++ result)]
    | Threw message =>
        messages ++
        [ChatMessage.mk ChatMessage.user ("[TOOL ERROR]: " ++ message)]
    end
  else messages.

Fixpoint runTools (turn position : nat) (calls : list ToolCall.t)
  (messages : list ChatMessage.t) : list ChatMessage.t :=
  match calls with
  | [] => messages
  | call :: rest =>
      runTools turn (S position) rest (runTool turn position call messages)
  end.

(** The history after a turn on which the model asked for tools. *)
Definition afterTools (turn : nat) (response : ModelResponse.t)
  (calls : list ToolCall.t) (messages : list ChatMessage.t)
  : list ChatMessage.t :=
  runTools turn 0 calls
    (messages ++
     [ChatMessage.mk ChatMessage.assistant
        (or_string (Some (ModelResponse.content response)) "")]).

(** The [for] loop, on the number of turns that remain. *)
Fixpoint turns (remaining turn : nat) (messages : list ChatMessage.t)
  (tracker : option SessionUsage.t) (sent : list (list ChatMessage.t))
  : AgentRun.t :=
  match remaining with
  | 0 => AgentRun.mk (Threw "Agent loop exceeded max turns") messages tracker sent
  | S remaining' =>
      match queryModel turn messages with
      | Threw message =>
          AgentRun.mk (Threw message) messages tracker (sent ++ [messages])
      | Returned response =>
          let tracker' :=
            option_map (recordUsage modelId first (ModelResponse.usage response))
              tracker in
          match ModelResponse.tool_calls response with
          | Some (call :: rest) =>
              turns remaining' (S turn)
                (afterTools turn response (call :: rest) messages)
                tracker' (sent ++ [messages])
          | _ =>
              AgentRun.mk (Returned response) messages tracker'
                (sent ++ [messages])
          end
      end
  end.

(** The history the first turn starts from. *)
Definition scaffolded (initialMessages : list ChatMessage.t)
  : option (list ChatMessage.t) :=
  match initialMessages with
  | [] => None
  | head :: rest =>
      Some (match ChatMessage.role head with
            | ChatMessage.system =>
                ChatMessage.mk ChatMessage.system
                  (ChatMessage.content head ++ metaScaffold) :: rest
            | _ =>
                ChatMessage.mk ChatMessage.system metaScaffold :: head :: rest
            end)
  end.

Definition runAgentLoop (initialMessages : list ChatMessage.t)
  (maxTurns : nat) (tracker : option SessionUsage.t) : AgentRun.t :=
  match scaffolded initialMessages with
  | None => AgentRun.mk (Threw emptyHistoryError) [] tracker []
  | Some messages => turns maxTurns 0 messages tracker []
  end.

End Loop.
End AgentLoop.

Module AgentLoopFacts.
Import Usage AgentLoop.

Definition asksForTools (r : ModelResponse.t) : bool :=
  match ModelResponse.tool_calls r with
  | Some (_ :: _) => true
  | _ => false
  end.

Definition callsOf (r : ModelResponse.t) : list ToolCall.t :=
  match ModelResponse.tool_calls r with
  | Some calls => calls
  | None => []
  end.

(** The usage records of the answers of one model in Stage 1. *)
Definition recorded (modelId : string) (answers : list ModelResponse.t)
  : list Call :=
  map (fun r => mkCall modelId first (ModelResponse.usage r)) answers.

Definition assistantTurn (r : ModelResponse.t) : ChatMessage.t :=
  ChatMessage.mk ChatMessage.assistant (ModelResponse.content r).

Definition endsWith (suffix s : string) : Prop :=
  exists before, s = (before ++ suffix)%string.

Section Facts.

Variable ALL_TOOLS : list string.
Variable queryModel : nat -> list ChatMessage.t -> Completion ModelResponse.t.
Variable execute : nat -> nat -> string -> string -> Completion string.
Variable modelId : string.

Definition isTool (call : ToolCall.t) : bool :=
  existsb (fun t => String.eqb t (ToolCall.name call)) ALL_TOOLS.

(** The history after the given answers, each of which asked for tools. *)
Fixpoint historyAfter (turn : nat) (messages : list ChatMessage.t)
  (answers : list ModelResponse.t) : list ChatMessage.t :=
  match answers with
  | [] => messages
  | r :: rest =>
      historyAfter (S turn)
        (afterTools ALL_TOOLS execute turn r (callsOf r) messages) rest
  end.

Lemma runTool_app turn position call messages :
  runTool ALL_TOOLS execute turn position call messages
  = messages ++ runTool ALL_TOOLS execute turn position call [].
Proof.
  unfold runTool. destruct (existsb _ ALL_TOOLS); [|now rewrite app_nil_r].
  now destruct (execute _ _ _ _).
Qed.

Lemma runTools_app turn calls : forall position messages,
  runTools ALL_TOOLS execute turn position calls messages
  = messages ++ runTools ALL_TOOLS execute turn position calls [].
Proof.
  induction calls as [|call calls IH]; intros position messages; simpl.
  - now rewrite app_nil_r.
  - rewrite IH, runTool_app.
    rewrite (IH _ (runTool ALL_TOOLS execute turn position call [])).
    now rewrite app_assoc.
Qed.

Lemma runTools_users turn calls : forall position,
  let results := runTools ALL_TOOLS execute turn position calls [] in
  Forall (fun m => ChatMessage.role m = ChatMessage.user) results /\
  length results = length (filter isTool calls).
Proof.
  induction calls as [|call calls IH]; intros position; simpl;
    [split; [constructor | reflexivity]|].
  rewrite runTools_app. destruct (IH (S position)) as [Hu Hl].
  unfold runTool. fold (isTool call).
  destruct (isTool call); simpl.
  - destruct (execute _ _ _ _); simpl;
      (split; [constructor; [reflexivity | exact Hu] | f_equal; exact Hl]).
  - split; [exact Hu | exact Hl].
Qed.

Lemma afterTools_spec turn r messages :
  exists results,
    afterTools ALL_TOOLS execute turn r (callsOf r) messages
    = messages ++ assistantTurn r :: results /\
    Forall (fun m => ChatMessage.role m = ChatMessage.user) results /\
    length results = length (filter isTool (callsOf r)).
Proof.
  unfold afterTools. rewrite runTools_app.
  exists (runTools ALL_TOOLS execute turn 0 (callsOf r) []).
  destruct (runTools_users turn (callsOf r) 0) as [Hu Hl].
  split; [|split; [exact Hu | exact Hl]].
  rewrite <- app_assoc. simpl. repeat f_equal.
  unfold assistantTurn, or_string. f_equal.
  destruct (truthy_string (ModelResponse.content r)) eqn:E; [reflexivity|].
  apply ChairmanFacts.truthy_string_false in E. now rewrite E.
Qed.

Lemma historyAfter_snoc answers : forall turn messages r,
  historyAfter turn messages (answers ++ [r])
  = afterTools ALL_TOOLS execute (turn + length answers) r (callsOf r)
      (historyAfter turn messages answers).
Proof.
  induction answers as [|a answers IH]; intros turn messages r; simpl.
  - now rewrite Nat.add_0_r.
  - rewrite IH. now rewrite Nat.add_succ_r.
Qed.

(** The conversations sent on the first [n] turns. *)
Definition conversations (turn : nat) (messages : list ChatMessage.t)
  (answers : list ModelResponse.t) (n : nat) : list (list ChatMessage.t) :=
  map (fun k => historyAfter turn messages (firstn k answers)) (seq 0 n).

Lemma conversations_cons turn messages r answers n :
  conversations turn messages (r :: answers) (S n)
  = messages ::
    conversations (S turn)
      (afterTools ALL_TOOLS execute turn r (callsOf r) messages) answers n.
Proof.
  unfold conversations. cbn [seq map firstn historyAfter]. f_equal.
  rewrite <- seq_shift, map_map. reflexivity.
Qed.

(** What a run of the loop is, in terms of the answers that asked for
    tools. *)
Lemma turns_spec : forall remaining turn messages tracker sent,
  let run := turns ALL_TOOLS queryModel execute modelId remaining turn
               messages tracker sent in
  exists toolTurns : list ModelResponse.t,
    length toolTurns <= remaining /\
    (forall k r, nth_error toolTurns k = Some r ->
       queryModel (turn + k) (historyAfter turn messages (firstn k toolTurns))
       = Returned r /\ asksForTools r = true) /\
    AgentRun.messages run = historyAfter turn messages toolTurns /\
    let final := historyAfter turn messages toolTurns in
    let n := length toolTurns in
    match AgentRun.outcome run with
    | Returned r =>
        n < remaining /\
        queryModel (turn + n) final = Returned r /\ asksForTools r = false /\
        AgentRun.queries run
        = sent ++ conversations turn messages toolTurns (S n) /\
        AgentRun.usageTracker run
        = option_map (fold_left record (recorded modelId (toolTurns ++ [r])))
            tracker
    | Threw message =>
        AgentRun.usageTracker run
        = option_map (fold_left record (recorded modelId toolTurns)) tracker /\
        ((n < remaining /\
          queryModel (turn + n) final = Threw message /\
          AgentRun.queries run
          = sent ++ conversations turn messages toolTurns (S n)) \/
         (n = remaining /\
          message = "Agent loop exceeded max turns" /\
          AgentRun.queries run
          = sent ++ conversations turn messages toolTurns n))
    end.
Proof.
  induction remaining as [|remaining IH]; intros turn messages tracker sent.
  - exists []. cbn. split; [lia|]. split; [intros [|k] r H; discriminate|].
    split; [reflexivity|]. split; [now destruct tracker|].
    right. rewrite app_nil_r. auto.
  - cbn [turns]. destruct (queryModel turn messages) as [r|message] eqn:Eq.
    + destruct (ModelResponse.tool_calls r) as [[|call rest]|] eqn:Et.
      * exists []. cbn. rewrite Nat.add_0_r.
        split; [lia|]. split; [intros [|k] r' H; discriminate|].
        split; [reflexivity|]. split; [lia|]. split; [exact Eq|].
        split; [unfold asksForTools; now rewrite Et|].
        split; [reflexivity | now destruct tracker].
      * assert (callsOf r = call :: rest) as Hc
          by (unfold callsOf; now rewrite Et).
        assert (asksForTools r = true) as Ha
          by (unfold asksForTools; now rewrite Et).
        rewrite <- Hc.
        specialize (IH (S turn)
                      (afterTools ALL_TOOLS execute turn r (callsOf r) messages)
                      (option_map
                         (recordUsage modelId first (ModelResponse.usage r))
                         tracker)
                      (sent ++ [messages])).
        cbv zeta in IH. destruct IH as (toolTurns & Hlen & Hans & Hmsg & Hout).
        exists (r :: toolTurns). cbn [length historyAfter].
        split; [lia|]. split.
        { intros [|k] r' Hk.
          - injection Hk as <-. cbn. rewrite Nat.add_0_r. auto.
          - cbn [firstn historyAfter]. rewrite Nat.add_succ_r.
            apply (Hans k r' Hk). }
        split; [exact Hmsg|].
        assert (forall t l,
                  option_map (fold_left record l)
                    (option_map
                       (recordUsage modelId first (ModelResponse.usage r)) t)
                  = option_map
                      (fold_left record
                         (mkCall modelId first (ModelResponse.usage r) :: l)) t)
          as Htr by (intros [t|] l; reflexivity).
        destruct (AgentRun.outcome _) as [r'|message].
        -- destruct Hout as (Hn & Hq & Hr & Hsent & Hu).
           split; [lia|]. rewrite Nat.add_succ_r. split; [exact Hq|].
           split; [exact Hr|]. split.
           ++ rewrite Hsent, conversations_cons, <- app_assoc. reflexivity.
           ++ rewrite Hu. apply Htr.
        -- destruct Hout as (Hu & Hcase). split; [rewrite Hu; apply Htr|].
           destruct Hcase as [(Hn & Hq & Hsent) | (Hn & Hm & Hsent)].
           ++ left. split; [lia|]. rewrite Nat.add_succ_r.
              split; [exact Hq|].
              rewrite Hsent, conversations_cons, <- app_assoc. reflexivity.
           ++ right. split; [lia|]. split; [exact Hm|].
              rewrite Hsent, conversations_cons, <- app_assoc. reflexivity.
      * exists []. cbn. rewrite Nat.add_0_r.
        split; [lia|]. split; [intros [|k] r' H; discriminate|].
        split; [reflexivity|]. split; [lia|]. split; [exact Eq|].
        split; [unfold asksForTools; now rewrite Et|].
        split; [reflexivity | now destruct tracker].
    + exists []. cbn. rewrite Nat.add_0_r.
      split; [lia|]. split; [intros [|k] r' H; discriminate|].
      split; [reflexivity|]. split; [now destruct tracker|].
      left. split; [lia|]. auto.
Qed.

Lemma conversations_length turn messages answers n :
  length (conversations turn messages answers n) = n.
Proof. unfold conversations. now rewrite length_map, length_seq. Qed.

Lemma conversations_nth turn messages answers n k a :
  nth_error (conversations turn messages answers n) k = Some a ->
  k < n /\ a = historyAfter turn messages (firstn k answers).
Proof.
  intros H.
  assert (k < n) as Hk.
  { rewrite <- (conversations_length turn messages answers n).
    apply nth_error_Some. now rewrite H. }
  split; [exact Hk|].
  unfold conversations in H.
  rewrite (nth_error_nth' _ [] ) in H
    by (now rewrite length_map, length_seq).
  injection H as <-.
  rewrite (nth_indep _ [] (historyAfter turn messages (firstn 0 answers)))
    by (now rewrite length_map, length_seq).
  rewrite (map_nth (fun k => historyAfter turn messages (firstn k answers))).
  now rewrite seq_nth.
Qed.

Lemma conversations_S turn messages answers :
  conversations turn messages answers (S (length answers))
  = conversations turn messages answers (length answers) ++
    [historyAfter turn messages answers].
Proof.
  unfold conversations. rewrite seq_S, map_app. cbn [map Nat.add].
  now rewrite firstn_all.
Qed.

Lemma firstn_S_nth {A} (l : list A) : forall k x,
  nth_error l k = Some x -> firstn (S k) l = firstn k l ++ [x].
Proof.
  induction l as [|a l IH]; intros [|k] x H; try discriminate.
  - injection H as <-. reflexivity.
  - rewrite firstn_cons, (IH k x H). reflexivity.
Qed.

Lemma historyAfter_app answers : forall turn messages more,
  historyAfter turn messages (answers ++ more)
  = historyAfter (turn + length answers)
      (historyAfter turn messages answers) more.
Proof.
  induction answers as [|a answers IH]; intros turn messages more; simpl.
  - now rewrite Nat.add_0_r.
  - rewrite IH. now rewrite Nat.add_succ_r.
Qed.

Lemma historyAfter_extends answers : forall turn messages,
  exists extra,
    historyAfter turn messages answers = messages ++ extra /\
    Forall (fun m => ChatMessage.role m <> ChatMessage.system) extra.
Proof.
  induction answers as [|r answers IH]; intros turn messages; simpl.
  - exists []. split; [now rewrite app_nil_r | constructor].
  - destruct (afterTools_spec turn r messages) as (results & -> & Hu & _).
    destruct (IH (S turn) (messages ++ assistantTurn r :: results))
      as (extra & -> & Hextra).
    exists ((assistantTurn r :: results) ++ extra).
    split; [now rewrite app_assoc|].
    apply Forall_app. split; [|exact Hextra].
    constructor; [discriminate|].
    eapply Forall_impl; [|exact Hu]. intros m ->. discriminate.
Qed.

Lemma scaffolded_None initialMessages :
  scaffolded initialMessages = None -> initialMessages = [].
Proof. now destruct initialMessages. Qed.

(** X25.  The agent loop keeps to its turn budget, and a failing tool never
    ends it.  [runAgentLoop] queries the model at most [maxTurns] times;
    every query but the last was answered with a request for tools; it
    returns only an answer to its last query that asks for no tool; and it
    throws only for an empty message list, for a query that failed (with
    that query's error), or because all [maxTurns] answers asked for
    tools. *)
Theorem runAgentLoop_turn_budget :
  forall (initialMessages : list ChatMessage.t) (maxTurns : nat)
         (tracker : option SessionUsage.t),
    let run := runAgentLoop ALL_TOOLS queryModel execute modelId
                 initialMessages maxTurns tracker in
    let sent := AgentRun.queries run in
    length sent <= maxTurns /\
    (forall k conversation,
        nth_error sent k = Some conversation -> S k < length sent ->
        exists r, queryModel k conversation = Returned r /\
                  asksForTools r = true) /\
    match AgentRun.outcome run with
    | Returned r =>
        asksForTools r = false /\
        exists before conversation,
          sent = before ++ [conversation] /\
          queryModel (length before) conversation = Returned r
    | Threw message =>
        (initialMessages = [] /\ sent = [] /\ message = emptyHistoryError) \/
        (exists before conversation,
            sent = before ++ [conversation] /\
            queryModel (length before) conversation = Threw message) \/
        (initialMessages <> [] /\ length sent = maxTurns /\
         message = "Agent loop exceeded max turns" /\
         forall k conversation,
           nth_error sent k = Some conversation ->
           exists r, queryModel k conversation = Returned r /\
                     asksForTools r = true)
    end.
Proof.
  intros initialMessages maxTurns tracker run sent.
  unfold sent, run, runAgentLoop.
  destruct (scaffolded initialMessages) as [start|] eqn:Es.
  2: { apply scaffolded_None in Es. cbn. split; [lia|].
       split; [intros [|k] c H; discriminate|]. left. auto. }
  assert (initialMessages <> []) as Hne by (intros ->; discriminate).
  destruct (turns_spec maxTurns 0 start tracker [])
    as (toolTurns & Hlen & Hans & _ & Hout).
  cbv zeta in Hout. cbn [app Nat.add] in Hout.
  assert (forall n k conversation,
            nth_error (conversations 0 start toolTurns n) k = Some conversation ->
            k < length toolTurns ->
            exists r, queryModel k conversation = Returned r /\
                      asksForTools r = true) as Hanswered.
  { intros n k c Hk Hlt. apply conversations_nth in Hk as [_ ->].
    destruct (nth_error toolTurns k) as [r|] eqn:Er.
    - exists r. apply (Hans k r Er).
    - apply nth_error_None in Er. lia. }
  destruct (AgentRun.outcome _) as [r|message].
  - destruct Hout as (Hn & Hq & Hr & -> & _).
    rewrite conversations_length. split; [lia|]. split.
    { intros k c Hk Hlt. apply (Hanswered _ k c Hk). lia. }
    split; [exact Hr|]. rewrite conversations_S.
    eexists _, _. split; [reflexivity|].
    now rewrite conversations_length.
  - destruct Hout as (_ & [(Hn & Hq & ->) | (Hn & Hm & ->)]);
      rewrite conversations_length.
    + split; [lia|]. split.
      { intros k c Hk Hlt. apply (Hanswered _ k c Hk). lia. }
      right. left. rewrite conversations_S.
      eexists _, _. split; [reflexivity|].
      now rewrite conversations_length.
    + split; [lia|]. split.
      { intros k c Hk Hlt. apply (Hanswered _ k c Hk). lia. }
      right. right. split; [exact Hne|]. split; [exact Hn|].
      split; [exact Hm|].
      intros k c Hk. apply (Hanswered _ k c Hk).
      apply conversations_nth in Hk. lia.
Qed.

(** X26.  The conversation only grows.  The first query carries the
    caller's messages under one system message that ends with the
    scaffolding protocol (appended to the caller's own system message when
    there is one); each later query carries the previous conversation
    followed by the assistant's turn and one user message per tool call
    that names a tool of [ALL_TOOLS], whether the tool succeeded or threw.
    No system message is ever added after the first, and the final history
    extends every conversation sent. *)
Theorem runAgentLoop_history_grows :
  forall (initialMessages : list ChatMessage.t) (maxTurns : nat)
         (tracker : option SessionUsage.t),
    let run := runAgentLoop ALL_TOOLS queryModel execute modelId
                 initialMessages maxTurns tracker in
    let sent := AgentRun.queries run in
    match scaffolded initialMessages with
    | None => initialMessages = [] /\ sent = [] /\ AgentRun.messages run = []
    | Some start =>
        (exists head rest,
            start = head :: rest /\
            ChatMessage.role head = ChatMessage.system /\
            endsWith metaScaffold (ChatMessage.content head) /\
            (rest = initialMessages \/
             exists own, initialMessages = own :: rest /\
                         ChatMessage.role own = ChatMessage.system /\
                         ChatMessage.content head
                         = (ChatMessage.content own ++ metaScaffold)%string)) /\
        (forall conversation,
            nth_error sent 0 = Some conversation -> conversation = start) /\
        (forall k previous next,
            nth_error sent k = Some previous ->
            nth_error sent (S k) = Some next ->
            exists r results,
              queryModel k previous = Returned r /\
              next = previous ++ assistantTurn r :: results /\
              Forall (fun m => ChatMessage.role m = ChatMessage.user) results /\
              length results = length (filter isTool (callsOf r))) /\
        (forall conversation,
            In conversation sent ->
            (exists extra,
                conversation = start ++ extra /\
                Forall (fun m => ChatMessage.role m <> ChatMessage.system)
                  extra) /\
            exists later, AgentRun.messages run = conversation ++ later)
    end.
Proof.
  intros initialMessages maxTurns tracker run sent.
  unfold sent, run, runAgentLoop.
  destruct (scaffolded initialMessages) as [start|] eqn:Es.
  2: { apply scaffolded_None in Es. cbn. auto. }
  split.
  { destruct initialMessages as [|own rest]; [discriminate|].
    cbn in Es. injection Es as <-.
    destruct (ChatMessage.role own) eqn:Er.
    - eexists _, _. split; [reflexivity|]. cbn. split; [reflexivity|].
      split; [now exists (ChatMessage.content own)|].
      right. exists own. auto.
    - eexists _, _. split; [reflexivity|]. cbn. split; [reflexivity|].
      split; [now exists EmptyString | now left].
    - eexists _, _. split; [reflexivity|]. cbn. split; [reflexivity|].
      split; [now exists EmptyString | now left]. }
  destruct (turns_spec maxTurns 0 start tracker [])
    as (toolTurns & Hlen & Hans & Hmsg & Hout).
  cbv zeta in Hout. cbn [app Nat.add] in Hout.
  assert (exists n, n <= S (length toolTurns) /\
                    AgentRun.queries
                      (turns ALL_TOOLS queryModel execute modelId maxTurns 0
                         start tracker [])
                    = conversations 0 start toolTurns n) as (n & Hn & ->).
  { destruct (AgentRun.outcome _) as [r|message].
    - destruct Hout as (_ & _ & _ & -> & _). eexists. split; [|reflexivity]. lia.
    - destruct Hout as (_ & [(_ & _ & ->) | (_ & _ & ->)]);
        (eexists; split; [|reflexivity]); lia. }
  rewrite Hmsg. clear Hout Hmsg.
  split; [|split].
  - intros c Hc. apply conversations_nth in Hc as [_ ->]. reflexivity.
  - intros k previous next Hp Hx.
    apply conversations_nth in Hp as [_ ->].
    apply conversations_nth in Hx as [Hk ->].
    destruct (nth_error toolTurns k) as [r|] eqn:Er.
    2: { apply nth_error_None in Er. lia. }
    destruct (Hans k r Er) as [Hq _]. cbn [Nat.add] in Hq.
    rewrite (firstn_S_nth _ _ _ Er), historyAfter_snoc.
    destruct (afterTools_spec (0 + length (firstn k toolTurns)) r
                (historyAfter 0 start (firstn k toolTurns)))
      as (results & Hafter & Hu & Hl).
    exists r, results. auto.
  - intros c Hc. apply In_nth_error in Hc as (k & Hk).
    apply conversations_nth in Hk as [_ ->]. split.
    + apply historyAfter_extends.
    + pose proof (historyAfter_app (firstn k toolTurns) 0 start
                    (skipn k toolTurns)) as Happ.
      rewrite firstn_skipn in Happ. rewrite Happ.
      destruct (historyAfter_extends (skipn k toolTurns)
                  (0 + length (firstn k toolTurns))
                  (historyAfter 0 start (firstn k toolTurns)))
        as (later & -> & _).
      now exists later.
Qed.

(** X27.  Every answered query is recorded once.  Run with a usage tracker
    that has seen [calls], the agent loop leaves the tracker that has seen
    [calls] followed by one Stage-1 call of the member's model per answer
    received, in order, with the usage that answer reported; a query that
    failed records nothing.  Without a tracker nothing is recorded. *)
Theorem runAgentLoop_records_every_answer :
  forall (initialMessages : list ChatMessage.t) (maxTurns : nat)
         (sessionId : string) (started : Z) (calls : list Call),
    let run := runAgentLoop ALL_TOOLS queryModel execute modelId
                 initialMessages maxTurns
                 (Some (replay sessionId started calls)) in
    let sent := AgentRun.queries run in
    AgentRun.usageTracker
      (runAgentLoop ALL_TOOLS queryModel execute modelId initialMessages
         maxTurns None) = None /\
    exists answers : list ModelResponse.t,
      AgentRun.usageTracker run
      = Some (replay sessionId started (calls ++ recorded modelId answers)) /\
      (forall k r, nth_error answers k = Some r ->
         exists conversation,
           nth_error sent k = Some conversation /\
           queryModel k conversation = Returned r) /\
      length answers <= length sent <= S (length answers) /\
      match AgentRun.outcome run with
      | Returned r =>
          length answers = length sent /\
          exists before, answers = before ++ [r]
      | Threw message =>
          length answers = length sent \/
          exists before conversation,
            sent = before ++ [conversation] /\
            length answers = length before /\
            queryModel (length before) conversation = Threw message
      end.
Proof.
  intros initialMessages maxTurns sessionId started calls run sent.
  split.
  { unfold runAgentLoop. destruct (scaffolded initialMessages) as [start|];
      [|reflexivity].
    destruct (turns_spec maxTurns 0 start None []) as (t & _ & _ & _ & Hout).
    cbv zeta in Hout. destruct (AgentRun.outcome _).
    - now destruct Hout as (_ & _ & _ & _ & ->).
    - now destruct Hout as (-> & _). }
  unfold sent, run, runAgentLoop.
  destruct (scaffolded initialMessages) as [start|] eqn:Es.
  2: { exists []. cbn. unfold recorded. cbn. rewrite app_nil_r.
       split; [reflexivity|]. split; [intros [|k] r H; discriminate|].
       split; [lia | now left]. }
  destruct (turns_spec maxTurns 0 start
              (Some (replay sessionId started calls)) [])
    as (toolTurns & Hlen & Hans & _ & Hout).
  cbv zeta in Hout. cbn [app Nat.add option_map] in Hout.
  assert (forall l, fold_left record l (replay sessionId started calls)
                    = replay sessionId started (calls ++ l)) as Hreplay
    by (intros l; unfold replay; now rewrite fold_left_app).
  destruct (AgentRun.outcome _) as [r|message].
  - destruct Hout as (Hn & Hq & Hr & -> & ->).
    exists (toolTurns ++ [r]). rewrite Hreplay, conversations_length.
    rewrite length_app. cbn [length].
    split; [reflexivity|]. split.
    { intros k r' Hk.
      exists (historyAfter 0 start (firstn k toolTurns)). split.
      - unfold conversations.
        assert (k < S (length toolTurns)) as Hlt.
        { assert (k < length (toolTurns ++ [r])) as H'
            by (apply nth_error_Some; now rewrite Hk).
          rewrite length_app in H'. cbn in H'. lia. }
        rewrite (nth_error_nth' _ []) by (now rewrite length_map, length_seq).
        f_equal.
        rewrite (nth_indep _ [] (historyAfter 0 start (firstn 0 toolTurns)))
          by (now rewrite length_map, length_seq).
        rewrite (map_nth (fun k => historyAfter 0 start (firstn k toolTurns))).
        now rewrite seq_nth.
      - destruct (Nat.lt_ge_cases k (length toolTurns)) as [Hlt|Hge].
        + rewrite nth_error_app1 in Hk by exact Hlt.
          apply (Hans k r' Hk).
        + rewrite nth_error_app2 in Hk by exact Hge.
          destruct (k - length toolTurns) as [|d] eqn:Ed;
            [|destruct d; discriminate].
          injection Hk as <-.
          assert (k = length toolTurns) as -> by lia.
          now rewrite firstn_all. }
    split; [lia|]. split; [lia | now exists toolTurns].
  - destruct Hout as (-> & Hcase).
    exists toolTurns. rewrite Hreplay. split; [reflexivity|].
    assert (forall n, length toolTurns <= n ->
              forall k r, nth_error toolTurns k = Some r ->
              exists conversation,
                nth_error (conversations 0 start toolTurns n) k
                = Some conversation /\
                queryModel k conversation = Returned r) as Hsent.
    { intros n Hle k r' Hk.
      assert (k < length toolTurns) as Hlt
        by (apply nth_error_Some; now rewrite Hk).
      exists (historyAfter 0 start (firstn k toolTurns)). split.
      - unfold conversations.
        rewrite (nth_error_nth' _ [])
          by (rewrite length_map, length_seq; lia).
        f_equal.
        rewrite (nth_indep _ [] (historyAfter 0 start (firstn 0 toolTurns)))
          by (rewrite length_map, length_seq; lia).
        rewrite (map_nth (fun k => historyAfter 0 start (firstn k toolTurns))).
        rewrite seq_nth by lia. reflexivity.
      - apply (Hans k r' Hk). }
    destruct Hcase as [(Hn & Hq & ->) | (Hn & Hm & ->)];
      rewrite conversations_length.
    + split; [apply Hsent; lia|]. split; [lia|]. right.
      rewrite conversations_S. eexists _, _. split; [reflexivity|].
      rewrite conversations_length. auto.
    + split; [apply Hsent; lia|]. split; [lia | now left].
Qed.

End Facts.
End AgentLoopFacts.
